(* ===== verification/_CoqProject ===== *)
-Q . S2P
Prelude.v
RecordUpd.v
Pkt.v
CLib.v
DeviceId.v
FreqPlan.v
PidFilter.v
Psip.v
ChannelDb.v
PsipTest.v
Config.v
Stats.v
Ring.v
Tuner.v
Sys.v
Life.v
Own.v
Rules.v
Frontend.v
Exec.v
Sched.v
Stream.v
StreamPids.v
TunerOps.v
Liveness.v
Scan.v
Push.v
ControlText.v
Calibrate.v
Control.v
ControlSets.v
GetsetClient.v
Discovery.v
WebUi.v
Http.v
Delivery.v
Daemon.v
Joins.v
Contract.v
