(* ===== verification/Prelude.v ===== *)
(** * The hdhr-emu daemon, modelled and verified

    hdhr-emu makes DVB/ATSC tuner cards look like a networked HDHomeRun: it
    answers UDP discovery, speaks the HDHomeRun control protocol over TCP,
    serves lineups and streams over HTTP, pushes streams over UDP, and scans for
    channels.  This library models the C code under src/src/ function by
    function and proves what makes it correct.

    ** The program and its model

    Data and pure code:
    - [Pkt]: hdhr_pkt.c, the wire format (CRC-32, TLVs, frames);
    - [CLib]: the C library functions the code relies on (number printing and
      scanning, snprintf, strstr, fgets) on C strings;
    - [DeviceId]: device_id.c; [FreqPlan]: atsc_freq.c, channel_map.c;
      [PidFilter]: pid_filter.c; [Psip]: psip.c, the table parsers;
    - [ChannelDb]: dvb_channel.c, the channel table and its cache file;
    - [Config]: config.c; [Stats]: the arithmetic of dvb_frontend.c in IEEE
      doubles; [ControlText]: paths, values and texts of control.c.

    State and threads:
    - [Ring]: [struct dvb_stream] and the sections of dvb_stream.c;
    - [Tuner]: [struct hdhr_tuner] (tuner.h) and the sections of tuner.c;
    - [Sys]: the shared [world] (tuners, channel table, streams, the kernel's
      open descriptors, files), programs as trees of operations, and the
      interleaving [step] of all threads;
    - [Life]: the life cycles of tuners and streams and the growth of the channel
      table, as relations between one state and the next;
    - [Frontend] (dvb_frontend.c), [Stream] (dvb_stream.c), [TunerOps]
      (tuner.c), [Scan] (mpeg_section.c, dvb_scan.c), [Push] (udp_stream.c,
      keepalive.c), [Control] (control.c), [GetsetClient] (getset_client.c),
      [Discovery] (discovery.c), [WebUi] (web_ui.c), [Http] (http_server.c),
      [Daemon] (main.c): the functions as programs over those sections;
    - [Calibrate] (tools/calibrate_stats.c) and [PsipTest] (test/psip_test.c):
      the programs beside the daemon;
    - [Exec] and [Sched] run programs: one thread undisturbed, or the whole pool
      under a given schedule.

    How the parts interact.  A control connection or an HTTP request claims a
    tuner ([TunerOps]), opens a stream on it ([Stream], which starts a capture
    and a statistics thread), and releases it, which closes the stream and
    parks or holds its frontend.  A channel SET starts a scan worker with a
    queue ([Control]) that tunes, reads the tables ([Scan], [Psip]) and adds to
    the channel table ([ChannelDb]).  The web interface is a client of the
    control protocol.  [Daemon.main] is the command line and the configuration,
    [Daemon.main_thread] what main does afterwards, [Daemon.body] what every other
    thread runs.

    Correspondence.  A C struct is a Record with the same fields (a char array
    is the string it holds); a function is a Definition or Fixpoint of its name.  A
    piece of code between lock and unlock is a pure function on the struct, its
    name ending in [_section], and one atomic operation of a program; calls of
    the kernel and waits are queries with arbitrary answers.  [tuner_sect],
    [stream_sect] and [db_sect] lift a section to the shared world.  Integers
    are Z with the wrap-around of their width written out ([u8], [u16], [u32],
    [CLib.i32]).  Ghost fields of a stream ([opened], [opened_on]) record what
    the ownership argument needs; no code reads them.

    ** Groups of theorems

    - [Daemon]: [main] starts with a well-formed configuration, or prints an id
      that can be configured ([main_starts]).  From every such start, over every
      interleaving of every thread, no fault is reachable
      ([daemon_safe]: freed streams, descriptors closed twice or used closed,
      threads joined twice, reads past a reply buffer) and undefined behaviour only
      in two known places (see below), the shared state stays well formed and every
      resource has one owner ([daemon_invariant]), and what has been served leaves
      nothing behind ([daemon_no_leak]).  [Contract]: every step of every thread
      moves the tuners and streams along their life cycles ([life_cycles]), and
      pointers into the channel table stay good ([table_pointers_stable]).  They
      rest on the ownership logic of [Own] and [Rules]: tokens for descriptors,
      claims, streams and joins, a weakest precondition for programs, and one lemma
      [wp_f] per function [f].
    - [Delivery]: the threads of one stream together, in every interleaving: the
      client gets the bytes of the device in order, none lost or repeated, a
      bounded number behind ([broadcast_delivered]); a push sends them in whole
      datagrams ([datagrams_whole]).
    - [Liveness]: a thread asked to stop ends within a fixed number of its own
      operations; [Joins]: a background thread that is joined has been asked to,
      and has been signalled if it sleeps, so that these joins return (main also
      waits for its servers, which nobody asks to stop); [Frontend]: waiting for
      lock ends by its timeout; [Scan]: reading a channel table ends within its
      bound.
    - Round trips and refinements: packets and frames ([Pkt], [GetsetClient],
      [Discovery]), tables ([Psip]), filter texts ([PidFilter]), the channel
      cache ([ChannelDb]), statuses read back by the web interface ([WebUi]); the
      stream ring and the pending queue refine bounded FIFOs ([Ring], [Tuner]).
    - Functional: PID selection ([StreamPids]), lineups ([Http]), keepalives
      ([Push]), discovery answers ([Discovery]), channel values ([ControlText]), settings that read
      back as they were set ([ControlSets]), collecting the sections of a table
      ([Scan]), the calibration tool's summary ([Calibrate]).  These are about
      undisturbed runs ([Exec]).
    - Bounds and errors: the parsers stay in bounds ([Psip]), loaded
      configurations are well formed ([Config]), a refused setting changes
      nothing ([ControlSets]), corrupted frames and ids are
      rejected ([Pkt], [DeviceId]), percentages stay in range ([Stats]), the web
      interface stays within its root and its buffers ([WebUi]).

    ** Fuel

    A loop that the code bounds (parsers, number scanning, reads into a fixed
    buffer) has the bound as its fuel, and a theorem or lemma that it is never
    exhausted ([Psip.parsers_in_bounds], [Pkt.PktFacts.read_loop_refines],
    [GetsetClient.read_frame_reassembles]).  A server loop or a wait without a
    bound takes the [fuel] of its thread; running out is [Spin], a thread never
    scheduled again.  The safety theorems hold for every fuel, so for every finite
    execution; the termination and liveness theorems state a fuel that is enough.

    ** What is not modelled

    - The DVB kernel drivers, the network and the clock: answers of queries.
      Opening a frontend node that is open fails (the kernel's exclusivity).
    - The atomicity of sections is the mutexes'; the few fields the code reads
      without the lock ([closing] in the capture loop, [udp_push_active] in the
      wait of [udp_push_stop]) are read in a section of their own, and so is the
      channel behind a pointer into the table at each use.
    - Socket options (a time-out is an answer of the query it cuts short),
      signals and log output; [malloc] and [calloc] are taken to succeed.
    - What the C does after undefined behaviour.  There are two places, and the
      thread of the model stops there ([Sys.Undefined]): main joins a server or
      detaches the startup scan whose thread it could not create, an indeterminate
      thread id; and the offset of a JSON text of the web interface leaves its
      buffer.  [daemon_safe] says that these are the only ones and bounds the second
      by what the JSON is made of; [WebUi.stats_json_bounds] says when a statistics
      document fits, [WebUi.stats_json_overflow] that one can overrun.
    - Scheduling of wake-ups.  The two condition variables of a stream count their
      signals, and a capture thread, which closing the stream joins, remembers the
      count at which it went to sleep ([Ring.not_full_wakes], [Sys.NotFull]); when
      a wait returns is up to the environment, as is a return without a signal.
      The condition variables of a tuner are waits with arbitrary answers.
    - Debug traces ([dvb_frontend_set_debug]), web/ (HTML and JavaScript) and
      third_party/. *)
From Stdlib Require Export ZArith Lia Ascii String.
From stdpp Require Export base option list numbers strings gmap.

#[export] Set Default Proof Using "Type".
Declare Scope hdhr_scope.
Delimit Scope hdhr_scope with hdhr.
Open Scope Z_scope.
Open Scope list_scope.

(** ** Fixed-width unsigned integers (wrap-around written out) *)

Definition u8 (x : Z) : Z := x mod 2 ^ 8.
Definition u16 (x : Z) : Z := x mod 2 ^ 16.
Definition u32 (x : Z) : Z := x mod 2 ^ 32.

Definition is_byte (b : Z) : Prop := 0 <= b < 256.
Definition is_u16 (x : Z) : Prop := 0 <= x < 2 ^ 16.
Definition is_u32 (x : Z) : Prop := 0 <= x < 2 ^ 32.

#[export] Instance is_byte_dec b : Decision (is_byte b).
Proof. unfold is_byte. apply _. Defined.
#[export] Instance is_u16_dec b : Decision (is_u16 b).
Proof. unfold is_u16. apply _. Defined.
#[export] Instance is_u32_dec b : Decision (is_u32 b).
Proof. unfold is_u32. apply _. Defined.

Abbreviation bytes := (list Z).
Abbreviation bytes_ok := (Forall is_byte).

Create HintDb hdhr.

Lemma u8_byte x : is_byte (u8 x).
Proof. unfold u8, is_byte. apply Z.mod_pos_bound. lia. Qed.

Lemma u16_range x : is_u16 (u16 x).
Proof. unfold u16, is_u16. apply Z.mod_pos_bound. lia. Qed.

Lemma u32_range x : is_u32 (u32 x).
Proof. unfold u32, is_u32. apply Z.mod_pos_bound. lia. Qed.

Lemma u8_id x : is_byte x -> u8 x = x.
Proof. unfold u8, is_byte. intros. apply Z.mod_small. lia. Qed.

Lemma u16_id x : is_u16 x -> u16 x = x.
Proof. unfold u16, is_u16. intros. apply Z.mod_small. lia. Qed.

Lemma u32_id x : is_u32 x -> u32 x = x.
Proof. unfold u32, is_u32. intros. apply Z.mod_small. lia. Qed.

#[export] Hint Resolve u8_byte u16_range u32_range : hdhr.

(** A property of bytes that a boolean test decides holds for every byte when
    it holds on the 256 values. *)
Lemma forall_byte (P : Z -> bool) :
  forallb P (seqZ 0 256) = true -> forall b, is_byte b -> P b = true.
Proof.
  intros H b Hb. rewrite forallb_forall in H. apply H.
  apply list_elem_of_In, elem_of_seqZ. unfold is_byte in Hb. lia.
Qed.

(** [or_low] joins a value shifted past [n] bits with an [n]-bit value. *)
Lemma lor_shiftl_low (h l n : Z) :
  0 <= n -> 0 <= l < 2 ^ n -> Z.lor (Z.shiftl h n) l = h * 2 ^ n + l.
Proof.
  intros Hn Hl.
  assert (Z.land (Z.shiftl h n) l = 0) as H0.
  { apply Z.bits_inj'. intros k Hk. rewrite Z.land_spec, Z.bits_0.
    destruct (decide (k < n)).
    - rewrite Z.shiftl_spec_low by lia. done.
    - assert (Z.testbit l k = false) as ->; [|apply andb_false_r].
      destruct (decide (l = 0)) as [->|]; [apply Z.bits_0|].
      apply Z.bits_above_log2; [lia|].
      apply Z.log2_lt_pow2; [lia|].
      eapply Z.lt_le_trans; [apply Hl|]. apply Z.pow_le_mono_r; lia. }
  pose proof (Z.add_lor_land (Z.shiftl h n) l). rewrite H0 in *.
  rewrite Z.shiftl_mul_pow2 in * by lia. lia.
Qed.

Lemma land_ones_mod (x n : Z) : 0 <= n -> Z.land x (2 ^ n - 1) = x mod 2 ^ n.
Proof. intros. rewrite <- Z.land_ones by lia. f_equal. rewrite Z.ones_equiv. lia. Qed.

Lemma shiftr_div (x n : Z) : 0 <= n -> Z.shiftr x n = x / 2 ^ n.
Proof. intros. apply Z.shiftr_div_pow2. done. Qed.

(** ** Lists *)

(** [memcpy(dst + off, src, |src|)] on a list that holds the destination. *)
Definition splice {A} (off : nat) (src dst : list A) : list A :=
  take off dst ++ src ++ drop (off + length src) dst.

Lemma length_splice {A} off (src dst : list A) :
  (off + length src <= length dst)%nat -> length (splice off src dst) = length dst.
Proof.
  intros. unfold splice. rewrite !length_app, length_take, length_drop. lia.
Qed.

Lemma take_splice {A} off (src dst : list A) :
  (off <= length dst)%nat -> take off (splice off src dst) = take off dst.
Proof.
  intros. unfold splice. rewrite take_app_le by (rewrite length_take; lia).
  rewrite take_take. f_equal. lia.
Qed.

Lemma splice_at {A} off (src dst : list A) n :
  (off + length src <= length dst)%nat -> n = length src ->
  take n (drop off (splice off src dst)) = src.
Proof.
  intros H ->. unfold splice.
  rewrite drop_app_ge by (rewrite length_take; lia).
  rewrite length_take, Nat.min_l by lia.
  replace (off - off)%nat with 0%nat by lia. rewrite drop_0.
  rewrite take_app_le by lia. apply take_ge. lia.
Qed.

(** Taking one contiguous range more. *)
Lemma take_drop_add {A} (l : list A) a n m :
  take (n + m) (drop a l) = take n (drop a l) ++ take m (drop (a + n) l).
Proof. rewrite <- drop_drop. symmetry. apply take_take_drop. Qed.

Lemma Forall_take_drop {A} (P : A -> Prop) l a n :
  Forall P l -> Forall P (take n (drop a l)).
Proof. intros. by apply Forall_take, Forall_drop. Qed.

(** ** Tactics *)

(** Splits boolean conditions in hypotheses into propositions over [Z]. *)
Ltac zb :=
  repeat match goal with
  | H : (_ && _)%bool = true |- _ => apply andb_true_iff in H as [??]
  | H : (_ || _)%bool = false |- _ => apply orb_false_iff in H as [??]
  | H : negb _ = true |- _ => apply negb_true_iff in H
  | H : negb _ = false |- _ => apply negb_false_iff in H
  | H : (_ =? _) = true |- _ => apply Z.eqb_eq in H
  | H : (_ =? _) = false |- _ => apply Z.eqb_neq in H
  | H : (_ <? _) = true |- _ => apply Z.ltb_lt in H
  | H : (_ <? _) = false |- _ => apply Z.ltb_ge in H
  | H : (_ <=? _) = true |- _ => apply Z.leb_le in H
  | H : (_ <=? _) = false |- _ => apply Z.leb_gt in H
  end.

(** Destructs the scrutinee of a match or an if of the goal, keeping the
    equation. *)
Ltac case_scrut :=
  match goal with
  | |- context [match ?e with _ => _ end] =>
      lazymatch e with
      | context [match _ with _ => _ end] => fail
      | _ => destruct e eqn:?
      end
  end.

(** Destructs the first computation bound in the goal; the [None] case must be
    immediate. *)
Ltac case_bind :=
  match goal with
  | |- context [?e ≫= _] => destruct e eqn:?; cbn [mbind option_bind]; [|done]
  end.
