(* ===== verification/RecordUpd.v ===== *)
(** Functional update of record fields.

    [r <| field := v |>] is [r] with one field replaced, the translation of an
    assignment [p->field = v]; [r <| field ::= g |>] applies [g] to the field.
    A record type gives an [Eta] instance (the record rebuilt from its
    projections), and the updates of all its fields follow. *)
From S2P Require Import Prelude.

Class Eta (R : Type) := eta : R -> R.
Class Upd {R T : Type} (proj : R -> T) := upd : (T -> T) -> R -> R.

Ltac solve_upd :=
  match goal with
  | |- @Upd ?R ?T ?proj =>
      exact (fun (g : T -> T) (r : R) => ltac:(
        let e := eval cbv beta delta [eta] in (@eta R _ r) in
        let e := lazymatch e with ?i r => eval cbv beta delta [i] in (i r) | _ => e end in
        match e with context C [proj r] => let e' := context C [g (proj r)] in exact e' end))
  end.
#[export] Hint Extern 1 (@Upd _ _ _) => solve_upd : typeclass_instances.

Declare Scope upd_scope.
Delimit Scope upd_scope with upd.
Notation "r <| f := v |>" := (@upd _ _ f _ (fun _ => v) r)
  (at level 1, left associativity, f at next level, v at level 200) : upd_scope.
Notation "r <| f ::= g |>" := (@upd _ _ f _ g r)
  (at level 1, left associativity, f at next level, g at level 200) : upd_scope.
Open Scope upd_scope.
Arguments upd : simpl nomatch.

(** Computes the projections of updated records, one update at a time. *)
Ltac upd_simpl :=
  repeat match goal with
  | |- context [?f (@upd ?R ?T ?g ?i ?h ?r)] =>
      first [ change (f (@upd R T g i h r)) with (h (f r)); cbv beta
            | change (f (@upd R T g i h r)) with (f r) ]
  end.
Ltac upd_simpl_in H :=
  repeat match type of H with
  | context [?f (@upd ?R ?T ?g ?i ?h ?r)] =>
      first [ change (f (@upd R T g i h r)) with (h (f r)) in H; cbv beta in H
            | change (f (@upd R T g i h r)) with (f r) in H ]
  end.
