(* ===== verification/Pkt.v ===== *)
(** Wire format core: src/src/hdhr_pkt.c and hdhr_pkt.h.

    [Crc] is the checksum (table-driven, as the code computes it); [Pkt] is the
    packet buffer with its write and read cursors, the TLV writers, sealing,
    opening and the TLV reader.  The buffer is the C array: a list of exactly
    [HDHR_PKT_BUFFER_SIZE] bytes, and the pointers are offsets into it.  A
    write past the array is undefined behaviour in C; [hdhr_pkt_seal_frame]
    returns [None] there. *)
From S2P Require Import Prelude.

Module Crc.

(** One shift of the reflected register: the body of the inner loop of
    [crc32_table_init]. *)
Definition POLY : Z := 0xEDB88320.

Definition crc_shift (c : Z) : Z :=
  if Z.eqb (Z.land c 1) 0 then Z.shiftr c 1 else Z.lxor POLY (Z.shiftr c 1).

Definition crc32_table_init : list Z :=
  map (fun i => Nat.iter 8 crc_shift i) (seqZ 0 256).

Definition crc32_table : list Z := Eval vm_compute in crc32_table_init.

Definition crc_update (crc b : Z) : Z :=
  Z.lxor (nth (Z.to_nat (Z.land (Z.lxor crc b) 0xFF)) crc32_table 0) (Z.shiftr crc 8).

Definition hdhr_crc32 (data : bytes) : Z :=
  Z.lxor (fold_left crc_update data 0xFFFFFFFF) 0xFFFFFFFF.

(** Reference: the checksum computed bit by bit, without a table. *)
Definition crc_byte_ref (crc b : Z) : Z := Nat.iter 8 crc_shift (Z.lxor crc b).
Definition crc32_ref (data : bytes) : Z :=
  Z.lxor (fold_left crc_byte_ref data 0xFFFFFFFF) 0xFFFFFFFF.

Example crc_check : hdhr_crc32 [0x31;0x32;0x33;0x34;0x35;0x36;0x37;0x38;0x39] = 0xCBF43926.
Proof. vm_compute. reflexivity. Qed.

Lemma crc32_table_eq : crc32_table = crc32_table_init.
Proof. vm_compute. reflexivity. Qed.

(** *** The register shift is linear and injective *)

Lemma crc_shift_alt c :
  crc_shift c = Z.lxor (if Z.testbit c 0 then POLY else 0) (Z.shiftr c 1).
Proof.
  unfold crc_shift. change (Z.land c 1) with (Z.land c (Z.ones 1)).
  rewrite Z.land_ones, Z.bit0_eqb by lia. change (2 ^ 1) with 2.
  pose proof (Z.mod_pos_bound c 2 ltac:(lia)).
  destruct (Z.eqb_spec (c mod 2) 0) as [->|]; [by rewrite Z.lxor_0_l|].
  by replace (c mod 2) with 1 by lia.
Qed.

Lemma crc_shift_lxor a b : crc_shift (Z.lxor a b) = Z.lxor (crc_shift a) (crc_shift b).
Proof.
  rewrite !crc_shift_alt, Z.lxor_spec, Z.shiftr_lxor.
  apply Z.bits_inj'. intros k Hk. rewrite !Z.lxor_spec.
  destruct (Z.testbit a 0), (Z.testbit b 0); simpl; rewrite ?Z.bits_0;
    destruct (Z.testbit POLY k), (Z.testbit (Z.shiftr a 1) k),
      (Z.testbit (Z.shiftr b 1) k); done.
Qed.

Lemma crc_iter_lxor n a b :
  Nat.iter n crc_shift (Z.lxor a b) = Z.lxor (Nat.iter n crc_shift a) (Nat.iter n crc_shift b).
Proof. induction n as [|n IH]; simpl; [done|]. by rewrite IH, crc_shift_lxor. Qed.

Lemma crc_iter_low n a :
  0 <= a -> Nat.iter n crc_shift (Z.shiftl a (Z.of_nat n)) = a.
Proof.
  intros Ha. induction n as [|n IH]; [apply Z.shiftl_0_r|].
  rewrite Nat.iter_succ_r.
  assert (crc_shift (Z.shiftl a (Z.of_nat (S n))) = Z.shiftl a (Z.of_nat n)) as ->; [|done].
  rewrite crc_shift_alt, Z.shiftl_spec_low by lia. rewrite Z.lxor_0_l.
  rewrite Z.shiftr_shiftl_l by lia. f_equal. lia.
Qed.

Lemma testbit_u32 c k : is_u32 c -> 32 <= k -> Z.testbit c k = false.
Proof.
  unfold is_u32. intros Hc Hk. destruct (decide (c = 0)) as [->|]; [apply Z.bits_0|].
  apply Z.bits_above_log2; [lia|]. apply Z.log2_lt_pow2; [lia|].
  eapply Z.lt_le_trans; [apply Hc|]. apply Z.pow_le_mono_r; lia.
Qed.

Lemma u32_of_bits c : 0 <= c -> (forall k, 32 <= k -> Z.testbit c k = false) -> is_u32 c.
Proof.
  intros Hc H. split; [done|]. destruct (decide (c = 0)) as [->|]; [lia|].
  apply Z.log2_lt_pow2; [lia|]. destruct (decide (Z.log2 c < 32)); [done|].
  pose proof (Z.bit_log2 c ltac:(lia)) as Hb. rewrite H in Hb by lia. done.
Qed.

Lemma u32_lxor a b : is_u32 a -> is_u32 b -> is_u32 (Z.lxor a b).
Proof.
  intros Ha Hb. apply u32_of_bits.
  - apply Z.lxor_nonneg. unfold is_u32 in *. lia.
  - intros k Hk. rewrite Z.lxor_spec, !testbit_u32 by done. done.
Qed.

Lemma u32_shiftr a n : 0 <= n -> is_u32 a -> is_u32 (Z.shiftr a n).
Proof.
  intros Hn Ha. apply u32_of_bits.
  - apply Z.shiftr_nonneg. unfold is_u32 in *. lia.
  - intros k Hk. rewrite Z.shiftr_spec by lia. apply testbit_u32; [done|lia].
Qed.

Lemma u32_byte b : is_byte b -> is_u32 b.
Proof. unfold is_byte, is_u32. lia. Qed.

Lemma POLY_u32 : is_u32 POLY.
Proof. done. Qed.

Lemma crc_shift_u32 c : is_u32 c -> is_u32 (crc_shift c).
Proof.
  intros. rewrite crc_shift_alt. apply u32_lxor; [|by apply u32_shiftr].
  destruct (Z.testbit c 0); done.
Qed.

(** Bit 31 of the polynomial is set, so the top bit of the new register says
    whether the old one was odd. *)
Lemma crc_shift_inj a b : is_u32 a -> is_u32 b -> crc_shift a = crc_shift b -> a = b.
Proof.
  intros Ha Hb H. rewrite !crc_shift_alt in H.
  assert (Z.testbit a 0 = Z.testbit b 0) as H0.
  { apply (f_equal (fun z => Z.testbit z 31)) in H. rewrite !Z.lxor_spec in H.
    rewrite !Z.shiftr_spec in H by lia.
    rewrite (testbit_u32 a (31 + 1)), (testbit_u32 b (31 + 1)) in H by (done || lia).
    by destruct (Z.testbit a 0), (Z.testbit b 0). }
  rewrite H0 in H.
  apply (f_equal (Z.lxor (if Z.testbit b 0 then POLY else 0))) in H.
  rewrite <- !Z.lxor_assoc, Z.lxor_nilpotent, !Z.lxor_0_l in H.
  apply Z.bits_inj'. intros k Hk. destruct (decide (k = 0)) as [->|]; [done|].
  apply (f_equal (fun z => Z.testbit z (k - 1))) in H.
  rewrite !Z.shiftr_spec in H by lia. by replace (k - 1 + 1) with k in H by lia.
Qed.

Lemma crc_iter_u32 n c : is_u32 c -> is_u32 (Nat.iter n crc_shift c).
Proof. intros. induction n; simpl; [done|]. by apply crc_shift_u32. Qed.

Lemma crc_iter_inj n a b :
  is_u32 a -> is_u32 b -> Nat.iter n crc_shift a = Nat.iter n crc_shift b -> a = b.
Proof.
  induction n as [|n IH]; simpl; intros Ha Hb H; [done|].
  apply IH; try done. by apply crc_shift_inj in H; try apply crc_iter_u32.
Qed.

(** *** The table step is eight shifts *)

Lemma crc_table_nth i : is_byte i -> nth (Z.to_nat i) crc32_table 0 = Nat.iter 8 crc_shift i.
Proof.
  intros Hi. apply Z.eqb_eq. revert i Hi. apply forall_byte. vm_compute. reflexivity.
Qed.

Lemma split_low_byte x : 0 <= x -> x = Z.lxor (Z.shiftl (Z.shiftr x 8) 8) (Z.land x 0xFF).
Proof.
  intros. apply Z.bits_inj'. intros k Hk.
  change 0xFF with (Z.ones 8). rewrite Z.lxor_spec, Z.land_spec, Z.testbit_ones_nonneg by lia.
  destruct (Z.ltb_spec k 8).
  - by rewrite Z.shiftl_spec_low, andb_true_r, xorb_false_l by lia.
  - rewrite Z.shiftl_spec, Z.shiftr_spec by lia. rewrite andb_false_r, xorb_false_r.
    f_equal. lia.
Qed.

Lemma crc_update_ref c b : is_u32 c -> is_byte b -> crc_update c b = crc_byte_ref c b.
Proof.
  intros Hc Hb. unfold crc_update, crc_byte_ref.
  assert (is_u32 (Z.lxor c b)) as Hx by (apply u32_lxor; [done|by apply u32_byte]).
  assert (is_byte (Z.land (Z.lxor c b) 0xFF)) as Hl.
  { change 0xFF with (Z.ones 8). rewrite Z.land_ones by lia. apply Z.mod_pos_bound. lia. }
  rewrite crc_table_nth by done.
  rewrite (split_low_byte (Z.lxor c b)) at 2 by (unfold is_u32 in *; lia).
  rewrite crc_iter_lxor.
  pose proof (crc_iter_low 8 (Z.shiftr (Z.lxor c b) 8)) as L.
  change (Z.of_nat 8) with 8 in L.
  rewrite L by (apply Z.shiftr_nonneg; unfold is_u32 in *; lia).
  rewrite Z.lxor_comm. f_equal.
  rewrite Z.shiftr_lxor, (Z.shiftr_div_pow2 b) by lia.
  unfold is_byte in Hb. rewrite (Z.div_small b) by (change (2 ^ 8) with 256; lia).
  by rewrite Z.lxor_0_r.
Qed.

Lemma crc_byte_ref_u32 c b : is_u32 c -> is_byte b -> is_u32 (crc_byte_ref c b).
Proof. intros. apply crc_iter_u32, u32_lxor; [done|by apply u32_byte]. Qed.

Lemma crc_fold_ref data c :
  is_u32 c -> bytes_ok data -> fold_left crc_update data c = fold_left crc_byte_ref data c.
Proof.
  intros Hc Hd. revert c Hc. induction Hd as [|b data Hb _ IH]; intros c Hc; simpl; [done|].
  rewrite crc_update_ref by done. apply IH. by apply crc_byte_ref_u32.
Qed.

Lemma crc_fold_u32 data c : is_u32 c -> bytes_ok data -> is_u32 (fold_left crc_byte_ref data c).
Proof.
  intros Hc Hd. revert c Hc. induction Hd as [|b data Hb _ IH]; intros c Hc; simpl; [done|].
  apply IH. by apply crc_byte_ref_u32.
Qed.

Lemma crc_fold_inj data a b :
  is_u32 a -> is_u32 b -> bytes_ok data ->
  fold_left crc_byte_ref data a = fold_left crc_byte_ref data b -> a = b.
Proof.
  intros Ha Hb Hd. revert a b Ha Hb.
  induction Hd as [|x data Hx _ IH]; intros a b Ha Hb H; simpl in H; [done|].
  apply IH in H; [|by apply crc_byte_ref_u32..].
  apply crc_iter_inj in H; [|by apply u32_lxor; [|apply u32_byte]..].
  apply (f_equal (fun z => Z.lxor z x)) in H.
  by rewrite !Z.lxor_assoc, Z.lxor_nilpotent, !Z.lxor_0_r in H.
Qed.

Lemma crc32_u32 data : bytes_ok data -> is_u32 (hdhr_crc32 data).
Proof.
  intros. unfold hdhr_crc32. rewrite crc_fold_ref by done.
  apply u32_lxor; [by apply crc_fold_u32|done].
Qed.

(** Changing one byte of the data changes the checksum. *)
Lemma crc32_byte_change pre b b' suf :
  bytes_ok pre -> bytes_ok suf -> is_byte b -> is_byte b' -> b <> b' ->
  hdhr_crc32 (pre ++ b :: suf) <> hdhr_crc32 (pre ++ b' :: suf).
Proof.
  intros Hp Hs Hb Hb' Hne H. unfold hdhr_crc32 in H.
  rewrite !crc_fold_ref in H by (done || (apply Forall_app; auto)).
  apply (f_equal (fun z => Z.lxor z 0xFFFFFFFF)) in H.
  rewrite !Z.lxor_assoc, Z.lxor_nilpotent, !Z.lxor_0_r in H.
  rewrite !fold_left_app in H. simpl in H.
  assert (is_u32 (fold_left crc_byte_ref pre 4294967295)) as Hc by (by apply crc_fold_u32).
  apply crc_fold_inj in H; [|by apply crc_byte_ref_u32..|done].
  apply crc_iter_inj in H; [|by apply u32_lxor; [|apply u32_byte]..].
  apply (f_equal (Z.lxor (fold_left crc_byte_ref pre 4294967295))) in H.
  rewrite <- !Z.lxor_assoc, Z.lxor_nilpotent, !Z.lxor_0_l in H. done.
Qed.

(** Claim C13: the table-driven checksum is the bitwise reflected CRC-32 of the
    wire format, for every byte string. *)
Theorem crc32_table_correct (data : bytes) :
  bytes_ok data -> hdhr_crc32 data = crc32_ref data.
Proof. intros. unfold hdhr_crc32, crc32_ref. by rewrite crc_fold_ref. Qed.

End Crc.

Module Pkt.

Definition HDHR_DISCOVER_UDP_PORT : Z := 65001.
Definition HDHR_CONTROL_TCP_PORT : Z := 65001.
Definition HDHR_MAX_PACKET_SIZE : nat := 1460.
Definition HDHR_PKT_BUFFER_SIZE : nat := 3074.

Definition HDHR_TYPE_DISCOVER_REQ : Z := 0x0002.
Definition HDHR_TYPE_DISCOVER_RPY : Z := 0x0003.
Definition HDHR_TYPE_GETSET_REQ : Z := 0x0004.
Definition HDHR_TYPE_GETSET_RPY : Z := 0x0005.

Definition HDHR_TAG_DEVICE_TYPE : Z := 0x01.
Definition HDHR_TAG_DEVICE_ID : Z := 0x02.
Definition HDHR_TAG_GETSET_NAME : Z := 0x03.
Definition HDHR_TAG_GETSET_VALUE : Z := 0x04.
Definition HDHR_TAG_ERROR_MESSAGE : Z := 0x05.
Definition HDHR_TAG_TUNER_COUNT : Z := 0x10.
Definition HDHR_TAG_LINEUP_URL : Z := 0x27.
Definition HDHR_TAG_BASE_URL : Z := 0x2A.

Definition HDHR_DEVICE_TYPE_WILDCARD : Z := 0xFFFFFFFF.
Definition HDHR_DEVICE_TYPE_TUNER : Z := 0x00000001.
Definition HDHR_DEVICE_ID_WILDCARD : Z := 0xFFFFFFFF.

(** The pointers of the struct are offsets into [buffer]. *)
Record hdhr_pkt := mk_pkt {
  buffer : bytes;
  start : nat;
  pos : nat;
  end_ : nat;
  limit : nat
}.

Definition hdhr_pkt_init : hdhr_pkt :=
  mk_pkt (replicate HDHR_PKT_BUFFER_SIZE 0) 0 0 0 HDHR_PKT_BUFFER_SIZE.

Definition hdhr_pkt_start_frame : hdhr_pkt :=
  let p := hdhr_pkt_init in mk_pkt (buffer p) (start p) 4 4 (limit p).

Definition hdhr_pkt_write_u8 (p : hdhr_pkt) (v : Z) : hdhr_pkt :=
  if (limit p <=? pos p)%nat then p
  else mk_pkt (<[pos p := v]> (buffer p)) (start p) (S (pos p)) (S (pos p)) (limit p).

Definition hdhr_pkt_write_u32 (p : hdhr_pkt) (v : Z) : hdhr_pkt :=
  let p := hdhr_pkt_write_u8 p (u8 (Z.shiftr v 24)) in
  let p := hdhr_pkt_write_u8 p (u8 (Z.shiftr v 16)) in
  let p := hdhr_pkt_write_u8 p (u8 (Z.shiftr v 8)) in
  hdhr_pkt_write_u8 p (u8 v).

Definition hdhr_pkt_write_var_length (p : hdhr_pkt) (len : nat) : hdhr_pkt :=
  if (len <=? 127)%nat then hdhr_pkt_write_u8 p (u8 (Z.of_nat len))
  else
    let p := hdhr_pkt_write_u8 p (u8 (Z.lor (Z.land (Z.of_nat len) 0x7F) 0x80)) in
    hdhr_pkt_write_u8 p (u8 (Z.shiftr (Z.of_nat len) 7)).

Definition hdhr_pkt_write_mem (p : hdhr_pkt) (mem : bytes) : hdhr_pkt :=
  if (limit p <? pos p + length mem)%nat then p
  else mk_pkt (splice (pos p) mem (buffer p)) (start p)
         (pos p + length mem) (pos p + length mem) (limit p).

Definition hdhr_pkt_write_tlv (p : hdhr_pkt) (tag : Z) (mem : bytes) : hdhr_pkt :=
  let p := hdhr_pkt_write_u8 p tag in
  let p := hdhr_pkt_write_var_length p (length mem) in
  hdhr_pkt_write_mem p mem.

Definition be32 (v : Z) : bytes :=
  [u8 (Z.shiftr v 24); u8 (Z.shiftr v 16); u8 (Z.shiftr v 8); u8 v].

Definition hdhr_pkt_write_tlv_u32 (p : hdhr_pkt) (tag v : Z) : hdhr_pkt :=
  hdhr_pkt_write_tlv p tag (be32 v).

(** [str] is the C string's characters; the terminating NUL is sent too. *)
Definition hdhr_pkt_write_tlv_str (p : hdhr_pkt) (tag : Z) (str : bytes) : hdhr_pkt :=
  hdhr_pkt_write_tlv p tag (str ++ [0]).

Definition le32 (v : Z) : bytes :=
  [u8 v; u8 (Z.shiftr v 8); u8 (Z.shiftr v 16); u8 (Z.shiftr v 24)].

(** Returns the sealed length and the packet.  The checksum is stored without
    a bound check: past the array, the result is [None]. *)
Definition hdhr_pkt_seal_frame (p : hdhr_pkt) (frame_type : Z) : option (nat * hdhr_pkt) :=
  let payload_len := (end_ p - 4)%nat in
  let n := Z.of_nat payload_len in
  let hdr := [u8 (Z.shiftr frame_type 8); u8 frame_type; u8 (Z.shiftr n 8); u8 n] in
  let buf := splice 0 hdr (buffer p) in
  let crc := Crc.hdhr_crc32 (take (4 + payload_len) buf) in
  if (HDHR_PKT_BUFFER_SIZE <? 4 + payload_len + 4)%nat then None
  else Some ((4 + payload_len + 4)%nat,
             mk_pkt (splice (4 + payload_len) (le32 crc) buf)
                    (start p) (pos p) (end_ p) (limit p)).

Definition byte_at (l : bytes) (i : nat) : Z := nth i l 0.

Definition hdhr_pkt_open_frame (p : hdhr_pkt) (data : bytes) : option (hdhr_pkt * Z) :=
  let len := length data in
  if (len <? 4 + 4)%nat then None
  else if (HDHR_PKT_BUFFER_SIZE <? len)%nat then None
  else
    let type := Z.lor (Z.shiftl (byte_at data 0) 8) (byte_at data 1) in
    let payload_len := Z.to_nat (Z.lor (Z.shiftl (byte_at data 2) 8) (byte_at data 3)) in
    if negb (4 + payload_len + 4 =? len)%nat then None
    else
      let calc_crc := Crc.hdhr_crc32 (take (4 + payload_len) data) in
      let wire_crc :=
        Z.lor (byte_at data (4 + payload_len))
          (Z.lor (Z.shiftl (byte_at data (4 + payload_len + 1)) 8)
            (Z.lor (Z.shiftl (byte_at data (4 + payload_len + 2)) 16)
                   (Z.shiftl (byte_at data (4 + payload_len + 3)) 24))) in
      if negb (calc_crc =? wire_crc) then None
      else Some (mk_pkt (splice 0 data (buffer p)) 0 4 (4 + payload_len) HDHR_PKT_BUFFER_SIZE,
                 type).

(** Result of one TLV read: clean end (0), malformed (-1), or a TLV (1). *)
Inductive tlv_result :=
  | TlvEnd
  | TlvBad
  | TlvOk (tag : Z) (value : bytes).

Definition advance (p : hdhr_pkt) (n : nat) : hdhr_pkt :=
  mk_pkt (buffer p) (start p) (pos p + n) (end_ p) (limit p).

Definition read_value (p : hdhr_pkt) (tag : Z) (length : nat) : tlv_result * hdhr_pkt :=
  if (end_ p <? pos p + length)%nat then (TlvBad, p)
  else (TlvOk tag (take length (drop (pos p) (buffer p))), advance p length).

Definition hdhr_pkt_read_tlv (p : hdhr_pkt) : tlv_result * hdhr_pkt :=
  if (end_ p <=? pos p)%nat then (TlvEnd, p)
  else if (end_ p <? pos p + 1)%nat then (TlvBad, p)
  else
    let tag := byte_at (buffer p) (pos p) in
    let p := advance p 1 in
    if (end_ p <=? pos p)%nat then (TlvBad, p)
    else
      let b0 := byte_at (buffer p) (pos p) in
      let p := advance p 1 in
      if negb (Z.land b0 0x80 =? 0) then
        if (end_ p <=? pos p)%nat then (TlvBad, p)
        else
          let b1 := byte_at (buffer p) (pos p) in
          let p := advance p 1 in
          read_value p tag (Z.to_nat (Z.lor (Z.land b0 0x7F) (Z.shiftl b1 7)))
      else read_value p tag (Z.to_nat b0).

(** The callers' loop [while ((r = hdhr_pkt_read_tlv(...)) == 1) body]:
    [None] is a loop that has not ended within the fuel. *)
Fixpoint read_tlvs {S} (fuel : nat) (body : S -> Z -> bytes -> S) (s : S) (p : hdhr_pkt)
    : option (S * tlv_result) :=
  match fuel with
  | O => None
  | Datatypes.S fuel =>
      match hdhr_pkt_read_tlv p with
      | (TlvOk tag v, p) => read_tlvs fuel body (body s tag v) p
      | (r, _) => Some (s, r)
      end
  end.

(** Each TLV takes two bytes of the payload at least, so the bytes left are
    fuel enough (see [read_tlvs_total]). *)
Definition tlv_fuel (p : hdhr_pkt) : nat := S (end_ p - pos p).

Definition fold_tlvs {S} (body : S -> Z -> bytes -> S) (s : S) (p : hdhr_pkt)
    : option (S * tlv_result) := read_tlvs (tlv_fuel p) body s p.

End Pkt.

(** ** Writers append to the payload, the reader consumes it *)

Module PktFacts.
Import Crc Pkt.

(** Abstract view of a packet being built: the payload written so far. *)
Definition payload (p : hdhr_pkt) : bytes := take (end_ p - 4) (drop 4 (buffer p)).

Definition writable (p : hdhr_pkt) : Prop :=
  length (buffer p) = HDHR_PKT_BUFFER_SIZE /\ limit p = HDHR_PKT_BUFFER_SIZE /\
  pos p = end_ p /\ (4 <= end_ p <= HDHR_PKT_BUFFER_SIZE)%nat.

Definition var_length_bytes (len : nat) : bytes :=
  if (len <=? 127)%nat then [Z.of_nat len]
  else [128 + Z.of_nat len mod 128; u8 (Z.of_nat len / 128)].

Definition tlv_bytes (tag : Z) (v : bytes) : bytes :=
  tag :: var_length_bytes (length v) ++ v.

Definition frame_body (frame_type : Z) (pl : bytes) : bytes :=
  let n := Z.of_nat (length pl) in
  [u8 (Z.shiftr frame_type 8); u8 frame_type; u8 (Z.shiftr n 8); u8 n] ++ pl.

Definition frame_bytes (frame_type : Z) (pl : bytes) : bytes :=
  frame_body frame_type pl ++ le32 (hdhr_crc32 (frame_body frame_type pl)).

Ltac pkt_lens := unfold HDHR_PKT_BUFFER_SIZE, HDHR_MAX_PACKET_SIZE in *.

Lemma writable_start : writable hdhr_pkt_start_frame.
Proof. repeat split; cbn [hdhr_pkt_start_frame hdhr_pkt_init pos end_]; pkt_lens; lia. Qed.

Lemma payload_start : payload hdhr_pkt_start_frame = [].
Proof. done. Qed.

Lemma payload_length p : writable p -> length (payload p) = (end_ p - 4)%nat.
Proof.
  intros (Hb & _ & _ & ?). unfold payload. rewrite length_take, length_drop, Hb. lia.
Qed.

Lemma write_mem_payload p m :
  writable p -> (end_ p + length m <= HDHR_PKT_BUFFER_SIZE)%nat ->
  let q := hdhr_pkt_write_mem p m in
  writable q /\ payload q = payload p ++ m /\ end_ q = (end_ p + length m)%nat.
Proof.
  intros (Hb & Hl & Hpe & He) Hm. unfold hdhr_pkt_write_mem. rewrite Hl, Hpe.
  rewrite (proj2 (Nat.ltb_ge _ _)) by lia. cbn. split_and!; try done.
  - repeat split; cbn; try lia. rewrite length_splice; lia.
  - unfold payload; cbn. replace (end_ p + length m - 4)%nat with (end_ p - 4 + length m)%nat by lia.
    rewrite take_drop_add. replace (4 + (end_ p - 4))%nat with (end_ p) by lia.
    rewrite splice_at by lia. f_equal.
    rewrite !take_drop_commute. f_equal.
    replace (4 + (end_ p - 4))%nat with (end_ p) by lia. apply take_splice. lia.
Qed.

Lemma write_u8_as_mem p v :
  writable p -> (S (end_ p) <= HDHR_PKT_BUFFER_SIZE)%nat ->
  hdhr_pkt_write_u8 p v = hdhr_pkt_write_mem p [v].
Proof.
  intros (Hb & Hl & Hpe & He) Hm. unfold hdhr_pkt_write_u8, hdhr_pkt_write_mem. simpl.
  rewrite (proj2 (Nat.leb_gt _ _)), (proj2 (Nat.ltb_ge _ _)) by lia.
  f_equal; [|lia..]. unfold splice. simpl.
  rewrite insert_take_drop by lia. do 3 f_equal. lia.
Qed.

Lemma write_u8_payload p v :
  writable p -> (S (end_ p) <= HDHR_PKT_BUFFER_SIZE)%nat ->
  let q := hdhr_pkt_write_u8 p v in
  writable q /\ payload q = payload p ++ [v] /\ end_ q = S (end_ p).
Proof.
  intros Hw Hm. cbn. rewrite write_u8_as_mem by done.
  destruct (write_mem_payload p [v]) as (?&?&He); [done|simpl; lia|].
  split_and!; try done. simpl in He. lia.
Qed.

Lemma var_length_bytes_length len : (length (var_length_bytes len) <= 2)%nat.
Proof. unfold var_length_bytes. destruct (len <=? 127)%nat; simpl; lia. Qed.

Lemma var_length_bytes_ok len : bytes_ok (var_length_bytes len).
Proof.
  pose proof (Z.mod_pos_bound (Z.of_nat len) 128 ltac:(lia)).
  unfold var_length_bytes. destruct (Nat.leb_spec len 127).
  - apply Forall_singleton. unfold is_byte. lia.
  - apply Forall_cons. split; [unfold is_byte; lia|]. apply Forall_singleton, u8_byte.
Qed.

Lemma var_hi len : Z.lor (Z.land (Z.of_nat len) 0x7F) 0x80 = 128 + Z.of_nat len mod 128.
Proof.
  change 0x7F with (Z.ones 7). rewrite Z.land_ones, Z.lor_comm by lia.
  change 0x80 with (Z.shiftl 1 7). rewrite lor_shiftl_low; [done|lia|].
  apply Z.mod_pos_bound. lia.
Qed.

Lemma write_var_length_payload p len :
  writable p -> (end_ p + length (var_length_bytes len) <= HDHR_PKT_BUFFER_SIZE)%nat ->
  let q := hdhr_pkt_write_var_length p len in
  writable q /\ payload q = payload p ++ var_length_bytes len /\
  end_ q = (end_ p + length (var_length_bytes len))%nat.
Proof.
  intros Hw. unfold hdhr_pkt_write_var_length, var_length_bytes.
  destruct (Nat.leb_spec len 127); simpl; intros Hm.
  - rewrite u8_id by (unfold is_byte; lia).
    destruct (write_u8_payload p (Z.of_nat len)) as (?&?&->); [done|lia|].
    split_and!; [done..|lia].
  - rewrite var_hi, u8_id by (unfold is_byte; pose proof (Z.mod_pos_bound (Z.of_nat len) 128); lia).
    rewrite Z.shiftr_div_pow2 by lia. change (2 ^ 7) with 128.
    destruct (write_u8_payload p (128 + Z.of_nat len mod 128)) as (Hw1&Hp1&He1); [done|lia|].
    edestruct (write_u8_payload _ (u8 (Z.of_nat len / 128)) Hw1) as (?&->&->); [lia|].
    rewrite Hp1, <- app_assoc. split_and!; [done..|lia].
Qed.

Lemma write_tlv_payload p tag v :
  writable p -> (end_ p + length (tlv_bytes tag v) <= HDHR_PKT_BUFFER_SIZE)%nat ->
  let q := hdhr_pkt_write_tlv p tag v in
  writable q /\ payload q = payload p ++ tlv_bytes tag v /\
  end_ q = (end_ p + length (tlv_bytes tag v))%nat.
Proof.
  intros Hw. unfold hdhr_pkt_write_tlv, tlv_bytes. simpl. rewrite length_app. intros Hm.
  destruct (write_u8_payload p tag) as (Hw1&Hp1&He1); [done|lia|].
  edestruct (write_var_length_payload _ (length v) Hw1) as (Hw2&Hp2&He2); [lia|].
  edestruct (write_mem_payload _ v Hw2) as (Hw3&->&->); [lia|].
  rewrite Hp2, Hp1, <- !app_assoc. split_and!; [done..|lia].
Qed.

Definition write_tlvs (p : hdhr_pkt) (tlvs : list (Z * bytes)) : hdhr_pkt :=
  fold_left (fun p t => hdhr_pkt_write_tlv p t.1 t.2) tlvs p.

Definition tlvs_bytes (tlvs : list (Z * bytes)) : bytes :=
  concat (map (fun t => tlv_bytes t.1 t.2) tlvs).

Lemma write_tlvs_payload tlvs p :
  writable p -> (end_ p + length (tlvs_bytes tlvs) <= HDHR_PKT_BUFFER_SIZE)%nat ->
  let q := write_tlvs p tlvs in
  writable q /\ payload q = payload p ++ tlvs_bytes tlvs /\
  end_ q = (end_ p + length (tlvs_bytes tlvs))%nat.
Proof.
  revert p. induction tlvs as [|[t v] tlvs IH]; intros p Hw.
  - cbn. intros _. rewrite app_nil_r. split_and!; [done..|lia].
  - unfold write_tlvs, tlvs_bytes. cbn [map concat fold_left fst snd].
    rewrite length_app. intros Hm.
    destruct (write_tlv_payload p t v) as (Hw1&Hp1&He1); [done|lia|].
    fold (tlvs_bytes tlvs) in *. fold (write_tlvs (hdhr_pkt_write_tlv p t v) tlvs).
    edestruct (IH _ Hw1) as (Hw2&Hp2&He2); [lia|]. cbv zeta.
    rewrite Hp2, Hp1, <- app_assoc. split_and!; [done..|lia].
Qed.

Lemma le32_length v : length (le32 v) = 4%nat.
Proof. done. Qed.

Lemma frame_body_length t pl : length (frame_body t pl) = (4 + length pl)%nat.
Proof. done. Qed.

(** Sealing a packet with room for the checksum gives the frame of its payload. *)
Lemma seal_frame_bytes p t :
  writable p -> (end_ p + 4 <= HDHR_PKT_BUFFER_SIZE)%nat ->
  exists q, hdhr_pkt_seal_frame p t = Some ((end_ p + 4)%nat, q) /\
    take (end_ p + 4) (buffer q) = frame_bytes t (payload p).
Proof.
  intros Hw Hm. pose proof Hw as (Hb & Hl & Hpe & He). unfold hdhr_pkt_seal_frame.
  pose proof (payload_length p Hw) as Hpl.
  replace (4 + (end_ p - 4) + 4)%nat with (end_ p + 4)%nat by lia.
  rewrite (proj2 (Nat.ltb_ge _ _)) by lia. eexists. split; [done|]. cbn [buffer].
  replace (4 + (end_ p - 4))%nat with (end_ p) by lia.
  set (hdr := [_; _; _; _]).
  assert (take (end_ p) (splice 0 hdr (buffer p)) = frame_body t (payload p)) as Hbody.
  { unfold frame_body. rewrite Hpl. fold hdr. unfold splice. rewrite take_0.
    change (length hdr) with 4%nat.
    replace (end_ p) with (length hdr + (end_ p - 4))%nat at 1 by (simpl; lia).
    rewrite app_nil_l, take_app_add'; done. }
  rewrite Hbody. unfold frame_bytes.
  unfold splice at 1. rewrite Hbody, app_assoc.
  rewrite take_app_le by (rewrite length_app, frame_body_length, le32_length; lia).
  apply take_ge. rewrite length_app, frame_body_length, le32_length. lia.
Qed.

(** ** The reader against a decoder on lists *)

(** Abstract view of a packet being read: the payload not yet consumed. *)
Definition rest (p : hdhr_pkt) : bytes := take (end_ p - pos p) (drop (pos p) (buffer p)).

Definition readable (p : hdhr_pkt) : Prop := (end_ p <= length (buffer p))%nat.

Definition decode_value (tag : Z) (n : nat) (l : bytes) : tlv_result * bytes :=
  if (length l <? n)%nat then (TlvBad, l) else (TlvOk tag (take n l), drop n l).

Definition decode_tlv (l : bytes) : tlv_result * bytes :=
  match l with
  | [] => (TlvEnd, [])
  | [_] => (TlvBad, [])
  | tag :: b0 :: l =>
      if negb (Z.land b0 0x80 =? 0) then
        match l with
        | [] => (TlvBad, [])
        | b1 :: l => decode_value tag (Z.to_nat (Z.lor (Z.land b0 0x7F) (Z.shiftl b1 7))) l
        end
      else decode_value tag (Z.to_nat b0) l
  end.

Fixpoint decode_tlvs (fuel : nat) (l : bytes) : list (Z * bytes) * tlv_result :=
  match fuel with
  | O => ([], TlvBad)
  | S fuel =>
      match decode_tlv l with
      | (TlvOk tag v, l) => let '(ts, r) := decode_tlvs fuel l in ((tag, v) :: ts, r)
      | (r, _) => ([], r)
      end
  end.

Lemma rest_cons p :
  readable p -> (pos p < end_ p)%nat ->
  rest p = byte_at (buffer p) (pos p) :: rest (advance p 1).
Proof.
  unfold readable, rest, byte_at. cbn. intros Hr Hp.
  destruct (lookup_lt_is_Some_2 (buffer p) (pos p)) as [x Hx]; [lia|].
  rewrite (drop_S _ _ _ Hx), (nth_lookup_Some _ _ _ _ Hx).
  replace (end_ p - pos p)%nat with (S (end_ p - (pos p + 1))) by lia.
  simpl. do 3 f_equal. lia.
Qed.

Lemma rest_nil p : (end_ p <= pos p)%nat -> rest p = [].
Proof. intros. unfold rest. by replace (end_ p - pos p)%nat with 0%nat by lia. Qed.

Lemma rest_length p : readable p -> length (rest p) = (end_ p - pos p)%nat.
Proof. unfold readable, rest. intros. rewrite length_take, length_drop. lia. Qed.

Lemma read_value_decode p tag n :
  readable p -> (pos p <= end_ p)%nat ->
  let '(r, q) := read_value p tag n in
  decode_value tag n (rest p) = (r, rest q) /\ readable q /\
  (pos p <= pos q <= end_ q)%nat /\ end_ q = end_ p.
Proof.
  intros Hr Hp. unfold read_value, decode_value. rewrite rest_length by done.
  destruct (Nat.ltb_spec (end_ p) (pos p + n)) as [Hn|Hn].
  - rewrite (proj2 (Nat.ltb_lt _ _)) by lia. split_and!; done || lia.
  - rewrite (proj2 (Nat.ltb_ge _ _)) by lia. split_and!; try (cbn; done || lia).
    f_equal; unfold rest; cbn.
    + f_equal. rewrite take_take. f_equal. lia.
    + rewrite skipn_firstn_comm, drop_drop. f_equal. lia.
Qed.

Lemma read_tlv_decode p :
  readable p -> (pos p <= end_ p)%nat ->
  let '(r, q) := hdhr_pkt_read_tlv p in
  (decode_tlv (rest p)).1 = r /\
  (forall tag v, r = TlvOk tag v -> (decode_tlv (rest p)).2 = rest q) /\
  readable q /\ end_ q = end_ p /\ (pos q <= end_ q)%nat /\
  (forall tag v, r = TlvOk tag v -> (pos p + 2 <= pos q)%nat).
Proof.
  intros Hr Hp. unfold hdhr_pkt_read_tlv.
  destruct (Nat.leb_spec (end_ p) (pos p)) as [H0|H0].
  { rewrite rest_nil by done. by split_and!. }
  rewrite (proj2 (Nat.ltb_ge _ _)) by lia.
  rewrite rest_cons by done. set (p1 := advance p 1).
  assert (readable p1) as Hr1 by done.
  destruct (Nat.leb_spec (end_ p1) (pos p1)) as [H1|H1].
  { rewrite rest_nil by done. split_and!; done || (subst p1; cbn in *; lia). }
  rewrite (rest_cons p1) by done. set (p2 := advance p1 1).
  assert (readable p2) as Hr2 by done.
  assert (pos p2 <= end_ p2)%nat as Hp2 by (subst p2; cbn in *; lia).
  assert (pos p2 = pos p + 2)%nat as E2 by (subst p2 p1; cbn; lia).
  cbn [decode_tlv].
  destruct (negb _).
  - destruct (Nat.leb_spec (end_ p2) (pos p2)) as [H2|H2].
    { rewrite rest_nil by done. by split_and!. }
    rewrite (rest_cons p2) by done.
    pose proof (read_value_decode (advance p2 1) (byte_at (buffer p) (pos p))
      (Z.to_nat (Z.lor (Z.land (byte_at (buffer p1) (pos p1)) 0x7F)
                       (Z.shiftl (byte_at (buffer p2) (pos p2)) 7)))) as Hv.
    destruct (read_value _ _ _) as [r q].
    destruct Hv as (-> & ? & ? & ?); [done|cbn in *; lia|].
    split_and!; try done; try (intros; cbn in *; lia).
  - pose proof (read_value_decode p2 (byte_at (buffer p) (pos p))
      (Z.to_nat (byte_at (buffer p1) (pos p1)))) as Hv.
    destruct (read_value _ _ _) as [r q]. destruct Hv as (-> & ? & ? & ?); [done|lia|].
    split_and!; try done; try (intros; lia).
Qed.

(** The callers' loop is a fold over the decoded TLVs. *)
Lemma read_tlvs_decode {S} (body : S -> Z -> bytes -> S) fuel s p :
  readable p -> (pos p <= end_ p)%nat -> (end_ p - pos p < fuel)%nat ->
  read_tlvs fuel body s p =
    let '(ts, r) := decode_tlvs fuel (rest p) in
    Some (fold_left (fun s t => body s t.1 t.2) ts s, r).
Proof.
  revert s p. induction fuel as [|fuel IH]; intros s p Hr Hp Hf; [lia|].
  cbn [read_tlvs decode_tlvs]. pose proof (read_tlv_decode p Hr Hp) as H.
  destruct (hdhr_pkt_read_tlv p) as [r q]. destruct H as (H1 & H2 & Hq & He & Hpq & Hadv).
  destruct (decode_tlv (rest p)) as [r' l]. simpl in H1, H2. subst r'.
  destruct r as [| |tag v]; [done..|].
  rewrite (H2 tag v eq_refl). specialize (Hadv tag v eq_refl).
  rewrite IH by (done || lia). by destruct (decode_tlvs fuel (rest q)) as [ts r].
Qed.

Lemma var_length_decode n :
  Z.of_nat n < 2 ^ 15 ->
  match var_length_bytes n with
  | [b0] => Z.land b0 0x80 = 0 /\ Z.to_nat b0 = n
  | [b0; b1] => Z.land b0 0x80 <> 0 /\
      Z.to_nat (Z.lor (Z.land b0 0x7F) (Z.shiftl b1 7)) = n
  | _ => False
  end.
Proof.
  intros Hn.
  unfold var_length_bytes. destruct (Nat.leb_spec n 127).
  - split; [|lia]. apply Z.eqb_eq.
    pose proof (forall_byte (fun b => implb (b <? 128) (Z.land b 128 =? 0))) as Hb.
    specialize (Hb ltac:(vm_compute; reflexivity) (Z.of_nat n) ltac:(unfold is_byte; lia)).
    cbv beta in Hb. by rewrite (proj2 (Z.ltb_lt _ _)) in Hb by lia.
  - set (m := Z.of_nat n mod 128). assert (0 <= m < 128) by (apply Z.mod_pos_bound; lia).
    pose proof (forall_byte (fun b => implb (b <? 128)
      (negb (Z.land (128 + b) 128 =? 0) && (Z.land (128 + b) 127 =? b)))) as Hb.
    specialize (Hb ltac:(vm_compute; reflexivity) m ltac:(unfold is_byte; lia)).
    cbv beta in Hb. rewrite (proj2 (Z.ltb_lt _ _)) in Hb by lia. simpl in Hb. zb. split; [done|].
    assert (Z.land (128 + m) 127 = m) as -> by done.
    rewrite u8_id by (unfold is_byte; split; [apply Z.div_pos; lia|apply Z.div_lt_upper_bound; lia]).
    rewrite Z.lor_comm, lor_shiftl_low by lia. subst m. change (2 ^ 7) with 128.
    pose proof (Z.div_mod (Z.of_nat n) 128). lia.
Qed.

Lemma decode_tlv_bytes tag v l :
  Z.of_nat (length v) < 2 ^ 15 -> decode_tlv (tlv_bytes tag v ++ l) = (TlvOk tag v, l).
Proof.
  intros Hn. unfold tlv_bytes. rewrite <- app_comm_cons, <- app_assoc.
  pose proof (var_length_decode (length v) Hn) as H.
  assert (forall n, n = length v -> decode_value tag n (v ++ l) = (TlvOk tag v, l)) as Hv.
  { intros n ->. unfold decode_value. rewrite length_app, (proj2 (Nat.ltb_ge _ _)) by lia.
    by rewrite take_app_length, drop_app_length. }
  destruct (var_length_bytes (length v)) as [|b0 [|b1 [|? ?]]]; try done; cbn [app decode_tlv];
    destruct H as [H1 H2].
  - rewrite H1. simpl. by apply Hv.
  - rewrite (proj2 (Z.eqb_neq _ _)) by done. simpl. by apply Hv.
Qed.

Lemma decode_tlvs_bytes tlvs fuel :
  Forall (fun t => Z.of_nat (length t.2) < 2 ^ 15) tlvs -> (length tlvs < fuel)%nat ->
  decode_tlvs fuel (tlvs_bytes tlvs) = (tlvs, TlvEnd).
Proof.
  intros H. revert fuel. induction H as [|[t v] tlvs Hv _ IH]; intros fuel Hf;
    (destruct fuel as [|fuel]; [simpl in Hf; lia|]); cbn [decode_tlvs]; [done|].
  unfold tlvs_bytes. cbn [map concat fst snd]. rewrite decode_tlv_bytes by done.
  fold (tlvs_bytes tlvs). rewrite IH by (simpl in Hf; lia). done.
Qed.

(** ** Opening a frame *)

Lemma le32_dec a b c d :
  is_byte a -> is_byte b -> is_byte c -> is_byte d ->
  Z.lor a (Z.lor (Z.shiftl b 8) (Z.lor (Z.shiftl c 16) (Z.shiftl d 24))) =
  a + 256 * b + 65536 * c + 16777216 * d.
Proof.
  unfold is_byte. intros.
  assert (Z.lor (Z.shiftl c 16) (Z.shiftl d 24) = Z.shiftl (c + 256 * d) 16) as ->.
  { rewrite Z.lor_comm, lor_shiftl_low; rewrite ?Z.shiftl_mul_pow2; lia. }
  assert (Z.lor (Z.shiftl b 8) (Z.shiftl (c + 256 * d) 16) = Z.shiftl (b + 256 * (c + 256 * d)) 8) as ->.
  { rewrite Z.lor_comm, lor_shiftl_low; rewrite ?Z.shiftl_mul_pow2; lia. }
  rewrite Z.lor_comm, lor_shiftl_low; lia.
Qed.

Lemma be16_dec a b : is_byte a -> is_byte b -> Z.lor (Z.shiftl a 8) b = 256 * a + b.
Proof. unfold is_byte. intros. rewrite lor_shiftl_low; lia. Qed.

Lemma u8_shiftr_be16 x : is_u16 x -> 256 * u8 (Z.shiftr x 8) + u8 x = x.
Proof.
  unfold is_u16, u8. intros. rewrite Z.shiftr_div_pow2 by lia. change (2 ^ 8) with 256.
  rewrite (Z.mod_small (x / 256)) by (split; [apply Z.div_pos; lia|apply Z.div_lt_upper_bound; lia]).
  pose proof (Z.div_mod x 256). lia.
Qed.

Lemma u8_shiftr_le32 x :
  is_u32 x ->
  u8 x + 256 * u8 (Z.shiftr x 8) + 65536 * u8 (Z.shiftr x 16) + 16777216 * u8 (Z.shiftr x 24) = x.
Proof.
  unfold is_u32, u8. intros. rewrite !Z.shiftr_div_pow2 by lia.
  change (2 ^ 8) with 256. change (2 ^ 16) with (256 * 256). change (2 ^ 24) with (256 * 256 * 256).
  rewrite <- !Z.div_div by lia. set (a := x / 256). set (b := a / 256). set (c := b / 256).
  rewrite (Z.mod_small c) by (subst a b c; split;
    [repeat apply Z.div_pos; lia|repeat (apply Z.div_lt_upper_bound; [lia|]); lia]).
  pose proof (Z.div_mod x 256). pose proof (Z.div_mod a 256). pose proof (Z.div_mod b 256).
  subst a b c. lia.
Qed.

Lemma bytes_at l i : bytes_ok l -> is_byte (byte_at l i).
Proof.
  intros H. unfold byte_at. destruct (lt_dec i (length l)).
  - rewrite Forall_forall in H. apply H, list_elem_of_In, nth_In. done.
  - rewrite nth_overflow by lia. done.
Qed.

Lemma frame_body_bytes t pl : bytes_ok pl -> bytes_ok (frame_body t pl).
Proof. intros. unfold frame_body. repeat constructor; try apply u8_byte. done. Qed.

Lemma frame_bytes_length t pl : length (frame_bytes t pl) = (4 + length pl + 4)%nat.
Proof. unfold frame_bytes. rewrite length_app, frame_body_length, le32_length. lia. Qed.

Lemma byte_at_app_r l1 l2 i n :
  n = (length l1 + i)%nat -> byte_at (l1 ++ l2) n = byte_at l2 i.
Proof. intros ->. unfold byte_at. rewrite app_nth2; f_equal; lia. Qed.

(** A frame opens to its type and a cursor over its payload. *)
Lemma open_frame_bytes q t pl :
  is_u16 t -> bytes_ok pl -> length (buffer q) = HDHR_PKT_BUFFER_SIZE ->
  (4 + length pl + 4 <= HDHR_PKT_BUFFER_SIZE)%nat ->
  exists p, hdhr_pkt_open_frame q (frame_bytes t pl) = Some (p, t) /\
    rest p = pl /\ readable p /\ (pos p <= end_ p)%nat.
Proof.
  intros Ht Hpl Hq Hn. unfold hdhr_pkt_open_frame. rewrite frame_bytes_length.
  rewrite (proj2 (Nat.ltb_ge _ _)), (proj2 (Nat.ltb_ge _ _)) by (pkt_lens; lia).
  change (byte_at (frame_bytes t pl) 0) with (u8 (Z.shiftr t 8)).
  change (byte_at (frame_bytes t pl) 1) with (u8 t).
  change (byte_at (frame_bytes t pl) 2) with (u8 (Z.shiftr (Z.of_nat (length pl)) 8)).
  change (byte_at (frame_bytes t pl) 3) with (u8 (Z.of_nat (length pl))).
  rewrite !be16_dec by apply u8_byte.
  rewrite !u8_shiftr_be16 by (done || (unfold is_u16; pkt_lens; lia)).
  rewrite Nat2Z.id, Nat.eqb_refl. cbn [negb].
  assert (take (4 + length pl) (frame_bytes t pl) = frame_body t pl) as Ebody.
  { unfold frame_bytes. rewrite <- (frame_body_length t pl). apply take_app_length. }
  rewrite Ebody. unfold frame_bytes at 1 2 3 4.
  pose proof (crc32_u32 _ (frame_body_bytes t pl Hpl)) as Hc.
  pose proof (frame_body_length t pl) as Hbl.
  rewrite (byte_at_app_r _ _ 0), (byte_at_app_r _ _ 1), (byte_at_app_r _ _ 2),
    (byte_at_app_r _ _ 3) by lia.
  rewrite le32_dec by apply u8_byte. unfold byte_at, le32. cbn [nth].
  rewrite u8_shiftr_le32, Z.eqb_refl by done. cbn [negb].
  rewrite ?be16_dec, ?u8_shiftr_be16 by (done || apply u8_byte).
  eexists. split; [done|]. unfold rest, readable. cbn [buffer pos end_].
  pose proof (frame_bytes_length t pl).
  split_and!; [|rewrite length_splice; lia|lia].
  unfold splice. rewrite take_0, app_nil_l.
  replace (4 + length pl - 4)%nat with (length pl) by lia.
  unfold frame_bytes. rewrite <- app_assoc. unfold frame_body. cbn [app drop].
  apply take_app_length.
Qed.

(** *** Corruption is rejected *)

Lemma open_frame_inv q data r t :
  hdhr_pkt_open_frame q data = Some (r, t) ->
  exists n : nat,
    length data = (4 + n + 4)%nat /\
    n = Z.to_nat (Z.lor (Z.shiftl (byte_at data 2) 8) (byte_at data 3)) /\
    hdhr_crc32 (take (4 + n) data) =
      Z.lor (byte_at data (4 + n))
        (Z.lor (Z.shiftl (byte_at data (4 + n + 1)) 8)
          (Z.lor (Z.shiftl (byte_at data (4 + n + 2)) 16)
                 (Z.shiftl (byte_at data (4 + n + 3)) 24))).
Proof.
  unfold hdhr_pkt_open_frame. intros H. repeat case_match; try done.
  eexists. split_and!; [|reflexivity|]; zb; [|done].
  match goal with H : (_ =? _)%nat = true |- _ => apply Nat.eqb_eq in H; lia end.
Qed.

Lemma byte_at_insert_eq l i v : (i < length l)%nat -> byte_at (<[i:=v]> l) i = v.
Proof. intros. unfold byte_at. apply nth_lookup_Some. by apply list_lookup_insert_eq. Qed.

Lemma byte_at_insert_ne l i j v : i <> j -> byte_at (<[i:=v]> l) j = byte_at l j.
Proof. intros. unfold byte_at. rewrite !nth_lookup. by rewrite list_lookup_insert_ne. Qed.

Lemma body_change_crc l i v :
  bytes_ok l -> is_byte v -> (i < length l)%nat -> v <> byte_at l i ->
  hdhr_crc32 (<[i:=v]> l) <> hdhr_crc32 l.
Proof.
  intros Hl Hv Hi Hne. destruct (lookup_lt_is_Some_2 l i Hi) as [x Hx].
  assert (byte_at l i = x) as Ex by (by apply nth_lookup_Some).
  pose proof (proj1 (Forall_lookup _ _) Hl i x Hx) as Hxb.
  rewrite <- (take_drop_middle l i x Hx) at 2. rewrite insert_take_drop by done.
  apply crc32_byte_change; [by apply Forall_take|by apply Forall_drop|done..|congruence].
Qed.

Lemma le32_dec_inj a b c d a' b' c' d' :
  is_byte a -> is_byte b -> is_byte c -> is_byte d ->
  is_byte a' -> is_byte b' -> is_byte c' -> is_byte d' ->
  a + 256 * b + 65536 * c + 16777216 * d = a' + 256 * b' + 65536 * c' + 16777216 * d' ->
  a = a' /\ b = b' /\ c = c' /\ d = d'.
Proof. unfold is_byte. lia. Qed.

Lemma be16_bytes a b : is_byte a -> is_byte b -> u8 (Z.shiftr (256 * a + b) 8) = a /\ u8 (256 * a + b) = b.
Proof.
  intros Ha Hb. assert (H : is_u16 (256 * a + b)) by (unfold is_u16, is_byte in *; lia). pose proof (u8_shiftr_be16 _ H).
  pose proof (u8_byte (Z.shiftr (256 * a + b) 8)). pose proof (u8_byte (256 * a + b)). unfold is_byte in *. lia.
Qed.
Lemma be16_high a b : is_byte a -> is_byte b -> u8 (Z.shiftr (256 * a + b) 8) = a.
Proof. apply be16_bytes. Qed.
Lemma be16_low a b : is_byte a -> is_byte b -> u8 (256 * a + b) = b.
Proof. apply be16_bytes. Qed.

Lemma le32_of_bytes a b c d : is_byte a -> is_byte b -> is_byte c -> is_byte d ->
  le32 (a + 256 * b + 65536 * c + 16777216 * d) = [a; b; c; d].
Proof.
  intros Ha Hb Hc Hd. set (x := a + 256 * b + 65536 * c + 16777216 * d).
  assert (H : is_u32 x) by (unfold is_u32, is_byte, x in *; lia). pose proof (u8_shiftr_le32 _ H) as Hx.
  destruct (le32_dec_inj _ _ _ _ a b c d (u8_byte _) (u8_byte _) (u8_byte _) (u8_byte _) Ha Hb Hc Hd Hx) as (E0 & E1 & E2 & E3).
  unfold le32. congruence.
Qed.

Lemma four_bytes (l : bytes) n : (length l = n + 4)%nat ->
  drop n l = [byte_at l n; byte_at l (n + 1); byte_at l (n + 2); byte_at l (n + 3)].
Proof.
  intros H. rewrite <- (take_drop n l). assert (Hn : length (take n l) = n) by (rewrite length_take; lia).
  assert (Hd : length (drop n l) = 4%nat) by (rewrite length_drop; lia). rewrite drop_app_length' by done.
  destruct (drop n l) as [|x0 [|x1 [|x2 [|x3 [|? ?]]]]]; try done.
  rewrite (byte_at_app_r _ _ 0), (byte_at_app_r _ _ 1), (byte_at_app_r _ _ 2), (byte_at_app_r _ _ 3) by lia. done.
Qed.

Lemma open_frame_corrupt q q' data r t i v :
  bytes_ok data -> is_byte v -> hdhr_pkt_open_frame q data = Some (r, t) ->
  (i < length data)%nat -> v <> byte_at data i ->
  hdhr_pkt_open_frame q' (<[i:=v]> data) = None.
Proof.
  intros Hd Hv Ho Hi Hne. destruct (hdhr_pkt_open_frame q' _) as [[r' t']|] eqn:Ho'; [|done].
  exfalso. apply open_frame_inv in Ho as (n & Hlen & En & Hcrc).
  apply open_frame_inv in Ho' as (n' & Hlen' & En' & Hcrc').
  rewrite length_insert in Hlen'. assert (n' = n) as -> by lia. clear Hlen'.
  assert (bytes_ok (<[i:=v]> data)) as Hd' by (by apply Forall_insert).
  destruct (decide (4 + n <= i)%nat) as [Hge|Hlt].
  - (* the stored checksum *)
    rewrite take_insert_ge in Hcrc' by lia. rewrite Hcrc in Hcrc'.
    rewrite !le32_dec in Hcrc' by (by apply bytes_at).
    apply le32_dec_inj in Hcrc' as (E0 & E1 & E2 & E3); [|by apply bytes_at..].
    assert (i = 4 + n \/ i = 4 + n + 1 \/ i = 4 + n + 2 \/ i = 4 + n + 3)%nat as Hcase by lia.
    apply Hne. rewrite <- (byte_at_insert_eq data i v) by done.
    destruct Hcase as [-> | [-> | [-> | ->]]]; congruence.
  - rewrite (byte_at_insert_ne _ _ (4 + n)), (byte_at_insert_ne _ _ (4 + n + 1)),
      (byte_at_insert_ne _ _ (4 + n + 2)), (byte_at_insert_ne _ _ (4 + n + 3)) in Hcrc' by lia.
    rewrite <- Hcrc, take_insert_lt in Hcrc' by lia.
    revert Hcrc'. apply body_change_crc; [by apply Forall_take|done|rewrite length_take; lia|].
    unfold byte_at in *. rewrite !nth_lookup in *. by rewrite lookup_take_lt by lia.
Qed.

(** What opens is a frame, of the type and the payload that are read. *)
Lemma open_frame_payload q data r t :
  bytes_ok data -> hdhr_pkt_open_frame q data = Some (r, t) ->
  data = frame_bytes t (rest r) /\ bytes_ok (rest r) /\ readable r /\ (pos r <= end_ r)%nat.
Proof.
  intros Hd Ho. pose proof (open_frame_inv _ _ _ _ Ho) as (n & Hlen & En & Hcrc).
  unfold hdhr_pkt_open_frame in Ho. rewrite <- En in Ho. repeat case_match; try done. injection Ho as <- <-.
  destruct data as [|b0 [|b1 [|b2 [|b3 data]]]]; try (simpl in Hlen; lia).
  assert (Hr : rest (mk_pkt (splice 0 (b0 :: b1 :: b2 :: b3 :: data) (buffer q)) 0 4 (4 + n) HDHR_PKT_BUFFER_SIZE) = take n data).
  { unfold rest, splice. cbn [pos end_ buffer]. rewrite take_0. change (drop 4 _) with (data ++ drop (0 + length (b0 :: b1 :: b2 :: b3 :: data)) (buffer q)). rewrite take_app_le by (simpl in Hlen |- *; lia). f_equal. lia. }
  cbn [Nat.add] in Hr |- *. rewrite Hr. pose proof Hd as Hall. apply Forall_cons in Hd as [B0 Hd]. apply Forall_cons in Hd as [B1 Hd]. apply Forall_cons in Hd as [B2 Hd].
  apply Forall_cons in Hd as [B3 Hd]. cbn [length] in Hlen. cbn [byte_at nth] in En |- *.
  assert (Hpl : length (take n data) = n) by (rewrite length_take; lia).
  split; [|split; [by apply Forall_take|]].
  - change (byte_at (b0 :: b1 :: b2 :: b3 :: data) 0) with b0. change (byte_at (b0 :: b1 :: b2 :: b3 :: data) 1) with b1.
    change (byte_at (b0 :: b1 :: b2 :: b3 :: data) 2) with b2 in En. change (byte_at (b0 :: b1 :: b2 :: b3 :: data) 3) with b3 in En.
    rewrite be16_dec in En |- * by done.
    assert (Hbody : frame_body (256 * b0 + b1) (take n data) = take (4 + n) (b0 :: b1 :: b2 :: b3 :: data)).
    { unfold frame_body. rewrite Hpl, En, Z2Nat.id by (unfold is_byte in *; lia). rewrite !be16_high, !be16_low by done. done. }
    unfold frame_bytes. rewrite Hbody, Hcrc, !(le32_dec (byte_at _ _)) by (by apply bytes_at).
    rewrite le32_of_bytes by (by apply bytes_at). rewrite <- (take_drop (4 + n)) at 1. f_equal.
    apply four_bytes. cbn [length]. lia.
  - unfold readable, splice. cbn [pos end_ buffer]. rewrite !length_app. cbn [length]. lia.
Qed.

Lemma fold_snoc (l acc : list (Z * bytes)) :
  fold_left (fun a t => a ++ [(t.1, t.2)]) l acc = acc ++ l.
Proof.
  revert acc. induction l as [|[tag v] l IH]; intros acc; simpl; [by rewrite app_nil_r|].
  by rewrite IH, <- app_assoc.
Qed.

(** What a sender seals a receiver opens: its loop body sees the TLVs in order. *)
Lemma sealed_tlvs {S} (body : S -> Z -> bytes -> S) (s : S) (t : Z) (tlvs : list (Z * bytes)) (q : hdhr_pkt) :
  is_u16 t ->
  Forall (fun x => is_byte x.1 /\ bytes_ok x.2 /\ Z.of_nat (length x.2) < 2 ^ 15) tlvs ->
  (4 + length (tlvs_bytes tlvs) + 4 <= HDHR_PKT_BUFFER_SIZE)%nat ->
  length (buffer q) = HDHR_PKT_BUFFER_SIZE ->
  exists n p r,
    hdhr_pkt_seal_frame (write_tlvs hdhr_pkt_start_frame tlvs) t = Some (n, p) /\
    take n (buffer p) = frame_bytes t (tlvs_bytes tlvs) /\
    hdhr_pkt_open_frame q (take n (buffer p)) = Some (r, t) /\
    fold_tlvs body s r = Some (fold_left (fun s t => body s t.1 t.2) tlvs s, TlvEnd).
Proof.
  intros Ht Htl Hn Hq.
  destruct (write_tlvs_payload tlvs _ writable_start) as (Hw & Hp & He); [cbn; lia|].
  rewrite payload_start in Hp. cbn in Hp.
  change (end_ hdhr_pkt_start_frame) with 4%nat in He.
  destruct (seal_frame_bytes _ t Hw) as (p & Hs & Hb); [lia|].
  rewrite Hp in Hb. eexists _, _.
  assert (bytes_ok (tlvs_bytes tlvs)) as Hok.
  { clear -Htl. induction Htl as [|[tag v] l (H1 & H2 & H3) _ IH]; [constructor|].
    apply Forall_app. split; [|done]. constructor; [done|]. apply Forall_app. split; [|done].
    apply var_length_bytes_ok. }
  destruct (open_frame_bytes q t (tlvs_bytes tlvs)) as (r & Ho & Hr & Hrd & Hre); [done..|].
  exists r. split_and!; [done|done|by rewrite Hb|].
  unfold fold_tlvs, tlv_fuel. rewrite read_tlvs_decode by (done || lia).
  rewrite Hr, decode_tlvs_bytes; [done| |].
  - eapply Forall_impl; [done|]. by intros ? (? & ? & ?).
  - pose proof (rest_length r Hrd) as Hl. rewrite Hr in Hl. rewrite <- Hl.
    clear. induction tlvs as [|[tag v] l IH]; [simpl; lia|].
    unfold tlvs_bytes in *. cbn [map concat fst snd]. rewrite length_app. cbn. lia.
Qed.

(** Claim C10: every packet built from TLVs, sealed and opened again yields the
    frame type and exactly the TLVs that were written, in order. *)
Theorem pkt_roundtrip (t : Z) (tlvs : list (Z * bytes)) (q : hdhr_pkt) :
  is_u16 t ->
  Forall (fun x => is_byte x.1 /\ bytes_ok x.2 /\ Z.of_nat (length x.2) < 2 ^ 15) tlvs ->
  (4 + length (tlvs_bytes tlvs) + 4 <= HDHR_PKT_BUFFER_SIZE)%nat ->
  length (buffer q) = HDHR_PKT_BUFFER_SIZE ->
  exists n p r,
    hdhr_pkt_seal_frame (write_tlvs hdhr_pkt_start_frame tlvs) t = Some (n, p) /\
    hdhr_pkt_open_frame q (take n (buffer p)) = Some (r, t) /\
    fold_tlvs (fun acc tag v => acc ++ [(tag, v)]) [] r = Some (tlvs, TlvEnd).
Proof.
  intros Ht Htl Hn Hq.
  destruct (sealed_tlvs (fun acc tag v => acc ++ [(tag, v)]) [] t tlvs q Ht Htl Hn Hq) as (n & p & r & Hs & _ & Ho & Hf).
  exists n, p, r. split; [done|]. split; [done|]. by rewrite Hf, fold_snoc.
Qed.

(** Claim C11: changing any one byte of an accepted frame, header, payload or
    checksum, makes [hdhr_pkt_open_frame] reject it. *)
Theorem open_frame_single_byte_corruption (q q' : hdhr_pkt) data r t i v :
  bytes_ok data -> is_byte v -> hdhr_pkt_open_frame q data = Some (r, t) ->
  (i < length data)%nat -> v <> byte_at data i ->
  hdhr_pkt_open_frame q' (<[i:=v]> data) = None.
Proof. apply open_frame_corrupt. Qed.

(** Claim C12: on every packet whose payload lies in its buffer, the callers'
    TLV loop ends, and it sees exactly the TLVs the list decoder finds in the
    payload. *)
Theorem read_loop_refines {S} (body : S -> Z -> bytes -> S) (s : S) (p : hdhr_pkt) :
  readable p -> (pos p <= end_ p)%nat ->
  fold_tlvs body s p =
    Some (let '(ts, r) := decode_tlvs (tlv_fuel p) (rest p) in
          (fold_left (fun s t => body s t.1 t.2) ts s, r)).
Proof.
  intros. unfold fold_tlvs. rewrite read_tlvs_decode; [|done..|unfold tlv_fuel; lia].
  by destruct (decode_tlvs _ _).
Qed.

(** A small request: one GETSET_NAME TLV "help". *)
Definition sample_tlvs : list (Z * bytes) := [(HDHR_TAG_GETSET_NAME, [104; 101; 108; 112; 0])].
Definition sample_frame : bytes :=
  frame_bytes HDHR_TYPE_GETSET_REQ (tlvs_bytes sample_tlvs).

Lemma sample_opens :
  (r ← hdhr_pkt_open_frame hdhr_pkt_init sample_frame; Some r.2) = Some HDHR_TYPE_GETSET_REQ.
Proof. vm_compute. reflexivity. Qed.

Lemma crc32_table_correct_witness :
  hdhr_crc32 [1; 2; 3] = crc32_ref [1; 2; 3].
Proof. apply crc32_table_correct. repeat constructor; done. Defined.

Lemma pkt_roundtrip_witness :
  exists n p r,
    hdhr_pkt_seal_frame (write_tlvs hdhr_pkt_start_frame sample_tlvs) HDHR_TYPE_GETSET_REQ = Some (n, p) /\
    hdhr_pkt_open_frame hdhr_pkt_init (take n (buffer p)) = Some (r, HDHR_TYPE_GETSET_REQ) /\
    fold_tlvs (fun acc tag v => acc ++ [(tag, v)]) [] r = Some (sample_tlvs, TlvEnd).
Proof.
  apply pkt_roundtrip; [done| |cbn; unfold HDHR_PKT_BUFFER_SIZE; lia|done].
  repeat constructor; cbn; lia || done.
Defined.

Lemma open_frame_single_byte_corruption_witness :
  hdhr_pkt_open_frame hdhr_pkt_init (<[6%nat:=0]> sample_frame) = None.
Proof.
  destruct (hdhr_pkt_open_frame hdhr_pkt_init sample_frame) as [[r t]|] eqn:E.
  - refine (open_frame_single_byte_corruption hdhr_pkt_init _ sample_frame _ _ 6 0 _ _ E _ _); clear E.
    + refine (bool_decide_unpack _ _). vm_compute. exact I.
    + unfold is_byte. lia.
    + vm_compute. lia.
    + vm_compute. intros H. discriminate H.
  - exfalso. pose proof sample_opens as H. rewrite E in H. discriminate H.
Defined.

Lemma read_loop_refines_witness :
  fold_tlvs (fun n _ _ => S n) 0%nat hdhr_pkt_start_frame = Some (0%nat, TlvEnd).
Proof. rewrite read_loop_refines; [done|vm_compute; lia|cbn; lia]. Defined.

End PktFacts.
