(* ===== verification/CLib.v ===== *)
(** C library functions the program calls, on C strings.

    A C string is a Rocq [string] (its characters up to the terminating NUL).
    [scan_num] is the common part of strtol, strtoul and the scanf
    conversions: white space, a sign, digits; the C library accumulates in 64
    bits and saturates, and the program (or scanf) then truncates to the type
    of the variable.  [dec], [hex] are the printf conversions; [str_take] is
    what snprintf keeps.  The lemmas give the print/scan round trips and the
    length bounds the components share. *)
From S2P Require Import Prelude.

#[global] Arguments String.append !_ _ / : simpl nomatch.

(** *** Characters *)

Definition code (c : ascii) : Z := Z.of_N (N_of_ascii c).
Definition chr (z : Z) : ascii := ascii_of_N (Z.to_N z).

Definition isspace (c : ascii) : bool :=
  let x := code c in ((9 <=? x) && (x <=? 13)) || (x =? 32).

Definition isdigit (c : ascii) : bool := (48 <=? code c) && (code c <=? 57).

(** Value of a digit in a base up to 16. *)
Definition digit_val (base : Z) (c : ascii) : option Z :=
  let x := code c in
  let v := if (48 <=? x) && (x <=? 57) then x - 48
           else if (97 <=? x) && (x <=? 102) then x - 87
           else if (65 <=? x) && (x <=? 70) then x - 55 else base in
  if v <? base then Some v else None.

Definition digit_chr (upper : bool) (d : Z) : ascii :=
  chr (if d <? 10 then 48 + d else if upper then 55 + d else 87 + d).

(** *** Strings *)

Fixpoint str_take (n : nat) (s : string) : string :=
  match n, s with
  | S n, String c s => String c (str_take n s)
  | _, _ => EmptyString
  end.

Fixpoint str_drop (n : nat) (s : string) : string :=
  match n, s with
  | S n, String _ s => str_drop n s
  | _, _ => s
  end.

(** What [snprintf(buf, sizeof buf, ...)] leaves in [buf]. *)
Definition snprintf (size : nat) (s : string) : string := str_take (size - 1) s.

Fixpoint str_forall (P : ascii -> bool) (s : string) : bool :=
  match s with EmptyString => true | String c s => P c && str_forall P s end.

(** First character, 0 at the terminator. *)
Definition head0 (s : string) : Z :=
  match s with EmptyString => 0 | String c _ => code c end.

(** [strchr]: the characters before and after the first [c]. *)
Fixpoint strchr (c : ascii) (s : string) : option (string * string) :=
  match s with
  | EmptyString => None
  | String x s' =>
      if decide (x = c) then Some (EmptyString, s')
      else match strchr c s' with
           | Some (a, b) => Some (String x a, b)
           | None => None
           end
  end.

(** [strrchr]: likewise for the last [c]. *)
Fixpoint strrchr (c : ascii) (s : string) : option (string * string) :=
  match s with
  | EmptyString => None
  | String x s' =>
      match strrchr c s' with
      | Some (a, b) => Some (String x a, b)
      | None => if decide (x = c) then Some (EmptyString, s') else None
      end
  end.

(** [strstr]: the suffix that starts at the first occurrence. *)
Fixpoint strstr (s sub : string) : option string :=
  if String.prefix sub s then Some s
  else match s with EmptyString => None | String _ s' => strstr s' sub end.

Fixpoint skip_while (P : ascii -> bool) (s : string) : string :=
  match s with
  | EmptyString => EmptyString
  | String c s' => if P c then skip_while P s' else s
  end.

Fixpoint take_while (P : ascii -> bool) (s : string) : string :=
  match s with
  | EmptyString => EmptyString
  | String c s' => if P c then String c (take_while P s') else EmptyString
  end.

(** Removes the trailing characters that satisfy [P]. *)
Fixpoint rstrip (P : ascii -> bool) (s : string) : string :=
  match s with
  | EmptyString => EmptyString
  | String c s' =>
      match rstrip P s' with
      | EmptyString => if P c then EmptyString else String c EmptyString
      | r => String c r
      end
  end.

(** The C string at the start of a buffer: it ends at the first NUL. *)
Definition cstr (s : string) : string := take_while (fun c => negb (code c =? 0)) s.

Definition NL : ascii := "010"%char.

Fixpoint fgets_loop (n : nat) (s : string) : string * string :=
  match n, s with
  | O, _ => (EmptyString, s)
  | S _, EmptyString => (EmptyString, EmptyString)
  | S n, String c s' =>
      if decide (c = NL) then (String c EmptyString, s')
      else let '(l, r) := fgets_loop n s' in (String c l, r)
  end.

(** [fgets(line, size, f)] on the rest of a file. *)
Definition fgets (size : nat) (s : string) : option (string * string) :=
  match s with EmptyString => None | _ => Some (fgets_loop (size - 1) s) end.

(** *** Numbers *)

Definition i32 (x : Z) : Z := (x + 2 ^ 31) mod 2 ^ 32 - 2 ^ 31.
Definition is_i32 (x : Z) : Prop := - 2 ^ 31 <= x < 2 ^ 31.

Fixpoint scan_digits (base acc : Z) (s : string) : Z * string :=
  match s with
  | EmptyString => (acc, EmptyString)
  | String c s' =>
      match digit_val base c with
      | Some d => scan_digits base (acc * base + d) s'
      | None => (acc, s)
      end
  end.

Definition starts_digit (base : Z) (s : string) : bool :=
  match s with
  | EmptyString => false
  | String c _ => match digit_val base c with Some _ => true | None => false end
  end.

Definition strip_sign (s : string) : bool * string :=
  match s with
  | String "-" s' => (true, s')
  | String "+" s' => (false, s')
  | _ => (false, s)
  end.

(** "0x" or "0X" followed by a hexadecimal digit. *)
Definition strip_0x (s : string) : option string :=
  match s with
  | String "0" (String x s') =>
      if bool_decide (x = "x"%char \/ x = "X"%char) && starts_digit 16 s' then Some s' else None
  | _ => None
  end.

(** Sign, magnitude and the rest; base 0 chooses by the prefix. *)
Definition scan_num (base : Z) (s : string) : option (bool * Z * string) :=
  let '(neg, s1) := strip_sign (skip_while isspace s) in
  let '(b, s2) :=
    match (if (base =? 0) || (base =? 16) then strip_0x s1 else None) with
    | Some s' => (16, s')
    | None => (if base =? 0 then (if head0 s1 =? 48 then 8 else 10) else base, s1)
    end in
  if starts_digit b s2 then
    let '(v, r) := scan_digits b 0 s2 in Some (neg, v, r)
  else None.

Definition ULONG_MAX : Z := 2 ^ 64 - 1.

Definition ulong_of (neg : bool) (v : Z) : Z :=
  if ULONG_MAX <? v then ULONG_MAX else if neg then (- v) mod 2 ^ 64 else v.

Definition long_of (neg : bool) (v : Z) : Z :=
  if neg then Z.max (- v) (- 2 ^ 63) else Z.min v (2 ^ 63 - 1).

Definition strtoul (base : Z) (s : string) : Z :=
  match scan_num base s with Some (neg, v, _) => ulong_of neg v | None => 0 end.

Definition atoi (s : string) : Z :=
  match scan_num 10 s with Some (neg, v, _) => i32 (long_of neg v) | None => 0 end.

(** scanf conversions %d, and %u, %x into an unsigned variable of [w] bits. *)
Definition scan_d (s : string) : option (Z * string) :=
  match scan_num 10 s with
  | Some (neg, v, r) => Some (i32 (long_of neg v), r)
  | None => None
  end.

Definition scan_uw (base w : Z) (s : string) : option (Z * string) :=
  match scan_num base s with
  | Some (neg, v, r) => Some (ulong_of neg v mod 2 ^ w, r)
  | None => None
  end.

(** A literal of a scanf format (without white space or conversions). *)
Fixpoint scan_lit (lit s : string) : option string :=
  match lit, s with
  | EmptyString, _ => Some s
  | String a l, String b s' => if decide (a = b) then scan_lit l s' else None
  | String _ _, EmptyString => None
  end.

(** printf: digits of a non-negative number, least significant last. *)
Fixpoint num_loop (base : Z) (upper : bool) (fuel : nat) (n : Z) (acc : string) : string :=
  let acc' := String (digit_chr upper (n mod base)) acc in
  match fuel with
  | O => acc'
  | S f => if n <? base then acc' else num_loop base upper f (n / base) acc'
  end.

Definition dec_u (n : Z) : string := num_loop 10 false (Z.to_nat (Z.log2 n)) n "".
Definition dec (z : Z) : string := if z <? 0 then "-" +:+ dec_u (- z) else dec_u z.
Definition hex_u (upper : bool) (n : Z) : string :=
  num_loop 16 upper (Z.to_nat (Z.log2 n)) n "".

Fixpoint zeros (n : nat) : string :=
  match n with O => EmptyString | S n => String "0" (zeros n) end.

(** %0<w>x *)
Definition hex_pad (upper : bool) (w : nat) (n : Z) : string :=
  let h := hex_u upper n in zeros (w - String.length h) +:+ h.

Example clib_dec : dec (-1203) = "-1203"%string /\ dec 0 = "0"%string.
Proof. vm_compute. done. Qed.
Example clib_hex : hex_pad false 4 0x1a = "001a"%string /\ hex_pad true 8 0xBEEF = "0000BEEF"%string.
Proof. vm_compute. done. Qed.
Example clib_strtoul : strtoul 0 " 0x1Fz" = 31 /\ strtoul 0 "017" = 15 /\ strtoul 10 "-1" = 2 ^ 64 - 1.
Proof. vm_compute. done. Qed.
Example clib_atoi : atoi "12.5" = 12 /\ atoi "x" = 0 /\ atoi "4294967297" = 1.
Proof. vm_compute. done. Qed.

(** ** Lemmas *)

Lemma i32_id x : is_i32 x -> i32 x = x.
Proof. unfold i32, is_i32. intros. rewrite Z.mod_small by lia. lia. Qed.

Lemma i32_range x : is_i32 (i32 x).
Proof.
  unfold i32, is_i32. pose proof (Z.mod_pos_bound (x + 2 ^ 31) (2 ^ 32) ltac:(lia)). lia.
Qed.

#[export] Hint Resolve i32_range : hdhr.

#[export] Instance is_i32_dec x : Decision (is_i32 x).
Proof. unfold is_i32. apply _. Defined.

Lemma code_range c : is_byte (code c).
Proof.
  unfold code, is_byte. pose proof (N_ascii_bounded c). lia.
Qed.

Lemma code_chr z : is_byte z -> code (chr z) = z.
Proof.
  unfold code, chr, is_byte. intros. rewrite N_ascii_embedding by lia. lia.
Qed.

Lemma chr_code c : chr (code c) = c.
Proof. unfold code, chr. rewrite N2Z.id. apply ascii_N_embedding. Qed.

(** A boolean test on characters holds everywhere when it holds on the 256. *)
Lemma forall_ascii (P : ascii -> bool) :
  forallb (fun z => P (chr z)) (seqZ 0 256) = true -> forall c, P c = true.
Proof.
  intros H c. rewrite <- (chr_code c).
  apply (forall_byte (fun z => P (chr z)) H). apply code_range.
Qed.

Lemma app_str_assoc (a b c : string) : (a +:+ b) +:+ c = a +:+ (b +:+ c).
Proof. induction a as [|x a IH]; [done|]. cbn. by rewrite IH. Qed.

Lemma app_str_nil_r (a : string) : a +:+ "" = a.
Proof. induction a as [|x a IH]; [done|]. cbn. by rewrite IH. Qed.

Lemma length_app_str (a b : string) :
  String.length (a +:+ b) = (String.length a + String.length b)%nat.
Proof. induction a as [|x a IH]; [done|]. cbn. by rewrite IH. Qed.

Lemma length_str_take n s : (String.length (str_take n s) <= n)%nat.
Proof. revert s. induction n; intros [|c s]; simpl; try lia. specialize (IHn s). lia. Qed.

Lemma length_str_take_eq n s :
  String.length (str_take n s) = Nat.min n (String.length s).
Proof. revert s. induction n; intros [|c s]; simpl; try done. by rewrite IHn. Qed.

Lemma str_take_all n s : (String.length s <= n)%nat -> str_take n s = s.
Proof.
  revert n. induction s; intros [|n] H; simpl in *; try done; [lia|].
  by rewrite IHs by lia.
Qed.

Lemma str_take_forall P n s : str_forall P s = true -> str_forall P (str_take n s) = true.
Proof.
  revert s. induction n; intros [|c s]; simpl; try done.
  rewrite !andb_true_iff. intros [? ?]. auto.
Qed.

(** snprintf writes at most size - 1 characters, and everything when it fits. *)
Lemma length_snprintf size s :
  (0 < size)%nat -> (String.length (snprintf size s) < size)%nat.
Proof. intros. unfold snprintf. pose proof (length_str_take (size - 1) s). lia. Qed.

Lemma snprintf_fits size s : (String.length s < size)%nat -> snprintf size s = s.
Proof. intros. apply str_take_all. lia. Qed.

Lemma str_forall_app P a b :
  str_forall P (a +:+ b) = str_forall P a && str_forall P b.
Proof. induction a; simpl; [done|]. by rewrite IHa, andb_assoc. Qed.

Lemma str_forall_impl (P Q : ascii -> bool) s :
  (forall c, P c = true -> Q c = true) -> str_forall P s = true -> str_forall Q s = true.
Proof.
  intros H. induction s; simpl; [done|]. rewrite !andb_true_iff. intros [? ?]. auto.
Qed.

Lemma take_while_app P a b :
  str_forall P a = true -> match b with EmptyString => true | String c _ => negb (P c) end = true ->
  take_while P (a +:+ b) = a.
Proof.
  intros Ha Hb. induction a; simpl in *.
  - destruct b; simpl in *; [done|]. apply negb_true_iff in Hb. by rewrite Hb.
  - apply andb_true_iff in Ha as [-> Ha]. by rewrite IHa.
Qed.

Lemma skip_while_app P a b :
  str_forall P a = true -> match b with EmptyString => true | String c _ => negb (P c) end = true ->
  skip_while P (a +:+ b) = b.
Proof.
  intros Ha Hb. induction a; simpl in *.
  - destruct b; simpl in *; [done|]. apply negb_true_iff in Hb. by rewrite Hb.
  - apply andb_true_iff in Ha as [-> Ha]. auto.
Qed.

Lemma take_skip_while P s : take_while P s +:+ skip_while P s = s.
Proof. induction s as [|c s IH]; [done|]. cbn. destruct (P c); cbn; [by rewrite IH|done]. Qed.

Lemma length_skip_while P s : (String.length (skip_while P s) <= String.length s)%nat.
Proof. induction s; simpl; [done|]. destruct (P a); simpl; lia. Qed.

(** *** Digits *)

Lemma digit_val_chr u b d :
  0 <= d < b -> b <= 16 -> digit_val b (digit_chr u d) = Some d.
Proof.
  intros Hd Hb. unfold digit_val.
  assert (Hc : code (digit_chr u d) = if d <? 10 then 48 + d else if u then 55 + d else 87 + d).
  { unfold digit_chr. apply code_chr. unfold is_byte.
    destruct (d <? 10) eqn:?, u; zb; lia. }
  rewrite Hc. destruct (d <? 10) eqn:E, u; zb;
  repeat match goal with |- context [if ?e then _ else _] =>
    lazymatch e with context [if _ then _ else _] => fail | _ => destruct e eqn:? end end;
  first [f_equal; lia | lia].
Qed.

(** Scanning what [num_loop] prints. *)
Lemma scan_num_loop b u fuel n acc a :
  2 <= b <= 16 -> 0 <= n < b ^ (Z.of_nat fuel + 1) ->
  exists k, scan_digits b a (num_loop b u fuel n acc) = scan_digits b (a * b ^ Z.of_nat k + n) acc.
Proof.
  intros Hb. revert n acc. induction fuel as [|fuel IH]; intros n acc Hn; cbn [num_loop].
  - exists 1%nat. change (Z.of_nat 0 + 1) with 1 in Hn. rewrite Z.pow_1_r in *.
    simpl. rewrite digit_val_chr by (rewrite ?Z.mod_small; lia). by rewrite Z.mod_small.
  - destruct (n <? b) eqn:E; zb.
    + exists 1%nat. simpl. rewrite digit_val_chr by (rewrite ?Z.mod_small; lia).
      by rewrite Z.mod_small, Z.pow_1_r by lia.
    + destruct (IH (n / b) (String (digit_chr u (n mod b)) acc)) as [k Hk].
      { split; [apply Z.div_pos; lia|]. apply Z.div_lt_upper_bound; [lia|].
        rewrite <- Z.pow_succ_r by lia. replace (Z.succ (Z.of_nat fuel + 1)) with (Z.of_nat (S fuel) + 1) by lia. lia. }
      exists (S k). rewrite Hk. simpl.
      rewrite digit_val_chr by (pose proof (Z.mod_pos_bound n b); lia).
      f_equal. rewrite Nat2Z.inj_succ, Z.pow_succ_r by lia.
      pose proof (Z.div_mod n b ltac:(lia)). nia.
Qed.

Lemma num_loop_app b u fuel n acc :
  num_loop b u fuel n acc = num_loop b u fuel n "" +:+ acc.
Proof.
  revert n acc. induction fuel as [|fuel IH]; intros n acc; cbn [num_loop]; [done|].
  destruct (n <? b); [done|]. rewrite IH, (IH _ (String _ "")), app_str_assoc. done.
Qed.

Lemma log2_fuel b n : 2 <= b -> 0 <= n -> n < b ^ (Z.of_nat (Z.to_nat (Z.log2 n)) + 1).
Proof.
  intros Hb Hn. rewrite Z2Nat.id by apply Z.log2_nonneg.
  destruct (decide (n = 0)) as [->|]; [simpl; lia|].
  pose proof (Z.log2_spec n ltac:(lia)) as [_ H].
  eapply Z.lt_le_trans; [apply H|]. rewrite <- Z.add_1_r.
  apply Z.pow_le_mono_l. lia.
Qed.

(** The first character printed is a digit, as are all of them. *)
Lemma num_loop_forall (P : ascii -> bool) b u fuel n acc :
  2 <= b <= 16 -> 0 <= n ->
  (forall d, 0 <= d < b -> P (digit_chr u d) = true) ->
  str_forall P acc = true -> str_forall P (num_loop b u fuel n acc) = true.
Proof.
  intros Hb Hn HP. revert n acc Hn. induction fuel as [|fuel IH]; intros n acc Hn Ha; cbn [num_loop].
  - simpl. rewrite Ha, HP by (apply Z.mod_pos_bound; lia). done.
  - assert (str_forall P (String (digit_chr u (n mod b)) acc) = true).
    { simpl. rewrite Ha, HP by (apply Z.mod_pos_bound; lia). done. }
    destruct (n <? b); [done|]. apply IH; [|done]. apply Z.div_pos; lia.
Qed.

Lemma num_loop_ne b u fuel n acc : exists c s, num_loop b u fuel n acc = String c s.
Proof.
  revert n acc. induction fuel; intros; cbn [num_loop]; [eauto|].
  destruct (n <? b); eauto.
Qed.

Lemma length_num_loop b u fuel n acc k :
  2 <= b -> 0 <= n < b ^ Z.of_nat k -> (0 < k)%nat ->
  (String.length (num_loop b u fuel n acc) <= k + String.length acc)%nat \/
  b ^ (Z.of_nat fuel + 1) <= n.
Proof.
  intros Hb. revert n acc k. induction fuel as [|fuel IH]; intros n acc k Hn Hk; cbn [num_loop].
  - left. simpl. lia.
  - destruct (n <? b) eqn:E; zb; [left; simpl; lia|].
    destruct k as [|[|k]]; [lia|change (Z.of_nat 1) with 1 in Hn; lia|].
    destruct (IH (n / b) (String (digit_chr u (n mod b)) acc) (S k)) as [H|H].
    + split; [apply Z.div_pos; lia|]. apply Z.div_lt_upper_bound; [lia|].
      rewrite <- Z.pow_succ_r, <- Nat2Z.inj_succ by lia. apply Hn.
    + lia.
    + left. simpl in *. lia.
    + right. replace (Z.of_nat (S fuel) + 1) with (Z.succ (Z.of_nat fuel + 1)) by lia.
      rewrite Z.pow_succ_r by lia. pose proof (Z.mul_div_le n b ltac:(lia)). nia.
Qed.

Lemma length_dec_u n k :
  0 <= n < 10 ^ Z.of_nat k -> (0 < k)%nat -> (String.length (dec_u n) <= k)%nat.
Proof.
  intros Hn Hk. unfold dec_u.
  destruct (length_num_loop 10 false (Z.to_nat (Z.log2 n)) n "" k) as [H|H]; try lia.
  - simpl in H. lia.
  - pose proof (log2_fuel 10 n). lia.
Qed.

Lemma length_hex_u u n k :
  0 <= n < 16 ^ Z.of_nat k -> (0 < k)%nat -> (String.length (hex_u u n) <= k)%nat.
Proof.
  intros Hn Hk. unfold hex_u.
  destruct (length_num_loop 16 u (Z.to_nat (Z.log2 n)) n "" k) as [H|H]; try lia.
  - simpl in H. lia.
  - pose proof (log2_fuel 16 n). lia.
Qed.

Lemma isdigit_digit u d : 0 <= d < 10 -> isdigit (digit_chr u d) = true.
Proof.
  intros. unfold isdigit, digit_chr. destruct (d <? 10) eqn:?; zb; [|lia].
  rewrite code_chr by (unfold is_byte; lia). apply andb_true_iff. split; apply Z.leb_le; lia.
Qed.

Lemma dec_u_digits n : 0 <= n -> str_forall isdigit (dec_u n) = true.
Proof. intros. apply num_loop_forall; try done; try lia. intros. by apply isdigit_digit. Qed.

Lemma dec_u_ne n : exists c s, dec_u n = String c s.
Proof. apply num_loop_ne. Qed.

Lemma scan_digits_stop b s : starts_digit b s = false -> forall a, scan_digits b a s = (a, s).
Proof.
  destruct s as [|c s]; simpl; [done|]. destruct (digit_val b c); done.
Qed.

(** Scanning a printed number gives it back, up to the next non-digit. *)
Lemma scan_digits_print b u n rest :
  2 <= b <= 16 -> 0 <= n -> starts_digit b rest = false ->
  scan_digits b 0 (num_loop b u (Z.to_nat (Z.log2 n)) n "" +:+ rest) = (n, rest).
Proof.
  intros Hb Hn Hr. rewrite <- num_loop_app.
  destruct (scan_num_loop b u (Z.to_nat (Z.log2 n)) n rest 0) as [k ->]; [lia| |].
  - split; [done|]. apply log2_fuel; lia.
  - by rewrite scan_digits_stop.
Qed.

(** Tests on the characters a decimal number is made of. *)
Lemma isdigit_spec c : isdigit c = true ->
  isspace c = false /\ c <> "-"%char /\ c <> "+"%char /\
  (exists d, digit_val 10 c = Some d) /\ (exists d, digit_val 16 c = Some d).
Proof.
  unfold isdigit. intros. zb. repeat split.
  - unfold isspace. apply orb_false_iff. split; [|apply Z.eqb_neq; lia].
    apply andb_false_iff. right. apply Z.leb_gt. lia.
  - intros ->. vm_compute in H. done.
  - intros ->. vm_compute in H0. done.
  - exists (code c - 48). unfold digit_val.
    replace ((48 <=? code c) && (code c <=? 57)) with true by (symmetry; apply andb_true_iff; split; apply Z.leb_le; lia).
    destruct (code c - 48 <? 10) eqn:?; [done|zb; lia].
  - exists (code c - 48). unfold digit_val.
    replace ((48 <=? code c) && (code c <=? 57)) with true by (symmetry; apply andb_true_iff; split; apply Z.leb_le; lia).
    destruct (code c - 48 <? 16) eqn:?; [done|zb; lia].
Qed.

Lemma strip_sign_other c s :
  c <> "-"%char -> c <> "+"%char -> strip_sign (String c s) = (false, String c s).
Proof.
  intros. unfold strip_sign.
  destruct c as [[] [] [] [] [] [] [] []]; done.
Qed.

Lemma scan_num_dec_u n rest :
  0 <= n -> starts_digit 10 rest = false ->
  scan_num 10 (dec_u n +:+ rest) = Some (false, n, rest).
Proof.
  intros Hn Hr. pose proof (scan_digits_print 10 false n rest ltac:(lia) Hn Hr) as Hs.
  fold (dec_u n) in Hs.
  pose proof (dec_u_digits n Hn) as Hd. destruct (dec_u_ne n) as (c & s & E).
  rewrite E in *. simpl in Hd. apply andb_true_iff in Hd as [Hc Hd].
  destruct (isdigit_spec c Hc) as (Hsp & H1 & H2 & [d Hv] & _).
  unfold scan_num. cbn [String.append skip_while]. rewrite Hsp.
  rewrite strip_sign_other by done. cbn -[scan_digits].
  rewrite Hv. cbn -[scan_digits]. cbn in Hs. rewrite Hv in *. cbn. rewrite Hv. cbn. by rewrite Hs.
Qed.

Lemma scan_num_dec z rest :
  starts_digit 10 rest = false ->
  scan_num 10 (dec z +:+ rest) = Some (z <? 0, Z.abs z, rest).
Proof.
  intros Hr. unfold dec. destruct (z <? 0) eqn:E; zb.
  - pose proof (scan_num_dec_u (- z) rest ltac:(lia) Hr) as H.
    rewrite Z.abs_neq by lia. revert H. unfold scan_num. cbn [String.append skip_while].
    change (isspace "-") with false. cbn [strip_sign].
    destruct (dec_u_ne (- z)) as (c & s & E').
    pose proof (dec_u_digits (- z) ltac:(lia)) as Hd.
    rewrite E' in *. simpl in Hd. apply andb_true_iff in Hd as [Hc Hd].
    destruct (isdigit_spec c Hc) as (Hsp & H1 & H2 & _).
    cbn [String.append skip_while]. rewrite Hsp, strip_sign_other by done.
    cbn -[scan_digits starts_digit]. destruct (starts_digit 10 (String c _)); [|congruence].
    destruct (scan_digits 10 0 _). congruence.
  - rewrite Z.abs_eq by lia. by apply scan_num_dec_u.
Qed.

Lemma scan_d_dec z rest :
  is_i32 z -> starts_digit 10 rest = false -> scan_d (dec z +:+ rest) = Some (z, rest).
Proof.
  intros Hz Hr. unfold scan_d. rewrite scan_num_dec by done. do 2 f_equal.
  unfold is_i32 in Hz. destruct (z <? 0) eqn:E; zb; unfold long_of; rewrite i32_id; unfold is_i32; lia.
Qed.

Lemma scan_uw_dec w n rest :
  0 <= n < 2 ^ w -> 0 <= w <= 64 -> starts_digit 10 rest = false ->
  scan_uw 10 w (dec_u n +:+ rest) = Some (n, rest).
Proof.
  intros Hn Hw Hr. unfold scan_uw. rewrite scan_num_dec_u by (done || lia). do 2 f_equal.
  unfold ulong_of, ULONG_MAX. pose proof (Z.pow_le_mono_r 2 w 64).
  destruct (2 ^ 64 - 1 <? n) eqn:E; zb; [lia|]. apply Z.mod_small. lia.
Qed.

(** *** Hexadecimal with leading zeros *)

Definition ishex (c : ascii) : bool :=
  match digit_val 16 c with Some _ => true | None => false end.

Lemma ishex_spec c : ishex c = true ->
  isspace c = false /\ c <> "-"%char /\ c <> "+"%char /\ c <> "x"%char /\ c <> "X"%char.
Proof.
  intros H. repeat split; try (intros ->; vm_compute in H; discriminate).
  pose proof (forall_ascii (fun c => implb (ishex c) (negb (isspace c))) ltac:(vm_compute; reflexivity) c) as Hc.
  cbv beta in Hc. rewrite H in Hc. by destruct (isspace c).
Qed.

Lemma ishex_digit u d : 0 <= d < 16 -> ishex (digit_chr u d) = true.
Proof. intros. unfold ishex. by rewrite digit_val_chr by lia. Qed.

Lemma scan_digits_zeros b k s :
  1 <= b -> scan_digits b 0 (zeros k +:+ s) = scan_digits b 0 s.
Proof.
  intros Hb. induction k as [|k IH]; [done|]. simpl.
  assert (digit_val b "0" = Some 0) as ->; [|done].
  unfold digit_val. change (code "0") with 48. cbn -[Z.ltb]. change (48 - 48) with 0. destruct (Z.ltb_spec 0 b); [done|lia].
Qed.

Lemma hex_pad_chars u w n : 0 <= n -> str_forall ishex (hex_pad u w n) = true.
Proof.
  intros Hn. unfold hex_pad. rewrite str_forall_app. apply andb_true_iff. split.
  - generalize (w - String.length (hex_u u n))%nat. intros k. induction k; [done|]. simpl. by rewrite IHk.
  - apply num_loop_forall; try lia; try done. intros. by apply ishex_digit.
Qed.

Lemma length_zeros k : String.length (zeros k) = k.
Proof. induction k; simpl; congruence. Qed.

Lemma length_hex_pad u w n :
  0 <= n < 16 ^ Z.of_nat w -> (0 < w)%nat -> String.length (hex_pad u w n) = w.
Proof.
  intros. unfold hex_pad. rewrite length_app_str, length_zeros.
  pose proof (length_hex_u u n w). lia.
Qed.

Lemma strip_0x_hex c1 c2 s :
  c2 <> "x"%char -> c2 <> "X"%char -> strip_0x (String c1 (String c2 s)) = None.
Proof.
  intros. unfold strip_0x.
  destruct c1 as [[] [] [] [] [] [] [] []]; try done.
  rewrite bool_decide_eq_false_2 by tauto. done.
Qed.

Lemma scan_num_hex t n rest :
  str_forall ishex t = true -> (2 <= String.length t)%nat ->
  scan_digits 16 0 (t +:+ rest) = (n, rest) ->
  scan_num 16 (t +:+ rest) = Some (false, n, rest).
Proof.
  intros Ht Hl Hs. destruct t as [|c1 [|c2 t]]; simpl in Hl; [lia|lia|].
  simpl in Ht. apply andb_true_iff in Ht as [H1 Ht]. apply andb_true_iff in Ht as [H2 Ht].
  destruct (ishex_spec c1 H1) as (Hsp & Hm & Hp & _ & _).
  destruct (ishex_spec c2 H2) as (_ & _ & _ & Hx & HX).
  unfold scan_num. cbn [String.append skip_while]. rewrite Hsp.
  rewrite strip_sign_other by done. simpl ((16 =? 0) || (16 =? 16)). cbv iota.
  rewrite strip_0x_hex by done. change (16 =? 0) with false. cbv iota beta.
  cbn [String.append] in Hs. rewrite Hs.
  unfold starts_digit. unfold ishex in H1. by destruct (digit_val 16 c1).
Qed.

Lemma scan_uw_hex u w n k rest :
  0 <= n < 2 ^ w -> 0 <= w <= 64 -> (2 <= k)%nat -> starts_digit 16 rest = false ->
  scan_uw 16 w (hex_pad u k n +:+ rest) = Some (n, rest).
Proof.
  intros Hn Hw Hk Hr. unfold scan_uw.
  rewrite (scan_num_hex _ n); [|apply hex_pad_chars; lia| |].
  - do 2 f_equal. unfold ulong_of, ULONG_MAX. pose proof (Z.pow_le_mono_r 2 w 64).
    destruct (2 ^ 64 - 1 <? n) eqn:E; zb; [lia|]. apply Z.mod_small. lia.
  - unfold hex_pad. rewrite length_app_str, length_zeros. lia.
  - unfold hex_pad. rewrite app_str_assoc, scan_digits_zeros by lia.
    apply scan_digits_print; [lia|lia|done].
Qed.

(** *** Searching *)

Lemma strchr_app c a b :
  str_forall (fun x => negb (bool_decide (x = c))) a = true ->
  strchr c (a +:+ String c b) = Some (a, b).
Proof.
  induction a as [|x a IH]; simpl; intros H.
  - by rewrite decide_True.
  - apply andb_true_iff in H as [Hx H]. apply negb_true_iff, bool_decide_eq_false in Hx.
    rewrite decide_False by done. by rewrite IH.
Qed.

Lemma strchr_none c a :
  str_forall (fun x => negb (bool_decide (x = c))) a = true -> strchr c a = None.
Proof.
  induction a as [|x a IH]; simpl; intros H; [done|].
  apply andb_true_iff in H as [Hx H]. apply negb_true_iff, bool_decide_eq_false in Hx.
  rewrite decide_False by done. by rewrite IH.
Qed.

Lemma rstrip_app P a b :
  str_forall P b = true -> rstrip P (a +:+ b) = rstrip P a.
Proof.
  intros Hb. induction a as [|x a IH]; simpl.
  - induction b as [|y b IHb]; simpl in *; [done|]. apply andb_true_iff in Hb as [Hy Hb].
    rewrite IHb by done. by rewrite Hy.
  - by rewrite IH.
Qed.

Lemma rstrip_id P a :
  (forall c b, a = b +:+ String c "" -> P c = false) -> rstrip P a = a.
Proof.
  induction a as [|x a IH]; simpl; intros H; [done|].
  rewrite IH.
  - destruct a; [|done]. by rewrite (H x "").
  - intros c b ->. by apply (H c (String x b)).
Qed.

Lemma length_rstrip P s : (String.length (rstrip P s) <= String.length s)%nat.
Proof.
  induction s as [|c s IH]; simpl; [done|].
  destruct (rstrip P s); [destruct (P c); simpl; lia|simpl in *; lia].
Qed.

Lemma rstrip_forall P Q s : str_forall Q s = true -> str_forall Q (rstrip P s) = true.
Proof.
  induction s as [|c s IH]; simpl; [done|]. rewrite andb_true_iff. intros [Hc Hs].
  specialize (IH Hs). destruct (rstrip P s); [destruct (P c); simpl; [done|by rewrite Hc]|].
  simpl in *. by rewrite Hc.
Qed.

(** *** Lines and separators *)

Lemma fgets_line line rest n :
  str_forall (fun c => negb (bool_decide (c = NL))) line = true -> (String.length line < n)%nat ->
  fgets_loop n (line +:+ String NL rest) = (line +:+ String NL "", rest).
Proof.
  revert n. induction line as [|c line IH]; intros [|n] Hl Hn; cbn [String.length] in Hn; try lia; cbn.
  - by rewrite decide_True.
  - simpl in Hl. apply andb_true_iff in Hl as [Hc Hl]. apply negb_true_iff, bool_decide_eq_false in Hc.
    rewrite decide_False by done. by rewrite IH by (done || lia).
Qed.

Lemma fgets_eq line rest size :
  str_forall (fun c => negb (bool_decide (c = NL))) line = true -> (String.length line + 1 < size)%nat ->
  fgets size (line +:+ String NL rest) = Some (line +:+ String NL "", rest).
Proof.
  intros Hl Hn. unfold fgets. destruct (line +:+ String NL rest) eqn:E; [by destruct line|].
  rewrite <- E. f_equal. apply fgets_line; [done|lia].
Qed.

Lemma cstr_id s : str_forall (fun c => negb (code c =? 0)) s = true -> cstr s = s.
Proof. intros H. rewrite <- (app_str_nil_r s) at 1. by apply take_while_app. Qed.

(** A blank before a number is skipped. *)
Lemma scan_num_space b s : scan_num b (String " " s) = scan_num b s.
Proof. reflexivity. Qed.
Lemma scan_d_space s : scan_d (String " " s) = scan_d s.
Proof. reflexivity. Qed.
Lemma scan_uw_space b w s : scan_uw b w (String " " s) = scan_uw b w s.
Proof. reflexivity. Qed.

Lemma dec_chars P z :
  (forall c, isdigit c = true -> P c = true) -> P "-"%char = true -> str_forall P (dec z) = true.
Proof.
  intros Hd Hm. unfold dec. destruct (z <? 0) eqn:E; zb.
  - cbn [String.append str_forall]. rewrite Hm. eapply str_forall_impl; [exact Hd|]. apply dec_u_digits. lia.
  - eapply str_forall_impl; [exact Hd|]. by apply dec_u_digits.
Qed.

Lemma dec_u_chars P n :
  0 <= n -> (forall c, isdigit c = true -> P c = true) -> str_forall P (dec_u n) = true.
Proof. intros Hn Hd. eapply str_forall_impl; [exact Hd|]. by apply dec_u_digits. Qed.

Lemma length_dec z : is_i32 z -> (String.length (dec z) <= 11)%nat.
Proof.
  unfold is_i32, dec. intros H. destruct (z <? 0) eqn:E; zb.
  - cbn. pose proof (length_dec_u (- z) 10). lia.
  - pose proof (length_dec_u z 10). lia.
Qed.

Lemma isdigit_not_special c : isdigit c = true ->
  c <> NL /\ c <> "013"%char /\ code c <> 0 /\ isspace c = false.
Proof.
  intros H. destruct (isdigit_spec c H) as (Hs & _).
  repeat split; try (intros ->; vm_compute in H; discriminate); [|done].
  unfold isdigit in H. zb. lia.
Qed.

#[export] Hint Rewrite scan_d_space scan_uw_space : clib.

(** *** IPv4 addresses

    [s_addr] of a.b.c.d on a little-endian machine, and [inet_ntop]. *)
Definition ipv4 (a b c d : Z) : Z := a + b * 2 ^ 8 + c * 2 ^ 16 + d * 2 ^ 24.
Definition inet_ntop (addr : Z) : string :=
  dec_u (u8 addr) +:+ "." +:+ dec_u (u8 (Z.shiftr addr 8)) +:+ "." +:+
  dec_u (u8 (Z.shiftr addr 16)) +:+ "." +:+ dec_u (u8 (Z.shiftr addr 24)).

Example inet_ntop_loopback : inet_ntop (ipv4 127 0 0 1) = "127.0.0.1"%string.
Proof. reflexivity. Qed.

Lemma length_inet_ntop addr : (String.length (inet_ntop addr) <= 15)%nat.
Proof.
  assert (H : forall z, (String.length (dec_u (u8 z)) <= 3)%nat).
  { intros z. pose proof (u8_byte z) as Hb. unfold is_byte in Hb. apply length_dec_u; lia. }
  unfold inet_ntop. rewrite !length_app_str. pose proof (H addr) as H0. pose proof (H (Z.shiftr addr 8)) as H1.
  pose proof (H (Z.shiftr addr 16)) as H2. pose proof (H (Z.shiftr addr 24)) as H3. clear H.
  change (String.length ".") with 1%nat. lia.
Qed.
