(* ===== verification/DeviceId.v ===== *)
(** Device ids: src/src/device_id.c.

    [hdhr_device_id_is_valid] is the nibble checksum, and
    [hdhr_device_id_generate] builds an id from a 24-bit seed.  The theorems:
    every generated id is valid, distinct seeds give distinct ids, and the
    checksum detects any change of one nibble. *)
From S2P Require Import Prelude.

Definition nibble_lut : list Z :=
  [0xA; 0x5; 0xF; 0x6; 0x7; 0xC; 0x1; 0xB;
   0x9; 0x2; 0x8; 0xD; 0x4; 0x3; 0xE; 0x0].

Definition lut (n : Z) : Z := nth (Z.to_nat n) nibble_lut 0.

(** [(id >> k) & 0xF] *)
Definition nib (id k : Z) : Z := Z.land (Z.shiftr id k) 0xF.

Definition hdhr_device_id_is_valid (id : Z) : bool :=
  let checksum := 0 in
  let checksum := Z.lxor checksum (lut (nib id 28)) in
  let checksum := Z.lxor checksum (nib id 24) in
  let checksum := Z.lxor checksum (lut (nib id 20)) in
  let checksum := Z.lxor checksum (nib id 16) in
  let checksum := Z.lxor checksum (lut (nib id 12)) in
  let checksum := Z.lxor checksum (nib id 8) in
  let checksum := Z.lxor checksum (lut (nib id 4)) in
  let checksum := Z.lxor checksum (nib id 0) in
  checksum =? 0.

(** The id from its eight nibbles. *)
Definition join_nibbles (n7 n6 n5 n4 n3 n2 n1 n0 : Z) : Z :=
  Z.lor (Z.shiftl n7 28) (Z.lor (Z.shiftl n6 24) (Z.lor (Z.shiftl n5 20)
  (Z.lor (Z.shiftl n4 16) (Z.lor (Z.shiftl n3 12) (Z.lor (Z.shiftl n2 8)
  (Z.lor (Z.shiftl n1 4) n0)))))).

Definition hdhr_device_id_generate (seed24 : Z) : Z :=
  let nib7 := 0x1 in
  let nib6 := nib seed24 20 in
  let nib5 := nib seed24 16 in
  let nib4 := nib seed24 12 in
  let nib3 := nib seed24 8 in
  let nib2 := nib seed24 4 in
  let nib1 := nib seed24 0 in
  let partial :=
    Z.lxor (Z.lxor (Z.lxor (Z.lxor (Z.lxor (Z.lxor (lut nib7) nib6) (lut nib5)) nib4)
      (lut nib3)) nib2) (lut nib1) in
  join_nibbles nib7 nib6 nib5 nib4 nib3 nib2 nib1 partial.

Example generate_example : hdhr_device_id_generate 0xABCDEF = 0x1ABCDEF3.
Proof. vm_compute. reflexivity. Qed.

(** ** Nibbles *)

Definition is_nib (n : Z) : Prop := 0 <= n < 16.

Lemma nib_eq id k : 0 <= k -> nib id k = id / 2 ^ k mod 16.
Proof.
  intros. unfold nib. rewrite shiftr_div by lia. change 0xF with (2 ^ 4 - 1).
  by rewrite land_ones_mod.
Qed.

Lemma nib_range id k : 0 <= k -> is_nib (nib id k).
Proof. intros. rewrite nib_eq by lia. apply Z.mod_pos_bound. lia. Qed.

Lemma lxor_nib a b : is_nib a -> is_nib b -> is_nib (Z.lxor a b).
Proof.
  unfold is_nib. intros Ha Hb.
  assert (H : forallb (fun a => forallb (fun b => (0 <=? Z.lxor a b) && (Z.lxor a b <? 16)) (seqZ 0 16)) (seqZ 0 16) = true)
    by (vm_compute; reflexivity).
  rewrite forallb_forall in H. specialize (H a). rewrite <- list_elem_of_In, elem_of_seqZ in H.
  specialize (H ltac:(lia)). rewrite forallb_forall in H. specialize (H b).
  rewrite <- list_elem_of_In, elem_of_seqZ in H. specialize (H ltac:(lia)). zb. lia.
Qed.

Lemma lut_nib n : is_nib n -> is_nib (lut n).
Proof.
  unfold is_nib. intros Hn.
  assert (H : forallb (fun a => (0 <=? lut a) && (lut a <? 16)) (seqZ 0 16) = true)
    by (vm_compute; reflexivity).
  rewrite forallb_forall in H. specialize (H n). rewrite <- list_elem_of_In, elem_of_seqZ in H.
  specialize (H ltac:(lia)). zb. lia.
Qed.

(** The table is a permutation of the nibbles. *)
Lemma lut_inj a b : is_nib a -> is_nib b -> lut a = lut b -> a = b.
Proof.
  unfold is_nib. intros Ha Hb E.
  assert (H : forallb (fun a => forallb (fun b => implb (lut a =? lut b) (a =? b)) (seqZ 0 16)) (seqZ 0 16) = true)
    by (vm_compute; reflexivity).
  rewrite forallb_forall in H. specialize (H a). rewrite <- list_elem_of_In, elem_of_seqZ in H.
  specialize (H ltac:(lia)). rewrite forallb_forall in H. specialize (H b).
  rewrite <- list_elem_of_In, elem_of_seqZ in H. specialize (H ltac:(lia)).
  rewrite E, Z.eqb_refl in H. simpl in H. zb. done.
Qed.

Lemma join_nibbles_eq n7 n6 n5 n4 n3 n2 n1 n0 :
  is_nib n6 -> is_nib n5 -> is_nib n4 -> is_nib n3 -> is_nib n2 -> is_nib n1 -> is_nib n0 ->
  join_nibbles n7 n6 n5 n4 n3 n2 n1 n0 =
  n7 * 2 ^ 28 + n6 * 2 ^ 24 + n5 * 2 ^ 20 + n4 * 2 ^ 16 + n3 * 2 ^ 12 + n2 * 2 ^ 8 + n1 * 2 ^ 4 + n0.
Proof.
  unfold is_nib. intros. unfold join_nibbles.
  rewrite (lor_shiftl_low n1) by lia. rewrite (lor_shiftl_low n2) by lia.
  rewrite (lor_shiftl_low n3) by lia. rewrite (lor_shiftl_low n4) by lia.
  rewrite (lor_shiftl_low n5) by lia. rewrite (lor_shiftl_low n6) by lia.
  rewrite (lor_shiftl_low n7) by lia. lia.
Qed.

Section Join.
  Context (n7 n6 n5 n4 n3 n2 n1 n0 : Z).
  Context (H7 : is_nib n7) (H6 : is_nib n6) (H5 : is_nib n5) (H4 : is_nib n4)
    (H3 : is_nib n3) (H2 : is_nib n2) (H1 : is_nib n1) (H0 : is_nib n0).

Lemma nib_join :
  let id := join_nibbles n7 n6 n5 n4 n3 n2 n1 n0 in
  nib id 28 = n7 /\ nib id 24 = n6 /\ nib id 20 = n5 /\ nib id 16 = n4 /\
  nib id 12 = n3 /\ nib id 8 = n2 /\ nib id 4 = n1 /\ nib id 0 = n0.
Proof using All.
  cbv zeta. rewrite join_nibbles_eq by done. unfold is_nib in *.
  rewrite !nib_eq by lia. repeat split; Z.to_euclidean_division_equations; lia.
Qed.
End Join.

(** Every 32-bit id is the join of its nibbles. *)
Lemma join_nib id :
  is_u32 id ->
  join_nibbles (nib id 28) (nib id 24) (nib id 20) (nib id 16) (nib id 12) (nib id 8) (nib id 4) (nib id 0) = id.
Proof.
  intros H. rewrite join_nibbles_eq by (apply nib_range; lia).
  unfold is_u32 in H. rewrite !nib_eq by lia. Z.to_euclidean_division_equations; lia.
Qed.

Definition nib_positions : list Z := [28; 24; 20; 16; 12; 8; 4; 0].

(** Solves [x = y] from two zero checksums that differ in that term only. *)
Ltac lxor_cancel :=
  match goal with
  | Ha : _ = 0, Hb : _ = 0 |- ?x = ?y =>
      apply Z.bits_inj'; intros i Hi;
      apply (f_equal (fun z => Z.testbit z i)) in Ha, Hb;
      rewrite !Z.lxor_spec, Z.bits_0 in Ha, Hb;
      repeat match goal with
      | H : context [Z.testbit ?u i] |- _ =>
          lazymatch u with x => fail | y => fail | _ => destruct (Z.testbit u i) end
      end;
      destruct (Z.testbit x i), (Z.testbit y i); simpl in *; congruence
  end.

(** Every generated device id passes the device-id checksum and
    starts with the class digit 1, whatever the seed. *)
Lemma generate_valid (seed : Z) :
  hdhr_device_id_is_valid (hdhr_device_id_generate seed) = true /\
  is_u32 (hdhr_device_id_generate seed) /\ nib (hdhr_device_id_generate seed) 28 = 1.
Proof.
  unfold hdhr_device_id_generate. cbv zeta.
  set (p := Z.lxor _ (lut (nib seed 0))).
  assert (Hn : forall k, 0 <= k -> is_nib (nib seed k)) by (intros; by apply nib_range).
  assert (Hp : is_nib p).
  { unfold p. repeat apply lxor_nib; try apply lut_nib; try apply Hn; unfold is_nib; lia. }
  pose proof (nib_join 1 _ _ _ _ _ _ p ltac:(unfold is_nib; lia) (Hn 20 ltac:(lia)) (Hn 16 ltac:(lia))
    (Hn 12 ltac:(lia)) (Hn 8 ltac:(lia)) (Hn 4 ltac:(lia)) (Hn 0 ltac:(lia)) Hp)
    as (E7 & E6 & E5 & E4 & E3 & E2 & E1 & E0).
  split; [|split; [|exact E7]].
  - unfold hdhr_device_id_is_valid. rewrite E7, E6, E5, E4, E3, E2, E1, E0. cbv zeta.
    rewrite Z.lxor_0_l. fold p. by rewrite Z.lxor_nilpotent.
  - rewrite join_nibbles_eq by (first [exact Hp | apply Hn; lia]). unfold is_u32.
    pose proof (Hn 20 ltac:(lia)). pose proof (Hn 16 ltac:(lia)). pose proof (Hn 12 ltac:(lia)).
    pose proof (Hn 8 ltac:(lia)). pose proof (Hn 4 ltac:(lia)). pose proof (Hn 0 ltac:(lia)).
    unfold is_nib in *. lia.
Qed.

(** The seed is readable in the id. *)
Lemma generate_seed seed :
  0 <= seed < 2 ^ 24 -> hdhr_device_id_generate seed / 16 mod 2 ^ 24 = seed.
Proof.
  intros Hs. unfold hdhr_device_id_generate. cbv zeta.
  set (p := Z.lxor _ (lut (nib seed 0))).
  assert (Hn : forall k, 0 <= k -> is_nib (nib seed k)) by (intros; by apply nib_range).
  assert (Hp : is_nib p).
  { unfold p. repeat apply lxor_nib; try apply lut_nib; try apply Hn; unfold is_nib; lia. }
  rewrite join_nibbles_eq by (first [exact Hp | apply Hn; lia]).
  clearbody p. unfold is_nib in Hp. rewrite !nib_eq by lia. clear Hn.
  Z.to_euclidean_division_equations; lia.
Qed.

(** Distinct 24-bit seeds give distinct device ids. *)
Theorem generate_injective (s1 s2 : Z) :
  0 <= s1 < 2 ^ 24 -> 0 <= s2 < 2 ^ 24 ->
  hdhr_device_id_generate s1 = hdhr_device_id_generate s2 -> s1 = s2.
Proof. intros H1 H2 E. rewrite <- (generate_seed s1), <- (generate_seed s2), E by done. done. Qed.

(** The checksum detects every change of a single nibble of a valid
    device id. *)
Lemma nibble_corruption_detected (a b k : Z) :
  k ∈ nib_positions -> nib a k <> nib b k ->
  (forall j, j ∈ nib_positions -> j <> k -> nib a j = nib b j) ->
  hdhr_device_id_is_valid a = true -> hdhr_device_id_is_valid b = false.
Proof.
  intros Hk Hne Heq Ha. destruct (hdhr_device_id_is_valid b) eqn:Hb; [|done]. exfalso. apply Hne.
  unfold hdhr_device_id_is_valid in *. cbv zeta in *. zb. rewrite !Z.lxor_0_l in *.
  assert (Hin : forall j, bool_decide (j ∈ nib_positions) = true -> j ∈ nib_positions)
    by (intros j Hj; by apply bool_decide_eq_true in Hj).
  unfold nib_positions in Hk.
  repeat (apply elem_of_cons in Hk as [->|Hk]; [
    repeat match goal with H : context [nib a ?j] |- _ =>
      rewrite (Heq j) in H by (first [apply Hin; reflexivity | lia]) end; clear Heq Hin|]);
    [..|by apply elem_of_nil in Hk].
  all: first [lxor_cancel | apply lut_inj; [apply nib_range; lia..|lxor_cancel]].
Qed.

Lemma nibble_corruption_detected_witness :
  hdhr_device_id_is_valid 0x1ABCDEF3 = true /\ hdhr_device_id_is_valid 0x1ABCDFF3 = false.
Proof.
  split; [reflexivity|].
  apply (nibble_corruption_detected 0x1ABCDEF3 0x1ABCDFF3 8); try reflexivity.
  - apply (bool_decide_unpack _). vm_compute. exact I.
  - discriminate.
  - intros j Hj Hne. unfold nib_positions in Hj.
    repeat (apply elem_of_cons in Hj as [->|Hj]; [first [reflexivity | by exfalso; apply Hne]|]).
    by apply elem_of_nil in Hj.
Defined.
