(* ===== verification/FreqPlan.v ===== *)
(** Frequency plans: src/src/atsc_freq.c and src/src/channel_map.c.

    [Atsc] is the over-the-air table (us-bcast); [ChannelMap] the range tables
    of the cable and Korean maps with lookups in both directions and the
    enumeration the scan loop uses. *)
From S2P Require Import Prelude.

Module Atsc.

Record atsc_channel_freq := { channel : Z; frequency_hz : Z }.

Definition ATSC_FREQ_TABLE_COUNT : Z := 35.

Definition atsc_freq_table : list atsc_channel_freq :=
  [ {| channel := 2; frequency_hz := 57000000 |};
    {| channel := 3; frequency_hz := 63000000 |};
    {| channel := 4; frequency_hz := 69000000 |};
    {| channel := 5; frequency_hz := 79000000 |};
    {| channel := 6; frequency_hz := 85000000 |};
    {| channel := 7; frequency_hz := 177000000 |};
    {| channel := 8; frequency_hz := 183000000 |};
    {| channel := 9; frequency_hz := 189000000 |};
    {| channel := 10; frequency_hz := 195000000 |};
    {| channel := 11; frequency_hz := 201000000 |};
    {| channel := 12; frequency_hz := 207000000 |};
    {| channel := 13; frequency_hz := 213000000 |};
    {| channel := 14; frequency_hz := 473000000 |};
    {| channel := 15; frequency_hz := 479000000 |};
    {| channel := 16; frequency_hz := 485000000 |};
    {| channel := 17; frequency_hz := 491000000 |};
    {| channel := 18; frequency_hz := 497000000 |};
    {| channel := 19; frequency_hz := 503000000 |};
    {| channel := 20; frequency_hz := 509000000 |};
    {| channel := 21; frequency_hz := 515000000 |};
    {| channel := 22; frequency_hz := 521000000 |};
    {| channel := 23; frequency_hz := 527000000 |};
    {| channel := 24; frequency_hz := 533000000 |};
    {| channel := 25; frequency_hz := 539000000 |};
    {| channel := 26; frequency_hz := 545000000 |};
    {| channel := 27; frequency_hz := 551000000 |};
    {| channel := 28; frequency_hz := 557000000 |};
    {| channel := 29; frequency_hz := 563000000 |};
    {| channel := 30; frequency_hz := 569000000 |};
    {| channel := 31; frequency_hz := 575000000 |};
    {| channel := 32; frequency_hz := 581000000 |};
    {| channel := 33; frequency_hz := 587000000 |};
    {| channel := 34; frequency_hz := 593000000 |};
    {| channel := 35; frequency_hz := 599000000 |};
    {| channel := 36; frequency_hz := 605000000 |} ].

Definition atsc_freq_to_channel (freq_hz : Z) : Z :=
  match List.find (fun e => frequency_hz e =? freq_hz) atsc_freq_table with
  | Some e => channel e
  | None => 0
  end.

Definition atsc_channel_to_freq (ch : Z) : Z :=
  match List.find (fun e => channel e =? ch) atsc_freq_table with
  | Some e => frequency_hz e
  | None => 0
  end.

End Atsc.

Module ChannelMap.

Inductive hdhr_delivery_system := HDHR_DELIVERY_ATSC_VSB | HDHR_DELIVERY_QAM.

#[export] Instance delivery_eq_dec : EqDecision hdhr_delivery_system.
Proof. solve_decision. Defined.

Record channel_map_range := mk_range {
  channel_start : Z;
  channel_end : Z;
  base_freq_hz : Z;
  spacing_hz : Z
}.

(** [ranges] stops before the all-zero terminator. *)
Record channel_map_def := {
  name : string;
  ranges : list channel_map_range;
  delivery : hdhr_delivery_system
}.

Definition range_us_cable : list channel_map_range :=
  [ mk_range 2 4 57000000 6000000;
    mk_range 5 6 79000000 6000000;
    mk_range 7 13 177000000 6000000;
    mk_range 14 22 123000000 6000000;
    mk_range 23 94 219000000 6000000;
    mk_range 95 99 93000000 6000000;
    mk_range 100 158 651000000 6000000 ].

Definition range_us_hrc : list channel_map_range :=
  [ mk_range 2 4 55752700 6000300;
    mk_range 5 6 79753900 6000300;
    mk_range 7 13 175758700 6000300;
    mk_range 14 22 121756000 6000300;
    mk_range 23 94 217760800 6000300;
    mk_range 95 99 91754500 6000300;
    mk_range 100 158 649782400 6000300 ].

Definition range_us_irc : list channel_map_range :=
  [ mk_range 2 4 57012500 6000000;
    mk_range 5 6 81012500 6000000;
    mk_range 7 13 177012500 6000000;
    mk_range 14 22 123012500 6000000;
    mk_range 23 41 219012500 6000000;
    mk_range 42 42 333025000 6000000;
    mk_range 43 94 339012500 6000000;
    mk_range 95 97 93012500 6000000;
    mk_range 98 99 111025000 6000000;
    mk_range 100 158 651012500 6000000 ].

Definition range_kr_cable : list channel_map_range :=
  [ mk_range 2 4 57000000 6000000;
    mk_range 5 6 79000000 6000000;
    mk_range 7 13 177000000 6000000;
    mk_range 14 22 123000000 6000000;
    mk_range 23 153 219000000 6000000 ].

Definition range_kr_bcast : list channel_map_range :=
  [ mk_range 2 4 57000000 6000000;
    mk_range 5 6 79000000 6000000;
    mk_range 7 13 177000000 6000000;
    mk_range 14 36 473000000 6000000 ].

Definition maps : list channel_map_def :=
  [ {| name := "us-cable"; ranges := range_us_cable; delivery := HDHR_DELIVERY_QAM |};
    {| name := "us-hrc"; ranges := range_us_hrc; delivery := HDHR_DELIVERY_QAM |};
    {| name := "us-irc"; ranges := range_us_irc; delivery := HDHR_DELIVERY_QAM |};
    {| name := "kr-cable"; ranges := range_kr_cable; delivery := HDHR_DELIVERY_QAM |};
    {| name := "kr-bcast"; ranges := range_kr_bcast; delivery := HDHR_DELIVERY_ATSC_VSB |} ].

Definition channel_map_find (n : string) : option channel_map_def :=
  List.find (fun m => bool_decide (name m = n)) maps.

(** [base + (uint32_t)(ch - start) * spacing], in 32-bit arithmetic. *)
Definition range_freq (r : channel_map_range) (ch : Z) : Z :=
  u32 (base_freq_hz r + u32 (u32 (ch - channel_start r) * spacing_hz r)).

Definition channel_map_channel_to_freq (map : channel_map_def) (ch : Z) : Z :=
  match List.find (fun r => (channel_start r <=? ch) && (ch <=? channel_end r)) (ranges map) with
  | Some r => range_freq r ch
  | None => 0
  end.

(** The channels [channel_start .. channel_end] of a range, in order. *)
Definition range_channels (r : channel_map_range) : list Z :=
  seqZ (channel_start r) (channel_end r - channel_start r + 1).

Fixpoint freq_to_channel_loop (rs : list channel_map_range) (freq_hz : Z) : Z :=
  match rs with
  | [] => 0
  | r :: rs =>
      match List.find (fun ch => range_freq r ch =? freq_hz) (range_channels r) with
      | Some ch => ch
      | None => freq_to_channel_loop rs freq_hz
      end
  end.

Definition channel_map_freq_to_channel (map : channel_map_def) (freq_hz : Z) : Z :=
  freq_to_channel_loop (ranges map) freq_hz.

Definition channel_map_count (map : channel_map_def) : Z :=
  fold_left (fun total r => total + (channel_end r - channel_start r + 1)) (ranges map) 0.

Fixpoint nth_loop (rs : list channel_map_range) (index : Z) : option (Z * Z) :=
  match rs with
  | [] => None
  | r :: rs =>
      let span := channel_end r - channel_start r + 1 in
      if index <? span then
        let ch := channel_start r + index in Some (ch, range_freq r ch)
      else nth_loop rs (index - span)
  end.

Definition channel_map_nth (map : channel_map_def) (index : Z) : option (Z * Z) :=
  if index <? 0 then None else nth_loop (ranges map) index.

End ChannelMap.
Import Atsc ChannelMap.

Example cable_2 : exists m, channel_map_find "us-irc" = Some m /\ channel_map_channel_to_freq m 43 = 339012500.
Proof. eexists. split; reflexivity. Qed.

(** ** The over-the-air table *)

Lemma find_in_table {A} (P : A -> bool) (l : list A) (x : A) :
  List.find P l = Some x -> In x l /\ P x = true.
Proof. apply List.find_some. Qed.

(** The two lookups of the ATSC table are inverse to each other: a
    frequency is found for a channel exactly when that channel is found for
    the frequency (0 means not found). *)
Theorem atsc_lookups_inverse (ch f : Z) :
  (f <> 0 /\ atsc_channel_to_freq ch = f) <-> (ch <> 0 /\ atsc_freq_to_channel f = ch).
Proof.
  unfold atsc_channel_to_freq, atsc_freq_to_channel. split; intros [H0 H].
  - destruct (List.find _ _) as [e|] eqn:E in H; [|congruence]. subst f.
    apply find_in_table in E as [Hin Hch]. apply Z.eqb_eq in Hch. subst ch.
    simpl in Hin. repeat destruct Hin as [<-|Hin]; [done..|destruct Hin].
  - destruct (List.find _ _) as [e|] eqn:E in H; [|congruence]. subst ch.
    apply find_in_table in E as [Hin Hch]. apply Z.eqb_eq in Hch. subst f.
    simpl in Hin. repeat destruct Hin as [<-|Hin]; [done..|destruct Hin].
Qed.

Lemma atsc_table_length : Z.of_nat (length atsc_freq_table) = ATSC_FREQ_TABLE_COUNT.
Proof. reflexivity. Qed.

(** ** The range tables *)

(** Every channel of a map with its frequency, in table order. *)
Definition range_entries (r : channel_map_range) : list (Z * Z) :=
  map (fun ch => (ch, range_freq r ch)) (range_channels r).
Definition entries (m : channel_map_def) : list (Z * Z) := flat_map range_entries (ranges m).

Definition range_ok (r : channel_map_range) : bool := channel_start r <=? channel_end r.

Lemma length_range_entries r :
  range_ok r = true -> Z.of_nat (length (range_entries r)) = channel_end r - channel_start r + 1.
Proof.
  unfold range_ok, range_entries, range_channels. intros H. zb.
  rewrite length_map, length_seqZ. lia.
Qed.

Lemma nth_range_entries r i :
  0 <= i < channel_end r - channel_start r + 1 ->
  range_entries r !! Z.to_nat i = Some (channel_start r + i, range_freq r (channel_start r + i)).
Proof.
  intros. unfold range_entries. rewrite list_lookup_fmap. unfold range_channels.
  rewrite lookup_seqZ_lt by lia. simpl. by rewrite Z2Nat.id by lia.
Qed.

Lemma nth_loop_entries rs i :
  forallb range_ok rs = true -> 0 <= i -> nth_loop rs i = flat_map range_entries rs !! Z.to_nat i.
Proof.
  revert i. induction rs as [|r rs IH]; intros i Hr Hi; simpl in *; [done|].
  zb. pose proof (length_range_entries r ltac:(done)) as Hl.
  destruct (i <? _) eqn:E; zb.
  - rewrite lookup_app_l by lia. by rewrite nth_range_entries by lia.
  - rewrite lookup_app_r by lia. rewrite IH by (done || lia). f_equal. lia.
Qed.

Lemma count_entries_acc rs t :
  forallb range_ok rs = true ->
  fold_left (fun total r => total + (channel_end r - channel_start r + 1)) rs t =
  t + Z.of_nat (length (flat_map range_entries rs)).
Proof.
  revert t. induction rs as [|r rs IH]; intros t Hr; simpl in *; [lia|].
  zb. rewrite IH by done. rewrite length_app, Nat2Z.inj_add, length_range_entries by done. lia.
Qed.

(** What a map needs: sound ranges, no channel or frequency twice, none 0,
    and agreeing lookups; checked by computation. *)
Definition entry_ok (m : channel_map_def) (e : Z * Z) : bool :=
  (channel_map_channel_to_freq m (fst e) =? snd e) && (channel_map_freq_to_channel m (snd e) =? fst e)
  && negb (fst e =? 0) && negb (snd e =? 0).
Definition map_ok (m : channel_map_def) : bool :=
  forallb range_ok (ranges m) && forallb (entry_ok m) (entries m).

Lemma maps_ok : forallb map_ok maps = true.
Proof. vm_compute. reflexivity. Qed.

Lemma find_map_ok n m : channel_map_find n = Some m -> map_ok m = true.
Proof.
  unfold channel_map_find. intros H. apply find_in_table in H as [H _].
  pose proof maps_ok as Hm. rewrite forallb_forall in Hm. auto.
Qed.

Lemma channel_to_freq_entry m ch :
  channel_map_channel_to_freq m ch <> 0 -> In (ch, channel_map_channel_to_freq m ch) (entries m).
Proof.
  unfold channel_map_channel_to_freq, entries. intros H.
  destruct (List.find _ _) as [r|] eqn:E; [|done].
  apply find_in_table in E as [Hin Hr]. zb. apply in_flat_map. exists r. split; [done|].
  unfold range_entries. apply in_map_iff. exists ch. split; [done|].
  apply list_elem_of_In. apply elem_of_seqZ. lia.
Qed.

Lemma freq_to_channel_entry m f :
  channel_map_freq_to_channel m f <> 0 -> In (channel_map_freq_to_channel m f, f) (entries m).
Proof.
  unfold channel_map_freq_to_channel, entries.
  induction (ranges m) as [|r rs IH]; simpl; [done|]. intros H.
  destruct (List.find _ _) as [ch|] eqn:E; apply in_or_app.
  - left. apply find_in_table in E as [Hin Hf]. apply Z.eqb_eq in Hf.
    unfold range_entries. apply in_map_iff. exists ch. by rewrite Hf.
  - right. auto.
Qed.

(** Claim C14: in every channel map the two lookups are inverse to each other:
    no two channels share a frequency, and the channel found for a frequency
    is the one that lies on it (0 means not found). *)
Theorem channel_map_lookups_inverse (n : string) (m : channel_map_def) (ch f : Z) :
  channel_map_find n = Some m ->
  (f <> 0 /\ channel_map_channel_to_freq m ch = f) <->
  (ch <> 0 /\ channel_map_freq_to_channel m f = ch).
Proof.
  intros Hm. apply find_map_ok in Hm. unfold map_ok in Hm. zb.
  assert (Hall : forall e, In e (entries m) -> entry_ok m e = true) by (by apply forallb_forall).
  split; intros [H0' H1'].
  - subst f. apply channel_to_freq_entry, Hall in H0'. unfold entry_ok in H0'. zb. done.
  - subst ch. apply freq_to_channel_entry, Hall in H0'. unfold entry_ok in H0'. zb. done.
Qed.

(** [channel_map_nth] enumerates a map: it is defined exactly for
    the indices below [channel_map_count], gives each channel with the
    frequency the lookups give it, and reaches every channel of the map. *)
Theorem channel_map_enumeration (n : string) (m : channel_map_def) :
  channel_map_find n = Some m ->
  (forall i, is_Some (channel_map_nth m i) <-> 0 <= i < channel_map_count m) /\
  (forall i ch f, channel_map_nth m i = Some (ch, f) ->
     f <> 0 /\ channel_map_channel_to_freq m ch = f /\ channel_map_freq_to_channel m f = ch) /\
  (forall ch, channel_map_channel_to_freq m ch <> 0 ->
     exists i, channel_map_nth m i = Some (ch, channel_map_channel_to_freq m ch)).
Proof.
  intros Hm. apply find_map_ok in Hm. unfold map_ok in Hm. zb.
  assert (Hall : forall e, In e (entries m) -> entry_ok m e = true) by (by apply forallb_forall).
  assert (Hnth : forall i, 0 <= i -> channel_map_nth m i = entries m !! Z.to_nat i).
  { intros i Hi. unfold channel_map_nth. destruct (i <? 0) eqn:E; zb; [lia|]. by apply nth_loop_entries. }
  split; [|split].
  - intros i. unfold channel_map_count. rewrite count_entries_acc by done. fold (entries m).
    destruct (decide (0 <= i)).
    + rewrite Hnth by done. rewrite lookup_lt_is_Some. lia.
    + unfold channel_map_nth. destruct (i <? 0) eqn:E; zb; [|lia].
      split; [intros [? [=]]|lia].
  - intros i ch f Hi. assert (In (ch, f) (entries m)) as He.
    { destruct (decide (0 <= i)).
      - rewrite Hnth in Hi by done. apply list_elem_of_In. by eapply list_elem_of_lookup_2.
      - unfold channel_map_nth in Hi. destruct (i <? 0) eqn:E; zb; [done|lia]. }
    apply Hall in He. unfold entry_ok in He. zb. done.
  - intros ch Hch. apply channel_to_freq_entry, list_elem_of_In, list_elem_of_lookup in Hch as [i Hi].
    exists (Z.of_nat i). rewrite Hnth by lia. by rewrite Nat2Z.id.
Qed.

Lemma channel_map_lookups_inverse_witness :
  exists m, channel_map_find "us-hrc" = Some m /\
    channel_map_freq_to_channel m (channel_map_channel_to_freq m 98) = 98.
Proof.
  eexists. split; [reflexivity|].
  apply (channel_map_lookups_inverse "us-hrc"); [reflexivity|]. split; [|reflexivity].
  vm_compute. discriminate.
Defined.

Lemma channel_map_enumeration_witness :
  exists m, channel_map_find "kr-bcast" = Some m /\ channel_map_count m = 35 /\
    (exists i, channel_map_nth m i = Some (36, 605000000)).
Proof.
  eexists. split; [reflexivity|]. split; [reflexivity|].
  apply (channel_map_enumeration "kr-bcast") with (ch := 36); [reflexivity|].
  vm_compute. discriminate.
Defined.
