(* ===== verification/PidFilter.v ===== *)
(** PID filters: src/src/pid_filter.c.

    [pid_filter_parse] reads the text a client sets, [pid_filter_format]
    prints a PID set.  The theorems: an accepted text gives at most 32 sound
    ranges; what [pid_filter_format] prints parses back to ranges that cover
    exactly the given PIDs, each once. *)
From Stdlib Require Import Sorted.
From S2P Require Import Prelude CLib.

Definition PID_FILTER_MAX_RANGES : nat := 32.

Record pid_range := { start : Z; end_ : Z }.

(** [count] is the length of the list. *)
Definition pid_filter := list pid_range.

(** [sscanf(s, "0x%x", &v) == 1] *)
Definition scan_0x (s : string) : option Z :=
  s' ← scan_lit "0x" s;
  '(v, _) ← scan_uw 16 32 s';
  Some v.

(** One token: "0xA" or "0xA-0xB". *)
Definition parse_token (buf : string) : option (Z * Z) :=
  match strchr "-" buf with
  | Some (a, b) =>
      s ← scan_0x a;
      e ← scan_0x b;
      Some (s, e)
  | None =>
      s ← scan_0x buf;
      Some (s, s)
  end.

(** The loop over tokens; every turn consumes a character. *)
Fixpoint parse_loop (fuel : nat) (p : string) (out : pid_filter) : option pid_filter :=
  match fuel with
  | O => Some out
  | S fuel =>
      match skip_while isspace p with
      | EmptyString => Some out
      | p =>
          let tok := take_while (fun c => negb (isspace c)) p in
          let p' := skip_while (fun c => negb (isspace c)) p in
          if (32 <=? String.length tok)%nat then None
          else
            '(s, e) ← parse_token tok;
            if (0x1FFF <? s) || (0x1FFF <? e) || (e <? s) then None
            else if (PID_FILTER_MAX_RANGES <=? length out)%nat then None
            else parse_loop fuel p' (out ++ [{| start := s; end_ := e |}])
      end
  end.

Definition pid_filter_parse (str : option string) : option pid_filter :=
  match str with
  | None => Some []
  | Some s => parse_loop (String.length s) s []
  end.

Definition pid_filter_total_count (f : pid_filter) : Z :=
  fold_left (fun total r => total + (end_ r - start r + 1)) f 0.

(** Insertion sort: [rp] is the sorted prefix, last element first, and the
    key moves left past the greater ones. *)
Fixpoint insert_key (key : Z) (rp : list Z) : list Z :=
  match rp with
  | x :: rp' => if key <? x then x :: insert_key key rp' else key :: rp
  | [] => [key]
  end.

Definition sort_pids (pids : list Z) : list Z :=
  rev (fold_left (fun rp key => insert_key key rp) pids []).

(** In-place removal of equal neighbours; [last] is [sorted[n-1]]. *)
Fixpoint dedup_loop (last : option Z) (l : list Z) : list Z :=
  match l with
  | [] => []
  | x :: l' =>
      if bool_decide (last = Some x) then dedup_loop last l' else x :: dedup_loop (Some x) l'
  end.

(** The run of consecutive PIDs after [last], and what follows it. *)
Fixpoint take_run (last : Z) (l : list Z) : Z * list Z :=
  match l with
  | y :: l' => if y =? last + 1 then take_run y l' else (last, l)
  | [] => (last, [])
  end.

Definition fmt_pid (p : Z) : string := "0x" +:+ hex_pad false 4 p.

Definition fmt_range (i j : Z) : string :=
  if i =? j then fmt_pid i +:+ " " else fmt_pid i +:+ "-" +:+ fmt_pid j +:+ " ".

Fixpoint format_loop (fuel : nat) (l : list Z) (out : string) (out_len : nat) : string :=
  match fuel, l with
  | S fuel, x :: l' =>
      let '(y, rest) := take_run x l' in
      let out := out +:+ fmt_range x y in
      if (out_len <=? String.length out)%nat then str_take (out_len - 1) out
      else format_loop fuel rest out out_len
  | _, _ => out
  end.

(** [if (off > 0 && out[off - 1] == ' ') out[off - 1] = 0] *)
Fixpoint trim_last_space (s : string) : string :=
  match s with
  | EmptyString => EmptyString
  | String c EmptyString => if decide (c = " "%char) then EmptyString else s
  | String c s' => String c (trim_last_space s')
  end.

Definition pid_filter_format (pids : list Z) (out_len : nat) : string :=
  let pids := take 64 pids in
  let l := dedup_loop None (sort_pids pids) in
  trim_last_space (format_loop (length l) l "" out_len).

Example format_example :
  pid_filter_format [0x31; 0x1ffb; 0; 0x30; 0x32; 0x31] 512 = "0x0000 0x0030-0x0032 0x1ffb"%string.
Proof. vm_compute. reflexivity. Qed.
Example parse_example :
  pid_filter_parse (Some "  0x0-0x1fff	0x31 "%string) = Some [ {| start := 0; end_ := 0x1fff |}; {| start := 0x31; end_ := 0x31 |} ].
Proof. vm_compute. reflexivity. Qed.

(** ** Parsing is sound *)

Definition range_ok (r : pid_range) : Prop := 0 <= start r <= end_ r /\ end_ r <= 0x1FFF.

Lemma scan_uw_range b w s v r : 0 <= w -> scan_uw b w s = Some (v, r) -> 0 <= v < 2 ^ w.
Proof.
  intros Hw. unfold scan_uw. destruct (scan_num b s) as [[[neg x] r']|]; [|done].
  intros [= <- _]. apply Z.mod_pos_bound. lia.
Qed.

Lemma scan_0x_range s v : scan_0x s = Some v -> is_u32 v.
Proof.
  unfold scan_0x. destruct (scan_lit "0x" s) as [s'|]; [|done]. simpl.
  destruct (scan_uw 16 32 s') as [[x r]|] eqn:E; [|done]. simpl. intros [= <-].
  by apply scan_uw_range in E.
Qed.

Lemma parse_token_range buf s e : parse_token buf = Some (s, e) -> is_u32 s /\ is_u32 e.
Proof.
  unfold parse_token. destruct (strchr "-" buf) as [[a b]|].
  - destruct (scan_0x a) eqn:Ea; [|done]. simpl. destruct (scan_0x b) eqn:Eb; [|done]. simpl.
    intros [= <- <-]. eauto using scan_0x_range.
  - destruct (scan_0x buf) eqn:Ea; [|done]. simpl. intros [= <- <-]. eauto using scan_0x_range.
Qed.

Lemma parse_loop_ok fuel p out f :
  Forall range_ok out -> (length out <= PID_FILTER_MAX_RANGES)%nat ->
  parse_loop fuel p out = Some f ->
  Forall range_ok f /\ (length f <= PID_FILTER_MAX_RANGES)%nat.
Proof.
  revert p out. induction fuel as [|fuel IH]; intros p out Hok Hlen; cbn [parse_loop].
  - intros [= <-]. done.
  - destruct (skip_while isspace p) as [|c p'] eqn:Ep; [by intros [= <-]|].
    destruct (32 <=? _)%nat; [done|].
    destruct (parse_token _) as [[s e]|] eqn:Et; [|done]. cbn [mbind option_bind].
    destruct (_ || _ || _) eqn:Eg; [done|]. destruct (PID_FILTER_MAX_RANGES <=? length out)%nat eqn:El; [done|].
    apply parse_token_range in Et as [Hs He]. apply Nat.leb_gt in El. unfold is_u32 in *. zb.
    apply IH.
    + apply Forall_app. split; [done|]. constructor; [|done]. unfold range_ok. simpl. lia.
    + rewrite length_app. simpl. lia.
Qed.

(** An accepted filter has at most 32 ranges, and each is within the
    13-bit PIDs with its start not after its end. *)
Theorem parse_sound (s : string) (f : pid_filter) :
  pid_filter_parse (Some s) = Some f ->
  Forall range_ok f /\ (length f <= PID_FILTER_MAX_RANGES)%nat.
Proof. apply parse_loop_ok; [done|simpl; lia]. Qed.

(** ** Sorting and removing duplicates *)

Definition desc_le : list Z -> Prop := Sorted (fun a b => b <= a).

Lemma insert_key_perm k rp : insert_key k rp ≡ₚ k :: rp.
Proof.
  induction rp as [|x rp IH]; simpl; [done|]. destruct (k <? x); [|done].
  rewrite IH. apply Permutation_swap.
Qed.

Lemma insert_key_sorted k rp : desc_le rp -> desc_le (insert_key k rp).
Proof.
  unfold desc_le. induction rp as [|x rp IH]; simpl; intros H; [by repeat constructor|].
  destruct (k <? x) eqn:E; zb.
  - apply Sorted_inv in H as [Hs Hd]. constructor; [auto|].
    destruct rp as [|y rp]; simpl; [constructor; lia|].
    apply HdRel_inv in Hd. destruct (k <? y); constructor; lia.
  - constructor; [done|]. constructor. lia.
Qed.

Lemma sort_fold pids rp :
  desc_le rp ->
  desc_le (fold_left (fun rp key => insert_key key rp) pids rp) /\
  fold_left (fun rp key => insert_key key rp) pids rp ≡ₚ pids ++ rp.
Proof.
  revert rp. induction pids as [|k pids IH]; intros rp H; simpl; [done|].
  destruct (IH (insert_key k rp) (insert_key_sorted k rp H)) as [Hs Hp]. split; [done|].
  rewrite Hp, insert_key_perm. by rewrite Permutation_middle.
Qed.

Lemma StronglySorted_snoc l x :
  StronglySorted Z.le l -> Forall (fun y => y <= x) l -> StronglySorted Z.le (l ++ [x]).
Proof.
  induction l as [|y l IH]; intros Hs Hf; simpl; [repeat constructor|].
  apply StronglySorted_inv in Hs as [Hs Hy]. apply Forall_cons in Hf as [Hyx Hf].
  constructor; [auto|]. apply Forall_app. split; [done|]. by repeat constructor.
Qed.

Lemma sort_pids_spec pids :
  StronglySorted Z.le (sort_pids pids) /\ sort_pids pids ≡ₚ pids.
Proof.
  unfold sort_pids. destruct (sort_fold pids [] ltac:(constructor)) as [Hs Hp].
  rewrite app_nil_r in Hp. split; [|rewrite <- Hp at 2; symmetry; apply Permutation_rev].
  clear Hp. unfold desc_le in Hs.
  apply Sorted_StronglySorted in Hs; [|intros a b c; lia].
  induction Hs as [|x l Hs IH Hx]; simpl; [constructor|].
  apply StronglySorted_snoc; [done|]. apply Forall_rev. done.
Qed.

Lemma dedup_sorted last l :
  StronglySorted Z.le l -> (forall x, last = Some x -> Forall (fun y => x <= y) l) ->
  StronglySorted Z.lt (dedup_loop last l) /\
  (forall x, last = Some x -> Forall (fun y => x < y) (dedup_loop last l)) /\
  (forall p, p ∈ dedup_loop last l <-> p ∈ l /\ last <> Some p).
Proof.
  revert last. induction l as [|x l IH]; intros last Hs Hl; cbn [dedup_loop].
  - repeat split; intros; try constructor; set_solver.
  - apply StronglySorted_inv in Hs as [Hs Hx].
    destruct (bool_decide (last = Some x)) eqn:E.
    + apply bool_decide_eq_true in E.
      destruct (IH last Hs) as (H1 & H2 & H3).
      { intros y Hy. assert (y = x) as -> by congruence. done. }
      split; [done|]. split; [done|]. intros p. rewrite H3. set_solver.
    + apply bool_decide_eq_false in E.
      destruct (IH (Some x) Hs) as (H1 & H2 & H3); [intros y [= <-]; done|].
      assert (Hlast : forall y, last = Some y -> y < x).
      { intros y Hy. specialize (Hl y Hy). apply Forall_cons in Hl as [Hl _].
        assert (y <> x) by congruence. lia. }
      split; [constructor; auto|]. split.
      * intros y Hy. constructor; [auto|]. eapply Forall_impl; [by apply (H2 x)|].
        intros z Hz. specialize (Hlast y Hy). cbv beta in Hz. lia.
      * intros p. rewrite !elem_of_cons, H3. split.
        2:{ intros [[->|Hp] Hn]; [by left|]. destruct (decide (p = x)) as [->|]; [by left|right; split; congruence]. }
        intros [->|[Hp Hne]]; [auto|]. split; [auto|]. intros Hlp.
        specialize (Hl p Hlp). specialize (Hlast p Hlp).
        rewrite Forall_forall in Hx. specialize (Hx p Hp). lia.
Qed.

Lemma sorted_lt_NoDup l : StronglySorted Z.lt l -> NoDup l.
Proof.
  induction 1 as [|x l Hs IH Hx]; constructor; [|done].
  intros Hin. rewrite Forall_forall in Hx. specialize (Hx x Hin). lia.
Qed.

(** The PIDs that are printed: those given, each once, in order. *)
Lemma pids_spec pids :
  let l := dedup_loop None (sort_pids pids) in
  StronglySorted Z.lt l /\ (forall p, p ∈ l <-> p ∈ pids) /\ NoDup l.
Proof.
  intros l. destruct (sort_pids_spec pids) as [Hs Hp].
  destruct (dedup_sorted None _ Hs) as (H1 & _ & H3); [done|].
  split; [done|]. split; [|by apply sorted_lt_NoDup].
  intros p. unfold l. rewrite H3, Hp. naive_solver.
Qed.

(** ** Runs *)

Fixpoint runs (fuel : nat) (l : list Z) : pid_filter :=
  match fuel, l with
  | S fuel, x :: l' =>
      let '(y, rest) := take_run x l' in {| start := x; end_ := y |} :: runs fuel rest
  | _, _ => []
  end.

Lemma take_run_spec x l y rest :
  take_run x l = (y, rest) ->
  x <= y /\ (forall p, p ∈ x :: l <-> x <= p <= y \/ p ∈ rest) /\
  Z.of_nat (length l) = y - x + Z.of_nat (length rest) /\ (length rest <= length l)%nat /\
  (forall P : Z -> Prop, P x -> Forall P l -> P y /\ Forall P rest).
Proof.
  revert x. induction l as [|z l IH]; intros x; cbn [take_run].
  - intros [= <- <-]. repeat split; try done; try lia; intros; rewrite ?list_elem_of_singleton in *; try set_solver by lia.
  - destruct (z =? x + 1) eqn:E; zb.
    + subst z. intros H. destruct (IH _ H) as (H1 & H2 & H3 & H4 & H5).
      split; [lia|]. split; [|split; [simpl; lia|split; [simpl; lia|]]].
      * intros p. rewrite elem_of_cons, H2. split; [intros [->|[?|?]]; auto with lia|].
        intros [?|?]; [|auto]. destruct (decide (p = x)); [auto|right; left; lia].
      * intros P Hx Hf. apply Forall_cons in Hf as [? ?]. auto.
    + intros [= <- <-]. split; [lia|]. split; [|split; [lia|split; [lia|auto]]].
      intros p. rewrite elem_of_cons. split; [intros [->|?]; auto with lia|].
      intros [?|?]; [left; lia|auto].
Qed.

Definition covers (f : pid_filter) (p : Z) : Prop := Exists (fun r => start r <= p <= end_ r) f.

Lemma runs_covers fuel l p : (length l <= fuel)%nat -> covers (runs fuel l) p <-> p ∈ l.
Proof.
  unfold covers. revert l. induction fuel as [|fuel IH]; intros [|x l] Hf; simpl in *; try lia;
    try (rewrite Exists_nil; set_solver).
  destruct (take_run x l) as [y rest] eqn:E. destruct (take_run_spec _ _ _ _ E) as (H1 & H2 & H3 & H4 & _).
  rewrite Exists_cons, IH by lia. simpl. by rewrite H2.
Qed.

Lemma runs_total fuel l t :
  (length l <= fuel)%nat ->
  fold_left (fun total r => total + (end_ r - start r + 1)) (runs fuel l) t = t + Z.of_nat (length l).
Proof.
  revert l t. induction fuel as [|fuel IH]; intros [|x l] t Hf; simpl in *; try lia.
  destruct (take_run x l) as [y rest] eqn:E. destruct (take_run_spec _ _ _ _ E) as (H1 & H2 & H3 & H4 & _).
  simpl. rewrite IH by lia. lia.
Qed.

Lemma runs_ok fuel l :
  Forall (fun p => 0 <= p <= 0x1FFF) l -> Forall range_ok (runs fuel l).
Proof.
  revert l. induction fuel as [|fuel IH]; intros [|x l] Hf; simpl; try constructor.
  apply Forall_cons in Hf as [Hx Hl].
  destruct (take_run x l) as [y rest] eqn:E. destruct (take_run_spec _ _ _ _ E) as (H1 & H2 & H3 & H4 & H5).
  destruct (H5 _ Hx Hl). constructor; [unfold range_ok; simpl; lia|auto].
Qed.

Lemma runs_length fuel l : (length (runs fuel l) <= length l)%nat.
Proof.
  revert l. induction fuel as [|fuel IH]; intros [|x l]; simpl; try lia.
  destruct (take_run x l) as [y rest] eqn:E. destruct (take_run_spec _ _ _ _ E) as (H1 & H2 & H3 & H4 & H5).
  simpl. specialize (IH rest). lia.
Qed.

(** ** Printing and parsing *)

Definition fmt_tok (r : pid_range) : string :=
  if start r =? end_ r then fmt_pid (start r) else fmt_pid (start r) +:+ "-" +:+ fmt_pid (end_ r).

Fixpoint text (rs : pid_filter) : string :=
  match rs with
  | [] => ""
  | [r] => fmt_tok r
  | r :: rs => fmt_tok r +:+ " " +:+ text rs
  end.

Fixpoint text_sp (rs : pid_filter) : string :=
  match rs with [] => "" | r :: rs => fmt_tok r +:+ " " +:+ text_sp rs end.

Lemma fmt_range_tok r : fmt_range (start r) (end_ r) = fmt_tok r +:+ " ".
Proof. unfold fmt_range, fmt_tok. destruct (_ =? _); [done|]. by rewrite !app_str_assoc. Qed.

Lemma text_sp_eq r rs : text_sp (r :: rs) = text (r :: rs) +:+ " ".
Proof.
  revert r. induction rs as [|r' rs IH]; intros r; [by cbn; rewrite ?app_str_nil_r|].
  change (text_sp (r :: r' :: rs)) with (fmt_tok r +:+ " " +:+ text_sp (r' :: rs)).
  rewrite IH. change (text (r :: r' :: rs)) with (fmt_tok r +:+ " " +:+ text (r' :: rs)).
  by rewrite !app_str_assoc.
Qed.

Lemma trim_last_space_app s : trim_last_space (s +:+ " ") = s.
Proof.
  induction s as [|c s IH]; [done|]. cbn [String.append trim_last_space].
  destruct (s +:+ " ") as [|c' s'] eqn:E; [by destruct s|]. by rewrite IH.
Qed.

Definition pid_ok (p : Z) : Prop := 0 <= p <= 0x1FFF.

Lemma length_fmt_pid p : pid_ok p -> String.length (fmt_pid p) = 6%nat.
Proof.
  unfold pid_ok, fmt_pid. intros. rewrite length_app_str, length_hex_pad by (simpl; lia). done.
Qed.

Lemma length_fmt_tok r : range_ok r -> (String.length (fmt_tok r) <= 13)%nat.
Proof.
  unfold range_ok, fmt_tok. intros. destruct (_ =? _).
  - rewrite length_fmt_pid by (unfold pid_ok; lia). lia.
  - rewrite !length_app_str, !length_fmt_pid by (unfold pid_ok; lia). simpl. lia.
Qed.

(** No truncation: the loop appends every run with a trailing space. *)
Lemma format_loop_runs fuel l out out_len :
  Forall pid_ok l -> (length l <= fuel)%nat ->
  (String.length out + 14 * length l < out_len)%nat ->
  format_loop fuel l out out_len = out +:+ text_sp (runs fuel l).
Proof.
  revert l out. induction fuel as [|fuel IH]; intros [|x l] out Hp Hf Hl; simpl in Hf; try lia;
    cbn [format_loop runs]; try (by rewrite app_str_nil_r).
  apply Forall_cons in Hp as [Hx Hp].
  destruct (take_run x l) as [y rest] eqn:E.
  destruct (take_run_spec _ _ _ _ E) as (H1 & _ & _ & H4 & H5).
  destruct (H5 _ Hx Hp) as [Hy Hrest].
  change (fmt_range x y) with (fmt_range (start {| start := x; end_ := y |}) (end_ {| start := x; end_ := y |})).
  rewrite fmt_range_tok. set (r := {| start := x; end_ := y |}).
  assert (Hr : range_ok r) by (unfold range_ok, pid_ok in *; simpl; lia).
  pose proof (length_fmt_tok r Hr) as Ht. cbn [length] in Hl.
  rewrite !length_app_str. change (String.length " ") with 1%nat.
  destruct (out_len <=? _)%nat eqn:Eo; [apply Nat.leb_le in Eo; lia|].
  rewrite IH; [|done|lia|rewrite !length_app_str; simpl; lia].
  cbn [text_sp]. by rewrite !app_str_assoc.
Qed.

Lemma scan_0x_fmt p : pid_ok p -> scan_0x (fmt_pid p) = Some p.
Proof.
  unfold pid_ok. intros H. unfold scan_0x, fmt_pid. cbn [String.append scan_lit].
  rewrite !decide_True by done. cbn [mbind option_bind].
  rewrite <- (app_str_nil_r (hex_pad false 4 p)), scan_uw_hex by (done || lia). done.
Qed.

Lemma fmt_pid_chars p :
  pid_ok p -> str_forall (fun c => ishex c || bool_decide (c = "x"%char)) (fmt_pid p) = true.
Proof.
  intros [H _]. unfold fmt_pid. rewrite str_forall_app. apply andb_true_iff. split; [reflexivity|].
  eapply str_forall_impl; [|by apply hex_pad_chars]. intros c Hc. cbv beta. by rewrite Hc.
Qed.

Lemma fmt_pid_no_dash p :
  pid_ok p -> str_forall (fun x => negb (bool_decide (x = "-"%char))) (fmt_pid p) = true.
Proof.
  intros H. eapply str_forall_impl; [|by apply fmt_pid_chars]. intros c Hc.
  apply negb_true_iff, bool_decide_eq_false. intros ->. vm_compute in Hc. discriminate.
Qed.

Lemma parse_fmt_tok r : range_ok r -> parse_token (fmt_tok r) = Some (start r, end_ r).
Proof.
  unfold range_ok. intros H. unfold fmt_tok, parse_token.
  destruct (start r =? end_ r) eqn:E; zb.
  - rewrite strchr_none by (apply fmt_pid_no_dash; unfold pid_ok; lia).
    rewrite scan_0x_fmt by (unfold pid_ok; lia). simpl. by rewrite E.
  - cbn [String.append]. rewrite strchr_app by (apply fmt_pid_no_dash; unfold pid_ok; lia).
    rewrite !scan_0x_fmt by (unfold pid_ok; lia). done.
Qed.

Lemma fmt_tok_chars r :
  range_ok r -> str_forall (fun c => negb (isspace c)) (fmt_tok r) = true.
Proof.
  unfold range_ok. intros H.
  assert (Hp : forall p, pid_ok p -> str_forall (fun c => negb (isspace c)) (fmt_pid p) = true).
  { intros p Hp. eapply str_forall_impl; [|by apply fmt_pid_chars]. intros c Hc.
    apply orb_true_iff in Hc as [Hc|Hc]; [by apply ishex_spec in Hc as [-> _]|].
    apply bool_decide_eq_true in Hc as ->. done. }
  unfold fmt_tok. destruct (_ =? _); [apply Hp; unfold pid_ok; lia|].
  rewrite !str_forall_app, !Hp by (unfold pid_ok; lia). done.
Qed.

Lemma fmt_tok_ne r : exists c s, fmt_tok r = String c s.
Proof. unfold fmt_tok, fmt_pid. destruct (_ =? _); cbn [String.append]; eauto. Qed.

(** One turn of the loop on a printed token. *)
Lemma parse_loop_tok fuel sp r rest out :
  str_forall isspace sp = true -> range_ok r -> (length out < PID_FILTER_MAX_RANGES)%nat ->
  match rest with EmptyString => true | String c _ => isspace c end = true ->
  parse_loop (S fuel) (sp +:+ fmt_tok r +:+ rest) out = parse_loop fuel rest (out ++ [r]).
Proof.
  intros Hsp Hr Hlen Hrest. cbn [parse_loop].
  pose proof (fmt_tok_chars r Hr) as Hc. pose proof (length_fmt_tok r Hr) as Hl.
  pose proof (parse_fmt_tok r Hr) as Hp.
  destruct (fmt_tok_ne r) as (c & s & E).
  assert (Hns : isspace c = false).
  { rewrite E in Hc. simpl in Hc. apply andb_true_iff in Hc as [Hc _]. by apply negb_true_iff in Hc. }
  rewrite skip_while_app by (rewrite ?E; cbn [String.append]; rewrite ?Hns; done).
  rewrite E. cbn [String.append]. change (String c (s +:+ rest)) with (String c s +:+ rest).
  rewrite <- E. assert (match rest with "" => true | String c0 _ => negb (negb (isspace c0)) end = true) as Hr'.
  { destruct rest; [done|]. by rewrite negb_involutive. }
  rewrite take_while_app, skip_while_app by done.
  destruct (32 <=? _)%nat eqn:E1; [apply Nat.leb_le in E1; lia|].
  rewrite Hp. cbn [mbind option_bind]. unfold range_ok in Hr.
  destruct (_ || _ || _) eqn:Eg.
  { repeat (apply orb_true_iff in Eg as [Eg|Eg]); zb; lia. }
  destruct (PID_FILTER_MAX_RANGES <=? length out)%nat eqn:El; [apply Nat.leb_le in El; lia|].
  by destruct r.
Qed.

Lemma parse_loop_text rs : forall fuel sp out,
  Forall range_ok rs -> str_forall isspace sp = true -> (length rs <= fuel)%nat ->
  (length out + length rs <= PID_FILTER_MAX_RANGES)%nat ->
  parse_loop fuel (sp +:+ text rs) out = Some (out ++ rs).
Proof.
  induction rs as [|r rs IH]; intros fuel sp out Hok Hsp Hf Hlen.
  - rewrite app_nil_r. destruct fuel; [done|]. cbn [parse_loop text].
    by rewrite skip_while_app.
  - apply Forall_cons in Hok as [Hr Hok]. simpl in Hf, Hlen. destruct fuel as [|fuel]; [lia|].
    destruct rs as [|r' rs].
    + cbn [text]. rewrite <- (app_str_nil_r (fmt_tok r)), parse_loop_tok by (done || lia).
      by destruct fuel.
    + change (text (r :: r' :: rs)) with (fmt_tok r +:+ (" " +:+ text (r' :: rs))).
      rewrite parse_loop_tok by (done || lia).
      rewrite IH; [by rewrite <- app_assoc|done|done|lia|rewrite length_app; simpl in *; lia].
Qed.

Lemma length_text rs : (length rs <= String.length (text rs))%nat.
Proof.
  induction rs as [|r rs IH]; [done|]. destruct (fmt_tok_ne r) as (c & s & E).
  destruct rs as [|r' rs]; [cbn [text]; rewrite E; simpl; lia|].
  change (text (r :: r' :: rs)) with (fmt_tok r +:+ (" " +:+ text (r' :: rs))).
  rewrite E, !length_app_str. simpl in *. lia.
Qed.

Lemma pid_filter_format_text pids out_len :
  Forall pid_ok pids -> (length pids <= 64)%nat -> (14 * length pids < out_len)%nat ->
  let l := dedup_loop None (sort_pids pids) in
  (length l <= length pids)%nat /\
  Forall pid_ok l /\ pid_filter_format pids out_len = text (runs (length l) l).
Proof.
  intros Hp Hlen Ho. cbv zeta. destruct (pids_spec pids) as (_ & Hin & Hnd).
  set (l := dedup_loop None (sort_pids pids)) in *.
  assert (Hl : (length l <= length pids)%nat).
  { apply (NoDup_incl_length (l := l)).
    - by apply NoDup_ListNoDup.
    - intros p Hp'. apply list_elem_of_In, Hin. by apply list_elem_of_In. }
  assert (Hok : Forall pid_ok l).
  { apply Forall_forall. intros p Hp'. rewrite Forall_forall in Hp. apply Hp. by apply Hin. }
  split; [done|]. split; [done|].
  unfold pid_filter_format. rewrite take_ge by done. fold l.
  rewrite format_loop_runs by (done || (simpl; lia)). cbn [String.append].
  destruct (runs (length l) l) as [|r rs]; [done|]. by rewrite text_sp_eq, trim_last_space_app.
Qed.

(** Claim C15: printing a set of up to 32 PIDs into a large enough buffer and
    parsing the text back gives sound ranges that cover exactly those PIDs,
    and whose total count is the number of distinct PIDs. *)
Theorem format_parse_roundtrip (pids : list Z) (out_len : nat) :
  Forall pid_ok pids -> (length pids <= 32)%nat -> (14 * length pids < out_len)%nat ->
  exists f, pid_filter_parse (Some (pid_filter_format pids out_len)) = Some f /\
    Forall range_ok f /\ (forall p, covers f p <-> p ∈ pids) /\
    pid_filter_total_count f = Z.of_nat (size (list_to_set pids : gset Z)).
Proof.
  intros Hp Hlen Ho. destruct (pids_spec pids) as (_ & Hin & Hnd).
  destruct (pid_filter_format_text pids out_len Hp ltac:(lia) Ho) as (Hl & Hok & ->).
  set (l := dedup_loop None (sort_pids pids)) in *.
  assert (Hro : Forall range_ok (runs (length l) l)) by (by apply runs_ok).
  pose proof (runs_length (length l) l).
  exists (runs (length l) l). split; [|split; [done|split]].
  - unfold pid_filter_parse. apply (parse_loop_text _ _ "" []); try done; [apply length_text|].
    change PID_FILTER_MAX_RANGES with 32%nat. simpl. lia.
  - intros p. by rewrite runs_covers.
  - unfold pid_filter_total_count. rewrite runs_total by done. rewrite Z.add_0_l. f_equal.
    rewrite <- (size_list_to_set (C := gset Z)) by done. f_equal. set_solver.
Qed.

Lemma parse_sound_witness :
  exists f, pid_filter_parse (Some "0x0000 0x0030-0x1fff"%string) = Some f /\ Forall range_ok f /\
    (length f <= PID_FILTER_MAX_RANGES)%nat.
Proof.
  eexists. split; [reflexivity|]. apply (parse_sound "0x0000 0x0030-0x1fff"). reflexivity.
Defined.

Lemma format_parse_roundtrip_witness :
  exists f, pid_filter_parse (Some (pid_filter_format [0x31; 0x1ffb; 0x30; 0x31] 512)) = Some f /\
    covers f 0x30.
Proof.
  destruct (format_parse_roundtrip [0x31; 0x1ffb; 0x30; 0x31] 512) as (f & H1 & _ & H2 & _).
  - repeat constructor; discriminate.
  - simpl. lia.
  - simpl. lia.
  - exists f. split; [exact H1|]. apply H2. set_solver.
Defined.
