(* ===== verification/Psip.v ===== *)
(** Table parsing: src/src/psip.c.

    The parsers of PAT, PMT and TVCT sections.  A section is the list of the
    [len] bytes the caller has; every read goes through [rd8], which is [None]
    past the end, so a result [Some _] means that the parser stayed in bounds
    (and that its loop ended within the fuel).  An inner [None] is the
    parser's -1.  The encoders are the reference layout of the tables (ISO
    13818-1 and ATSC A/65) the parsers are proved to invert. *)
From S2P Require Import Prelude CLib.

Definition PSIP_BASE_PID : Z := 0x1FFB.
Definition PAT_MAX_ENTRIES : nat := 64.
Definition PMT_MAX_STREAMS : nat := 32.
Definition TVCT_MAX_CHANNELS : nat := 64.

Record pat_entry := { pat_program_number : Z; pat_pmt_pid : Z }.

Record pmt_stream := { stream_type : Z; elementary_pid : Z }.

(** [stream_count] is the length of [streams]. *)
Record pmt_info := {
  pmt_program_number : Z;
  pcr_pid : Z;
  streams : list pmt_stream
}.

Record tvct_entry := {
  short_name : string;
  major_channel_number : Z;
  minor_channel_number : Z;
  channel_tsid : Z;
  program_number : Z;
  hidden : bool
}.

Definition rd8 (sec : bytes) (off : nat) : option Z := sec !! off.

Definition rd16 (sec : bytes) (off : nat) : option Z :=
  a ← rd8 sec off;
  b ← rd8 sec (off + 1);
  Some (Z.lor (Z.shiftl a 8) b).

(** [((sec[1] & 0x0F) << 8) | sec[2]], and [total = 3 + section_length]. *)
Definition section_total (sec : bytes) : option nat :=
  a ← rd8 sec 1;
  b ← rd8 sec 2;
  Some (3 + Z.to_nat (Z.lor (Z.shiftl (Z.land a 0x0F) 8) b))%nat.

Fixpoint pat_loop (fuel : nat) (sec : bytes) (off entries_end max_out : nat)
    (out : list pat_entry) : option (list pat_entry) :=
  if negb ((off + 4 <=? entries_end)%nat && (length out <? max_out)%nat) then Some out
  else match fuel with
  | O => None
  | S fuel =>
      program_number ← rd16 sec off;
      p ← rd16 sec (off + 2);
      let pid := Z.land p 0x1FFF in
      if program_number =? 0 then pat_loop fuel sec (off + 4) entries_end max_out out
      else pat_loop fuel sec (off + 4) entries_end max_out
             (out ++ [{| pat_program_number := program_number; pat_pmt_pid := pid |}])
  end.

Definition psip_parse_pat (sec : bytes) (max_out : nat) : option (option (list pat_entry)) :=
  if (length sec <? 12)%nat then Some None
  else
    total ← section_total sec;
    if (length sec <? total)%nat || (total <? 12)%nat then Some None
    else
      out ← pat_loop (length sec) sec 8 (total - 4) max_out [];
      Some (Some out).

Fixpoint pmt_loop (fuel : nat) (sec : bytes) (off end_ : nat)
    (out : list pmt_stream) : option (list pmt_stream) :=
  if negb ((off + 5 <=? end_)%nat && (length out <? PMT_MAX_STREAMS)%nat) then Some out
  else match fuel with
  | O => None
  | S fuel =>
      st ← rd8 sec off;
      p ← rd16 sec (off + 1);
      l ← rd16 sec (off + 3);
      let elem_pid := Z.land p 0x1FFF in
      let es_info_length := Z.land l 0x0FFF in
      pmt_loop fuel sec (off + 5 + Z.to_nat es_info_length) end_
        (out ++ [{| stream_type := st; elementary_pid := elem_pid |}])
  end.

Definition psip_parse_pmt (sec : bytes) : option (option pmt_info) :=
  if (length sec <? 12)%nat then Some None
  else
    total ← section_total sec;
    if (length sec <? total)%nat || (total <? 12)%nat then Some None
    else
      pn ← rd16 sec 3;
      pcr ← rd16 sec 8;
      pil ← rd16 sec 10;
      let program_info_length := Z.land pil 0x0FFF in
      ss ← pmt_loop (length sec) sec (12 + Z.to_nat program_info_length) (total - 4) [];
      Some (Some {| pmt_program_number := pn; pcr_pid := Z.land pcr 0x1FFF; streams := ss |}).

Definition is_video (t : Z) : bool := (t =? 0x02) || (t =? 0x1B).
Definition is_audio (t : Z) : bool := (t =? 0x81) || (t =? 0x0F).

(** video pid and type, audio pid and type, have_video *)
Record av_choice := {
  av_video_pid : Z; av_video_type : Z; av_audio_pid : Z; av_audio_type : Z; have_video : bool
}.

Definition pick_step (a : av_choice) (s : pmt_stream) : av_choice :=
  let t := stream_type s in
  if negb (have_video a) && is_video t then
    {| av_video_pid := elementary_pid s; av_video_type := t;
       av_audio_pid := av_audio_pid a; av_audio_type := av_audio_type a; have_video := true |}
  else if (av_audio_pid a =? 0) && is_audio t then
    {| av_video_pid := av_video_pid a; av_video_type := av_video_type a;
       av_audio_pid := elementary_pid s; av_audio_type := t; have_video := have_video a |}
  else a.

Definition psip_pmt_pick_av (pmt : pmt_info) : av_choice :=
  fold_left pick_step (streams pmt)
    {| av_video_pid := 0; av_video_type := 0; av_audio_pid := 0; av_audio_type := 0; have_video := false |}.

Fixpoint name_loop (n : nat) (sec : bytes) (off : nat) : option string :=
  match n with
  | O => Some EmptyString
  | S n =>
      unit ← rd16 sec off;
      if unit =? 0 then Some EmptyString
      else
        r ← name_loop n sec (off + 2);
        Some (String (chr (if (0x20 <=? unit) && (unit <? 0x7F) then unit else 63)) r)
  end.

(** At most 7 units; the 16-byte buffer leaves room for them. *)
Definition decode_short_name (sec : bytes) (off outsize : nat) : option string :=
  s ← name_loop (Nat.min 7 (outsize - 1)) sec off;
  Some (rstrip (fun c => bool_decide (c = " "%char)) s).

Definition read_tvct_entry (sec : bytes) (off : nat) : option (tvct_entry * Z) :=
  nm ← decode_short_name sec off 16;
  a ← rd8 sec (off + 14);
  b ← rd8 sec (off + 15);
  c ← rd8 sec (off + 16);
  let triplet := Z.lor (Z.lor (Z.shiftl a 16) (Z.shiftl b 8)) c in
  tsid ← rd16 sec (off + 22);
  pn ← rd16 sec (off + 24);
  flags_byte ← rd8 sec (off + 26);
  dl ← rd16 sec (off + 30);
  Some ({| short_name := nm;
           major_channel_number := Z.land (Z.shiftr triplet 10) 0x3FF;
           minor_channel_number := Z.land triplet 0x3FF;
           channel_tsid := tsid;
           program_number := pn;
           hidden := negb (Z.land flags_byte 0x10 =? 0) |}, Z.land dl 0x03FF).

(** [n] is the number of channels still announced ([num_channels - i]). *)
Fixpoint tvct_loop (n : nat) (sec : bytes) (off end_ max_out : nat)
    (out : list tvct_entry) : option (list tvct_entry) :=
  match n with
  | O => Some out
  | S n =>
      if (max_out <=? length out)%nat then Some out
      else if (end_ <? off + 32)%nat then Some out
      else
        '(e, descriptors_length) ← read_tvct_entry sec off;
        tvct_loop n sec (off + (32 + Z.to_nat descriptors_length)) end_ max_out (out ++ [e])
  end.

(** section_number, last_section_number and the entries *)
Definition psip_parse_tvct (sec : bytes) (max_out : nat) : option (option (Z * Z * list tvct_entry)) :=
  if (length sec <? 12)%nat then Some None
  else
    total ← section_total sec;
    if (length sec <? total)%nat || (total <? 12)%nat then Some None
    else
      sn ← rd8 sec 6;
      lsn ← rd8 sec 7;
      num_channels ← rd8 sec 9;
      out ← tvct_loop (Z.to_nat num_channels) sec 10 (total - 4) max_out [];
      Some (Some (sn, lsn, out)).

(** ** Reference encoders *)

Definition enc16 (v : Z) : bytes := [v / 256; v mod 256].

(** Table id, flags and section length, then the body; 4 bytes of CRC end it. *)
Definition enc_section (table_id : Z) (body crc : bytes) : bytes :=
  let n := Z.of_nat (length body + 4) in
  [table_id; 0xB0 + n / 256; n mod 256] ++ body ++ crc.

Definition enc_pat (tsid ver : Z) (entries : list pat_entry) (crc : bytes) : bytes :=
  enc_section 0 (enc16 tsid ++ [ver; 0; 0] ++
    concat (map (fun e => enc16 (pat_program_number e) ++ enc16 (0xE000 + pat_pmt_pid e)) entries)) crc.

Definition enc_stream (s : pmt_stream * bytes) : bytes :=
  [stream_type s.1] ++ enc16 (0xE000 + elementary_pid s.1) ++
  enc16 (0xF000 + Z.of_nat (length s.2)) ++ s.2.

Definition enc_pmt (ver pn pcr : Z) (info : bytes) (ss : list (pmt_stream * bytes)) (crc : bytes) : bytes :=
  enc_section 2 (enc16 pn ++ [ver; 0; 0] ++ enc16 (0xE000 + pcr) ++
    enc16 (0xF000 + Z.of_nat (length info)) ++ info ++ concat (map enc_stream ss)) crc.

Record vc := {
  vc_units : list Z; (* the seven UTF-16 code units of the name *)
  vc_major : Z; vc_minor : Z;
  vc_mod : Z; vc_freq : bytes; (* modulation mode, four bytes of carrier frequency *)
  vc_tsid : Z; vc_program : Z;
  vc_flags : Z; vc_service : bytes; (* service type and source id: three bytes *)
  vc_descr : bytes
}.

Definition enc_vc (v : vc) : bytes :=
  let triplet := 0xF00000 + vc_major v * 1024 + vc_minor v in
  concat (map enc16 (vc_units v)) ++
  [triplet / 65536; triplet / 256 mod 256; triplet mod 256] ++
  [vc_mod v] ++ vc_freq v ++ enc16 (vc_tsid v) ++ enc16 (vc_program v) ++
  [vc_flags v] ++ vc_service v ++ enc16 (0xFC00 + Z.of_nat (length (vc_descr v))) ++ vc_descr v.

Definition enc_tvct (tsid ver sn lsn : Z) (vs : list vc) (tail crc : bytes) : bytes :=
  enc_section 0xC8 (enc16 tsid ++ [ver; sn; lsn; 0; Z.of_nat (length vs)] ++
    concat (map enc_vc vs) ++ tail) crc.

(** The name of a list of code units. *)
Fixpoint units_name (us : list Z) : string :=
  match us with
  | [] => ""
  | u :: us => if u =? 0 then ""
               else String (chr (if (0x20 <=? u) && (u <? 0x7F) then u else 63)) (units_name us)
  end.

Definition vc_entry (v : vc) : tvct_entry :=
  {| short_name := rstrip (fun c => bool_decide (c = " "%char)) (units_name (vc_units v));
     major_channel_number := vc_major v;
     minor_channel_number := vc_minor v;
     channel_tsid := vc_tsid v;
     program_number := vc_program v;
     hidden := Z.testbit (vc_flags v) 4 |}.

(** ** Reads *)

Lemma rd8_some sec off : (off < length sec)%nat -> is_Some (rd8 sec off).
Proof. intros. by apply lookup_lt_is_Some. Qed.

Lemma rd16_some sec off : (off + 1 < length sec)%nat -> is_Some (rd16 sec off).
Proof.
  intros. unfold rd16. destruct (rd8_some sec off) as [a ->]; [lia|].
  destruct (rd8_some sec (off + 1)) as [b ->]; [lia|]. simpl. eauto.
Qed.

Lemma section_total_some sec : (12 <= length sec)%nat -> is_Some (section_total sec).
Proof.
  intros. unfold section_total. destruct (rd8_some sec 1) as [a ->]; [lia|].
  destruct (rd8_some sec 2) as [b ->]; [lia|]. simpl. eauto.
Qed.

(** Performs the first read of the goal, which is in bounds. *)
Ltac rd_step :=
  match goal with
  | |- context [rd8 ?s ?o] => destruct (rd8_some s o) as [? ->]; [lia|]
  | |- context [rd16 ?s ?o] => destruct (rd16_some s o) as [? ->]; [lia|]
  end; cbn [mbind option_bind].

Lemma pat_loop_some fuel sec off e max_out out :
  (e <= length sec)%nat -> (e <= fuel + off)%nat -> is_Some (pat_loop fuel sec off e max_out out).
Proof.
  revert off out. induction fuel as [|fuel IH]; intros off out He Hf; cbn [pat_loop].
  - destruct (off + 4 <=? e)%nat eqn:E; simpl; [apply Nat.leb_le in E; lia|eauto].
  - destruct ((off + 4 <=? e)%nat && _) eqn:E; simpl negb; cbv iota; [|eauto].
    apply andb_true_iff in E as [E _]. apply Nat.leb_le in E.
    do 2 rd_step. destruct (_ =? 0); apply IH; lia.
Qed.

Lemma pmt_loop_some fuel sec off e out :
  (e <= length sec)%nat -> (e <= fuel + off)%nat -> is_Some (pmt_loop fuel sec off e out).
Proof.
  revert off out. induction fuel as [|fuel IH]; intros off out He Hf; cbn [pmt_loop].
  - destruct (off + 5 <=? e)%nat eqn:E; simpl; [apply Nat.leb_le in E; lia|eauto].
  - destruct ((off + 5 <=? e)%nat && _) eqn:E; simpl negb; cbv iota; [|eauto].
    apply andb_true_iff in E as [E _]. apply Nat.leb_le in E.
    do 3 rd_step. apply IH; lia.
Qed.

Lemma name_loop_some n sec off : (off + 2 * n <= length sec)%nat -> is_Some (name_loop n sec off).
Proof.
  revert off. induction n as [|n IH]; intros off H; cbn [name_loop]; [eauto|].
  rd_step. destruct (_ =? 0); [eauto|]. destruct (IH (off + 2)%nat) as [r ->]; [lia|]. simpl. eauto.
Qed.

Lemma decode_short_name_some sec off :
  (off + 14 <= length sec)%nat -> is_Some (decode_short_name sec off 16).
Proof.
  intros. unfold decode_short_name. destruct (name_loop_some (Nat.min 7 (16 - 1)) sec off) as [s ->].
  - simpl. lia.
  - simpl. eauto.
Qed.

Lemma read_tvct_entry_some sec off :
  (off + 32 <= length sec)%nat -> is_Some (read_tvct_entry sec off).
Proof.
  intros. unfold read_tvct_entry.
  destruct (decode_short_name_some sec off) as [s ->]; [lia|]. cbn [mbind option_bind].
  repeat rd_step. eauto.
Qed.

Lemma tvct_loop_some n sec off e max_out out :
  (e <= length sec)%nat -> is_Some (tvct_loop n sec off e max_out out).
Proof.
  revert off out. induction n as [|n IH]; intros off out He; cbn [tvct_loop]; [eauto|].
  destruct (max_out <=? _)%nat; [eauto|]. destruct (e <? off + 32)%nat eqn:E; [eauto|].
  apply Nat.ltb_ge in E. destruct (read_tvct_entry_some sec off) as [[en dl] ->]; [lia|].
  cbn [mbind option_bind]. by apply IH.
Qed.

(** Claim C16: on every input, well-formed or not, the three parsers end and
    read no byte outside the section they were given. *)
Theorem parsers_in_bounds (sec : bytes) (max_out : nat) :
  is_Some (psip_parse_pat sec max_out) /\ is_Some (psip_parse_pmt sec) /\
  is_Some (psip_parse_tvct sec max_out).
Proof.
  unfold psip_parse_pat, psip_parse_pmt, psip_parse_tvct.
  destruct (length sec <? 12)%nat eqn:E; [eauto|]. apply Nat.ltb_ge in E.
  destruct (section_total_some sec E) as [total ->]. cbn [mbind option_bind].
  destruct (_ || _) eqn:Eg; [eauto|]. apply orb_false_iff in Eg as [E1 E2].
  apply Nat.ltb_ge in E1, E2. repeat split.
  - destruct (pat_loop_some (length sec) sec 8 (total - 4) max_out []) as [o ->]; [lia|lia|]. simpl. eauto.
  - do 3 rd_step.
    match goal with |- context [pmt_loop ?f ?s ?o ?e ?l] =>
      destruct (pmt_loop_some f s o e l) as [? ->]; [lia|lia|] end. cbn. eauto.
  - do 3 rd_step.
    match goal with |- context [tvct_loop ?n ?s ?o ?e ?m ?l] =>
      destruct (tvct_loop_some n s o e m l) as [? ->]; [lia|] end. cbn. eauto.
Qed.

(** ** Bounds of what the parsers return *)

Definition printable (c : ascii) : bool := (32 <=? code c) && (code c <? 127).

Lemma printable_unit u : printable (chr (if (0x20 <=? u) && (u <? 0x7F) then u else 63)) = true.
Proof.
  assert (32 <= (if (0x20 <=? u) && (u <? 0x7F) then u else 63) < 127) as H by (destruct (_ && _) eqn:E; zb; lia).
  unfold printable.
  rewrite code_chr by (unfold is_byte; lia). apply andb_true_iff. split; [apply Z.leb_le|apply Z.ltb_lt]; lia.
Qed.

Lemma name_loop_ok n sec off s :
  name_loop n sec off = Some s -> str_forall printable s = true /\ (String.length s <= n)%nat.
Proof.
  revert off s. induction n as [|n IH]; intros off s; cbn [name_loop]; [intros [= <-]; done|].
  destruct (rd16 sec off) as [u|]; [|done]. cbn [mbind option_bind].
  destruct (u =? 0); [intros [= <-]; simpl; split; [done|lia]|].
  destruct (name_loop n sec (off + 2)) as [r|] eqn:E; [|done]. cbn [mbind option_bind].
  intros [= <-]. apply IH in E as [H1 H2]. cbn [str_forall String.length].
  rewrite printable_unit, H1. split; [done|lia].
Qed.

Lemma rstrip_last P s c : rstrip P s <> EmptyString ->
  (exists b, rstrip P s = b +:+ String c "") -> P c = false.
Proof.
  induction s as [|x s IH]; simpl; [done|]. intros Hne [b Hb].
  destruct (rstrip P s) as [|y r] eqn:E.
  - destruct (P x) eqn:Hx; [done|]. destruct b as [|? [|]]; cbn in Hb; congruence.
  - destruct b as [|z b]; cbn in Hb; [congruence|]. injection Hb as -> Hb.
    apply IH; [done|]. by exists b.
Qed.

Lemma decode_short_name_ok sec off s :
  decode_short_name sec off 16 = Some s ->
  str_forall printable s = true /\ (String.length s <= 7)%nat /\
  ~ (exists b, s = b +:+ " ").
Proof.
  unfold decode_short_name. destruct (name_loop _ sec off) as [r|] eqn:E; [|done].
  cbn [mbind option_bind]. intros [= <-]. apply name_loop_ok in E as [H1 H2].
  split; [by apply rstrip_forall|]. split.
  - pose proof (length_rstrip (fun c => bool_decide (c = " "%char)) r). simpl in H2. lia.
  - intros Hb. assert (rstrip (fun c => bool_decide (c = " "%char)) r <> "") as Hne.
    { destruct Hb as [[|] ->]; done. }
    pose proof (rstrip_last _ _ _ Hne Hb). done.
Qed.

Lemma land_mask (x n : Z) : 0 <= n -> 0 <= Z.land x (2 ^ n - 1) < 2 ^ n.
Proof. intros. rewrite land_ones_mod by done. apply Z.mod_pos_bound. lia. Qed.

Definition tvct_entry_ok (e : tvct_entry) : Prop :=
  str_forall printable (short_name e) = true /\ (String.length (short_name e) <= 7)%nat /\
  ~ (exists b, short_name e = b +:+ " ") /\
  0 <= major_channel_number e < 1024 /\ 0 <= minor_channel_number e < 1024.

Lemma read_tvct_entry_ok sec off e dl : read_tvct_entry sec off = Some (e, dl) -> tvct_entry_ok e.
Proof.
  unfold read_tvct_entry. destruct (decode_short_name sec off 16) as [s|] eqn:E; [|done].
  cbn [mbind option_bind]. apply decode_short_name_ok in E as (H1 & H2 & H3).
  repeat case_bind. intros H. injection H as <- _.
  unfold tvct_entry_ok. simpl short_name. simpl major_channel_number. simpl minor_channel_number.
  pose proof (fun x => land_mask x 10 ltac:(lia)) as Hm. change (2 ^ 10 - 1) with 0x3FF in Hm.
  change (2 ^ 10) with 1024 in Hm. auto.
Qed.

Lemma tvct_loop_ok n sec off e max_out out r :
  Forall tvct_entry_ok out -> (length out <= max_out)%nat ->
  tvct_loop n sec off e max_out out = Some r -> Forall tvct_entry_ok r /\ (length r <= max_out)%nat.
Proof.
  revert off out. induction n as [|n IH]; intros off out Ho Hl; cbn [tvct_loop]; [by intros [= <-]|].
  destruct (max_out <=? _)%nat eqn:Em; [by intros [= <-]|]. destruct (e <? _)%nat; [by intros [= <-]|].
  apply Nat.leb_gt in Em.
  destruct (read_tvct_entry sec off) as [[en dl]|] eqn:E; [|done]. cbn [mbind option_bind].
  apply read_tvct_entry_ok in E. apply IH.
  - apply Forall_app. auto.
  - rewrite length_app. simpl. lia.
Qed.

Definition pat_entry_ok (e : pat_entry) : Prop :=
  pat_program_number e <> 0 /\ 0 <= pat_pmt_pid e <= 0x1FFF.

Lemma pat_loop_ok fuel sec off e max_out out r :
  Forall pat_entry_ok out -> (length out <= max_out)%nat ->
  pat_loop fuel sec off e max_out out = Some r -> Forall pat_entry_ok r /\ (length r <= max_out)%nat.
Proof.
  revert off out. induction fuel as [|fuel IH]; intros off out Ho Hl; cbn [pat_loop];
    (destruct (_ && (length out <? max_out)%nat) eqn:E; cbn [negb]; [|by intros [= <-]]); [done|].
  apply andb_true_iff in E as [_ E]. apply Nat.ltb_lt in E.
  do 2 case_bind. destruct (_ =? 0) eqn:E0; [by apply IH|]. zb.
  apply IH.
  - apply Forall_app. split; [done|]. constructor; [|done]. split; [done|].
    simpl. match goal with |- _ <= Z.land ?x _ <= _ => pose proof (land_mask x 13 ltac:(lia)) as Hm end.
    change (2 ^ 13 - 1) with 0x1FFF in Hm. lia.
  - rewrite length_app. simpl. lia.
Qed.

(** What the parsers return is within the bounds of the tables: at
    most [max_out] entries; a program number other than 0 and a 13-bit PID in
    each PAT entry; in each virtual channel, numbers of 10 bits and a
    printable name of at most 7 characters without trailing space. *)
Theorem parsed_entries_wellformed (sec : bytes) (max_out : nat) :
  (forall l, psip_parse_pat sec max_out = Some (Some l) ->
     Forall pat_entry_ok l /\ (length l <= max_out)%nat) /\
  (forall sn lsn l, psip_parse_tvct sec max_out = Some (Some (sn, lsn, l)) ->
     Forall tvct_entry_ok l /\ (length l <= max_out)%nat).
Proof.
  unfold psip_parse_pat, psip_parse_tvct. destruct (_ <? 12)%nat; [done|].
  destruct (section_total sec) as [t|]; [|done]. cbn [mbind option_bind].
  destruct (_ || _); [done|]. split.
  - intros l. destruct (pat_loop _ _ _ _ _ _) as [o|] eqn:E; [|done]. intros [= <-].
    eapply pat_loop_ok in E; [done|constructor|simpl; lia].
  - intros sn lsn l. do 3 case_bind.
    destruct (tvct_loop _ _ _ _ _ _) as [o|] eqn:E; [|done]. intros [= _ _ <-].
    eapply tvct_loop_ok in E; [done|constructor|simpl; lia].
Qed.

(** *** The streams chosen *)

Definition first_nonzero_audio (ss : list pmt_stream) : option pmt_stream :=
  List.find (fun s => is_audio (stream_type s) && negb (elementary_pid s =? 0)) ss.

Lemma pick_fold ss a :
  let r := fold_left pick_step ss a in
  have_video r = have_video a || existsb (fun s => is_video (stream_type s)) ss /\
  (av_video_pid r, av_video_type r) =
    (if have_video a then (av_video_pid a, av_video_type a) else
     match List.find (fun s => is_video (stream_type s)) ss with
     | Some s => (elementary_pid s, stream_type s) | None => (av_video_pid a, av_video_type a) end) /\
  av_audio_pid r =
    (if av_audio_pid a =? 0 then
       match first_nonzero_audio ss with Some s => elementary_pid s | None => 0 end
     else av_audio_pid a).
Proof.
  assert (Hdis : forall t, is_video t = true -> is_audio t = false).
  { intros t. unfold is_video, is_audio. intros H. apply orb_true_iff in H as [H|H]; zb; subst; reflexivity. }
  revert a. induction ss as [|s ss IH]; intros a; cbn [fold_left existsb List.find first_nonzero_audio].
  - destruct (have_video a); rewrite ?orb_false_r; repeat split; destruct (_ =? 0) eqn:E; zb; congruence.
  - destruct (IH (pick_step a s)) as (H1 & H2 & H3). cbv zeta. rewrite H1, H2, H3.
    unfold pick_step, first_nonzero_audio. cbn [List.find].
    specialize (Hdis (stream_type s)).
    destruct (have_video a) eqn:Ev, (is_video (stream_type s)) eqn:Es; cbn [andb negb orb have_video];
      try rewrite Hdis by done; rewrite ?andb_false_r; cbn [andb av_video_pid av_video_type av_audio_pid];
      rewrite ?Ev; try done;
      destruct (av_audio_pid a =? 0) eqn:Ea; cbn [andb]; try rewrite Ea; rewrite ?Ev; try done;
      destruct (is_audio (stream_type s)); cbn [andb av_audio_pid have_video av_video_pid av_video_type];
      rewrite ?Ev, ?Ea; try done; destruct (elementary_pid s =? 0) eqn:Ep; cbn [negb]; zb; rewrite ?Ep; done.
Qed.

(** The primary streams of a PMT: the video is the first MPEG-2 or
    H.264 stream (reported exactly when there is one, else PID 0), and the
    audio PID that of the first AC-3 or AAC stream with a PID, else 0. *)
Theorem pick_av_first (pmt : pmt_info) :
  let r := psip_pmt_pick_av pmt in
  have_video r = existsb (fun s => is_video (stream_type s)) (streams pmt) /\
  (av_video_pid r, av_video_type r) =
    match List.find (fun s => is_video (stream_type s)) (streams pmt) with
    | Some s => (elementary_pid s, stream_type s) | None => (0, 0) end /\
  av_audio_pid r = match first_nonzero_audio (streams pmt) with Some s => elementary_pid s | None => 0 end.
Proof. apply pick_fold. Qed.

(** ** Round trips *)

Lemma drop_cons_lookup {A} (l : list A) off x r : drop off l = x :: r -> l !! off = Some x.
Proof. intros H. rewrite <- (Nat.add_0_r off), <- lookup_drop, H. done. Qed.

Lemma drop_more {A} (l : list A) off n a r :
  drop off l = a ++ r -> n = length a -> drop (off + n) l = r.
Proof. intros H ->. by rewrite <- drop_drop, H, drop_app_length. Qed.

Lemma rd8_drop sec off x r : drop off sec = x :: r -> rd8 sec off = Some x.
Proof. apply drop_cons_lookup. Qed.

Lemma rd16_drop sec off v r : is_u16 v -> drop off sec = enc16 v ++ r -> rd16 sec off = Some v.
Proof.
  unfold is_u16, enc16. intros Hv H. unfold rd16. rewrite (rd8_drop sec off (v / 256) (v mod 256 :: r) H). cbn [mbind option_bind].
  pose proof (drop_more sec off 1 [v / 256] (v mod 256 :: r) H eq_refl) as H1.
  rewrite (rd8_drop _ _ _ _ H1). cbn [mbind option_bind]. f_equal.
  pose proof (Z.mod_pos_bound v 256). rewrite lor_shiftl_low by lia.
  pose proof (Z.div_mod v 256). lia.
Qed.

Lemma length_enc16 v : length (enc16 v) = 2%nat.
Proof. done. Qed.

(** [enc_section] announces its own length. *)
Lemma section_total_enc t body crc :
  (length body + 4 < 4096)%nat -> section_total (enc_section t body crc) = Some (3 + (length body + 4))%nat.
Proof.
  intros H. unfold section_total, enc_section. cbn [app]. unfold rd8. cbn [lookup list_lookup].
  cbn [mbind option_bind]. do 2 f_equal.
  set (n := Z.of_nat (length body + 4)). assert (0 <= n < 4096) by lia.
  assert (Z.land (176 + n / 256) 15 = n / 256) as ->.
  { change 15 with (2 ^ 4 - 1). rewrite land_ones_mod by lia.
    Z.to_euclidean_division_equations; lia. }
  rewrite lor_shiftl_low by (try apply Z.mod_pos_bound; lia).
  pose proof (Z.div_mod n 256 ltac:(lia)). lia.
Qed.

Lemma land_tag (tag v n : Z) : 0 <= n -> tag mod 2 ^ n = 0 -> 0 <= v < 2 ^ n -> Z.land (tag + v) (2 ^ n - 1) = v.
Proof.
  intros Hn Ht Hv. rewrite land_ones_mod by done. rewrite Z.add_mod, Ht, Z.add_0_l, Z.mod_mod by lia.
  by apply Z.mod_small.
Qed.

Lemma length_enc_section t body crc :
  length (enc_section t body crc) = (3 + length body + length crc)%nat.
Proof. unfold enc_section. rewrite !length_app. simpl. lia. Qed.

(** A section whose body has the five header bytes passes the length checks. *)
Lemma section_checks t body crc :
  (5 <= length body)%nat -> length crc = 4%nat ->
  (length (enc_section t body crc) <? 12)%nat = false /\
  (length (enc_section t body crc) <? 3 + (length body + 4))%nat || (3 + (length body + 4) <? 12)%nat = false.
Proof.
  intros Hb Hc. rewrite length_enc_section, Hc. split; [apply Nat.ltb_ge; lia|].
  apply orb_false_iff. split; apply Nat.ltb_ge; lia.
Qed.

Definition enc_pat_entry (e : pat_entry) : bytes :=
  enc16 (pat_program_number e) ++ enc16 (0xE000 + pat_pmt_pid e).

Definition pat_range (e : pat_entry) : Prop :=
  is_u16 (pat_program_number e) /\ 0 <= pat_pmt_pid e < 2 ^ 13.

Definition is_program (e : pat_entry) : bool := negb (pat_program_number e =? 0).

Lemma pat_loop_enc entries : forall fuel sec off max_out out crc,
  Forall pat_range entries -> (length entries <= fuel)%nat -> (length out <= max_out)%nat ->
  length crc = 4%nat ->
  drop off sec = concat (map enc_pat_entry entries) ++ crc -> (off <= length sec)%nat ->
  pat_loop fuel sec off (length sec - 4) max_out out =
  Some (take max_out (out ++ List.filter is_program entries)).
Proof.
  induction entries as [|e entries IH]; intros fuel sec off max_out out crc Hr Hf Ho Hc Hd Hoff.
  - simpl in Hd. apply (f_equal length) in Hd. rewrite length_drop in Hd.
    simpl. rewrite app_nil_r, take_ge by done.
    destruct fuel; cbn [pat_loop];
    (destruct (off + 4 <=? length sec - 4)%nat eqn:E; [apply Nat.leb_le in E; lia|done]).
  - apply Forall_cons in Hr as [[Hp Hq] Hr]. simpl in Hf. destruct fuel as [|fuel]; [lia|].
    cbn [map concat] in Hd. rewrite <- app_assoc in Hd. cbn [pat_loop].
    pose proof (f_equal length Hd) as Hl. rewrite length_drop, !length_app, Hc in Hl.
    change (length (enc_pat_entry e)) with 4%nat in Hl.
    destruct (off + 4 <=? length sec - 4)%nat eqn:E; [|apply Nat.leb_gt in E; lia].
    destruct (length out <? max_out)%nat eqn:Em; simpl negb; cbv iota.
    + apply Nat.ltb_lt in Em. unfold enc_pat_entry in Hd. rewrite <- app_assoc in Hd.
      rewrite (rd16_drop _ _ _ _ Hp Hd). cbn [mbind option_bind].
      pose proof (drop_more _ _ 2 _ _ Hd eq_refl) as Hd2.
      rewrite (rd16_drop _ _ (0xE000 + pat_pmt_pid e) _ ltac:(unfold is_u16; lia) Hd2). cbn [mbind option_bind].
      pose proof (drop_more _ _ 2 _ _ Hd2 eq_refl) as Hd4. rewrite <- Nat.add_assoc in Hd4. simpl in Hd4.
      change 0x1FFF with (2 ^ 13 - 1). rewrite land_tag by (done || lia).
      simpl List.filter. unfold is_program at 1.
      destruct (pat_program_number e =? 0) eqn:E0; simpl negb; cbv iota.
      * by rewrite (IH _ _ _ _ _ crc) by (done || lia).
      * rewrite (IH _ _ _ _ _ crc) by (done || (rewrite ?length_app; simpl; lia)).
        rewrite <- app_assoc. by destruct e.
    + apply Nat.ltb_ge in Em. rewrite take_app_le by lia. by rewrite take_ge by lia.
Qed.

(** The PAT parser inverts the encoding: it returns the programs of
    the section (the network entry, program 0, left out), up to [max_out]. *)
Theorem parse_pat_enc (tsid ver : Z) (entries : list pat_entry) (crc : bytes) (max_out : nat) :
  Forall pat_range entries -> length crc = 4%nat -> (length entries <= 1000)%nat ->
  psip_parse_pat (enc_pat tsid ver entries crc) max_out =
  Some (Some (take max_out (List.filter is_program entries))).
Proof.
  intros Hr Hc Hn. unfold enc_pat, psip_parse_pat. fold enc_pat_entry.
  set (body := enc16 tsid ++ [ver; 0; 0] ++ concat (map enc_pat_entry entries)).
  assert (Hb : length body = (5 + 4 * length entries)%nat).
  { unfold body. rewrite !length_app. simpl.
    assert (length (concat (map enc_pat_entry entries)) = (4 * length entries)%nat) as ->; [|lia].
    clear. induction entries; simpl in *; lia. }
  destruct (section_checks 0 body crc ltac:(lia) Hc) as [-> H2].
  rewrite section_total_enc by lia. cbn [mbind option_bind]. rewrite H2.
  assert (3 + (length body + 4) - 4 = length (enc_section 0 body crc) - 4)%nat as ->.
  { rewrite length_enc_section. lia. }
  rewrite (pat_loop_enc entries _ _ _ _ _ crc); try done.
  - rewrite length_enc_section. lia.
  - simpl. lia.
  - rewrite length_enc_section. lia.
Qed.

(** *** PMT *)

Definition stream_range (s : pmt_stream * bytes) : Prop :=
  0 <= elementary_pid s.1 < 2 ^ 13 /\ (Z.of_nat (length s.2) < 2 ^ 12).

Lemma length_enc_stream s : length (enc_stream s) = (5 + length s.2)%nat.
Proof. unfold enc_stream. rewrite !length_app. simpl. lia. Qed.

Lemma pmt_loop_enc ss : forall fuel sec off out crc,
  Forall stream_range ss -> (length ss <= fuel)%nat -> (length out <= PMT_MAX_STREAMS)%nat ->
  length crc = 4%nat ->
  drop off sec = concat (map enc_stream ss) ++ crc -> (off <= length sec)%nat ->
  pmt_loop fuel sec off (length sec - 4) out = Some (take PMT_MAX_STREAMS (out ++ map fst ss)).
Proof.
  induction ss as [|s ss IH]; intros fuel sec off out crc Hr Hf Ho Hc Hd Hoff.
  - simpl in Hd. apply (f_equal length) in Hd. rewrite length_drop in Hd.
    cbn [map]. rewrite app_nil_r, take_ge by done.
    destruct fuel; cbn [pmt_loop];
    (destruct (off + 5 <=? length sec - 4)%nat eqn:E; [apply Nat.leb_le in E; lia|done]).
  - apply Forall_cons in Hr as [[Hp Hq] Hr]. simpl in Hf. destruct fuel as [|fuel]; [lia|].
    cbn [map concat] in Hd. rewrite <- app_assoc in Hd. cbn [pmt_loop].
    pose proof (f_equal length Hd) as Hl. rewrite length_drop, !length_app, Hc, length_enc_stream in Hl.
    destruct (off + 5 <=? length sec - 4)%nat eqn:E; [|apply Nat.leb_gt in E; lia].
    destruct (length out <? PMT_MAX_STREAMS)%nat eqn:Em; cbn [negb andb]; cbv iota.
    + apply Nat.ltb_lt in Em. pose proof (drop_more _ _ _ _ _ Hd eq_refl) as Hnext.
      rewrite length_enc_stream in Hnext.
      unfold enc_stream in Hd. rewrite <- !app_assoc in Hd.
      rewrite (rd8_drop _ _ _ _ Hd). cbn [mbind option_bind].
      pose proof (drop_more _ _ 1 _ _ Hd eq_refl) as Hd1.
      rewrite (rd16_drop _ _ (0xE000 + elementary_pid s.1) _ ltac:(unfold is_u16; lia) Hd1). cbn [mbind option_bind].
      pose proof (drop_more _ _ 2 _ _ Hd1 eq_refl) as Hd3. rewrite <- Nat.add_assoc in Hd3. cbn [Nat.add] in Hd3.
      rewrite (rd16_drop _ _ (0xF000 + Z.of_nat (length s.2)) _ ltac:(unfold is_u16; lia) Hd3). cbn [mbind option_bind].
      change 0x1FFF with (2 ^ 13 - 1). change 0x0FFF with (2 ^ 12 - 1).
      rewrite !land_tag by (done || lia). rewrite Nat2Z.id.
      replace (off + 5 + length s.2)%nat with (off + (5 + length s.2))%nat by lia.
      rewrite (IH _ _ _ _ crc); [|done|lia|rewrite length_app; simpl; lia|done|done|lia].
      rewrite <- app_assoc. by destruct s as [[] ?].
    + apply Nat.ltb_ge in Em. rewrite take_app_le by lia. by rewrite take_ge by lia.
Qed.

Lemma length_concat_streams ss :
  (5 * length ss <= length (concat (map enc_stream ss)))%nat.
Proof.
  induction ss as [|s ss IH]; cbn [map concat length]; [lia|]. rewrite length_app, length_enc_stream. lia.
Qed.

(** Claim C18: the PMT parser inverts the encoding, whatever the descriptors:
    it returns the program number, the PCR PID and the first 32 streams. *)
Theorem parse_pmt_enc (ver pn pcr : Z) (info : bytes) (ss : list (pmt_stream * bytes)) (crc : bytes) :
  is_u16 pn -> 0 <= pcr < 2 ^ 13 -> Forall stream_range ss -> length crc = 4%nat ->
  (length info + length (concat (map enc_stream ss)) <= 4000)%nat ->
  psip_parse_pmt (enc_pmt ver pn pcr info ss crc) =
  Some (Some {| pmt_program_number := pn; pcr_pid := pcr; streams := take PMT_MAX_STREAMS (map fst ss) |}).
Proof.
  intros Hpn Hpcr Hr Hc Hn. unfold enc_pmt, psip_parse_pmt.
  set (body := enc16 pn ++ _). set (sec := enc_section 2 body crc).
  assert (Hb : length body = (9 + length info + length (concat (map enc_stream ss)))%nat).
  { unfold body. rewrite !length_app. simpl. lia. }
  destruct (section_checks 2 body crc ltac:(lia) Hc) as [H1 H2].
  pose proof (section_total_enc 2 body crc ltac:(lia)) as H3.
  fold sec in H1, H2, H3. rewrite H1, H3. cbn [mbind option_bind]. rewrite H2.
  assert (3 + (length body + 4) - 4 = length sec - 4)%nat as ->.
  { unfold sec. rewrite length_enc_section. lia. }
  assert (D3 : drop 3 sec = enc16 pn ++ [ver; 0; 0] ++ enc16 (0xE000 + pcr) ++
    enc16 (0xF000 + Z.of_nat (length info)) ++ info ++ concat (map enc_stream ss) ++ crc).
  { unfold sec, enc_section, body. rewrite drop_app_length' by done. by rewrite <- !app_assoc. }
  rewrite (rd16_drop sec 3 _ _ Hpn D3). cbn [mbind option_bind].
  pose proof (drop_more sec 3 2 _ _ D3 eq_refl) as D5.
  pose proof (drop_more sec 5 3 _ _ D5 eq_refl) as D8. cbn [Nat.add] in D8.
  rewrite (rd16_drop sec 8 (0xE000 + pcr) _ ltac:(unfold is_u16; lia) D8). cbn [mbind option_bind].
  pose proof (drop_more sec 8 2 _ _ D8 eq_refl) as D10. cbn [Nat.add] in D10.
  rewrite (rd16_drop sec 10 (0xF000 + Z.of_nat (length info)) _ ltac:(unfold is_u16; lia) D10). cbn [mbind option_bind].
  pose proof (drop_more sec 10 2 _ _ D10 eq_refl) as D12. cbn [Nat.add] in D12.
  change 0x1FFF with (2 ^ 13 - 1). change 0x0FFF with (2 ^ 12 - 1).
  rewrite !land_tag by (done || lia). rewrite Nat2Z.id.
  pose proof (drop_more sec 12 _ _ _ D12 eq_refl) as D.
  assert (Hsec : length sec = (12 + length info + length (concat (map enc_stream ss)) + 4)%nat).
  { unfold sec. rewrite length_enc_section, Hb, Hc. lia. }
  pose proof (length_concat_streams ss).
  rewrite (pmt_loop_enc ss _ _ _ _ crc); try done; try lia.
  unfold PMT_MAX_STREAMS. simpl. lia.
Qed.

(** *** TVCT *)

Definition vc_range (v : vc) : Prop :=
  length (vc_units v) = 7%nat /\ Forall is_u16 (vc_units v) /\
  0 <= vc_major v < 1024 /\ 0 <= vc_minor v < 1024 /\
  length (vc_freq v) = 4%nat /\ is_u16 (vc_tsid v) /\ is_u16 (vc_program v) /\
  is_byte (vc_flags v) /\ length (vc_service v) = 3%nat /\ (Z.of_nat (length (vc_descr v)) < 2 ^ 10).

Lemma name_loop_enc us : forall sec off rest,
  Forall is_u16 us -> drop off sec = concat (map enc16 us) ++ rest ->
  name_loop (length us) sec off = Some (units_name us).
Proof.
  induction us as [|u us IH]; intros sec off rest Hu Hd; [done|].
  apply Forall_cons in Hu as [Hu Hus]. cbn [map concat] in Hd. rewrite <- app_assoc in Hd.
  cbn [length name_loop units_name]. rewrite (rd16_drop _ _ _ _ Hu Hd). cbn [mbind option_bind].
  destruct (u =? 0); [done|].
  rewrite (IH _ _ rest Hus (drop_more _ _ 2 _ _ Hd eq_refl)). done.
Qed.

Lemma triplet_fields M m :
  0 <= M < 1024 -> 0 <= m < 1024 ->
  let t := 0xF00000 + M * 1024 + m in
  let r := Z.lor (Z.lor (Z.shiftl (t / 65536) 16) (Z.shiftl (t / 256 mod 256) 8)) (t mod 256) in
  Z.land (Z.shiftr r 10) 0x3FF = M /\ Z.land r 0x3FF = m.
Proof.
  intros HM Hm t r.
  assert (r = t) as ->.
  { unfold r. pose proof (Z.mod_pos_bound t 256 ltac:(lia)). pose proof (Z.mod_pos_bound (t / 256) 256 ltac:(lia)).
    rewrite <- Z.lor_assoc, (lor_shiftl_low (t / 256 mod 256)) by lia.
    rewrite lor_shiftl_low by lia. Z.to_euclidean_division_equations; lia. }
  change 0x3FF with (2 ^ 10 - 1). rewrite !land_ones_mod, shiftr_div by lia. unfold t.
  split; Z.to_euclidean_division_equations; lia.
Qed.

Lemma hidden_bit b : is_byte b -> negb (Z.land b 0x10 =? 0) = Z.testbit b 4.
Proof.
  intros Hb. apply eqb_prop. revert b Hb. apply forall_byte. vm_compute. reflexivity.
Qed.

Lemma drop_at {A} (l : list A) off k n a r :
  drop (off + k) l = a ++ r -> n = length a -> drop (off + (k + n)) l = r.
Proof. intros H ->. rewrite Nat.add_assoc. by eapply drop_more. Qed.

(** From what follows offset [off + k] to what follows [n] bytes later. *)
Tactic Notation "adv" constr(D) constr(k) constr(n) uconstr(a) uconstr(H) ident(D') :=
  pose proof (drop_at _ _ k n a _ D H) as D'; cbn [Nat.add] in D'.

Lemma read_tvct_entry_enc v sec off rest :
  vc_range v -> drop off sec = enc_vc v ++ rest ->
  read_tvct_entry sec off = Some (vc_entry v, Z.of_nat (length (vc_descr v))).
Proof.
  intros (H7 & Hu & HM & Hm & Hfr & Ht & Hp & Hfl & Hsv & Hde) Hd.
  unfold enc_vc in Hd. cbv zeta in Hd. rewrite <- !app_assoc in Hd.
  unfold read_tvct_entry, decode_short_name. change (Nat.min 7 (16 - 1)) with 7%nat.
  pose proof (name_loop_enc _ _ _ _ Hu Hd) as Hn. rewrite H7 in Hn. rewrite Hn. cbn [mbind option_bind].
  set (t := 0xF00000 + vc_major v * 1024 + vc_minor v) in *.
  assert (Hu14 : length (concat (map enc16 (vc_units v))) = 14%nat).
  { destruct (vc_units v) as [|? [|? [|? [|? [|? [|? [|? [|]]]]]]]]; done. }
  pose proof (drop_more _ _ 14 _ _ Hd (eq_sym Hu14)) as D14.
  rewrite (rd8_drop _ _ _ _ D14). cbn [mbind option_bind].
  adv D14 14%nat 1%nat [_] eq_refl D15.
  rewrite (rd8_drop _ _ _ _ D15). cbn [mbind option_bind].
  adv D15 15%nat 1%nat [_] eq_refl D16.
  rewrite (rd8_drop _ _ _ _ D16). cbn [mbind option_bind].
  adv D16 16%nat 1%nat [_] eq_refl D17.
  adv D17 17%nat 1%nat [_] eq_refl D18.
  adv D18 18%nat 4%nat _ (eq_sym Hfr) D22.
  rewrite (rd16_drop _ _ _ _ Ht D22). cbn [mbind option_bind].
  adv D22 22%nat 2%nat _ eq_refl D24.
  rewrite (rd16_drop _ _ _ _ Hp D24). cbn [mbind option_bind].
  adv D24 24%nat 2%nat _ eq_refl D26.
  rewrite (rd8_drop _ _ _ _ D26). cbn [mbind option_bind].
  adv D26 26%nat 1%nat [_] eq_refl D27.
  adv D27 27%nat 3%nat _ (eq_sym Hsv) D30.
  rewrite (rd16_drop _ _ (0xFC00 + Z.of_nat (length (vc_descr v))) _ ltac:(unfold is_u16; lia) D30). cbn [mbind option_bind].
  destruct (triplet_fields _ _ HM Hm) as [E1 E2]. fold t in E1, E2. rewrite E1, E2, hidden_bit by done.
  change 0x03FF with (2 ^ 10 - 1). by rewrite land_tag by (done || lia).
Qed.

Lemma length_enc_vc v : vc_range v -> length (enc_vc v) = (32 + length (vc_descr v))%nat.
Proof.
  intros (H7 & _ & _ & _ & Hfr & _ & _ & _ & Hsv & _).
  unfold enc_vc. rewrite !length_app, Hfr, Hsv. simpl.
  destruct (vc_units v) as [|? [|? [|? [|? [|? [|? [|? [|]]]]]]]]; done.
Qed.

Lemma tvct_loop_enc vs : forall sec off max_out out rest,
  Forall vc_range vs -> (length out <= max_out)%nat ->
  drop off sec = concat (map enc_vc vs) ++ rest -> (4 <= length rest)%nat -> (off <= length sec)%nat ->
  tvct_loop (length vs) sec off (length sec - 4) max_out out = Some (take max_out (out ++ map vc_entry vs)).
Proof.
  induction vs as [|v vs IH]; intros sec off max_out out rest Hr Ho Hd Hrest Hoff.
  - cbn [length tvct_loop map]. by rewrite app_nil_r, take_ge.
  - apply Forall_cons in Hr as [Hv Hr]. cbn [map concat] in Hd. rewrite <- app_assoc in Hd.
    cbn [length tvct_loop].
    destruct (max_out <=? length out)%nat eqn:Em.
    + apply Nat.leb_le in Em. rewrite take_app_le by lia. by rewrite take_ge by lia.
    + apply Nat.leb_gt in Em.
      pose proof (f_equal length Hd) as Hl. rewrite length_drop, !length_app, length_enc_vc in Hl by done.
      destruct (length sec - 4 <? off + 32)%nat eqn:E; [apply Nat.ltb_lt in E; lia|].
      rewrite (read_tvct_entry_enc _ _ _ _ Hv Hd). cbn [mbind option_bind].
      pose proof (drop_more _ _ _ _ _ Hd eq_refl) as Hnext.
      rewrite length_enc_vc in Hnext by done. rewrite Nat2Z.id.
      rewrite (IH _ _ _ _ rest); [|done|rewrite length_app; simpl; lia|done|done|lia].
      cbn [map]. by rewrite <- app_assoc.
Qed.

Lemma tvct_enc_parses (tsid ver sn lsn : Z) (vs : list vc) (tail crc : bytes) (max_out : nat) :
  Forall vc_range vs -> (length vs < 256)%nat -> length crc = 4%nat ->
  (length (concat (map enc_vc vs)) + length tail <= 4000)%nat ->
  (2 <= length (concat (map enc_vc vs)) + length tail)%nat ->
  psip_parse_tvct (enc_tvct tsid ver sn lsn vs tail crc) max_out =
  Some (Some (sn, lsn, take max_out (map vc_entry vs))).
Proof.
  intros Hr Hvs Hc Hn Hmin. unfold enc_tvct, psip_parse_tvct.
  set (body := enc16 tsid ++ _). set (sec := enc_section 0xC8 body crc).
  assert (Hb : length body = (7 + length (concat (map enc_vc vs)) + length tail)%nat).
  { unfold body. rewrite !length_app. simpl. lia. }
  destruct (section_checks 0xC8 body crc ltac:(lia) Hc) as [H1 H2].
  pose proof (section_total_enc 0xC8 body crc ltac:(lia)) as H3.
  fold sec in H1, H2, H3. rewrite H1, H3. cbn [mbind option_bind]. rewrite H2.
  assert (3 + (length body + 4) - 4 = length sec - 4)%nat as ->.
  { unfold sec. rewrite length_enc_section. lia. }
  assert (D : drop 10 sec = concat (map enc_vc vs) ++ tail ++ crc).
  { unfold sec, enc_section, body, enc16. cbn [app drop]. by rewrite <- app_assoc. }
  change (rd8 sec 6) with (Some sn). change (rd8 sec 7) with (Some lsn).
  change (rd8 sec 9) with (Some (Z.of_nat (length vs))). cbn [mbind option_bind].
  rewrite Nat2Z.id.
  rewrite (tvct_loop_enc vs _ _ _ _ (tail ++ crc)); try done.
  - simpl. lia.
  - rewrite length_app. lia.
  - unfold sec. rewrite length_enc_section. lia.
Qed.

(** Claim C17: the TVCT parser inverts the encoding: section numbers, and for
    each virtual channel its name (trimmed), numbers, ids and hidden flag,
    whatever the other fields and descriptors, up to [max_out]. *)
Theorem parse_tvct_enc (tsid ver sn lsn : Z) (vs : list vc) (tail crc : bytes) (max_out : nat) :
  Forall vc_range vs -> (length vs < 256)%nat -> length crc = 4%nat ->
  (length (concat (map enc_vc vs)) + length tail <= 4000)%nat ->
  (2 <= length (concat (map enc_vc vs)) + length tail)%nat ->
  psip_parse_tvct (enc_tvct tsid ver sn lsn vs tail crc) max_out =
  Some (Some (sn, lsn, take max_out (map vc_entry vs))).
Proof. apply tvct_enc_parses. Qed.

(** *** Concrete sections *)

Definition sample_crc : bytes := [1; 2; 3; 4].
Definition sample_vc : vc :=
  {| vc_units := [0x4B; 0x41; 0x42; 0x43; 0x20; 0; 0]; vc_major := 7; vc_minor := 1;
     vc_mod := 4; vc_freq := [0; 0; 0; 0]; vc_tsid := 0x123; vc_program := 3;
     vc_flags := 0x0D; vc_service := [0xC2; 0; 1]; vc_descr := [0xA0; 1; 0] |}.

Lemma parsed_entries_wellformed_witness :
  Forall pat_entry_ok [ {| pat_program_number := 3; pat_pmt_pid := 0x30 |} ].
Proof.
  apply (proj1 (parsed_entries_wellformed
    (enc_pat 1 0xC1 [ {| pat_program_number := 3; pat_pmt_pid := 0x30 |} ] sample_crc) 64)).
  vm_compute. reflexivity.
Defined.

Lemma parse_pat_enc_witness :
  psip_parse_pat (enc_pat 1 0xC1 [ {| pat_program_number := 0; pat_pmt_pid := 0x10 |};
                                   {| pat_program_number := 3; pat_pmt_pid := 0x30 |} ] sample_crc) 64 =
  Some (Some [ {| pat_program_number := 3; pat_pmt_pid := 0x30 |} ]).
Proof.
  rewrite parse_pat_enc; [reflexivity| |reflexivity|simpl; lia].
  repeat constructor; simpl; lia.
Defined.

Lemma parse_pmt_enc_witness :
  psip_parse_pmt (enc_pmt 0xC1 3 0x31 [5; 4; 0; 0; 0; 0]
    [ ({| stream_type := 2; elementary_pid := 0x31 |}, [6; 1; 0]);
      ({| stream_type := 0x81; elementary_pid := 0x34 |}, []) ] sample_crc) =
  Some (Some {| pmt_program_number := 3; pcr_pid := 0x31;
                streams := [ {| stream_type := 2; elementary_pid := 0x31 |};
                             {| stream_type := 0x81; elementary_pid := 0x34 |} ] |}).
Proof.
  rewrite parse_pmt_enc; [reflexivity|unfold is_u16; lia|lia| |reflexivity|simpl; lia].
  repeat constructor; simpl; lia.
Defined.

Lemma parse_tvct_enc_witness :
  psip_parse_tvct (enc_tvct 1 0xC1 0 0 [sample_vc] [0xFC; 0] sample_crc) 64 =
  Some (Some (0, 0, [ {| short_name := "KABC"; major_channel_number := 7; minor_channel_number := 1;
                         channel_tsid := 0x123; program_number := 3; hidden := false |} ])).
Proof.
  rewrite parse_tvct_enc; [reflexivity| |simpl; lia|reflexivity|simpl; lia|simpl; lia].
  repeat constructor; unfold is_u16, is_byte; simpl; lia.
Defined.
