(* ===== verification/ChannelDb.v ===== *)
(** Channel database: src/src/dvb_channel.c.

    The table [g_channels[0 .. g_count)] is a list of records; a pointer to an
    entry is its index (slot), with what was last seen there ([chan_ptr]).  Operations take and return the table; each is
    one critical section of [g_lock].  The cache file is a string, read line
    by line through [fgets].  The theorems: (major, minor) stays unique and the
    count within 256; adding and finding; slots never move; the sorted copy is
    the unique sorted permutation; saving and loading round-trips. *)
From Stdlib Require Import Sorted.
From S2P Require Import Prelude CLib FreqPlan.

Definition DVB_CHANNEL_MAX : nat := 256.

Record dvb_channel := {
  major : Z;
  minor : Z;
  short_name : string;       (* at most 15 characters *)
  rf_channel : Z;
  delivery : Z;              (* the enumerator's value *)
  frequency_hz : Z;
  channel_tsid : Z;
  program_number : Z;
  pmt_pid : Z;
  pcr_pid : Z;
  video_pid : Z;
  video_stream_type : Z;
  audio_pid : Z;
  audio_stream_type : Z
}.

#[export] Instance dvb_channel_eq_dec : EqDecision dvb_channel.
Proof. solve_decision. Defined.

Definition delivery_num (d : ChannelMap.hdhr_delivery_system) : Z :=
  match d with ChannelMap.HDHR_DELIVERY_ATSC_VSB => 0 | ChannelMap.HDHR_DELIVERY_QAM => 1 end.

(** [g_channels[0 .. g_count)] *)
Abbreviation channel_db := (list dvb_channel).

Definition dvb_channel_db_clear (db : channel_db) : channel_db := [].

Definition same_number (ma mi : Z) (ch : dvb_channel) : bool :=
  (major ch =? ma) && (minor ch =? mi).

(** Index of the first entry that satisfies [P]. *)
Fixpoint find_slot (P : dvb_channel -> bool) (db : channel_db) : option nat :=
  match db with
  | [] => None
  | ch :: db => if P ch then Some O else S <$> find_slot P db
  end.

Definition dvb_channel_db_add (db : channel_db) (ch : dvb_channel) : bool * channel_db :=
  match find_slot (same_number (major ch) (minor ch)) db with
  | Some i => (true, <[i := ch]> db)
  | None => if (length db <? DVB_CHANNEL_MAX)%nat then (true, db ++ [ch]) else (false, db)
  end.

Definition dvb_channel_count (db : channel_db) : Z := Z.of_nat (length db).

Definition dvb_channel_at (db : channel_db) (i : Z) : option dvb_channel :=
  if (i <? 0) || (Z.of_nat (length db) <=? i) then None else db !! Z.to_nat i.

Definition dvb_find_channel (db : channel_db) (ma mi : Z) : option nat :=
  find_slot (same_number ma mi) db.

Definition cmp_major_minor (x y : dvb_channel) : Z :=
  if negb (major x =? major y) then (if major x <? major y then -1 else 1)
  else if negb (minor x =? minor y) then (if minor x <? minor y then -1 else 1)
  else 0.

(** qsort with a comparison function. *)
Fixpoint sort_insert {A} (cmp : A -> A -> Z) (x : A) (l : list A) : list A :=
  match l with
  | [] => [x]
  | y :: l' => if cmp x y <=? 0 then x :: l else y :: sort_insert cmp x l'
  end.
Definition qsort {A} (cmp : A -> A -> Z) (l : list A) : list A := foldr (sort_insert cmp) [] l.

Definition dvb_channels_sorted (db : channel_db) (max_out : nat) : list dvb_channel :=
  qsort cmp_major_minor (take (Nat.min (length db) max_out) db).

(** Slots of the entries on a frequency, at most [max_out]. *)
Fixpoint on_freq_loop (db : channel_db) (i : nat) (freq : Z) (max_out n : nat) : list nat :=
  match db with
  | [] => []
  | ch :: db =>
      if (n <? max_out)%nat then
        if frequency_hz ch =? freq then i :: on_freq_loop db (S i) freq max_out (S n)
        else on_freq_loop db (S i) freq max_out n
      else []
  end.
Definition dvb_channels_on_freq (db : channel_db) (freq : Z) (max_out : nat) : list nat :=
  on_freq_loop db 0 freq max_out 0.

Definition find_channel (db : channel_db) (ma mi : Z) : option dvb_channel :=
  i ← dvb_find_channel db ma mi; db !! i.

(** *** Pointers to channels *)

(** A pointer into the table: the slot and the record last seen there (the
    table's memory keeps a slot's record when the table is cleared). *)
Record chan_ptr := { cp_slot : nat; cp_seen : dvb_channel }.
Definition deref (p : chan_ptr) (db : channel_db) : dvb_channel := default (cp_seen p) (db !! cp_slot p).
Definition slot_ptr (db : channel_db) (i : nat) : option chan_ptr :=
  ch ← db !! i; Some {| cp_slot := i; cp_seen := ch |}.
Definition find_ptr (ma mi : Z) (db : channel_db) : option chan_ptr :=
  i ← dvb_find_channel db ma mi; slot_ptr db i.
Definition first_on_freq (db : channel_db) (freq : Z) : option chan_ptr :=
  match dvb_channels_on_freq db freq DVB_CHANNEL_MAX with [] => None | i :: _ => slot_ptr db i end.

(** [const struct dvb_channel *]: into the table, read again at every use, or
    to a record of the holder's own. *)
Inductive channel_ref := TableChannel (p : chan_ptr) | OwnChannel (ch : dvb_channel).
Definition channel_of (c : channel_ref) (db : channel_db) : dvb_channel :=
  match c with TableChannel p => deref p db | OwnChannel ch => ch end.

Lemma find_ptr_none ma mi db : find_ptr ma mi db = None <-> find_channel db ma mi = None.
Proof. unfold find_ptr, find_channel, slot_ptr. destruct (dvb_find_channel db ma mi); [|done]. simpl. by destruct (db !! _). Qed.

(** *** The cache file *)

Definition nl : string := String NL "".

Definition header1 : string := "# hdhr-emu channel cache -- generated, do not edit by hand.".
Definition header2 : string := "# major minor rf_channel delivery frequency_hz channel_tsid program_number pmt_pid pcr_pid video_pid video_stream_type audio_pid audio_stream_type short_name".
Definition cache_header : string := header1 +:+ nl +:+ header2 +:+ nl.

Definition cache_line (ch : dvb_channel) : string :=
  dec (major ch) +:+ " " +:+ dec (minor ch) +:+ " " +:+ dec (rf_channel ch) +:+ " " +:+
  dec (delivery ch) +:+ " " +:+ dec_u (frequency_hz ch) +:+ " " +:+ dec_u (channel_tsid ch) +:+ " " +:+
  dec_u (program_number ch) +:+ " " +:+ dec_u (pmt_pid ch) +:+ " " +:+ dec_u (pcr_pid ch) +:+ " " +:+
  dec_u (video_pid ch) +:+ " " +:+ dec_u (video_stream_type ch) +:+ " " +:+ dec_u (audio_pid ch) +:+ " " +:+
  dec_u (audio_stream_type ch) +:+ " " +:+ short_name ch.

Fixpoint cache_lines (db : channel_db) : string :=
  match db with [] => "" | ch :: db => cache_line ch +:+ nl +:+ cache_lines db end.

(** Files by path; [fopen] for writing succeeds on the paths [w] accepts. *)
Definition dvb_channel_db_save (w : string -> bool) (files : gmap string string)
    (path : option string) (db : channel_db) : bool * gmap string string :=
  match path with
  | None | Some EmptyString => (false, files)
  | Some p =>
      if w p then (true, <[p := cache_header +:+ cache_lines db]> files) else (false, files)
  end.

(** The sscanf of one line: 13 numbers, white space, then the name. *)
Definition scan_cache_line (line : string) : option dvb_channel :=
  '(ma, s) ← scan_d line;
  '(mi, s) ← scan_d s;
  '(rf, s) ← scan_d s;
  '(de, s) ← scan_d s;
  '(fr, s) ← scan_uw 10 32 s;
  '(ts, s) ← scan_uw 10 16 s;
  '(pn, s) ← scan_uw 10 16 s;
  '(pm, s) ← scan_uw 10 16 s;
  '(pc, s) ← scan_uw 10 16 s;
  '(vp, s) ← scan_uw 10 16 s;
  '(vt, s) ← scan_uw 10 8 s;
  '(ap, s) ← scan_uw 10 16 s;
  '(at_, s) ← scan_uw 10 8 s;
  let name := skip_while (fun c => bool_decide (c = " "%char)) (skip_while isspace s) in
  let name := rstrip (fun c => bool_decide (c = NL) || bool_decide (c = "013"%char)) name in
  Some {| major := ma; minor := mi; short_name := snprintf 16 name; rf_channel := rf; delivery := de;
          frequency_hz := fr; channel_tsid := ts; program_number := pn; pmt_pid := pm; pcr_pid := pc;
          video_pid := vp; video_stream_type := vt; audio_pid := ap; audio_stream_type := at_ |}.

Definition skipped_line (line : string) : bool :=
  match line with
  | EmptyString => true
  | String c _ => bool_decide (c = "#"%char) || bool_decide (c = NL)
  end.

(** Every turn consumes at least one character of the file. *)
Fixpoint load_loop (fuel : nat) (f : string) (n : Z) (db : channel_db) : Z * channel_db :=
  match fuel with
  | O => (n, db)
  | S fuel =>
      match fgets 256 f with
      | None => (n, db)
      | Some (line, f') =>
          let line := cstr line in
          if skipped_line line then load_loop fuel f' n db
          else match scan_cache_line line with
               | None => (-1, db)
               | Some ch =>
                   let '(ok, db') := dvb_channel_db_add db ch in
                   load_loop fuel f' (if ok then n + 1 else n) db'
               end
      end
  end.

Definition dvb_channel_db_load (files : gmap string string) (path : option string)
    (db : channel_db) : Z * channel_db :=
  match path with
  | None | Some EmptyString => (0, db)
  | Some p =>
      match files !! p with
      | None => (0, db)
      | Some f => load_loop (String.length f) f 0 db
      end
  end.

(** ** The table *)

Definition key (ch : dvb_channel) : Z * Z := (major ch, minor ch).

(** Type invariant: no number twice, at most 256 entries. *)
Definition db_ok (db : channel_db) : Prop :=
  NoDup (key <$> db) /\ (length db <= DVB_CHANNEL_MAX)%nat.

Lemma same_number_key ma mi ch : same_number ma mi ch = true <-> key ch = (ma, mi).
Proof.
  unfold same_number, key. rewrite andb_true_iff, !Z.eqb_eq. split; [intros [-> ->]; done|by intros [= -> ->]].
Qed.

Lemma find_slot_some P db i :
  find_slot P db = Some i -> exists ch, db !! i = Some ch /\ P ch = true.
Proof.
  revert i. induction db as [|ch db IH]; intros i; simpl; [done|].
  destruct (P ch) eqn:E; [intros [= <-]; eauto|].
  destruct (find_slot P db) as [j|]; [|done]. simpl. intros [= <-]. by apply IH.
Qed.

Lemma find_slot_none P db : find_slot P db = None -> forall ch, ch ∈ db -> P ch = false.
Proof.
  induction db as [|x db IH]; simpl; intros H ch Hin; [by apply elem_of_nil in Hin|].
  destruct (P x) eqn:E; [done|]. destruct (find_slot P db); [done|].
  apply elem_of_cons in Hin as [->|Hin]; auto.
Qed.

Lemma find_slot_unique db i ch :
  NoDup (key <$> db) -> db !! i = Some ch ->
  find_slot (same_number (major ch) (minor ch)) db = Some i.
Proof.
  revert i. induction db as [|x db IH]; intros i Hnd Hi; [done|].
  cbn [fmap list_fmap] in Hnd. apply NoDup_cons in Hnd as [Hx Hnd]. destruct i as [|i]; simpl in Hi |- *.
  - injection Hi as ->. by rewrite (proj2 (same_number_key _ _ ch)).
  - destruct (same_number (major ch) (minor ch) x) eqn:E.
    + apply same_number_key in E. exfalso. apply Hx. rewrite E.
      apply list_elem_of_fmap. exists ch. split; [done|]. by eapply list_elem_of_lookup_2.
    + by rewrite (IH i).
Qed.

Lemma add_cases db ch :
  let k := find_slot (same_number (major ch) (minor ch)) db in
  match k with
  | Some i => exists old, db !! i = Some old /\ key old = key ch /\
                dvb_channel_db_add db ch = (true, <[i := ch]> db)
  | None => key ch ∉ (key <$> db) /\
      dvb_channel_db_add db ch =
        if (length db <? DVB_CHANNEL_MAX)%nat then (true, db ++ [ch]) else (false, db)
  end.
Proof.
  unfold dvb_channel_db_add. simpl. destruct (find_slot _ db) as [i|] eqn:E.
  - apply find_slot_some in E as (old & Hi & Hk). apply same_number_key in Hk. eauto.
  - split; [|done]. intros Hin. apply list_elem_of_fmap in Hin as (x & Hx & Hin).
    apply (find_slot_none _ _ E) in Hin. assert (same_number (major ch) (minor ch) x = true); [|congruence].
    by apply same_number_key.
Qed.

Lemma key_insert (db : channel_db) (i : nat) ch old :
  db !! i = Some old -> key old = key ch -> key <$> <[i := ch]> db = key <$> db.
Proof.
  intros Hi Hk. rewrite list_fmap_insert. apply list_insert_id.
  rewrite list_lookup_fmap, Hi. simpl. by rewrite Hk.
Qed.

Lemma db_add_ok db ch : db_ok db -> db_ok (dvb_channel_db_add db ch).2.
Proof.
  intros [Hnd Hl]. pose proof (add_cases db ch) as H. cbv zeta in H.
  destruct (find_slot _ db) as [i|].
  - destruct H as (old & Hi & Hk & ->). split; simpl; [by erewrite key_insert|by rewrite length_insert].
  - destruct H as [Hn ->]. destruct (length db <? _)%nat eqn:E; [|done]. apply Nat.ltb_lt in E.
    split; simpl.
    + rewrite fmap_app. apply NoDup_app. split; [done|]. split; [|apply NoDup_singleton].
      intros k Hk Hk'. apply list_elem_of_singleton in Hk' as ->. done.
    + rewrite length_app. simpl. lia.
Qed.

Lemma find_slot_spec db ma mi i :
  db_ok db -> dvb_find_channel db ma mi = Some i <-> (exists ch, db !! i = Some ch /\ key ch = (ma, mi)).
Proof.
  intros [Hnd _]. split.
  - intros H. apply find_slot_some in H as (ch & Hi & Hk). apply same_number_key in Hk. eauto.
  - intros (ch & Hi & [= <- <-]). by apply find_slot_unique.
Qed.

(** The table as the daemon keeps it: names fit their 16 bytes, too. *)
Definition name_fits (ch : dvb_channel) : Prop := (String.length (short_name ch) <= 15)%nat.
Definition table_ok (db : channel_db) : Prop := db_ok db /\ Forall name_fits db.

Lemma table_add_ok db ch : name_fits ch -> table_ok db -> table_ok (dvb_channel_db_add db ch).2.
Proof.
  intros Hc [Hd Hn]. split; [by apply db_add_ok|]. unfold dvb_channel_db_add. destruct (find_slot _ db) as [i|]; simpl.
  - by apply Forall_insert.
  - destruct (_ <? _)%nat; simpl; [|done]. apply Forall_app. auto.
Qed.

Lemma table_clear_ok : table_ok [].
Proof. split; [split; [apply NoDup_nil_2|simpl; lia]|done]. Qed.

Lemma scan_cache_line_fits line ch : scan_cache_line line = Some ch -> name_fits ch.
Proof.
  unfold scan_cache_line. intros H.
  repeat match type of H with mbind _ ?x = _ => destruct x as [[? ?]|]; [cbn [mbind option_bind] in H|done] end.
  injection H as <-. unfold name_fits. cbn [short_name].
  match goal with |- (String.length (snprintf 16 ?x) <= _)%nat => pose proof (length_snprintf 16 x) end. lia.
Qed.

Lemma load_loop_ok fuel f n db : table_ok db -> table_ok (load_loop fuel f n db).2.
Proof.
  revert f n db. induction fuel as [|fuel IH]; intros f n db H; [done|]. cbn [load_loop].
  destruct (fgets 256 f) as [[line f']|]; [|done]. destruct (skipped_line _); [auto|].
  destruct (scan_cache_line _) as [ch|] eqn:E; [|done]. apply scan_cache_line_fits in E.
  pose proof (table_add_ok db ch E H) as H'. destruct (dvb_channel_db_add db ch) as [ok db']. auto.
Qed.

(** Adding changes no slot but the channel's own, and adds no other record. *)
Lemma add_keeps db ch ok db' : dvb_channel_db_add db ch = (ok, db') ->
  forall i x, db !! i = Some x -> db' !! i = Some x \/ (db' !! i = Some ch /\ key x = key ch).
Proof.
  intros H i x Hi. pose proof (add_cases db ch) as Ha. cbv zeta in Ha. destruct (find_slot _ db) as [j|].
  - destruct Ha as (old & Hj & Hk & Ha). rewrite Ha in H. injection H as <- <-.
    destruct (decide (i = j)) as [->|]; [right|left; by rewrite list_lookup_insert_ne].
    rewrite list_lookup_insert_eq by (by eapply lookup_lt_Some). split; [done|congruence].
  - destruct Ha as [_ Ha]. rewrite Ha in H. left.
    destruct (_ <? _)%nat; injection H as <- <-; [|done]. by apply lookup_app_l_Some.
Qed.

Lemma add_back db ch ok db' : dvb_channel_db_add db ch = (ok, db') ->
  forall i y, db' !! i = Some y -> key y <> key ch -> db !! i = Some y.
Proof.
  intros H i y Hi Hk. pose proof (add_cases db ch) as Ha. cbv zeta in Ha. destruct (find_slot _ db) as [j|].
  - destruct Ha as (old & Hj & Hk' & Ha). rewrite Ha in H. injection H as <- <-.
    apply list_lookup_insert_Some in Hi as [(-> & -> & _)|[_ Hi]]; done.
  - destruct Ha as [_ Ha]. rewrite Ha in H. destruct (_ <? _)%nat; injection H as <- <-; [|done].
    apply lookup_app_Some in Hi as [Hi|[_ Hi]]; [done|].
    apply list_lookup_singleton_Some in Hi as [_ <-]. done.
Qed.

(** Claim C19: adding a channel keeps every number unique and the count within
    256; it fails, changing nothing, exactly when the number is new and the
    table full; otherwise looking the number up gives a slot that holds the
    new channel, every other number is found where it was with the same
    contents, and no slot in use changes its number. *)
Theorem db_add_spec (db : channel_db) (ch : dvb_channel) (ok : bool) (db' : channel_db) :
  db_ok db -> dvb_channel_db_add db ch = (ok, db') ->
  db_ok db' /\
  (ok = false <-> dvb_find_channel db (major ch) (minor ch) = None /\ length db = DVB_CHANNEL_MAX) /\
  (ok = false -> db' = db) /\
  (ok = true -> exists i, dvb_find_channel db' (major ch) (minor ch) = Some i /\ db' !! i = Some ch) /\
  (forall ma mi, (ma, mi) <> key ch ->
     dvb_find_channel db' ma mi = dvb_find_channel db ma mi /\
     (forall i, dvb_find_channel db ma mi = Some i -> db' !! i = db !! i)) /\
  (forall i x, db !! i = Some x -> exists y, db' !! i = Some y /\ key y = key x).
Proof.
  intros Hok H. pose proof (db_add_ok db ch Hok) as Hok'. rewrite H in Hok'. simpl in Hok'.
  pose proof (add_keeps db ch ok db' H) as Hslots. pose proof (add_back db ch ok db' H) as Hback.
  split; [done|]. split; [|split; [|split; [|split]]].
  - unfold dvb_find_channel. unfold dvb_channel_db_add in H. destruct (find_slot _ db) as [j|].
    + injection H as <- <-. split; [done|by intros [? _]].
    + destruct (_ <? _)%nat eqn:E; injection H as <- <-.
      * apply Nat.ltb_lt in E. split; [done|intros [_ ?]; lia].
      * apply Nat.ltb_ge in E. destruct Hok. split; [intros _; split; [done|lia]|done].
  - intros ->. unfold dvb_channel_db_add in H. destruct (find_slot _ db); [done|].
    destruct (_ <? _)%nat; by simplify_eq.
  - intros ->. assert (exists i, db' !! i = Some ch) as [i Hi].
    { unfold dvb_channel_db_add in H. destruct (find_slot _ db) as [j|] eqn:E.
      - simplify_eq. apply find_slot_some in E as (old & Hj & _). exists j.
        apply list_lookup_insert_eq. by eapply lookup_lt_Some.
      - destruct (_ <? _)%nat; simplify_eq. exists (length db).
        by rewrite lookup_app_r, Nat.sub_diag. }
    exists i. split; [|done]. apply find_slot_spec; [done|]. eauto.
  - intros ma mi Hne. split.
    + destruct (dvb_find_channel db ma mi) as [i|] eqn:E.
      * apply find_slot_spec in E as (x & Hi & Hk); [|done]. apply find_slot_spec; [done|].
        destruct (Hslots i x Hi) as [?|[_ ?]]; [eauto|congruence].
      * destruct (dvb_find_channel db' ma mi) as [i|] eqn:E'; [|done].
        apply find_slot_spec in E' as (x & Hi & Hk); [|done].
        assert (dvb_find_channel db ma mi = Some i); [|congruence].
        apply find_slot_spec; [done|]. exists x. split; [|done]. apply Hback; congruence.
    + intros i E. apply find_slot_spec in E as (x & Hi & Hk); [|done]. rewrite Hi.
      destruct (Hslots i x Hi) as [?|[_ ?]]; [done|congruence].
  - intros i x Hi. destruct (Hslots i x Hi) as [?|[? ?]]; eauto.
Qed.

(** ** Sorting *)

Definition number_lt (x y : dvb_channel) : Prop :=
  major x < major y \/ (major x = major y /\ minor x < minor y).

Lemma cmp_spec x y :
  (cmp_major_minor x y < 0 <-> number_lt x y) /\ (cmp_major_minor x y = 0 <-> key x = key y).
Proof.
  unfold cmp_major_minor, number_lt, key.
  destruct (major x =? major y) eqn:E1; simpl; zb.
  - destruct (minor x =? minor y) eqn:E2; simpl; zb.
    + split; [lia|]. split; [intros _; congruence|done].
    + destruct (minor x <? minor y) eqn:E3; zb; (split; [lia|split; [lia|intros [= ? ?]; lia]]).
  - destruct (major x <? major y) eqn:E3; zb; (split; [lia|split; [lia|intros [= ? ?]; lia]]).
Qed.

Lemma sort_insert_perm {A} (cmp : A -> A -> Z) x l : sort_insert cmp x l ≡ₚ x :: l.
Proof.
  induction l as [|y l IH]; simpl; [done|]. destruct (_ <=? 0); [done|].
  rewrite IH. apply Permutation_swap.
Qed.

Lemma qsort_perm {A} (cmp : A -> A -> Z) l : qsort cmp l ≡ₚ l.
Proof. induction l as [|x l IH]; simpl; [done|]. by rewrite sort_insert_perm, IH. Qed.

Lemma number_lt_trans x y z : number_lt x y -> number_lt y z -> number_lt x z.
Proof. unfold number_lt. lia. Qed.

Lemma sort_insert_sorted x l :
  key x ∉ (key <$> l) -> StronglySorted number_lt l -> StronglySorted number_lt (sort_insert cmp_major_minor x l).
Proof.
  induction l as [|y l IH]; intros Hx Hs; simpl; [by repeat constructor|].
  cbn [fmap list_fmap] in Hx. apply not_elem_of_cons in Hx as [Hxy Hx].
  apply StronglySorted_inv in Hs as [Hs Hy]. destruct (cmp_spec x y) as [C1 C2].
  destruct (_ <=? 0) eqn:E; zb.
  - assert (number_lt x y) as Hlt by (apply C1; assert (cmp_major_minor x y <> 0) by tauto; lia).
    constructor; [by constructor|]. constructor; [done|].
    eapply Forall_impl; [exact Hy|]. intros z. by apply number_lt_trans.
  - constructor; [auto|]. rewrite sort_insert_perm. constructor; [|done].
    assert (~ number_lt x y) by (rewrite <- C1; lia). unfold number_lt, key in *.
    assert (major x <> major y \/ minor x <> minor y) by (destruct (decide (major x = major y)), (decide (minor x = minor y)); auto; congruence).
    lia.
Qed.

Lemma qsort_sorted l : NoDup (key <$> l) -> StronglySorted number_lt (qsort cmp_major_minor l).
Proof.
  induction l as [|x l IH]; simpl; intros H; [constructor|].
  cbn [fmap list_fmap] in H. apply NoDup_cons in H as [Hx H].
  apply sort_insert_sorted; [by rewrite qsort_perm|auto].
Qed.

(** Two strictly sorted permutations are equal. *)
Lemma sorted_unique l1 l2 :
  StronglySorted number_lt l1 -> StronglySorted number_lt l2 -> l1 ≡ₚ l2 -> l1 = l2.
Proof.
  revert l2. induction l1 as [|x l1 IH]; intros l2 H1 H2 Hp; [by apply Permutation_nil_l in Hp|].
  destruct l2 as [|y l2]; [by apply Permutation_nil_r in Hp|].
  apply StronglySorted_inv in H1 as [H1 Hx]. apply StronglySorted_inv in H2 as [H2 Hy].
  assert (x = y) as ->.
  { assert (x ∈ y :: l2) as Hin by (rewrite <- Hp; left). apply elem_of_cons in Hin as [->|Hin]; [done|].
    assert (y ∈ x :: l1) as Hin' by (rewrite Hp; left). apply elem_of_cons in Hin' as [->|Hin']; [done|].
    rewrite Forall_forall in Hx, Hy. specialize (Hx _ Hin'). specialize (Hy _ Hin).
    unfold number_lt in *. lia. }
  f_equal. apply IH; try done. by apply (Permutation_cons_inv) in Hp.
Qed.

(** The lineup copy has the first [max_out] channels of the table in
    strictly increasing (major, minor) order, and it is the only permutation
    of them in that order, so it does not depend on the sorting algorithm. *)
Lemma channels_sorted_spec (db : channel_db) (max_out : nat) :
  db_ok db ->
  let out := dvb_channels_sorted db max_out in
  StronglySorted number_lt out /\ out ≡ₚ take max_out db /\
  (forall l, StronglySorted number_lt l -> l ≡ₚ take max_out db -> l = out).
Proof.
  intros [Hnd _]. cbv zeta. unfold dvb_channels_sorted.
  assert (take (Nat.min (length db) max_out) db = take max_out db) as ->.
  { rewrite <- take_take. apply take_ge. rewrite length_take. lia. }
  assert (Hs : StronglySorted number_lt (qsort cmp_major_minor (take max_out db))).
  { apply qsort_sorted. rewrite fmap_take. eapply sublist_NoDup; [exact Hnd|]. apply sublist_take. }
  split; [done|]. split; [apply qsort_perm|].
  intros l Hl Hp. apply sorted_unique; [done|done|]. by rewrite qsort_perm.
Qed.

(** ** The cache file *)

(** Characters a stored name may have; the first is not white space. *)
Definition name_chr (c : ascii) : bool :=
  negb (bool_decide (c = NL)) && negb (bool_decide (c = "013"%char)) && negb (code c =? 0).
Definition name_ok (s : string) : Prop :=
  (String.length s <= 15)%nat /\ str_forall name_chr s = true /\
  match s with EmptyString => True | String c _ => isspace c = false end.

Definition ch_ok (ch : dvb_channel) : Prop :=
  is_i32 (major ch) /\ is_i32 (minor ch) /\ name_ok (short_name ch) /\ is_i32 (rf_channel ch) /\
  is_i32 (delivery ch) /\ is_u32 (frequency_hz ch) /\ is_u16 (channel_tsid ch) /\
  is_u16 (program_number ch) /\ is_u16 (pmt_pid ch) /\ is_u16 (pcr_pid ch) /\ is_u16 (video_pid ch) /\
  is_byte (video_stream_type ch) /\ is_u16 (audio_pid ch) /\ is_byte (audio_stream_type ch).

Lemma starts_digit_sp b s : b <= 16 -> starts_digit b (String " " s) = false.
Proof.
  intros Hb. unfold starts_digit, digit_val. change (code " ") with 32. cbn -[Z.ltb].
  destruct (Z.ltb_spec b b); [lia|done].
Qed.

(** Reading one number of a line. *)
Lemma scan_d_field z s : is_i32 z -> scan_d (dec z +:+ String " " s) = Some (z, String " " s).
Proof. intros. apply scan_d_dec; [done|]. by apply starts_digit_sp. Qed.

Lemma scan_u_field w n s :
  0 <= n < 2 ^ w -> 0 <= w <= 64 -> scan_uw 10 w (dec_u n +:+ String " " s) = Some (n, String " " s).
Proof. intros. apply scan_uw_dec; [done|done|]. by apply starts_digit_sp. Qed.

Lemma name_trim s :
  name_ok s ->
  snprintf 16 (rstrip (fun c => bool_decide (c = NL) || bool_decide (c = "013"%char))
    (skip_while (fun c => bool_decide (c = " "%char)) (skip_while isspace (String " " (s +:+ nl))))) = s.
Proof.
  intros (Hl & Hc & Hs). destruct s as [|c s]; [reflexivity|].
  cbn [skip_while]. change (isspace " ") with true. cbn [String.append skip_while]. rewrite Hs.
  assert (c <> " "%char) by (intros ->; vm_compute in Hs; discriminate).
  cbn [skip_while]. rewrite bool_decide_eq_false_2 by done.
  change (String c (s +:+ nl)) with (String c s +:+ nl).
  rewrite rstrip_app by done. rewrite rstrip_id; [apply snprintf_fits; lia|].
  intros d b E. rewrite E, str_forall_app in Hc. apply andb_true_iff in Hc as [_ Hc].
  simpl in Hc. rewrite andb_true_r in Hc. unfold name_chr in Hc. zb.
  destruct (bool_decide (d = NL)), (bool_decide (d = "013"%char)); done.
Qed.

Lemma scan_cache_line_eq ch : ch_ok ch -> scan_cache_line (cache_line ch +:+ nl) = Some ch.
Proof.
  intros (H1 & H2 & Hn & H3 & H4 & H5 & H6 & H7 & H8 & H9 & H10 & H11 & H12 & H13).
  unfold is_u32, is_u16, is_byte in *.
  unfold scan_cache_line, cache_line. rewrite !app_str_assoc.
  change (" " +:+ ?x) with (String " " x).
  repeat (first [rewrite scan_d_space | rewrite scan_uw_space | idtac];
          first [rewrite scan_d_field by done | rewrite scan_u_field by lia];
          cbn [mbind option_bind String.append]).
  rewrite name_trim by done. by destruct ch.
Qed.

Lemma cache_line_chars (P : ascii -> bool) ch :
  (forall c, isdigit c = true -> P c = true) -> P "-"%char = true -> P " "%char = true ->
  ch_ok ch -> str_forall P (short_name ch) = true -> str_forall P (cache_line ch) = true.
Proof.
  intros Hd Hm Hsp (H1 & H2 & Hn & H3 & H4 & H5 & H6 & H7 & H8 & H9 & H10 & H11 & H12 & H13) Hname.
  unfold is_u32, is_u16, is_byte in *.
  unfold cache_line. rewrite !str_forall_app, !dec_chars, !dec_u_chars, Hname by (done || lia).
  cbn [str_forall]. by rewrite Hsp.
Qed.

Lemma length_cache_line ch : ch_ok ch -> (String.length (cache_line ch) <= 200)%nat.
Proof.
  intros (H1 & H2 & Hn & H3 & H4 & H5 & H6 & H7 & H8 & H9 & H10 & H11 & H12 & H13).
  unfold is_u32, is_u16, is_byte in *. destruct Hn as [Hn _].
  unfold cache_line. rewrite !length_app_str. cbn [String.length].
  pose proof (length_dec _ H1). pose proof (length_dec _ H2). pose proof (length_dec _ H3). pose proof (length_dec _ H4).
  pose proof (length_dec_u (frequency_hz ch) 10 ltac:(lia) ltac:(lia)).
  repeat match goal with |- context [String.length (dec_u ?x)] =>
    lazymatch goal with H : (String.length (dec_u x) <= _)%nat |- _ => fail | _ =>
      pose proof (length_dec_u x 5 ltac:(lia) ltac:(lia)) end end.
  lia.
Qed.

Lemma load_line fuel ch rest n db :
  ch_ok ch ->
  load_loop (S fuel) (cache_line ch +:+ nl +:+ rest) n db =
  let '(ok, db') := dvb_channel_db_add db ch in load_loop fuel rest (if ok then n + 1 else n) db'.
Proof.
  intros Hch. cbn [load_loop]. pose proof Hch as (H1 & _ & (_ & Hname & _) & _).
  change (nl +:+ rest) with (String NL rest).
  assert (Hchars : str_forall name_chr (cache_line ch) = true).
  { apply cache_line_chars; try done. intros c Hc.
    destruct (isdigit_not_special c Hc) as (Ha & Hb & Hz & _). unfold name_chr.
    rewrite !bool_decide_eq_false_2 by done. simpl. apply negb_true_iff. by apply Z.eqb_neq. }
  rewrite fgets_eq.
  2:{ eapply str_forall_impl; [|exact Hchars]. intros c. unfold name_chr. rewrite !andb_true_iff. tauto. }
  2:{ pose proof (length_cache_line ch Hch). lia. }
  rewrite cstr_id.
  2:{ rewrite str_forall_app. apply andb_true_iff. split; [|done].
      eapply str_forall_impl; [|exact Hchars]. intros c. unfold name_chr. rewrite !andb_true_iff. tauto. }
  assert (skipped_line (cache_line ch +:+ String NL "") = false) as ->.
  { unfold cache_line. rewrite app_str_assoc. unfold dec.
    destruct (major ch <? 0) eqn:E; [done|]. destruct (dec_u_ne (major ch)) as (c & s & Es).
    pose proof (dec_u_digits (major ch) ltac:(zb; lia)) as Hd. rewrite Es in *. cbn [String.append skipped_line].
    simpl in Hd. apply andb_true_iff in Hd as [Hc _]. destruct (isdigit_not_special c Hc) as (Ha & _).
    rewrite !bool_decide_eq_false_2; [done|done|]. intros ->. vm_compute in Hc. discriminate. }
  change (String NL "") with nl. by rewrite scan_cache_line_eq.
Qed.

Lemma load_lines todo : forall fuel n db,
  Forall ch_ok todo -> db_ok (db ++ todo) -> (length todo <= fuel)%nat ->
  load_loop fuel (cache_lines todo) n db = (n + Z.of_nat (length todo), db ++ todo).
Proof.
  induction todo as [|ch todo IH]; intros fuel n db Hch Hok Hf.
  - rewrite app_nil_r. destruct fuel; simpl; by rewrite Z.add_0_r.
  - apply Forall_cons in Hch as [Hc Hch]. simpl in Hf. destruct fuel as [|fuel]; [lia|].
    cbn [cache_lines]. rewrite load_line by done.
    pose proof (add_cases db ch) as Ha. cbv zeta in Ha. destruct Hok as [Hnd Hlen].
    rewrite length_app in Hlen. simpl in Hlen.
    destruct (find_slot _ db) as [i|].
    { exfalso. destruct Ha as (old & Hi & Hk & _). rewrite fmap_app in Hnd.
      apply NoDup_app in Hnd as (_ & Hnd & _). apply (Hnd (key ch)).
      - apply list_elem_of_fmap. exists old. split; [done|]. by eapply list_elem_of_lookup_2.
      - left. }
    destruct Ha as [_ ->]. destruct (length db <? _)%nat eqn:E; [|apply Nat.ltb_ge in E; lia].
    rewrite IH; [|done| |lia].
    + rewrite <- app_assoc. simpl. f_equal. lia.
    + rewrite <- app_assoc. split; [done|]. rewrite length_app. simpl. lia.
Qed.

Lemma load_header fuel rest n db :
  load_loop (S (S fuel)) (cache_header +:+ rest) n db = load_loop fuel rest n db.
Proof.
  assert (cache_header +:+ rest = header1 +:+ String NL (header2 +:+ String NL rest)) as ->.
  { unfold cache_header. rewrite !app_str_assoc. reflexivity. }
  assert (str_forall (fun c => negb (bool_decide (c = NL))) header1 = true /\
    str_forall (fun c => negb (bool_decide (c = NL))) header2 = true /\
    skipped_line (cstr (header1 +:+ String NL "")) = true /\ skipped_line (cstr (header2 +:+ String NL "")) = true)
    as (H1 & H2 & S1 & S2) by (vm_compute; done).
  assert (L1 : (String.length header1 + 1 < 256)%nat) by (vm_compute; lia).
  assert (L2 : (String.length header2 + 1 < 256)%nat) by (vm_compute; lia).
  cbn [load_loop]. rewrite fgets_eq by done. rewrite S1. rewrite fgets_eq by done. by rewrite S2.
Qed.

Lemma length_cache_lines db : (length db <= String.length (cache_lines db))%nat.
Proof.
  induction db as [|ch db IH]; [done|]. cbn [cache_lines length]. rewrite !length_app_str.
  change (String.length nl) with 1%nat. lia.
Qed.

(** Claim C20: saving a table to the cache file and loading the file into an empty
    table at the next start gives the same table back and reports its size,
    provided the file can be written, the table is well formed, every field is in
    the range of its C type, and every short name has at most 15 characters, no
    line break, and does not start with white space ([ch_ok]).  A name that does
    start with a blank comes back without it ([cache_drops_leading_blank]). *)
Theorem cache_roundtrip (w : string -> bool) (files : gmap string string) (path : string) (db : channel_db) :
  w path = true -> path <> "" -> db_ok db -> Forall ch_ok db ->
  let '(ok, files') := dvb_channel_db_save w files (Some path) db in
  ok = true /\ dvb_channel_db_load files' (Some path) [] = (Z.of_nat (length db), db).
Proof.
  intros Hw Hp Hok Hch. unfold dvb_channel_db_save, dvb_channel_db_load.
  destruct path as [|c p]; [done|]. rewrite Hw, lookup_insert_eq. split; [done|].
  rewrite length_app_str. pose proof (length_cache_lines db) as H.
  assert (Hh : (2 <= String.length cache_header)%nat) by (apply Nat.leb_le; vm_compute; reflexivity).
  clear -Hw Hok Hch Hh H.
  destruct (String.length cache_header + String.length (cache_lines db))%nat as [|[|fuel]] eqn:E; [exfalso; lia|exfalso; lia|].
  rewrite load_header. rewrite load_lines; [done|done|done|lia].
Qed.

(** Loading keeps the invariant, whatever the file holds. *)
Lemma load_loop_db_ok fuel f n db : db_ok db -> db_ok (load_loop fuel f n db).2.
Proof.
  revert f n db. induction fuel as [|fuel IH]; intros f n db Hok; cbn [load_loop]; [done|].
  destruct (fgets 256 f) as [[line f']|]; [|done]. destruct (skipped_line _); [by apply IH|].
  destruct (scan_cache_line _) as [ch|]; [|done].
  pose proof (db_add_ok db ch Hok). destruct (dvb_channel_db_add db ch) as [ok db']. by apply IH.
Qed.

Lemma on_freq_loop_spec db : forall i freq max_out n j,
  (n <= max_out)%nat ->
  j ∈ on_freq_loop db i freq max_out n ->
  exists ch, (i <= j)%nat /\ db !! (j - i)%nat = Some ch /\ frequency_hz ch = freq.
Proof.
  induction db as [|ch db IH]; intros i freq max_out n j Hn; simpl; [by rewrite elem_of_nil|].
  destruct (n <? max_out)%nat eqn:E; [|by rewrite elem_of_nil]. apply Nat.ltb_lt in E.
  destruct (frequency_hz ch =? freq) eqn:Ef; zb; rewrite ?elem_of_cons.
  - intros [->|H]; [exists ch; by rewrite Nat.sub_diag|].
    destruct (IH (S i) freq max_out (S n) j ltac:(lia) H) as (x & Hj & Hx & Hf). exists x. split; [lia|].
    replace (j - i)%nat with (S (j - S i)) by lia. done.
  - intros H. destruct (IH (S i) freq max_out n j Hn H) as (x & Hj & Hx & Hf). exists x. split; [lia|].
    replace (j - i)%nat with (S (j - S i)) by lia. done.
Qed.

(** A name that starts with a blank comes back without it. *)
Example cache_drops_leading_blank :
  let ch := {| major := 7; minor := 1; short_name := " AB"; rf_channel := 7; delivery := 0;
               frequency_hz := 177000000; channel_tsid := 1; program_number := 3; pmt_pid := 48; pcr_pid := 49;
               video_pid := 49; video_stream_type := 2; audio_pid := 52; audio_stream_type := 129 |} in
  short_name <$> scan_cache_line (cache_line ch +:+ nl) = Some "AB"%string.
Proof. vm_compute. reflexivity. Qed.

Definition sample_channel (ma mi : Z) (nm : string) : dvb_channel :=
  {| major := ma; minor := mi; short_name := nm; rf_channel := 7; delivery := 1;
     frequency_hz := 177000000; channel_tsid := 1; program_number := 3; pmt_pid := 48; pcr_pid := 49;
     video_pid := 49; video_stream_type := 2; audio_pid := 52; audio_stream_type := 129 |}.

Lemma db_add_spec_witness :
  exists i, dvb_find_channel (dvb_channel_db_add [sample_channel 7 1 "A"] (sample_channel 9 2 "B")).2 9 2 = Some i.
Proof.
  destruct (db_add_spec [sample_channel 7 1 "A"] (sample_channel 9 2 "B") true
    [sample_channel 7 1 "A"; sample_channel 9 2 "B"]) as (_ & _ & _ & H & _).
  - split; [|vm_compute; lia]. apply (bool_decide_unpack _). vm_compute. exact I.
  - reflexivity.
  - destruct (H eq_refl) as (i & Hi & _). exists i. exact Hi.
Defined.

Lemma channels_sorted_spec_witness :
  dvb_channels_sorted [sample_channel 10 1 "A"; sample_channel 9 2 "B"; sample_channel 9 1 "C"] 256 ≡ₚ
  [sample_channel 10 1 "A"; sample_channel 9 2 "B"; sample_channel 9 1 "C"].
Proof.
  apply (channels_sorted_spec [sample_channel 10 1 "A"; sample_channel 9 2 "B"; sample_channel 9 1 "C"] 256).
  split; [|vm_compute; lia]. apply (bool_decide_unpack _). vm_compute. exact I.
Defined.

Lemma cache_roundtrip_witness :
  let db := [sample_channel 10 1 "KABC HD"; sample_channel (-3) 2 ""] in
  dvb_channel_db_load (dvb_channel_db_save (fun _ => true) ∅ (Some "/c"%string) db).2 (Some "/c"%string) [] = (2, db).
Proof.
  cbv zeta.
  apply (cache_roundtrip (fun _ => true) ∅ "/c" [sample_channel 10 1 "KABC HD"; sample_channel (-3) 2 ""]).
  - reflexivity.
  - discriminate.
  - split; [|vm_compute; lia]. apply (bool_decide_unpack _). vm_compute. exact I.
  - repeat constructor; vm_compute; try discriminate; lia.
Defined.
