(* ===== verification/PsipTest.v ===== *)
(** The unit test of the table parsers: src/test/psip_test.c.

    The test builds a section of each table by hand and checks what the parser
    makes of it.  Here it runs on [Psip]: the model passes the repository's own
    test. *)
From S2P Require Import Prelude CLib ChannelDb Psip.

(** ** Building sections *)

(** A store of a byte; the test never leaves its buffers. *)
Definition put8 (off : nat) (v : Z) (p : bytes) : bytes := <[off := v mod 256]> p.
Definition put16 (off : nat) (v : Z) (p : bytes) : bytes :=
  put8 (off + 1) (Z.land v 0xFF) (put8 off (Z.shiftr v 8) p).
Definition put32 (off : nat) (v : Z) (p : bytes) : bytes :=
  put8 (off + 3) v (put8 (off + 2) (Z.shiftr v 8) (put8 (off + 1) (Z.shiftr v 16) (put8 off (Z.shiftr v 24) p))).

(** The length field and a CRC of zeros: the section's length and the buffer. *)
Definition finish_section (buf : bytes) (header_and_body_len : nat) : nat * bytes :=
  let section_length := u16 (Z.of_nat header_and_body_len - 3 + 4) in
  let buf := put8 1 (Z.lor (Z.land (nth 1 buf 0) 0xF0) (Z.land (Z.shiftr section_length 8) 0x0F)) buf in
  let buf := put8 2 (Z.land section_length 0xFF) buf in
  let buf := foldr (fun i => put8 (header_and_body_len + i) 0) buf (seq 0 4) in
  ((header_and_body_len + 4)%nat, buf).

(** ** The tests: the checks that are made, and the line printed *)

Record outcome := { checks : list bool; line : string }.
Definition verdict (name : string) (ok : bool) : string := name +:+ ": " +:+ (if ok then "ok" else "FAILED") +:+ nl.

(** [entries[i]], which the test looks at whatever the parser returned. *)
Definition at_entry {A} (l : list A) (i : nat) (f : A -> bool) : bool := match l !! i with Some a => f a | None => false end.
(** The parser's return value: the number of entries, or -1. *)
Definition count_of {A} (r : option (list A)) : Z := match r with Some l => Z.of_nat (length l) | None => -1 end.

Definition pat_buf : nat * bytes :=
  let buf := replicate 64 0 in
  let buf := put8 1 0x80 (put8 0 0 buf) in
  let buf := put16 3 0x1234 buf in
  let buf := put8 7 0 (put8 6 0 (put8 5 0xC1 buf)) in
  let buf := put16 10 0x0010 (put16 8 0 buf) in
  let buf := put16 14 (Z.lor 0x0100 0x2000) (put16 12 1001 buf) in
  let buf := put16 18 0x0200 (put16 16 1002 buf) in
  finish_section buf 20.

Definition test_pat : option outcome :=
  let '(len, buf) := pat_buf in
  r ← psip_parse_pat (take len buf) PAT_MAX_ENTRIES;
  let entries := default [] r in
  let n := count_of r in
  Some {| checks := [n =? 2;
            at_entry entries 0 (fun e => (pat_program_number e =? 1001) && (pat_pmt_pid e =? 0x0100));
            at_entry entries 1 (fun e => (pat_program_number e =? 1002) && (pat_pmt_pid e =? 0x0200))];
          line := verdict "test_pat" (n =? 2) |}.

Definition pmt_buf : nat * bytes :=
  let buf := replicate 128 0 in
  let buf := put8 1 0x80 (put8 0 0x02 buf) in
  let buf := put16 3 1001 buf in
  let buf := put8 7 0 (put8 6 0 (put8 5 0xC1 buf)) in
  let buf := put16 10 0 (put16 8 (Z.lor 0x0101 0xE000) buf) in
  let stream off t pid len buf := put16 (off + 3) len (put16 (off + 1) pid (put8 off t buf)) in
  let buf := stream 22%nat 0x05 0x0103 2 (stream 17%nat 0x81 0x0102 0 (stream 12%nat 0x02 0x0101 0 buf)) in
  finish_section buf 29.

Definition test_pmt : option outcome :=
  let '(len, buf) := pmt_buf in
  r ← psip_parse_pmt (take len buf);
  let pmt := default {| pmt_program_number := 0; pcr_pid := 0; streams := [] |} r in
  let n := count_of (streams <$> r) in
  let stream_is t pid s := (stream_type s =? t) && (elementary_pid s =? pid) in
  let av := psip_pmt_pick_av pmt in
  Some {| checks := [n =? 3; pmt_program_number pmt =? 1001; pcr_pid pmt =? 0x0101;
            at_entry (streams pmt) 0 (stream_is 0x02 0x0101); at_entry (streams pmt) 1 (stream_is 0x81 0x0102);
            at_entry (streams pmt) 2 (stream_is 0x05 0x0103);
            have_video av && (av_video_pid av =? 0x0101) && (av_video_type av =? 0x02);
            (av_audio_pid av =? 0x0102) && (av_audio_type av =? 0x81)];
          line := verdict "test_pmt" ((n =? 3) && have_video av) |}.

(** One entry of a channel table at [off]. *)
Definition tvct_channel (off : nat) (name : string) (minor program flags source descriptors_length : Z) (buf : bytes) : bytes :=
  let buf := foldl (fun buf i => put16 (off + i * 2) (match String.get i name with Some c => code c | None => 0 end) buf) buf (seq 0 7) in
  let triplet := Z.lor (Z.lor (Z.shiftl 0 20) (Z.shiftl 7 10)) minor in
  let buf := put8 (off + 14) (Z.land (Z.shiftr triplet 16) 0xFF) buf in
  let buf := put8 (off + 15) (Z.land (Z.shiftr triplet 8) 0xFF) buf in
  let buf := put8 (off + 16) (Z.land triplet 0xFF) buf in
  let buf := put32 (off + 18) 0 (put8 (off + 17) 0x04 buf) in
  let buf := put16 (off + 24) program (put16 (off + 22) 0xABCD buf) in
  let buf := put8 (off + 27) 0xC2 (put8 (off + 26) flags buf) in
  put16 (off + 30) descriptors_length (put16 (off + 28) source buf).

Definition tvct_buf : nat * bytes :=
  let buf := replicate 256 0 in
  let buf := put8 1 0x80 (put8 0 0xC8 buf) in
  let buf := put16 3 0xABCD buf in
  let buf := put8 9 2 (put8 8 0 (put8 7 0 (put8 6 0 (put8 5 0xC1 buf)))) in
  let buf := tvct_channel 10 "KABC-HD" 1 3 0x4D 0x1234 0 buf in
  let buf := tvct_channel 42 "KABC-SD" 2 4 0x5D 0x1235 3 buf in
  let buf := put8 76 0xCC (put8 75 0xBB (put8 74 0xAA buf)) in
  finish_section buf 77.

Definition test_tvct : option outcome :=
  let '(len, buf) := tvct_buf in
  r ← psip_parse_tvct (take len buf) TVCT_MAX_CHANNELS;
  let '(sec_num, last_sec_num, entries) := default (-1, -1, []) r in
  let n := count_of (snd <$> r) in
  let check f i := at_entry entries i f in
  Some {| checks := [n =? 2; (sec_num =? 0) && (last_sec_num =? 0);
            check (fun e => bool_decide (short_name e = "KABC-HD"%string)) 0%nat;
            check (fun e => (major_channel_number e =? 7) && (minor_channel_number e =? 1)) 0%nat;
            check (fun e => program_number e =? 3) 0%nat; check (fun e => channel_tsid e =? 0xABCD) 0%nat;
            check (fun e => negb (hidden e)) 0%nat;
            check (fun e => bool_decide (short_name e = "KABC-SD"%string)) 1%nat;
            check (fun e => (major_channel_number e =? 7) && (minor_channel_number e =? 2)) 1%nat;
            check (fun e => program_number e =? 4) 1%nat; check (fun e => hidden e) 1%nat];
          line := verdict "test_tvct" (n =? 2) |}.

(** [g_failures] *)
Definition failures (tests : list outcome) : nat := length (filter (fun b => b = false) (concat (checks <$> tests))).

(** The exit status and the output; None: a parser read out of bounds. *)
Definition main : option (Z * string) :=
  t1 ← test_pat; t2 ← test_pmt; t3 ← test_tvct;
  let tests := [t1; t2; t3] in
  let g_failures := failures tests in
  let out := line t1 +:+ line t2 +:+ line t3 in
  Some (if (g_failures =? 0)%nat then (0, out +:+ "ALL TESTS PASSED" +:+ nl)
        else (1, out +:+ dec (Z.of_nat g_failures) +:+ " CHECK(S) FAILED" +:+ nl)).

(** Every check of the repository's test holds of the modelled parsers. *)
Theorem psip_test_passes : exists out, main = Some (0, out).
Proof. eexists. vm_compute. reflexivity. Qed.
