(* ===== verification/Config.v ===== *)
(** Configuration: src/src/config.c.

    [config_defaults] and the key=value loader [config_load], on the text of
    the file ([fgets] cuts it into lines of at most 511 characters).
    [config_load_ok]: whatever the file holds, the loaded configuration is well
    formed (tuner count 1 to 8, an adapter per tuner, strings within their
    buffers); [config_load_device_id]: a device id line is read back. *)
From S2P Require Import Prelude RecordUpd CLib DeviceId.

Definition HDHR_MAX_TUNERS : nat := 8.

Record hdhr_config := {
  device_id : Z;
  friendly_name : string;
  model : string;
  firmware_name : string;
  firmware_version : string;
  tuner_count : Z;
  bind_ip : string;
  dvb_adapter : list Z;
  dvb_frontend : Z;
  dvb_demux : Z;
  scan_on_startup : bool;
  debug_signal_stats : bool;
  allow_remote_restart : bool;
  channel_cache_file : string;
  web_root : string
}.

(** [now] is [time(NULL)]. *)
Definition config_defaults (now : Z) : hdhr_config :=
  {| device_id := hdhr_device_id_generate (Z.land (u32 now) 0x00FFFFFF);
     friendly_name := snprintf 64 "HDHomeRun ATSC";
     model := snprintf 32 "HDHR3-US";
     firmware_name := snprintf 32 "hdhomerun3_atsc";
     firmware_version := snprintf 32 "20130117";
     tuner_count := 2;
     bind_ip := snprintf 16 "0.0.0.0";
     dvb_adapter := seqZ 0 (Z.of_nat HDHR_MAX_TUNERS);
     dvb_frontend := 0;
     dvb_demux := 0;
     scan_on_startup := true;
     debug_signal_stats := false;
     allow_remote_restart := false;
     channel_cache_file := "";
     web_root := snprintf 256 "/usr/local/share/hdhr-emu/web" |}.

Definition is_blank (c : ascii) : bool := bool_decide (c = " "%char) || bool_decide (c = "009"%char).
Definition is_trailing (c : ascii) : bool :=
  bool_decide (c = NL) || bool_decide (c = "013"%char) || is_blank c.

Definition trim (s : string) : string := rstrip is_trailing (skip_while is_blank s).

(** [atoi(key + 5)] for "tunerN_adapter". *)
Definition is_adapter_key (key : string) : bool :=
  String.prefix "tuner" key && match strstr key "_adapter" with Some _ => true | None => false end.

#[export] Instance eta_config : Eta hdhr_config := fun c =>
  {| device_id := device_id c;
     friendly_name := friendly_name c;
     model := model c;
     firmware_name := firmware_name c;
     firmware_version := firmware_version c;
     tuner_count := tuner_count c;
     bind_ip := bind_ip c;
     dvb_adapter := dvb_adapter c;
     dvb_frontend := dvb_frontend c;
     dvb_demux := dvb_demux c;
     scan_on_startup := scan_on_startup c;
     debug_signal_stats := debug_signal_stats c;
     allow_remote_restart := allow_remote_restart c;
     channel_cache_file := channel_cache_file c;
     web_root := web_root c |}.

Definition config_key (key val : string) (cfg : hdhr_config) : hdhr_config :=
  if bool_decide (key = "device_id"%string) then cfg <| device_id := u32 (strtoul 0 val) |>
  else if bool_decide (key = "friendly_name"%string) then cfg <| friendly_name := snprintf 64 val |>
  else if bool_decide (key = "model"%string) then cfg <| model := snprintf 32 val |>
  else if bool_decide (key = "firmware_name"%string) then cfg <| firmware_name := snprintf 32 val |>
  else if bool_decide (key = "firmware_version"%string) then cfg <| firmware_version := snprintf 32 val |>
  else if bool_decide (key = "tuner_count"%string) then
    let n := atoi val in
    let n := if n <? 1 then 1 else n in
    let n := if Z.of_nat HDHR_MAX_TUNERS <? n then Z.of_nat HDHR_MAX_TUNERS else n in
    cfg <| tuner_count := n |>
  else if bool_decide (key = "bind_ip"%string) then cfg <| bind_ip := snprintf 16 val |>
  else if bool_decide (key = "dvb_frontend"%string) then cfg <| dvb_frontend := atoi val |>
  else if bool_decide (key = "dvb_demux"%string) then cfg <| dvb_demux := atoi val |>
  else if bool_decide (key = "scan_on_startup"%string) then cfg <| scan_on_startup := negb (atoi val =? 0) |>
  else if bool_decide (key = "debug_signal_stats"%string) then cfg <| debug_signal_stats := negb (atoi val =? 0) |>
  else if bool_decide (key = "allow_remote_restart"%string) then cfg <| allow_remote_restart := negb (atoi val =? 0) |>
  else if bool_decide (key = "channel_cache_file"%string) then cfg <| channel_cache_file := snprintf 256 val |>
  else if bool_decide (key = "web_root"%string) then cfg <| web_root := snprintf 256 val |>
  else if is_adapter_key key then
    let idx := atoi (str_drop 5 key) in
    if (0 <=? idx) && (idx <? Z.of_nat HDHR_MAX_TUNERS)
    then cfg <| dvb_adapter := <[Z.to_nat idx := atoi val]> (dvb_adapter cfg) |>
    else cfg
  else cfg.

Definition config_line (line : string) (cfg : hdhr_config) : hdhr_config :=
  let line := cstr line in
  let line := match strchr "#" line with Some (a, _) => a | None => line end in
  match strchr "=" line with
  | None => cfg
  | Some (k, v) =>
      let key := trim k in
      let val := trim v in
      match key with
      | EmptyString => cfg
      | _ => config_key key val cfg
      end
  end.

(** Every turn consumes at least one character. *)
Fixpoint config_loop (fuel : nat) (f : string) (cfg : hdhr_config) : hdhr_config :=
  match fuel with
  | O => cfg
  | S fuel =>
      match fgets 512 f with
      | None => cfg
      | Some (line, f') => config_loop fuel f' (config_line line cfg)
      end
  end.

(** The C function returns 0 on every path. *)
Definition config_load (file : option string) (cfg : hdhr_config) : Z * hdhr_config :=
  match file with
  | None => (0, cfg)
  | Some f => (0, config_loop (String.length f) f cfg)
  end.

Example config_example :
  let c := (config_load (Some ("# test" +:+ String NL "tuner_count = 99 # many" +:+ String NL
              " tuner2_adapter=5" +:+ String NL "friendly_name=  Den  " +:+ String NL "junk")%string)
            (config_defaults 0)).2 in
  tuner_count c = 8 /\ dvb_adapter c = [0; 1; 5; 3; 4; 5; 6; 7] /\ friendly_name c = "Den"%string.
Proof. vm_compute. done. Qed.

(** ** Well-formedness *)

Definition config_ok (c : hdhr_config) : Prop :=
  is_u32 (device_id c) /\ 1 <= tuner_count c <= 8 /\ length (dvb_adapter c) = HDHR_MAX_TUNERS /\
  (String.length (friendly_name c) < 64)%nat /\ (String.length (model c) < 32)%nat /\
  (String.length (firmware_name c) < 32)%nat /\ (String.length (firmware_version c) < 32)%nat /\
  (String.length (bind_ip c) < 16)%nat /\ (String.length (channel_cache_file c) < 256)%nat /\
  (String.length (web_root c) < 256)%nat.

Lemma join_u32 seed : is_u32 (hdhr_device_id_generate seed).
Proof.
  unfold hdhr_device_id_generate. cbv zeta. set (p := Z.lxor _ (lut (nib seed 0))).
  assert (Hn : forall k, 0 <= k -> is_nib (nib seed k)) by (intros; by apply nib_range).
  assert (Hp : is_nib p).
  { unfold p. repeat apply lxor_nib; try apply lut_nib; try apply Hn; unfold is_nib; lia. }
  rewrite join_nibbles_eq by (first [exact Hp | apply Hn; lia]). unfold is_u32.
  pose proof (Hn 20 ltac:(lia)). pose proof (Hn 16 ltac:(lia)). pose proof (Hn 12 ltac:(lia)).
  pose proof (Hn 8 ltac:(lia)). pose proof (Hn 4 ltac:(lia)). pose proof (Hn 0 ltac:(lia)).
  unfold is_nib in *. lia.
Qed.

Lemma config_defaults_ok now : config_ok (config_defaults now).
Proof.
  unfold config_ok. split; [apply join_u32|]. simpl.
  repeat (split; [first [lia | done | apply length_snprintf; lia]|]).
  first [lia | apply length_snprintf; lia].
Qed.

Lemma config_key_ok k v c : config_ok c -> config_ok (config_key k v c).
Proof.
  intros (H1 & H2 & H3 & H4 & H5 & H6 & H7 & H8 & H9 & H10). unfold config_key.
  pose proof (fun n => length_snprintf n v) as Hs.
  repeat match goal with
  | |- config_ok (if bool_decide ?P then _ else _) => destruct (bool_decide P)
  end;
  try (unfold config_ok; simpl; repeat (split; [first [assumption | lia | apply Hs; lia | apply u32_range]|]);
       first [assumption | apply Hs; lia]).
  - unfold config_ok. simpl. split; [done|]. split; [|done].
    destruct (atoi v <? 1) eqn:E1; simpl; [lia|]. change (Z.of_nat HDHR_MAX_TUNERS) with 8.
    destruct (8 <? atoi v) eqn:E2; zb; lia.
  - destruct (is_adapter_key k); [|done]. cbv zeta. destruct (_ && _); [|done].
    unfold config_ok. simpl. rewrite length_insert. done.
Qed.

Lemma config_line_ok line c : config_ok c -> config_ok (config_line line c).
Proof.
  intros H. unfold config_line. destruct (strchr "=" _) as [[k v]|]; [|done].
  cbv zeta. destruct (trim k) eqn:E; [done|]. by apply config_key_ok.
Qed.

(** Whatever the configuration file holds, or without one, loading it over the
    defaults succeeds with a well-formed configuration. *)
Lemma config_load_ok (file : option string) (now : Z) :
  let '(r, c) := config_load file (config_defaults now) in r = 0 /\ config_ok c.
Proof.
  unfold config_load. destruct file as [f|]; split; try done; [|apply config_defaults_ok].
  generalize (config_defaults_ok now). generalize (config_defaults now). generalize (String.length f).
  intros fuel. revert f. induction fuel as [|fuel IH]; intros f c Hc; cbn [config_loop]; [done|].
  destruct (fgets 512 f) as [[line f']|]; [|done]. apply IH. by apply config_line_ok.
Qed.

(** ** A device id in the file *)

(** What a hexadecimal digit is not. *)
Lemma ishex_plain c : ishex c = true ->
  (code c =? 0) = false /\ bool_decide (c = "#"%char) = false /\ bool_decide (c = NL) = false /\ is_trailing c = false.
Proof.
  intros H. set (Q := fun c : ascii => implb (ishex c) (negb ((code c =? 0) || bool_decide (c = "#"%char) ||
    bool_decide (c = NL) || is_trailing c))).
  assert (Hc : Q c = true) by (apply forall_ascii; vm_compute; reflexivity). unfold Q in Hc. rewrite H in Hc. cbn [implb] in Hc. apply negb_true_iff, orb_false_iff in Hc as [Hc ?].
  apply orb_false_iff in Hc as [Hc ?]. by apply orb_false_iff in Hc as [? ?].
Qed.

Lemma str_forall_last P s c b : str_forall P s = true -> s = b +:+ String c "" -> P c = true.
Proof. intros H ->. rewrite str_forall_app in H. simpl in H. by apply andb_true_iff in H as [_ [H _]%andb_true_iff]. Qed.

(** "0x" and digits, in base 0. *)
Lemma strtoul_0x u n : 0 <= n < 2 ^ 32 -> strtoul 0 ("0x" +:+ hex_pad u 8 n) = n.
Proof.
  intros Hn. pose proof (length_hex_pad u 8 n ltac:(simpl; lia) ltac:(lia)) as Hl.
  pose proof (hex_pad_chars u 8 n ltac:(lia)) as Hc.
  assert (Hs : scan_digits 16 0 (hex_pad u 8 n) = (n, ""%string)).
  { rewrite <- (app_str_nil_r (hex_pad u 8 n)). unfold hex_pad. rewrite app_str_assoc, scan_digits_zeros by lia.
    apply scan_digits_print; [lia|lia|done]. }
  destruct (hex_pad u 8 n) as [|c h]; [done|]. simpl in Hc. apply andb_true_iff in Hc as [Hc _].
  assert (Hd : starts_digit 16 (String c h) = true) by exact Hc.
  unfold strtoul, scan_num. change (skip_while isspace ("0x" +:+ String c h)) with ("0x" +:+ String c h).
  change (strip_sign ("0x" +:+ String c h)) with (false, "0x" +:+ String c h). cbv beta iota.
  change ((0 =? 0) || (0 =? 16)) with true. cbv iota.
  assert (strip_0x ("0x" +:+ String c h) = Some (String c h)) as ->.
  { change (strip_0x ("0x" +:+ String c h)) with (if bool_decide (("x"%char : ascii) = "x"%char \/ "x"%char = "X"%char) && starts_digit 16 (String c h) then Some (String c h) else None).
    by rewrite Hd. }
  rewrite Hd, Hs. unfold ulong_of, ULONG_MAX. destruct (2 ^ 64 - 1 <? n) eqn:E; zb; lia.
Qed.

(** A file that holds a device id, printed as [main] prints one. *)
Lemma config_load_device_id n cfg : 0 <= n < 2 ^ 32 ->
  config_load (Some ("device_id=0x" +:+ hex_pad true 8 n +:+ String NL "")) cfg = (0, cfg <| device_id := n |>).
Proof.
  intros Hn. pose proof (length_hex_pad true 8 n ltac:(simpl; lia) ltac:(lia)) as Hl.
  pose proof (hex_pad_chars true 8 n ltac:(lia)) as Hc. pose proof (strtoul_0x true n Hn) as Hv.
  set (h := hex_pad true 8 n) in *. clearbody h. unfold config_load. f_equal.
  set (line := "device_id=0x" +:+ h). assert (Hf : "device_id=0x" +:+ h +:+ String NL "" = line +:+ String NL "") by by rewrite <- app_str_assoc.
  rewrite Hf.
  assert (Hnl : str_forall (fun c => negb (bool_decide (c = NL))) line = true).
  { unfold line. rewrite str_forall_app. apply andb_true_iff. split; [done|]. eapply str_forall_impl; [|exact Hc].
    intros c H. apply negb_true_iff, (ishex_plain c H). }
  assert (Hp : forall Q : ascii -> bool, str_forall Q ("device_id=0x" +:+ String NL "") = true -> (forall c, ishex c = true -> Q c = true) ->
    str_forall Q (line +:+ String NL "") = true).
  { intros Q H1 H2. unfold line. rewrite !str_forall_app in *. apply andb_true_iff in H1 as [H1 H3].
    rewrite H1, H3, andb_true_r. simpl. by eapply str_forall_impl. }
  assert (Hline : config_line (line +:+ String NL "") cfg = cfg <| device_id := n |>).
  { unfold config_line. rewrite cstr_id by (apply Hp; [done|]; intros c H; apply negb_true_iff, (ishex_plain c H)).
    rewrite (strchr_none "#") by (apply Hp; [done|]; intros c H; apply negb_true_iff, (ishex_plain c H)).
    change (strchr "=" (line +:+ String NL "")) with (Some ("device_id"%string, "0x" +:+ h +:+ String NL "")). cbv beta iota zeta.
    assert (trim ("0x" +:+ h +:+ String NL "") = "0x" +:+ h) as ->.
    { unfold trim. change (skip_while is_blank ("0x" +:+ h +:+ String NL "")) with ("0x" +:+ h +:+ String NL "").
      rewrite <- app_str_assoc, rstrip_app by done. apply rstrip_id. intros c b E.
      assert (Ht : str_forall (fun c => negb (is_trailing c)) ("0x" +:+ h) = true).
      { rewrite str_forall_app. apply andb_true_iff. split; [done|]. eapply str_forall_impl; [|exact Hc].
        intros d Hd. apply negb_true_iff, (ishex_plain d Hd). }
      apply negb_true_iff. exact (str_forall_last _ _ _ _ Ht E). }
    change (trim "device_id") with "device_id"%string. cbv beta iota.
    change (config_key "device_id" ("0x" +:+ h) cfg) with (cfg <| device_id := u32 (strtoul 0 ("0x" +:+ h)) |>).
    rewrite Hv. unfold u32. by rewrite Z.mod_small. }
  rewrite length_app_str. change (String.length line) with (12 + String.length h)%nat. rewrite Hl. cbn [Nat.add String.length config_loop].
  rewrite fgets_eq by (try done; change (String.length line) with (12 + String.length h)%nat; lia). cbn [fgets]. by rewrite Hline.
Qed.
