(* ===== verification/Stats.v ===== *)
(** Signal statistics: the arithmetic of src/src/dvb_frontend.c and of the
    windowed quality estimate of src/src/dvb_stream.c.

    Doubles are IEEE binary64 values of the Standard Library's [SpecFloat],
    with every C operation rounded to nearest even.  The driver's readings are
    64-bit patterns with a scale.  The theorems: percentages stay in 0..100
    (or -1 for "not available"), counter-scaled readings excepted. *)
From Stdlib Require Export Floats.SpecFloat.
From S2P Require Import Prelude RecordUpd CLib.

(** ** Doubles *)

Abbreviation dbl := spec_float.

Definition d_of_Z (z : Z) : dbl := binary_normalize 53 1024 z 0 false.
Definition dadd (a b : dbl) : dbl := SFadd 53 1024 a b.
Definition dsub (a b : dbl) : dbl := SFsub 53 1024 a b.
Definition dmul (a b : dbl) : dbl := SFmul 53 1024 a b.
Definition ddiv (a b : dbl) : dbl := SFdiv 53 1024 a b.
Definition dlt (a b : dbl) : bool := SFltb a b.
Definition dle (a b : dbl) : bool := SFleb a b.

(** A decimal constant [n / 10^k], correctly rounded. *)
Definition d_lit (n : Z) (k : Z) : dbl := ddiv (d_of_Z n) (d_of_Z (10 ^ k)).

Definition INT_MAX : Z := 2 ^ 31 - 1.
Definition INT_MIN : Z := - 2 ^ 31.

(** The integer part of a finite double. *)
Definition d_trunc (x : dbl) : option Z :=
  match x with
  | S754_zero _ => Some 0
  | S754_finite s m e =>
      let a := if 0 <=? e then Z.pos m * 2 ^ e else Z.pos m / 2 ^ (- e) in
      Some (if s then - a else a)
  | _ => None
  end.

(** [(int)x]; where C leaves the result undefined (out of range) the x86
    conversion instruction's INT_MIN. *)
Definition d2i (x : dbl) : Z :=
  match d_trunc x with
  | Some z => if (INT_MIN <=? z) && (z <=? INT_MAX) then z else INT_MIN
  | None => INT_MIN
  end.

(** ** The driver's readings *)

Inductive fe_scale :=
  | FE_SCALE_NOT_AVAILABLE
  | FE_SCALE_DECIBEL
  | FE_SCALE_RELATIVE
  | FE_SCALE_COUNTER.

(** The first [dtv_stats] entry of a property; [st_len] entries are valid. *)
Record dtv_stat := { st_len : Z; st_scale : fe_scale; st_uvalue : Z }.

Definition svalue (s : dtv_stat) : Z :=
  let u := st_uvalue s mod 2 ^ 64 in if u <? 2 ^ 63 then u else u - 2 ^ 64.

Record dvb_signal_stats := {
  has_lock : bool;
  signal_strength_pct : Z;
  snr_quality_pct : Z;
  symbol_quality_pct : Z;
  have_signal_dbm : bool;
  signal_dbm : dbl;
  have_snr_db : bool;
  snr_db : dbl
}.

#[export] Instance eta_stats : Eta dvb_signal_stats := fun s =>
  {| has_lock := has_lock s; signal_strength_pct := signal_strength_pct s;
     snr_quality_pct := snr_quality_pct s; symbol_quality_pct := symbol_quality_pct s;
     have_signal_dbm := have_signal_dbm s; signal_dbm := signal_dbm s;
     have_snr_db := have_snr_db s; snr_db := snr_db s |}.

Definition clamp_pct (pct : Z) : Z :=
  let pct := if pct <? 0 then 0 else pct in
  if 100 <? pct then 100 else pct.

Definition scale_decibel_to_pct (millidb : Z) (min_db max_db : dbl) : Z :=
  let db := ddiv (d_of_Z millidb) (d_of_Z 1000) in
  let db := if dlt db min_db then min_db else db in
  let db := if dlt max_db db then max_db else db in
  clamp_pct (d2i (dadd (dmul (ddiv (dsub db min_db) (dsub max_db min_db)) (d_of_Z 100)) (d_lit 5 1))).

Definition scale_relative_to_pct (uvalue : Z) : Z :=
  let uvalue := if 65535 <? uvalue then 65535 else uvalue in
  clamp_pct (uvalue * 100 / 65535).

Definition convert_counter_raw (s : dtv_stat) : Z :=
  if st_len s =? 0 then -1
  else match st_scale s with FE_SCALE_COUNTER => svalue s | _ => -1 end.

Definition convert_stat_pct (s : dtv_stat) (db_min db_max : dbl) : Z :=
  if st_len s =? 0 then -1
  else match st_scale s with
       | FE_SCALE_DECIBEL => scale_decibel_to_pct (svalue s) db_min db_max
       | FE_SCALE_RELATIVE => scale_relative_to_pct (st_uvalue s)
       | FE_SCALE_COUNTER => if INT_MAX <? st_uvalue s then INT_MAX else st_uvalue s
       | FE_SCALE_NOT_AVAILABLE => -1
       end.

(** [read_raw_decibel] on an answered property. *)
Definition raw_decibel (s : dtv_stat) : option dbl :=
  if 0 <? st_len s then
    match st_scale s with
    | FE_SCALE_DECIBEL => Some (ddiv (d_of_Z (svalue s)) (d_of_Z 1000))
    | _ => None
    end
  else None.

(** [(int)((1.0 - ratio) * 100.0 + 0.5)] *)
Definition ratio_pct (ratio : dbl) : Z :=
  d2i (dadd (dmul (dsub (d_of_Z 1) ratio) (d_of_Z 100)) (d_lit 5 1)).

Definition block_quality (error_blocks total_blocks : Z) : Z :=
  if (error_blocks <? 0) || (total_blocks <=? 0) then -1
  else clamp_pct (ratio_pct (ddiv (d_of_Z error_blocks) (d_of_Z total_blocks))).

Definition FE_HAS_LOCK : Z := 16.

Definition no_stats : dvb_signal_stats :=
  {| has_lock := false; signal_strength_pct := -1; snr_quality_pct := -1; symbol_quality_pct := -1;
     have_signal_dbm := false; signal_dbm := S754_zero false;
     have_snr_db := false; snr_db := S754_zero false |}.

(** [dvb_frontend_read_stats] on the answers of its two ioctls (None: the
    ioctl failed). *)
Definition stats_of (status : option Z) (props : option (dtv_stat * dtv_stat * dtv_stat * dtv_stat)) :
    dvb_signal_stats :=
  let out := match status with
             | Some st => no_stats <| has_lock := negb (Z.land st FE_HAS_LOCK =? 0) |>
             | None => no_stats
             end in
  match props with
  | None => out
  | Some (p0, p1, p2, p3) =>
      let out := out <| signal_strength_pct := convert_stat_pct p0 (d_of_Z (-90)) (d_of_Z (-43)) |> in
      let out := out <| snr_quality_pct := convert_stat_pct p1 (d_lit 45 1) (d_of_Z 33) |> in
      let out := match raw_decibel p0 with
                 | Some d => out <| have_signal_dbm := true |> <| signal_dbm := d |>
                 | None => out
                 end in
      let out := match raw_decibel p1 with
                 | Some d => out <| have_snr_db := true |> <| snr_db := d |>
                 | None => out
                 end in
      out <| symbol_quality_pct := block_quality (convert_counter_raw p2) (convert_counter_raw p3) |>
  end.

(** ** The windowed estimate from the legacy counter *)

(** [struct timespec] *)
Record timespec := { tv_sec : Z; tv_nsec : Z }.
Definition time0 : timespec := {| tv_sec := 0; tv_nsec := 0 |}.

Record dvb_legacy_seq_state := {
  have_baseline : bool;
  last_ucblocks : Z;
  last_time : timespec;
  last_pct : Z
}.
Definition legacy0 : dvb_legacy_seq_state :=
  {| have_baseline := false; last_ucblocks := 0; last_time := time0; last_pct := 0 |}.

#[export] Instance eta_legacy : Eta dvb_legacy_seq_state := fun s =>
  {| have_baseline := have_baseline s; last_ucblocks := last_ucblocks s;
     last_time := last_time s; last_pct := last_pct s |}.

(** Seconds between two times, as the C expression computes them. *)
Definition elapsed_sec (now since : timespec) : dbl :=
  dadd (d_of_Z (tv_sec now - tv_sec since))
       (ddiv (d_of_Z (tv_nsec now - tv_nsec since)) (d_of_Z (10 ^ 9))).

Definition ATSC_SEGMENTS_PER_SEC : dbl := d_lit 1293538 2.

(** [dvb_frontend_legacy_seq_pct]; [ucblocks] is the ioctl's answer, read only
    with a lock. *)
Definition legacy_seq_step (state : dvb_legacy_seq_state) (lock : bool) (ucblocks : option Z) (now : timespec) :
    Z * dvb_legacy_seq_state :=
  if negb lock then (-1, state <| have_baseline := false |>)
  else match ucblocks with
  | None => (-1, state)
  | Some ucblocks =>
      if negb (have_baseline state) then
        (-1, {| have_baseline := true; last_ucblocks := ucblocks; last_time := now; last_pct := -1 |})
      else
        let elapsed := elapsed_sec now (last_time state) in
        if dlt elapsed (d_lit 5 1) then (last_pct state, state)
        else
          let delta_blocks := if last_ucblocks state <=? ucblocks then ucblocks - last_ucblocks state else 0 in
          let expected_blocks := dmul ATSC_SEGMENTS_PER_SEC elapsed in
          let error_ratio := if dlt (d_of_Z 0) expected_blocks then ddiv (d_of_Z delta_blocks) expected_blocks
                             else d_of_Z 0 in
          let pct := clamp_pct (ratio_pct error_ratio) in
          (pct, {| have_baseline := true; last_ucblocks := ucblocks; last_time := now; last_pct := pct |})
  end.

(** The reading published by the refresher threads and the scan's progress
    callback: the modern statistic, or else the estimate. *)
Definition with_legacy (stats : dvb_signal_stats) (legacy : Z) : dvb_signal_stats :=
  if 0 <=? legacy then stats <| symbol_quality_pct := legacy |> else stats.

(** ** Ranges *)

(** A published percentage: not available, or 0 to 100. *)
Definition pct_ok (p : Z) : Prop := p = -1 \/ 0 <= p <= 100.

Lemma clamp_pct_range p : 0 <= clamp_pct p <= 100.
Proof. unfold clamp_pct. destruct (p <? 0) eqn:E; destruct (100 <? _) eqn:E'; zb; lia. Qed.

Lemma clamp_pct_ok p : pct_ok (clamp_pct p).
Proof. right. apply clamp_pct_range. Qed.
#[export] Hint Resolve clamp_pct_ok : hdhr.

Lemma convert_stat_pct_ok s lo hi :
  st_scale s <> FE_SCALE_COUNTER -> pct_ok (convert_stat_pct s lo hi).
Proof.
  intros H. unfold convert_stat_pct. destruct (st_len s =? 0); [by left|].
  destruct (st_scale s); [by left| | |done].
  - unfold scale_decibel_to_pct. auto with hdhr.
  - unfold scale_relative_to_pct. auto with hdhr.
Qed.

Lemma block_quality_ok e t : pct_ok (block_quality e t).
Proof. unfold block_quality. destruct (_ || _); [by left|auto with hdhr]. Qed.

Definition stats_ok (s : dvb_signal_stats) : Prop :=
  pct_ok (signal_strength_pct s) /\ pct_ok (snr_quality_pct s) /\ pct_ok (symbol_quality_pct s).

Lemma stats_of_ok status p0 p1 p2 p3 :
  st_scale p0 <> FE_SCALE_COUNTER -> st_scale p1 <> FE_SCALE_COUNTER ->
  stats_ok (stats_of status (Some (p0, p1, p2, p3))) /\ stats_ok (stats_of status None).
Proof.
  intros H0 H1. split.
  - unfold stats_ok, stats_of.
    destruct status; destruct (raw_decibel p0); destruct (raw_decibel p1); simpl;
      (split; [by apply convert_stat_pct_ok|split; [by apply convert_stat_pct_ok|apply block_quality_ok]]).
  - unfold stats_ok, stats_of. destruct status; simpl; repeat split; by left.
Qed.

(** What [legacy_seq_step] returns without a new measurement. *)
Lemma legacy_seq_step_ok state lock ub now pct state' :
  pct_ok (last_pct state) -> legacy_seq_step state lock ub now = (pct, state') ->
  pct_ok pct /\ pct_ok (last_pct state') /\
  (lock = false -> pct = -1 /\ have_baseline state' = false) /\
  (lock = true -> have_baseline state = false -> pct = -1) /\
  (have_baseline state' = true -> have_baseline state = false ->
     exists u, ub = Some u /\ last_ucblocks state' = u /\ last_time state' = now).
Proof.
  intros Hs H. unfold legacy_seq_step in H.
  destruct lock; simpl in H; [|by simplify_eq; simpl; repeat split; try done; left].
  destruct ub as [u|]; [|by simplify_eq; repeat split; try done; try left; try congruence].
  destruct (have_baseline state) eqn:Eb; simpl in H.
  - destruct (dlt _ _); simplify_eq; simpl; repeat split; try done; auto with hdhr; congruence.
  - simplify_eq. simpl. repeat split; try done; try (by left). eauto.
Qed.

(** Claim C21: whatever the driver answers, the published percentages are -1 or
    0 to 100, provided strength and CNR are not reported as raw counters; the
    estimate from the legacy counter stays in that range too, is unavailable
    and drops its window without a lock, and needs a previous reading under
    the same lock to measure anything. *)
Theorem signal_stats_range (status : option Z) (p0 p1 p2 p3 : dtv_stat)
    (state : dvb_legacy_seq_state) (ub : option Z) (now : timespec) (pct : Z) (state' : dvb_legacy_seq_state) :
  st_scale p0 <> FE_SCALE_COUNTER -> st_scale p1 <> FE_SCALE_COUNTER -> pct_ok (last_pct state) ->
  let s := stats_of status (Some (p0, p1, p2, p3)) in
  legacy_seq_step state (has_lock s) ub now = (pct, state') ->
  stats_ok (with_legacy s pct) /\ pct_ok (last_pct state') /\
  (has_lock s = false -> with_legacy s pct = s /\ have_baseline state' = false) /\
  (have_baseline state = false -> with_legacy s pct = s).
Proof.
  intros H0 H1 Hl s H. pose proof (proj1 (stats_of_ok status p0 p1 p2 p3 H0 H1)) as Hs. fold s in Hs.
  apply legacy_seq_step_ok in H as (Hp & Hp' & Hno & Hfirst & _); [|done].
  assert (Hw : pct = -1 -> with_legacy s pct = s) by (by intros ->).
  split; [|split; [done|split]].
  - unfold with_legacy. destruct (0 <=? pct); [|done].
    destruct Hs as (? & ? & ?). unfold stats_ok. simpl. done.
  - intros E. destruct (Hno E) as [-> ?]. auto.
  - intros E. destruct (has_lock s); [|by destruct (Hno eq_refl); auto]. auto.
Qed.

Definition sample_stat (sc : fe_scale) (v : Z) : dtv_stat := {| st_len := 1; st_scale := sc; st_uvalue := v |}.

Example stats_example :
  let s := stats_of (Some 31) (Some (sample_stat FE_SCALE_DECIBEL (2 ^ 64 - 66500), sample_stat FE_SCALE_DECIBEL 15200,
                                     sample_stat FE_SCALE_COUNTER 5, sample_stat FE_SCALE_COUNTER 100)) in
  (has_lock s, signal_strength_pct s, snr_quality_pct s, symbol_quality_pct s) = (true, 50, 38, 95).
Proof. vm_compute. reflexivity. Qed.

Lemma signal_stats_range_witness :
  let p := sample_stat FE_SCALE_DECIBEL (2 ^ 64 - 66500) in
  let q := sample_stat FE_SCALE_NOT_AVAILABLE 0 in
  stats_ok (with_legacy (stats_of (Some 31) (Some (p, q, q, q))) (-1)).
Proof.
  intros p q.
  apply (signal_stats_range (Some 31) p q q q legacy0 (Some 7) time0 (-1)
           {| have_baseline := true; last_ucblocks := 7; last_time := time0; last_pct := -1 |});
    [discriminate|discriminate|right; simpl; lia|reflexivity].
Defined.
