(* ===== verification/Ring.v ===== *)
(** The stream object of src/src/dvb_stream.c and its critical sections.

    [ring] groups the byte array with head, tail and fill; [dvb_stream] is the
    C struct; each condition variable is the number of times it has been signalled.
    The functions below are the bodies of the sections protected by [s->mtx].  The theorem: the ring refines a FIFO of bounded length, so that
    the bytes read are exactly the bytes captured, in order, none lost or
    repeated. *)
From S2P Require Import Prelude RecordUpd CLib Stats.

(** Case analysis on the comparisons of naturals in the goal. *)
Ltac no_match a := lazymatch a with context [match _ with _ => _ end] => fail | _ => idtac end.
Ltac nat_cases :=
  repeat match goal with
  | |- context [(?a <? ?b)%nat] => no_match a; no_match b; destruct (Nat.ltb_spec a b)
  | |- context [(?a <=? ?b)%nat] => no_match a; no_match b; destruct (Nat.leb_spec a b)
  | |- context [(?a =? ?b)%nat] => no_match a; no_match b; destruct (Nat.eqb_spec a b)
  end; cbn [andb orb negb].

Definition RING_CAP : nat := Z.to_nat (2 ^ 20).

Lemma RING_CAP_pos : (0 < RING_CAP)%nat.
Proof.
  assert (H : forall z, 0 < z -> (0 < Z.to_nat z)%nat) by lia.
  exact (H (2 ^ 20) eq_refl).
Qed.
#[global] Opaque RING_CAP.

(** ** The ring *)

Record ring := { ring_buf : list Z; ring_head : nat; ring_tail : nat; ring_fill : nat }.

Section Ring.
Context (cap : nat).

(** The two [memcpy]s of the reader thread: [data] goes to the head, wrapped. *)
Definition ring_put (r : ring) (data : list Z) : ring :=
  let chunk_len := length data in
  let first := Nat.min (cap - ring_head r) chunk_len in
  let buf1 := splice (ring_head r) (take first data) (ring_buf r) in
  let buf2 := if (first <? chunk_len)%nat then splice 0 (drop first data) buf1 else buf1 in
  {| ring_buf := buf2; ring_head := (ring_head r + chunk_len) mod cap; ring_tail := ring_tail r; ring_fill := ring_fill r + chunk_len |}.

(** The two [memcpy]s of the consumer: [n] bytes from the tail, wrapped. *)
Definition ring_get (r : ring) (n : nat) : list Z * ring :=
  let first := Nat.min (cap - ring_tail r) n in
  let out1 := take first (drop (ring_tail r) (ring_buf r)) in
  let out := if (first <? n)%nat then out1 ++ take (n - first) (ring_buf r) else out1 in
  (out, {| ring_buf := ring_buf r; ring_head := ring_head r; ring_tail := (ring_tail r + n) mod cap; ring_fill := ring_fill r - n |}).

Definition ring_ok (r : ring) : Prop :=
  length (ring_buf r) = cap /\ (ring_head r < cap)%nat /\ (ring_tail r < cap)%nat /\ (ring_fill r <= cap)%nat /\
  ring_head r = ((ring_tail r + ring_fill r) mod cap)%nat.

(** The bytes from the tail on, oldest first. *)
Definition contents (r : ring) : list Z := take (ring_fill r) (drop (ring_tail r) (ring_buf r) ++ take (ring_tail r) (ring_buf r)).

Lemma mod_cases x : (x < 2 * cap)%nat -> (x mod cap = if x <? cap then x else x - cap)%nat.
Proof.
  intros H. destruct (Nat.ltb_spec x cap); [by apply Nat.mod_small|].
  replace x with (x - cap + 1 * cap)%nat at 1 by lia. rewrite Nat.Div0.mod_add. apply Nat.mod_small. lia.
Qed.

(** The [k]-th stored byte lies at (tail + k) mod cap. *)
Lemma contents_lookup r k :
  ring_ok r -> (k < ring_fill r)%nat -> contents r !! k = ring_buf r !! ((ring_tail r + k) mod cap)%nat.
Proof.
  intros (Hl & Hh & Ht & Hf & _) Hk. unfold contents. rewrite lookup_take_lt by done.
  rewrite mod_cases by lia. destruct (Nat.ltb_spec (ring_tail r + k) cap).
  - rewrite lookup_app_l by (rewrite length_drop; lia). by rewrite lookup_drop.
  - rewrite lookup_app_r by (rewrite length_drop; lia). rewrite length_drop, lookup_take_lt by lia.
    f_equal. lia.
Qed.

Lemma contents_length r : ring_ok r -> length (contents r) = ring_fill r.
Proof.
  intros (Hl & Hh & Ht & Hf & _). unfold contents.
  rewrite length_take, length_app, length_drop, length_take. lia.
Qed.

Lemma splice_lookup {A} off (src dst : list A) k :
  (off + length src <= length dst)%nat ->
  splice off src dst !! k =
    if (off <=? k)%nat && (k <? off + length src)%nat then src !! (k - off)%nat else dst !! k.
Proof.
  intros H. unfold splice.
  destruct (Nat.leb_spec off k); simpl.
  - rewrite lookup_app_r by (rewrite length_take; lia). rewrite length_take, Nat.min_l by lia.
    destruct (Nat.ltb_spec k (off + length src)).
    + by rewrite lookup_app_l by lia.
    + rewrite lookup_app_r, lookup_drop by lia. f_equal. lia.
  - rewrite lookup_app_l by (rewrite length_take; lia). by rewrite lookup_take_lt.
Qed.

(** Where a put writes. *)
Lemma put_lookup r data j :
  ring_ok r -> (ring_fill r + length data <= cap)%nat -> (j < cap)%nat ->
  ring_buf (ring_put r data) !! j =
    let d := ((j + cap - ring_head r) mod cap)%nat in
    if (d <? length data)%nat then data !! d else ring_buf r !! j.
Proof.
  intros (Hl & Hh & Ht & Hf & _) Hd Hj. unfold ring_put. cbv zeta. cbn [ring_buf].
  set (n := length data). set (first := Nat.min (cap - ring_head r) n).
  assert (Hlen : length (take first data) = first) by (rewrite length_take; lia).
  rewrite mod_cases by lia.
  assert (H1 : splice (ring_head r) (take first data) (ring_buf r) !! j =
     if (ring_head r <=? j)%nat && (j <? ring_head r + first)%nat then data !! (j - ring_head r)%nat else ring_buf r !! j).
  { rewrite splice_lookup by lia. rewrite Hlen.
    destruct (Nat.leb_spec (ring_head r) j); simpl; [|done].
    destruct (Nat.ltb_spec j (ring_head r + first)); [|done]. by rewrite lookup_take_lt by lia. }
  destruct (Nat.ltb_spec first n).
  - rewrite splice_lookup by (rewrite length_splice by lia; rewrite length_drop; fold n; lia).
    rewrite length_drop. fold n. simpl. rewrite Nat.sub_0_r, lookup_drop, H1.
    nat_cases; first [exfalso; unfold first in *; lia | f_equal; unfold first in *; lia | done].
  - rewrite H1. nat_cases; first [exfalso; unfold first in *; lia | f_equal; unfold first in *; lia | done].
Qed.

Lemma put_ok r data :
  ring_ok r -> (ring_fill r + length data <= cap)%nat -> ring_ok (ring_put r data).
Proof.
  intros (Hl & Hh & Ht & Hf & He) Hd. unfold ring_ok, ring_put. cbn [ring_buf ring_head ring_tail ring_fill].
  assert (Hlen : length (splice (ring_head r) (take (Nat.min (cap - ring_head r) (length data)) data) (ring_buf r)) = cap)
    by (rewrite length_splice; rewrite ?length_take; lia).
  repeat split; try lia.
  - destruct (_ <? _)%nat eqn:E; [|done]. rewrite length_splice; [done|]. rewrite length_drop. lia.
  - apply Nat.mod_upper_bound. lia.
  - rewrite He at 1. rewrite Nat.Div0.add_mod_idemp_l. f_equal. lia.
Qed.

Lemma contents_put r data :
  ring_ok r -> (ring_fill r + length data <= cap)%nat -> contents (ring_put r data) = contents r ++ data.
Proof.
  intros Hr Hd. pose proof (put_ok r data Hr Hd) as Hr'. pose proof Hr as (Hl & Hh & Ht & Hf & He).
  assert (Hidx : forall k, (k < ring_fill r + length data)%nat ->
     let j := ((ring_tail r + k) mod cap)%nat in
     (j < cap)%nat /\ ((j + cap - ring_head r) mod cap = if k <? ring_fill r then cap + k - ring_fill r else k - ring_fill r)%nat).
  { intros k Hk. cbv zeta. rewrite He, (mod_cases (ring_tail r + k)), (mod_cases (ring_tail r + ring_fill r)) by lia.
    split; [nat_cases; lia|]. rewrite mod_cases by (nat_cases; lia). nat_cases; lia. }
  apply list_eq. intros k. destruct (decide (k < ring_fill r + length data)%nat) as [Hk|Hk].
  - rewrite contents_lookup; [|done|exact Hk]. change (ring_tail (ring_put r data)) with (ring_tail r).
    destruct (Hidx k Hk) as [Hj Hm]. rewrite put_lookup by done. cbv zeta. rewrite Hm.
    destruct (Nat.ltb_spec k (ring_fill r)).
    + destruct (Nat.ltb_spec (cap + k - ring_fill r) (length data)); [lia|].
      rewrite lookup_app_l by (rewrite contents_length by done; lia). by rewrite contents_lookup.
    + destruct (Nat.ltb_spec (k - ring_fill r) (length data)); [|lia].
      rewrite lookup_app_r by (rewrite contents_length by done; lia). by rewrite contents_length.
  - rewrite !lookup_ge_None_2; [done| |].
    + rewrite length_app, contents_length by done. lia.
    + rewrite contents_length by done. cbn. lia.
Qed.

Lemma get_spec r n :
  ring_ok r -> (n <= ring_fill r)%nat ->
  let '(out, r') := ring_get r n in ring_ok r' /\ contents r = out ++ contents r' /\ length out = n.
Proof.
  intros (Hl & Hh & Ht & Hf & He) Hn. unfold ring_get. cbv zeta.
  set (first := Nat.min (cap - ring_tail r) n). set (r' := Build_ring _ _ _ _).
  assert (Hr' : ring_ok r').
  { unfold ring_ok, r'. cbn [ring_buf ring_head ring_tail ring_fill]. repeat split; try lia.
    - apply Nat.mod_upper_bound. lia.
    - rewrite Nat.Div0.add_mod_idemp_l, He. f_equal. lia. }
  assert (Hout : (if (first <? n)%nat then take first (drop (ring_tail r) (ring_buf r)) ++ take (n - first) (ring_buf r)
                  else take first (drop (ring_tail r) (ring_buf r))) = take n (contents r)).
  { unfold contents. rewrite take_take, Nat.min_l by done.
    destruct (Nat.ltb_spec first n).
    - rewrite take_app_ge by (rewrite length_drop; unfold first in *; lia).
      rewrite length_drop, Hl, (take_ge (drop _ _) first) by (rewrite length_drop; unfold first in *; lia).
      rewrite take_take. do 2 f_equal. unfold first in *. lia.
    - rewrite take_app_le by (rewrite length_drop; unfold first in *; lia). f_equal. unfold first in *. lia. }
  split; [done|]. rewrite Hout. split.
  - rewrite <- (take_drop n (contents r)) at 1. f_equal.
    assert (Hr : ring_ok r) by (unfold ring_ok; auto).
    apply list_eq. intros k. rewrite lookup_drop. destruct (decide (k < ring_fill r - n)%nat).
    + rewrite !contents_lookup by (unfold r'; cbn; first [done | lia]). unfold r'. cbn [ring_buf ring_tail].
      f_equal. rewrite Nat.Div0.add_mod_idemp_l. f_equal. lia.
    + rewrite !lookup_ge_None_2; [done| |]; rewrite contents_length by done; unfold r'; cbn; lia.
  - rewrite length_take, contents_length by (unfold ring_ok; auto). lia.
Qed.
End Ring.

(** ** The stream object *)

(** [opened_on] keeps the adapter, frontend and demux numbers that
    [dvb_stream_open] was given; [demux_fds] pairs each descriptor with its
    PID, in the order of opening.  Of the condition variables [not_empty] and
    [not_full] the model keeps how often they have been signalled or broadcast.
    [opened] (not a C field) tells that [dvb_stream_open] is past the creation of
    its second thread. *)
Record dvb_stream := {
  opened_on : Z * Z * Z;
  frontend_fd : Z;
  demux_fds : list (Z * Z);
  dvr_fd : Z;
  reader_thread : nat;
  rng : ring;
  opened : bool;
  not_empty_wakes : nat;
  not_full_wakes : nat;
  closing : bool;
  eof : bool;
  total_bytes : Z;
  start_time : timespec;
  window_start_bytes : Z;
  window_start_time : timespec;
  last_bps : dbl;
  last_pps : dbl;
  legacy_seq : dvb_legacy_seq_state;
  stats_thread : nat;
  stats_thread_started : bool;
  stats_stop_requested : bool;
  stats_cache : dvb_signal_stats;
  stats_cache_valid : bool
}.

#[export] Instance eta_stream : Eta dvb_stream := fun s =>
  {| opened_on := opened_on s; frontend_fd := frontend_fd s; demux_fds := demux_fds s; dvr_fd := dvr_fd s;
     reader_thread := reader_thread s; rng := rng s; opened := opened s; not_empty_wakes := not_empty_wakes s;
     not_full_wakes := not_full_wakes s; closing := closing s; eof := eof s;
     total_bytes := total_bytes s; start_time := start_time s;
     window_start_bytes := window_start_bytes s; window_start_time := window_start_time s;
     last_bps := last_bps s; last_pps := last_pps s; legacy_seq := legacy_seq s;
     stats_thread := stats_thread s; stats_thread_started := stats_thread_started s;
     stats_stop_requested := stats_stop_requested s; stats_cache := stats_cache s;
     stats_cache_valid := stats_cache_valid s |}.

Definition empty_ring : ring := {| ring_buf := replicate RING_CAP 0; ring_head := 0; ring_tail := 0; ring_fill := 0 |}.

Definition MIN_WINDOW_SEC : dbl := d_of_Z 1.
Definition STATUS_PACKET_UNIT_BYTES : Z := 188 * 7.

(** The wait conditions of the capture thread and of the consumer. *)
Definition reader_waits (s : dvb_stream) : bool := (ring_fill (rng s) =? RING_CAP)%nat && negb (closing s).
Definition consumer_waits (s : dvb_stream) : bool := (ring_fill (rng s) =? 0)%nat && negb (eof s) && negb (closing s).

(** [pthread_cond_signal] and [pthread_cond_broadcast]; at most one thread waits
    on each. *)
Definition wake_not_empty (s : dvb_stream) : dvb_stream := s <| not_empty_wakes ::= S |>.
Definition wake_not_full (s : dvb_stream) : dvb_stream := s <| not_full_wakes ::= S |>.

(** The copy loop of [reader_thread_main]: the bytes left when the ring is full
    (the thread then waits on [not_full]). *)
Definition reader_copy (s : dvb_stream) (data : list Z) : dvb_stream * option (list Z) :=
  if closing s then (s, None)
  else match data with
  | [] => (s, None)
  | _ =>
      if (ring_fill (rng s) =? RING_CAP)%nat then (s, Some data)
      else
        let space := (RING_CAP - ring_fill (rng s))%nat in
        let chunk_len := Nat.min (length data) space in
        let s := wake_not_empty (s <| rng := ring_put RING_CAP (rng s) (take chunk_len data) |>) in
        match drop chunk_len data with
        | [] => (s, None)
        | rest => (s, Some rest)
        end
  end.

(** The section entered after a successful read of the DVR device. *)
Definition reader_accept (s : dvb_stream) (data : list Z) : dvb_stream * option (list Z) :=
  reader_copy (s <| total_bytes := (total_bytes s + Z.of_nat (length data)) mod 2 ^ 64 |>) data.

(** The last section of the capture thread. *)
Definition reader_finish (s : dvb_stream) : dvb_stream := wake_not_empty (s <| eof := true |>).

(** [dvb_stream_read]: None when the caller has to wait on [not_empty]. *)
Definition stream_read_section (s : dvb_stream) (len : nat) : dvb_stream * option (list Z) :=
  if consumer_waits s then (s, None)
  else if (ring_fill (rng s) =? 0)%nat then (s, Some [])
  else
    let chunk_len := Nat.min len (ring_fill (rng s)) in
    let '(out, r) := ring_get RING_CAP (rng s) chunk_len in
    (wake_not_full (s <| rng := r |>), Some out).

(** The refresher's publication; true: stop. *)
Definition stats_publish (s : dvb_stream) (stats : dvb_signal_stats) : bool * dvb_stream :=
  if stats_stop_requested s || closing s then (true, s)
  else (false, s <| stats_cache := stats |> <| stats_cache_valid := true |>).

Definition dvb_stream_get_cached_stats (s : dvb_stream) : option dvb_signal_stats :=
  if stats_cache_valid s then Some (stats_cache s) else None.

(** [dvb_stream_get_legacy_seq_pct]: the same arithmetic as the scan's, on the
    stream's own window. *)
Definition dvb_stream_get_legacy_seq_pct (s : dvb_stream) (lock : bool) (ucblocks : option Z) (now : timespec) :
    Z * dvb_stream :=
  let '(pct, l) := legacy_seq_step (legacy_seq s) lock ucblocks now in (pct, s <| legacy_seq := l |>).

Definition dvb_stream_get_rate (s : dvb_stream) (now : timespec) : dbl * dbl * dvb_stream :=
  let elapsed := elapsed_sec now (window_start_time s) in
  let s :=
    if dle MIN_WINDOW_SEC elapsed then
      let delta_bytes := (total_bytes s - window_start_bytes s) mod 2 ^ 64 in
      s <| last_bps := ddiv (dmul (d_of_Z delta_bytes) (d_of_Z 8)) elapsed |>
        <| last_pps := ddiv (ddiv (d_of_Z delta_bytes) (d_of_Z STATUS_PACKET_UNIT_BYTES)) elapsed |>
        <| window_start_bytes := total_bytes s |> <| window_start_time := now |>
    else s in
  (last_bps s, last_pps s, s).

(** The first section of [stream_teardown]. *)
Definition teardown_begin (s : dvb_stream) : dvb_stream :=
  wake_not_empty (wake_not_full (s <| closing := true |> <| stats_stop_requested := true |>)).

(** ** The ring as a FIFO *)

(** One critical section of the capture thread or of the consumer. *)
Inductive io_op := IWrite (data : list Z) | IRead (len : nat).

(** Runs the sections; accumulates the bytes accepted and the bytes delivered. *)
Fixpoint run_io (ops : list io_op) (s : dvb_stream) : list Z * list Z * dvb_stream :=
  match ops with
  | [] => ([], [], s)
  | IWrite data :: ops =>
      let '(s', rest) := reader_copy s data in
      let acc := take (length data - length (default [] rest)) data in
      let '(i, o, s'') := run_io ops s' in (acc ++ i, o, s'')
  | IRead len :: ops =>
      let '(s', out) := stream_read_section s len in
      let '(i, o, s'') := run_io ops s' in (i, default [] out ++ o, s'')
  end.

Lemma reader_copy_spec s data s' rest :
  ring_ok RING_CAP (rng s) -> closing s = false -> reader_copy s data = (s', rest) ->
  ring_ok RING_CAP (rng s') /\ closing s' = false /\ eof s' = eof s /\
  (exists acc, data = acc ++ default [] rest /\ contents (rng s') = contents (rng s) ++ acc) /\
  (rest <> None -> rest <> Some [] /\ ring_fill (rng s') = RING_CAP).
Proof.
  intros Hr Hc H. unfold reader_copy in H. rewrite Hc in H.
  destruct data as [|b data].
  { simplify_eq. split; [done|]. split; [done|]. split; [done|]. split; [|done].
    exists []. split; [done|]. by rewrite app_nil_r. }
  set (d := b :: data) in *. destruct (Nat.eqb_spec (ring_fill (rng s)) RING_CAP) as [E|E].
  { simplify_eq. split; [done|]. split; [done|]. split; [done|]. split; [|done].
    exists []. split; [done|]. by rewrite app_nil_r. }
  cbv zeta in H. set (n := Nat.min (length d) (RING_CAP - ring_fill (rng s))) in *.
  assert (Hn : length (take n d) = n) by (rewrite length_take; lia).
  assert (Hfit : (ring_fill (rng s) + length (take n d) <= RING_CAP)%nat)
    by (destruct Hr as (_ & _ & _ & Hf & _); lia).
  pose proof (put_ok RING_CAP _ _ Hr Hfit) as Hok. pose proof (contents_put RING_CAP _ _ Hr Hfit) as Hct.
  destruct (drop n d) as [|c l] eqn:Ed; injection H as <- <-;
    (split; [exact Hok|]; split; [exact Hc|]; split; [done|]; split).
  - exists (take n d). split; [|exact Hct]. rewrite <- (take_drop n d) at 1. by rewrite Ed.
  - done.
  - exists (take n d). split; [|exact Hct]. rewrite <- (take_drop n d) at 1. by rewrite Ed.
  - intros _. split; [done|]. change (ring_fill _) with (ring_fill (rng s) + length (take n d))%nat.
    assert (length (drop n d) <> 0%nat) as Hd by (by rewrite Ed). rewrite length_drop in Hd. lia.
Qed.

Lemma stream_read_section_spec s len s' out :
  ring_ok RING_CAP (rng s) -> stream_read_section s len = (s', out) ->
  ring_ok RING_CAP (rng s') /\ closing s' = closing s /\ eof s' = eof s /\
  contents (rng s) = default [] out ++ contents (rng s') /\
  (out = None <-> contents (rng s) = [] /\ eof s = false /\ closing s = false) /\
  (out <> None -> length (default [] out) = Nat.min len (length (contents (rng s)))).
Proof.
  intros Hr H. pose proof (contents_length RING_CAP _ Hr) as Hlen. unfold stream_read_section, consumer_waits in H.
  destruct (Nat.eqb_spec (ring_fill (rng s)) 0) as [E|E]; cbn [andb] in H.
  - assert (Hnil : contents (rng s) = []) by (apply length_zero_iff_nil; lia).
    destruct (eof s) eqn:Ee; destruct (closing s) eqn:Ec; injection H as <- <-; rewrite ?Ee, ?Ec, Hnil;
      (split; [done|]; split; [done|]; split; [done|]; split; [done|]; split;
        [split; [try done|by intros (? & ? & ?)]|intros _; simpl; lia]).
  - pose proof (get_spec RING_CAP (rng s) (Nat.min len (ring_fill (rng s))) Hr ltac:(lia)) as Hg.
    destruct (ring_get _ _ _) as [o r]. destruct Hg as (Hok & Hc & Ho). injection H as <- <-.
    split; [exact Hok|]. split; [done|]. split; [done|]. split; [exact Hc|]. split.
    + split; [done|]. intros (Hcn & _). rewrite Hcn in Hlen. simpl in Hlen. lia.
    + intros _. simpl. rewrite Ho, Hlen. done.
Qed.

Lemma run_io_spec ops s i o s' :
  ring_ok RING_CAP (rng s) -> closing s = false -> run_io ops s = (i, o, s') ->
  ring_ok RING_CAP (rng s') /\ closing s' = false /\ contents (rng s) ++ i = o ++ contents (rng s').
Proof.
  revert s i o. induction ops as [|[data|len] ops IH]; intros s i o Hr Hc H; cbn [run_io] in H.
  - injection H as <- <- <-. rewrite app_nil_r. auto.
  - destruct (reader_copy s data) as [s1 rest] eqn:E.
    apply reader_copy_spec in E as (Hr1 & Hc1 & _ & (acc & Hd & Hct) & _); [|done|done].
    destruct (run_io ops s1) as [[i1 o1] s2] eqn:E2. injection H as <- <- <-.
    destruct (IH s1 i1 o1 Hr1 Hc1 E2) as (Hr2 & Hc2 & H2). split; [done|]. split; [done|].
    rewrite <- H2, Hct, <- app_assoc. do 2 f_equal. rewrite Hd, length_app.
    rewrite take_app_length'; [done|]. lia.
  - destruct (stream_read_section s len) as [s1 out] eqn:E.
    apply stream_read_section_spec in E as (Hr1 & Hc1 & _ & Hct & _); [|done].
    destruct (run_io ops s1) as [[i1 o1] s2] eqn:E2. injection H as <- <- <-.
    destruct (IH s1 i1 o1 Hr1 ltac:(congruence) E2) as (Hr2 & Hc2 & H2). split; [done|]. split; [done|].
    rewrite Hct, <- !app_assoc. f_equal. exact H2.
Qed.

(** Claim C23: while a stream is open, whatever the order in which the capture
    thread and the consumer enter their sections, the bytes delivered followed
    by those still buffered are exactly the bytes accepted, in order; at most
    1 MiB is buffered; the capture thread is left with bytes only when the ring
    is full, and a consumer waits only when the ring is empty, otherwise
    getting as many bytes as it asked for or as there are. *)
Theorem ring_refines_fifo (ops : list io_op) (s s' : dvb_stream) (i o data : list Z) (len : nat) :
  ring_ok RING_CAP (rng s) -> ring_fill (rng s) = 0%nat -> closing s = false -> run_io ops s = (i, o, s') ->
  i = o ++ contents (rng s') /\ (length (contents (rng s')) <= RING_CAP)%nat /\
  ((reader_copy s' data).2 <> None -> ring_fill (rng (reader_copy s' data).1) = RING_CAP) /\
  ((stream_read_section s' len).2 = None <-> contents (rng s') = [] /\ eof s' = false) /\
  ((stream_read_section s' len).2 <> None ->
     length (default [] (stream_read_section s' len).2) = Nat.min len (length (contents (rng s')))).
Proof.
  intros Hr Hf Hc H. apply run_io_spec in H as (Hr' & Hc' & H); [|done|done].
  pose proof (contents_length RING_CAP _ Hr) as Hl0. pose proof (contents_length RING_CAP _ Hr') as Hl.
  rewrite Hf in Hl0. apply length_zero_iff_nil in Hl0. rewrite Hl0 in H.
  destruct (reader_copy s' data) as [s1 rest] eqn:E1. destruct (stream_read_section s' len) as [s2 out] eqn:E2.
  apply reader_copy_spec in E1 as (_ & _ & _ & _ & H1); [|done|done].
  apply stream_read_section_spec in E2 as (_ & _ & _ & _ & H2 & H3); [|done].
  split; [exact H|]. split; [rewrite Hl; apply Hr'|]. split; [|split; [|done]].
  - intros Hx. by apply H1.
  - rewrite H2, Hc'. tauto.
Qed.

Definition sample_stream : dvb_stream :=
  {| opened_on := (0, 0, 0); frontend_fd := 3; demux_fds := []; dvr_fd := 4; reader_thread := 0%nat;
     rng := empty_ring; opened := true; not_empty_wakes := 0%nat; not_full_wakes := 0%nat; closing := false; eof := false; total_bytes := 0; start_time := time0;
     window_start_bytes := 0; window_start_time := time0; last_bps := S754_zero false;
     last_pps := S754_zero false; legacy_seq := legacy0; stats_thread := 0%nat;
     stats_thread_started := false; stats_stop_requested := false; stats_cache := no_stats;
     stats_cache_valid := false |}.

Lemma empty_ring_ok : ring_ok RING_CAP empty_ring.
Proof.
  pose proof RING_CAP_pos.
  unfold ring_ok, empty_ring. cbn [ring_buf ring_head ring_tail ring_fill]. rewrite length_replicate.
  repeat split; lia.
Qed.

Lemma ring_refines_fifo_witness :
  let s' := (run_io [IWrite [1; 2; 3]; IRead 2] sample_stream).2 in
  [1; 2; 3] = [1; 2] ++ contents (rng s') /\ (length (contents (rng s')) <= RING_CAP)%nat.
Proof.
  intros s'.
  assert (H : (run_io [IWrite [1; 2; 3]; IRead 2] sample_stream).1 = ([1; 2; 3], [1; 2])) by (vm_compute; reflexivity).
  destruct (ring_refines_fifo [IWrite [1; 2; 3]; IRead 2] sample_stream s' [1; 2; 3] [1; 2] [] 0
           empty_ring_ok eq_refl eq_refl) as (H1 & H2 & _); [|split; [exact H1|exact H2]].
  unfold s'. destruct (run_io _ sample_stream) as [p q]. simpl in H. by subst p.
Defined.
