(* ===== verification/Tuner.v ===== *)
(** The tuner object: src/src/tuner.h, and the critical sections of
    src/src/tuner.c.

    [hdhr_tuner] is the C struct (the mutex and the condition variables are the
    atomicity of the sections and the wait operations of [Sys]).  Each function
    below is the body of one section protected by [t->lock]; [TunerOps]
    composes them into tuner.c's functions.  The theorem: the pending queue is a
    bounded FIFO. *)
From S2P Require Import Prelude RecordUpd CLib FreqPlan ChannelDb Config Stats Ring.

Definition TUNER_PENDING_QUEUE_CAP : nat := 40.
Definition DVB_PROGRAM_DEFAULT : Z := -1.

Definition HDHR_DELIVERY_ATSC_VSB : Z := delivery_num ChannelMap.HDHR_DELIVERY_ATSC_VSB.
Definition HDHR_DELIVERY_QAM : Z := delivery_num ChannelMap.HDHR_DELIVERY_QAM.
Definition is_qam (d : Z) : bool := d =? HDHR_DELIVERY_QAM.

(** Ghost: [held_live_fd], the descriptor the refresher was last started for; no
    code reads it. *)
Record hdhr_tuner := {
  index : Z;
  adapter : Z;
  frontend : Z;
  channel : string;
  program : Z;
  target : string;
  lockkey : Z;
  channelmap : string;
  filter_override : string;
  vch_major : Z;
  vch_minor : Z;
  vch_resolved : bool;
  tuned_frequency_hz : Z;
  tuned_delivery : Z;
  status : string;
  held_fd : Z;
  held_live_fd : Z;
  held_legacy_seq : dvb_legacy_seq_state;
  held_stats_thread : nat;
  held_stats_thread_started : bool;
  held_stats_stop_requested : bool;
  held_stats_cache : dvb_signal_stats;
  held_stats_cache_valid : bool;
  scan_stats : dvb_signal_stats;
  scan_stats_valid : bool;
  scan_stats_freq : Z;
  busy : bool;
  active_stream : option nat;
  http_peer_addr : Z;
  parked_fd : Z;
  park_generation : Z;
  scan_worker_active : bool;
  scan_generation : Z;
  last_attempt_freq : Z;
  last_attempt_locked : bool;
  last_attempt_generation : Z;
  pending_queue : list (Z * Z);
  pending_head : nat;
  pending_count : nat;
  claim_waiters : Z;
  udp_push_active : bool;
  udp_push_stop_requested : bool;
  udp_push_generation : Z;
  keepalive_match_addr : Z;
  keepalive_match_port : Z;
  last_keepalive_time : timespec
}.

#[export] Instance eta_tuner : Eta hdhr_tuner := fun t =>
  {| index := index t; adapter := adapter t; frontend := frontend t; channel := channel t;
     program := program t; target := target t; lockkey := lockkey t; channelmap := channelmap t;
     filter_override := filter_override t; vch_major := vch_major t; vch_minor := vch_minor t;
     vch_resolved := vch_resolved t; tuned_frequency_hz := tuned_frequency_hz t;
     tuned_delivery := tuned_delivery t; status := status t; held_fd := held_fd t; held_live_fd := held_live_fd t;
     held_legacy_seq := held_legacy_seq t; held_stats_thread := held_stats_thread t;
     held_stats_thread_started := held_stats_thread_started t;
     held_stats_stop_requested := held_stats_stop_requested t; held_stats_cache := held_stats_cache t;
     held_stats_cache_valid := held_stats_cache_valid t; scan_stats := scan_stats t;
     scan_stats_valid := scan_stats_valid t; scan_stats_freq := scan_stats_freq t; busy := busy t;
     active_stream := active_stream t; http_peer_addr := http_peer_addr t; parked_fd := parked_fd t;
     park_generation := park_generation t; scan_worker_active := scan_worker_active t;
     scan_generation := scan_generation t; last_attempt_freq := last_attempt_freq t;
     last_attempt_locked := last_attempt_locked t; last_attempt_generation := last_attempt_generation t;
     pending_queue := pending_queue t; pending_head := pending_head t; pending_count := pending_count t;
     claim_waiters := claim_waiters t; udp_push_active := udp_push_active t;
     udp_push_stop_requested := udp_push_stop_requested t; udp_push_generation := udp_push_generation t;
     keepalive_match_addr := keepalive_match_addr t; keepalive_match_port := keepalive_match_port t;
     last_keepalive_time := last_keepalive_time t |}.

(** Unsigned 32-bit increment. *)
Definition inc32 (x : Z) : Z := u32 (x + 1).

Definition IDLE_STATUS : string := "ch=none lock=none ss=0 snq=0 seq=0 bps=0 pps=0".

(** [memset] to zero, then the assignments of [tuner_pool_init]. *)
Definition tuner_init (i : nat) (cfg : hdhr_config) : hdhr_tuner :=
  {| index := Z.of_nat i; adapter := nth i (dvb_adapter cfg) 0; frontend := dvb_frontend cfg;
     channel := snprintf 64 "none"; program := -1; target := snprintf 64 "none"; lockkey := 0;
     channelmap := snprintf 16 "us-bcast"; filter_override := ""; vch_major := 0; vch_minor := 0;
     vch_resolved := false; tuned_frequency_hz := 0; tuned_delivery := 0;
     status := snprintf 160 IDLE_STATUS; held_fd := -1; held_live_fd := -1; held_legacy_seq := legacy0;
     held_stats_thread := 0%nat; held_stats_thread_started := false; held_stats_stop_requested := false;
     held_stats_cache := no_stats; held_stats_cache_valid := false; scan_stats := no_stats;
     scan_stats_valid := false; scan_stats_freq := 0; busy := false; active_stream := None;
     http_peer_addr := 0; parked_fd := -1; park_generation := 0; scan_worker_active := false;
     scan_generation := 0; last_attempt_freq := 0; last_attempt_locked := false;
     last_attempt_generation := 0; pending_queue := replicate TUNER_PENDING_QUEUE_CAP (0, 0);
     pending_head := 0%nat; pending_count := 0%nat; claim_waiters := 0; udp_push_active := false;
     udp_push_stop_requested := false; udp_push_generation := 0; keepalive_match_addr := 0;
     keepalive_match_port := 0; last_keepalive_time := time0 |}.

Definition tuner_pool_init (count : Z) (cfg : hdhr_config) : list hdhr_tuner :=
  (fun i => tuner_init i cfg) <$> seq 0 (Z.to_nat count).

(** ** Claims *)

(** What a claim detaches from the tuner: the held and the parked descriptor,
    and the selection the hold was tuned to. *)
Record claimed := { c_held : Z; c_parked : Z; c_freq : Z; c_delivery : Z }.

(** The assignments shared by [tuner_try_claim] and [tuner_try_claim_wait]. *)
Definition take_claim (t : hdhr_tuner) : claimed * hdhr_tuner :=
  ({| c_held := held_fd t; c_parked := parked_fd t; c_freq := tuned_frequency_hz t;
      c_delivery := tuned_delivery t |},
   t <| busy := true |> <| held_fd := -1 |> <| parked_fd := -1 |>).

Definition claim_section (t : hdhr_tuner) : option claimed * hdhr_tuner :=
  if busy t then (None, t) else let '(c, t) := take_claim t in (Some c, t).

(** [tuner_try_claim_fast]: the descriptor whose closing is deferred. *)
Definition claim_fast_section (t : hdhr_tuner) : option Z * hdhr_tuner :=
  if busy t then (None, t)
  else
    let stale := if held_fd t <? 0 then parked_fd t else held_fd t in
    (Some stale, t <| busy := true |> <| held_fd := -1 |> <| parked_fd := -1 |>).

Inductive wait_result := WaitMore | WaitFailed | WaitClaimed (c : claimed).

(** The loop test of [tuner_try_claim_wait] and what follows it in the same
    section; [timed_out] is the answer of [pthread_cond_timedwait]. *)
Definition claim_wait_check (timed_out : bool) (t : hdhr_tuner) : wait_result * hdhr_tuner :=
  if busy t && negb timed_out then (WaitMore, t)
  else
    let t := t <| claim_waiters ::= fun n => n - 1 |> in
    if busy t then (WaitFailed, t) else let '(c, t) := take_claim t in (WaitClaimed c, t).

(** Its first section: announce, then test. *)
Definition claim_wait_section (t : hdhr_tuner) : wait_result * hdhr_tuner :=
  claim_wait_check false (t <| claim_waiters ::= fun n => n + 1 |>).

Definition set_stream_section (s : option nat) (t : hdhr_tuner) : unit * hdhr_tuner :=
  (tt, t <| active_stream := s |>).

(** ** Release *)

Definition take_stream_section (t : hdhr_tuner) : option nat * hdhr_tuner :=
  (active_stream t, t <| active_stream := None |>).

(** Clears [busy]; returns the selection to hold again, if any. *)
Definition release_section (t : hdhr_tuner) : option (Z * Z) * hdhr_tuner :=
  let t := t <| busy := false |> <| http_peer_addr := 0 |> in
  let freq := tuned_frequency_hz t in
  (if negb (freq =? 0) && negb (0 <=? held_fd t) then Some (freq, tuned_delivery t) else None, t).

(** First section of [tuner_release_park]: the stream, and whether a channel
    is selected. *)
Definition park_take_section (t : hdhr_tuner) : option nat * bool * hdhr_tuner :=
  (active_stream t, negb (tuned_frequency_hz t =? 0), t <| active_stream := None |>).

(** Installs the parked descriptor (when there is a timer context for it) and
    clears [busy]; returns the park's generation. *)
Definition park_section (ctx : bool) (fd : Z) (t : hdhr_tuner) : Z * hdhr_tuner :=
  let t := if ctx then t <| parked_fd := fd |> <| park_generation ::= inc32 |> else t in
  (park_generation t, t <| busy := false |> <| http_peer_addr := 0 |>).

(** The expiry timer: takes the parked descriptor if it is still this park's. *)
Definition park_expiry_section (generation : Z) (t : hdhr_tuner) : Z * hdhr_tuner :=
  if park_generation t =? generation then (parked_fd t, t <| parked_fd := -1 |>) else (-1, t).

(** When the timer thread could not be started. *)
Definition park_undo_section (generation : Z) (t : hdhr_tuner) : Z * hdhr_tuner :=
  let still := if park_generation t =? generation then parked_fd t else -1 in
  (still, if 0 <=? still then t <| parked_fd := -1 |> else t).

(** ** Holds *)

(** [close_existing_hold_for_new_one]: None when a stream is active. *)
Definition hold_detach_section (t : hdhr_tuner) : option (Z * Z) * hdhr_tuner :=
  match active_stream t with
  | Some _ => (None, t)
  | None => (Some (held_fd t, parked_fd t), t <| held_fd := -1 |> <| parked_fd := -1 |>)
  end.

(** [install_hold_fd]; [tid] is the refresher thread's id when it could be
    started.  False: another thread raced in, the caller closes [fd]. *)
Definition install_section (fd : Z) (tid : option nat) (t : hdhr_tuner) : bool * hdhr_tuner :=
  match active_stream t with
  | Some _ => (false, t)
  | None =>
      if 0 <=? held_fd t then (false, t)
      else
        let t := t <| held_fd := fd |> <| held_legacy_seq := legacy0 |>
                   <| held_stats_cache_valid := false |> <| held_stats_stop_requested := false |> in
        (true, match tid with
               | Some i => t <| held_stats_thread := i |> <| held_stats_thread_started := true |> <| held_live_fd := fd |>
               | None => t <| held_stats_thread_started := false |>
               end)
  end.

Definition close_hold_section (t : hdhr_tuner) : Z * hdhr_tuner := (held_fd t, t <| held_fd := -1 |>).

(** The two sections of [stop_held_stats_thread]. *)
Definition stop_stats_section (t : hdhr_tuner) : bool * hdhr_tuner :=
  (held_stats_thread_started t, t <| held_stats_stop_requested := true |>).
Definition stats_joined_section (t : hdhr_tuner) : unit * hdhr_tuner :=
  (tt, t <| held_stats_thread_started := false |>).

(** The refresher's sections; true: stop. *)
Definition held_stop (fd : Z) (t : hdhr_tuner) : bool :=
  held_stats_stop_requested t || negb (held_fd t =? fd).
Definition held_publish_section (fd : Z) (stats : dvb_signal_stats) (t : hdhr_tuner) : bool * hdhr_tuner :=
  if held_stop fd t then (true, t)
  else (false, t <| held_stats_cache := stats |> <| held_stats_cache_valid := true |>).

(** ** Selection *)

(** "8vsb:<hz>" or "qam:<hz>" *)
Definition channel_text (delivery freq : Z) : string :=
  (if is_qam delivery then "qam" else "8vsb") +:+ ":" +:+ dec_u freq.

Definition bind_section (ch : dvb_channel) (program_override : Z) (t : hdhr_tuner) : hdhr_tuner :=
  t <| vch_major := major ch |> <| vch_minor := minor ch |> <| vch_resolved := true |>
    <| tuned_frequency_hz := frequency_hz ch |> <| tuned_delivery := delivery ch |>
    <| channel := snprintf 64 (channel_text (delivery ch) (frequency_hz ch)) |>
    <| program := if program_override =? DVB_PROGRAM_DEFAULT then program_number ch else program_override |>.

(** ** The queue of pending channel requests (control.c) *)

(** Enqueues at the tail; a full queue is dropped first. *)
Definition pending_push (freq rf : Z) (t : hdhr_tuner) : hdhr_tuner :=
  let t := if (TUNER_PENDING_QUEUE_CAP <=? pending_count t)%nat
           then t <| pending_head := 0%nat |> <| pending_count := 0%nat |> else t in
  let tl := ((pending_head t + pending_count t) mod TUNER_PENDING_QUEUE_CAP)%nat in
  t <| pending_queue ::= fun q => <[tl := (freq, rf)]> q |> <| pending_count ::= S |>.

Definition pending_pop (t : hdhr_tuner) : option (Z * Z) * hdhr_tuner :=
  if (0 <? pending_count t)%nat then
    (pending_queue t !! pending_head t,
     t <| pending_head := ((pending_head t + 1) mod TUNER_PENDING_QUEUE_CAP)%nat |>
       <| pending_count ::= fun n => (n - 1)%nat |>)
  else (None, t).

(** *** The queue as a bounded FIFO *)

Definition pending_ok (t : hdhr_tuner) : Prop :=
  length (pending_queue t) = TUNER_PENDING_QUEUE_CAP /\ (pending_head t < TUNER_PENDING_QUEUE_CAP)%nat /\
  (pending_count t <= TUNER_PENDING_QUEUE_CAP)%nat.

(** The queued requests, oldest first. *)
Definition pending (t : hdhr_tuner) : list (Z * Z) :=
  omap (fun k => pending_queue t !! ((pending_head t + k) mod TUNER_PENDING_QUEUE_CAP)%nat)
    (seq 0 (pending_count t)).

Lemma omap_cons_eq {A B} (f : A -> option B) x l :
  omap f (x :: l) = match f x with Some y => y :: omap f l | None => omap f l end.
Proof. done. Qed.

Lemma omap_ext_seq {A} (f g : nat -> option A) a n :
  (forall k, (a <= k < a + n)%nat -> f k = g k) -> omap f (seq a n) = omap g (seq a n).
Proof.
  revert a. induction n as [|n IH]; intros a H; [done|]. cbn [seq]. rewrite !omap_cons_eq, (H a) by lia.
  rewrite (IH (S a)); [done|]. intros; apply H; lia.
Qed.

Lemma omap_seq_shift {A} (f g : nat -> option A) a n :
  (forall k, (k < n)%nat -> f (S a + k)%nat = g (a + k)%nat) -> omap f (seq (S a) n) = omap g (seq a n).
Proof.
  revert a. induction n as [|n IH]; intros a H; [done|]. cbn [seq]. rewrite !omap_cons_eq.
  pose proof (H 0%nat ltac:(lia)) as H0. rewrite !Nat.add_0_r in H0. rewrite H0.
  assert (omap f (seq (S (S a)) n) = omap g (seq (S a) n)) as ->; [|done].
  apply IH. intros k Hk. specialize (H (S k) ltac:(lia)). rewrite <- !Nat.add_succ_comm in H. exact H.
Qed.

Lemma pending_push_ok freq rf t : pending_ok t -> pending_ok (pending_push freq rf t).
Proof.
  intros (Hl & Hh & Hc). unfold pending_ok, pending_push, TUNER_PENDING_QUEUE_CAP in *.
  destruct (40 <=? pending_count t)%nat eqn:E; upd_simpl; rewrite length_insert; [lia|].
  apply Nat.leb_gt in E. lia.
Qed.

Lemma pending_pop_ok t x t' : pending_ok t -> pending_pop t = (x, t') -> pending_ok t'.
Proof.
  intros (Hl & Hh & Hc) H. unfold pending_pop in H. destruct (0 <? _)%nat; injection H as <- <-; [|done].
  unfold pending_ok. upd_simpl.
  unfold TUNER_PENDING_QUEUE_CAP in *. pose proof (Nat.mod_upper_bound (pending_head t + 1) 40). lia.
Qed.

Lemma pending_append t freq rf :
  pending_ok t -> (pending_count t < TUNER_PENDING_QUEUE_CAP)%nat ->
  pending (pending_push freq rf t) = pending t ++ [(freq, rf)].
Proof.
  intros (Hl & Hh & _) Hc. unfold pending_push.
  destruct (TUNER_PENDING_QUEUE_CAP <=? pending_count t)%nat eqn:E; [apply Nat.leb_le in E; lia|].
  set (k0 := ((pending_head t + pending_count t) mod TUNER_PENDING_QUEUE_CAP)%nat). unfold pending. upd_simpl.
  rewrite seq_S, omap_app. unfold TUNER_PENDING_QUEUE_CAP in *. f_equal.
  - apply omap_ext_seq. intros k Hk. apply list_lookup_insert_ne. unfold k0. intros Heq.
    rewrite !(mod_cases 40) in Heq by lia. revert Heq. nat_cases; lia.
  - rewrite omap_cons_eq, Nat.add_0_l. fold k0. rewrite list_lookup_insert_eq; [done|].
    rewrite Hl. unfold k0. apply Nat.mod_upper_bound. lia.
Qed.

Lemma pending_head_tail t :
  pending_ok t -> (0 < pending_count t)%nat ->
  exists x, pending_pop t = (Some x, (pending_pop t).2) /\ pending t = x :: pending (pending_pop t).2.
Proof.
  intros (Hl & Hh & Hc) Hp. unfold pending_pop.
  destruct (0 <? pending_count t)%nat eqn:E; [|apply Nat.ltb_ge in E; lia].
  destruct (lookup_lt_is_Some_2 (pending_queue t) (pending_head t)) as [x Hx]; [lia|].
  exists x. rewrite Hx. split; [done|]. unfold pending. cbn [snd]. upd_simpl.
  destruct (pending_count t) as [|n] eqn:En; [lia|].
  change (seq 0 (S n)) with (0%nat :: seq 1 n). rewrite omap_cons_eq.
  rewrite Nat.add_0_r, Nat.mod_small, Hx by done. f_equal. rewrite Nat.sub_succ, Nat.sub_0_r.
  apply omap_seq_shift. intros k Hk. f_equal.
  rewrite Nat.Div0.add_mod_idemp_l. f_equal. lia.
Qed.

(** Claim C24: the 40-slot ring of pending channel requests is a FIFO: a push
    appends the request, after dropping the backlog when all 40 slots are
    taken; a pop removes the oldest request and answers nothing exactly when
    none is queued; no operation reaches outside the ring. *)
Theorem pending_queue_fifo (t : hdhr_tuner) (freq rf : Z) :
  pending_ok t ->
  pending_ok (pending_push freq rf t) /\ pending_ok (pending_pop t).2 /\
  length (pending t) = pending_count t /\
  pending (pending_push freq rf t) =
    (if (length (pending t) <? TUNER_PENDING_QUEUE_CAP)%nat then pending t else []) ++ [(freq, rf)] /\
  (pending_pop t).1 = head (pending t) /\ pending (pending_pop t).2 = tl (pending t).
Proof.
  intros H. assert (Hlen : forall t', pending_ok t' -> length (pending t') = pending_count t').
  { intros t'. remember (pending_count t') as n eqn:En. revert t' En.
    induction n as [|n IH]; intros t' En H'; [unfold pending; by rewrite <- En|].
    destruct (pending_head_tail t' H') as (x & Hp & ->); [lia|]. simpl. f_equal.
    apply IH; [|by eapply pending_pop_ok].
    unfold pending_pop. rewrite <- En. cbn [Nat.ltb Nat.leb snd]. upd_simpl. lia. }
  split; [by apply pending_push_ok|]. split; [by eapply pending_pop_ok, surjective_pairing|].
  split; [by apply Hlen|]. split.
  - rewrite Hlen by done. destruct (pending_count t <? TUNER_PENDING_QUEUE_CAP)%nat eqn:E.
    + apply pending_append; [done|by apply Nat.ltb_lt].
    + set (t0 := t <| pending_head := 0%nat |> <| pending_count := 0%nat |>).
      assert (H0 : pending_ok t0).
      { destruct H as (Hl & _). unfold pending_ok, t0, TUNER_PENDING_QUEUE_CAP in *. upd_simpl. lia. }
      assert (pending_push freq rf t = pending_push freq rf t0) as ->.
      { unfold pending_push at 1. apply Nat.ltb_ge in E.
        destruct (TUNER_PENDING_QUEUE_CAP <=? pending_count t)%nat eqn:E'; [done|apply Nat.leb_gt in E'; lia]. }
      rewrite pending_append; [done|done|]. unfold t0, TUNER_PENDING_QUEUE_CAP. upd_simpl. lia.
  - destruct (decide (0 < pending_count t)%nat) as [Hp|Hp].
    + destruct (pending_head_tail t H Hp) as (x & -> & ->). done.
    + assert (pending_count t = 0)%nat as E by lia. unfold pending_pop, pending. rewrite E. cbn [Nat.ltb Nat.leb fst snd]. by rewrite E.
Qed.

Lemma tuner_init_pending i cfg : pending_ok (tuner_init i cfg).
Proof. unfold pending_ok, TUNER_PENDING_QUEUE_CAP. simpl. lia. Qed.

Lemma pending_queue_fifo_witness :
  let t := pending_push 57000000 2 (tuner_init 0 (config_defaults 0)) in
  pending (pending_push 63000000 3 t) = [(57000000, 2); (63000000, 3)].
Proof.
  intros t. assert (H : pending_ok t) by (apply pending_push_ok, tuner_init_pending).
  destruct (pending_queue_fifo t 63000000 3 H) as (_ & _ & _ & E & _). rewrite E. reflexivity.
Defined.
