(* ===== verification/Sys.v ===== *)
(** Threads, operations and interleavings.

    A thread of the daemon is a program of type [prog]: a tree of operations
    whose answers come from the shared state or from the environment (kernel,
    network, clock).  A section protected by a mutex is one operation [Sect] on
    the shared [world]; device and network calls, sleeping and waiting on a
    condition variable are [Env] queries with arbitrary answers; [pthread_join]
    waits for the joined thread to finish.  [step] interleaves the operations of
    all threads in any order.  Loops without a bound in the source take fuel,
    and [Spin] (never scheduled again) stands for running out of it: every
    finite execution is one of some fuel.  [Undefined] marks the points where the
    C has no defined behaviour and a thread of the model goes no further. *)
From S2P Require Import Prelude RecordUpd CLib ChannelDb Config Stats Ring Tuner.

(** ** The shared state *)

(** Device nodes: /dev/dvb/adapterA/frontendF, demuxD, dvrD. *)
Inductive devnode := DevFrontend (a f : Z) | DevDemux (a d : Z) | DevDvr (a d : Z).
#[export] Instance devnode_eq_dec : EqDecision devnode.
Proof. solve_decision. Defined.

(** The tuners, the channel table, the streams by pointer, the kernel's table
    of open device descriptors, the stored value of /sys/8vsb_override, the files
    and control.c's [g_start_time]. *)
Record world := {
  w_tuners : list hdhr_tuner;
  w_db : channel_db;
  w_streams : gmap nat dvb_stream;
  w_fds : gmap Z devnode;
  w_8vsb_override : string;
  w_files : gmap string string;
  w_start_time : Z
}.
#[export] Instance eta_world : Eta world := fun w =>
  {| w_tuners := w_tuners w; w_db := w_db w; w_streams := w_streams w; w_fds := w_fds w;
     w_8vsb_override := w_8vsb_override w; w_files := w_files w; w_start_time := w_start_time w |}.

(** ** Threads *)

(** [struct channel_scan_ctx] (control.c); the tuner is its index. *)
Record channel_scan_ctx := {
  sc_tuner : nat; sc_rf_channel : Z; sc_freq : Z; sc_delivery : Z;
  sc_stale_held_fd : Z; sc_generation : Z
}.

(** [struct push_ctx] (udp_stream.c). *)
Record push_ctx := {
  pc_tuner : nat; pc_channel : dvb_channel; pc_program_override : Z; pc_pid_filter : string;
  pc_dest_ip : string; pc_dest_port : Z; pc_generation : Z
}.

(** The start routines with their arguments. *)
Inductive thread :=
  | T_held_stats (i : nat)
  | T_park_expiry (i : nat) (generation : Z)
  | T_scan (ctx : channel_scan_ctx)
  | T_push (ctx : push_ctx)
  | T_reader (s : nat) (dvr : Z)
  | T_stats (s : nat) (ffd : Z)
  | T_conn (sock : Z)
  | T_control
  | T_http_conn (sock : Z)
  | T_http
  | T_keepalive (sock : Z)
  | T_startup_scan
  | T_discovery.

(** The threads that are joined: capture and statistics thread of a stream, with
    the descriptor they work on, the refresher of a tuner's hold, and the servers
    [main] waits for. *)
Inductive joinable := JReader (s : nat) (fd : Z) | JStats (s : nat) (fd : Z) | JHeld (i : nat) (fd : Z) | JServer.
#[export] Instance joinable_eq_dec : EqDecision joinable.
Proof. solve_decision. Defined.

Record spawn := { sp_thread : thread; sp_join : option joinable }.

(** What a section may ask its surroundings: the monotonic clock, the id of the
    thread it would create and whether that succeeds, whether a file opens. *)
Record sect_env := { e_now : timespec; e_tid : nat; e_create_ok : bool; e_open_ok : bool }.

(** ** Queries to the environment *)

(** The result of a [read]: an errno, or the bytes (none: end of file). *)
Inductive read_result := ReadError (errno : Z) | ReadData (data : list Z).
Definition EINTR : Z := 4.
Definition EAGAIN : Z := 11.
Definition EOVERFLOW : Z := 75.

(** Requests on a device descriptor. *)
Inductive fdreq :=
  | FE_SET_PROPERTY (props : list (Z * Z))
  | FE_GET_TUNED
  | FE_READ_STATUS
  | FE_GET_STATS
  | FE_GET_STAT (cmd : Z)
  | FE_READ_UNCORRECTED_BLOCKS
  | DMX_SET_PES_FILTER (pid : Z)
  | DMX_START
  | DMX_SET_FILTER (pid table_id timeout_ms : Z)
  | DMX_STOP
  | FdPoll (ms : Z)
  | FdRead (n : Z).

Definition fd_answer (r : fdreq) : Type :=
  match r with
  | FE_SET_PROPERTY _ | DMX_SET_PES_FILTER _ | DMX_START | DMX_SET_FILTER _ _ _ | DMX_STOP => bool
  | FE_GET_TUNED => option (Z * Z)
  | FE_READ_STATUS | FE_READ_UNCORRECTED_BLOCKS => option Z
  | FE_GET_STATS => option (dtv_stat * dtv_stat * dtv_stat * dtv_stat)
  | FE_GET_STAT _ => option dtv_stat
  | FdPoll _ => Z
  | FdRead _ => read_result
  end.

(** The condition variables; [NotFull s since]: the wait of a thread that went to
    sleep when [not_full] had been signalled [since] times. *)
Inductive cond := Free (i : nat) | Pending (i : nat) | Result (i : nat) | NotEmpty (s : nat) | NotFull (s since : nat).

Inductive sock_type := SOCK_STREAM | SOCK_DGRAM.

(** IPv4 addresses are [s_addr] values (the first byte of the dotted text is the
    lowest). [QBind] binds the port on every address, [QSockName] is
    [getsockname], [QReply] is [sendto] the sender of a datagram. *)
Inductive query :=
  | QOpen (d : devnode)
  | QClose (fd : Z)
  | QIoctl (fd : Z) (r : fdreq)
  | QPollMany (fds : list Z) (ms : Z)
  | QSleep (us : Z)
  | QNow
  | QTime
  | QPid
  | QCondWait (c : cond) (ms : option Z)
  | QSocket (kind : sock_type)
  | QBind (sock port : Z)
  | QListen (sock backlog : Z)
  | QConnect (sock addr port : Z)
  | QAccept (sock : Z)
  | QRecv (sock n : Z)
  | QSend (sock : Z) (data : list Z)
  | QSendTo (sock : Z) (ip : string) (port : Z) (data : list Z)
  | QRecvFrom (sock n : Z)
  | QReply (sock : Z) (data : list Z) (addr port : Z)
  | QCloseSock (sock : Z)
  | QPeerAddr (sock : Z)
  | QSockName (sock : Z)
  | QInetPton (ip : string)
  | QReadFile (path : string)
  | QStdout (text : string)
  | QStderr (text : string)
  | QExit.

Definition answer (q : query) : Type :=
  match q with
  | QOpen _ | QTime | QPid | QAccept _ | QSend _ _ | QSendTo _ _ _ _ | QReply _ _ _ _ => Z
  | QSocket _ | QBind _ _ | QListen _ _ | QConnect _ _ _ | QPeerAddr _ => Z
  | QClose _ | QSleep _ | QCloseSock _ | QStdout _ | QStderr _ | QExit => unit
  | QIoctl _ r => fd_answer r
  | QPollMany _ _ => option (list bool)
  | QNow => timespec
  | QCondWait _ _ => bool
  | QRecv _ _ => read_result
  | QRecvFrom _ _ => option (list Z * Z * Z)
  | QSockName _ | QInetPton _ => option Z
  | QReadFile _ => option string
  end.

(** The only queries that change the world: opening takes an unused descriptor,
    and a frontend node admits one opener at a time. *)
Definition env_step (q : query) : answer q -> world -> world -> Prop :=
  match q with
  | QOpen d => fun fd w w' =>
      (fd < 0 /\ w' = w) \/
      (0 <= fd /\ w_fds w !! fd = None /\
       (forall a f fd', d = DevFrontend a f -> w_fds w !! fd' = Some d -> False) /\
       w' = w <| w_fds ::= insert fd d |>)
  | QClose fd => fun _ w w' => w' = w <| w_fds ::= delete fd |>
  | _ => fun _ w w' => w' = w
  end.

(** ** Undefined behaviour *)

(** What a JSON object of the web interface is made of, as far as its length is
    concerned: the texts written between quotes, the readings as printed, the
    number of array entries. *)
Record json_object := { jo_words : list string; jo_readings : list string; jo_entries : nat }.

(** Where the source has no defined behaviour and the model stops the thread:
    web_ui.c builds JSON with [snprintf] at an offset that has left the buffer of
    [cap] bytes (the objects begun so far), main.c joins a server or detaches the
    startup scan although the thread could not be created. *)
Inductive undefined :=
  | JsonOverrun (cap : nat) (objects : list json_object)
  | ThreadNotCreated.

(** Why a thread stops for good: out of fuel, or at undefined behaviour. *)
Inductive halt := OutOfFuel | Undefined (u : undefined).

(** ** Programs *)

Inductive op : Type -> Type :=
  | Sect {X : Type} (f : sect_env -> world -> option (X * world * option spawn)) : op X
  | Env (q : query) : op (answer q)
  | Join (tid : nat) : op unit.

Inductive prog (X : Type) : Type :=
  | Ret (x : X)
  | Do {B : Type} (o : op B) (k : B -> prog X)
  | Stop (why : halt).
Arguments Ret {X} _.
Arguments Do {X B} _ _.
Arguments Stop {X} _.
Abbreviation Spin := (Stop OutOfFuel).

Fixpoint bind {X Y} (p : prog X) (f : X -> prog Y) : prog Y :=
  match p with
  | Ret x => f x
  | Do o k => Do o (fun b => bind (k b) f)
  | Stop why => Stop why
  end.

Declare Scope prog_scope.
Delimit Scope prog_scope with prog.
Notation "x <- p ;; q" := (bind p (fun x => q)) (at level 100, p at next level, right associativity) : prog_scope.
Notation "p ;; q" := (bind p (fun _ => q)) (at level 100, right associativity) : prog_scope.
Open Scope prog_scope.

(** [when b p]: an if without else. *)
Definition when (b : bool) (p : prog unit) : prog unit := if b then p else Ret tt.

Definition sect {X} (f : sect_env -> world -> option (X * world * option spawn)) : prog X := Do (Sect f) Ret.
Definition env (q : query) : prog (answer q) := Do (Env q) Ret.
(** An access out of bounds. *)
Definition fault {X} : prog X := sect (fun _ _ => None).
Definition join_thread (tid : nat) : prog unit := Do (Join tid) Ret.

(** A section on one tuner; reaching a tuner that does not exist is a fault. *)
Definition tuner_sect {X} (i : nat) (f : sect_env -> hdhr_tuner -> X * hdhr_tuner) : prog X :=
  sect (fun e w =>
    match w_tuners w !! i with
    | Some t => let '(x, t') := f e t in Some (x, w <| w_tuners ::= <[i := t']> |>, None)
    | None => None
    end).
Definition tun {X} (i : nat) (f : hdhr_tuner -> X * hdhr_tuner) : prog X := tuner_sect i (fun _ => f).
Definition tun_get {X} (i : nat) (f : hdhr_tuner -> X) : prog X := tun i (fun t => (f t, t)).
Definition tun_set (i : nat) (f : hdhr_tuner -> hdhr_tuner) : prog unit := tun i (fun t => (tt, f t)).

(** A section on one tuner that also reads the channel table. *)
Definition tun_db (i : nat) (f : channel_db -> hdhr_tuner -> hdhr_tuner) : prog unit :=
  sect (fun _ w =>
    match w_tuners w !! i with
    | Some t => Some (tt, w <| w_tuners ::= <[i := f (w_db w) t]> |>, None)
    | None => None
    end).

(** A section on one stream; reaching a freed stream is a fault. *)
Definition stream_sect {X} (s : nat) (f : sect_env -> dvb_stream -> X * dvb_stream) : prog X :=
  sect (fun e w =>
    match w_streams w !! s with
    | Some st => let '(x, st') := f e st in Some (x, w <| w_streams ::= <[s := st']> |>, None)
    | None => None
    end).

(** A section on the channel table. *)
Definition db_sect {X} (f : channel_db -> X * channel_db) : prog X :=
  sect (fun _ w => let '(x, db) := f (w_db w) in Some (x, w <| w_db := db |>, None)).
Definition db_get {X} (f : channel_db -> X) : prog X := db_sect (fun db => (f db, db)).

(** [pthread_create] and [pthread_detach]; false when it fails. *)
Definition spawn_detached (th : thread) : prog bool :=
  sect (fun e w => Some (e_create_ok e, w, if e_create_ok e then Some {| sp_thread := th; sp_join := None |} else None)).

(** [pthread_create] of a thread that will be joined: its id. *)
Definition spawn_server (th : thread) : prog (option nat) :=
  sect (fun e w =>
    if e_create_ok e then Some (Some (e_tid e), w, Some {| sp_thread := th; sp_join := Some JServer |})
    else Some (None, w, None)).

(** ** Interleaving *)

Record config := { c_world : world; c_pool : list (prog unit); c_join : gmap nat joinable }.

Section Step.
Context (body : thread -> prog unit).

Definition spawned (sp : option spawn) : list (prog unit) :=
  match sp with Some s => [body (sp_thread s)] | None => [] end.

(** The table of joinable threads after a spawn. *)
Definition join_table (tid : nat) (sp : option spawn) (jn : gmap nat joinable) : gmap nat joinable :=
  match sp with
  | Some {| sp_join := Some j |} => <[tid := j]> jn
  | _ => jn
  end.

(** One operation of one thread. *)
Inductive step : config -> config -> Prop :=
  | step_sect w pool jn j X f (k : X -> prog unit) e x w' sp :
      pool !! j = Some (Do (Sect f) k) -> e_tid e = length pool -> f e w = Some (x, w', sp) ->
      step {| c_world := w; c_pool := pool; c_join := jn |}
           {| c_world := w'; c_pool := <[j := k x]> pool ++ spawned sp; c_join := join_table (length pool) sp jn |}
  | step_env w pool jn j q k a w' :
      pool !! j = Some (Do (Env q) k) -> env_step q a w w' ->
      step {| c_world := w; c_pool := pool; c_join := jn |}
           {| c_world := w'; c_pool := <[j := k a]> pool; c_join := jn |}
  | step_join w pool jn j tid k :
      pool !! j = Some (Do (Join tid) k) -> pool !! tid = Some (Ret tt) -> is_Some (jn !! tid) ->
      step {| c_world := w; c_pool := pool; c_join := jn |}
           {| c_world := w; c_pool := <[j := k tt]> pool; c_join := delete tid jn |}.

Inductive reachable (c0 : config) : config -> Prop :=
  | reach_init : reachable c0 c0
  | reach_step c c' : reachable c0 c -> step c c' -> reachable c0 c'.

(** A fault: the next operation of a thread reaches a freed stream or a missing
    tuner, accesses a buffer out of its bounds ([fault]), closes or uses a device
    descriptor that is not open, waits on a condition variable of a freed stream,
    or joins a thread that is not joinable. *)
Definition faulty (c : config) : Prop :=
  exists j p, c_pool c !! j = Some p /\
  match p with
  | Do (Sect f) _ => exists e, e_tid e = length (c_pool c) /\ f e (c_world c) = None
  | Do (Env (QClose fd)) _ => w_fds (c_world c) !! fd = None
  | Do (Env (QIoctl fd _)) _ => w_fds (c_world c) !! fd = None
  | Do (Env (QPollMany fds _)) _ => exists fd, fd ∈ fds /\ w_fds (c_world c) !! fd = None
  | Do (Env (QCondWait (NotEmpty s | NotFull s _) _)) _ => w_streams (c_world c) !! s = None
  | Do (Join tid) _ => c_join c !! tid = None
  | _ => False
  end.
End Step.
