(* ===== verification/Life.v ===== *)
(** The life cycles of the shared objects.

    Abstract specifications of what the sections of the daemon may do to the shared
    state, one step at a time: a tuner is free, parked, held, claimed or streaming
    and moves along [life_step]; a stream is opened, open, closing and freed in this
    order; a slot of the channel table keeps its channel number; whoever ends a wait
    condition of a stream signals its condition variable ([wakes_kept]).
    [guarantee] is the four together.  [Own] demands it of every section, [Contract] draws the
    conclusions for the daemon. *)
From S2P Require Import Prelude RecordUpd CLib ChannelDb Config Stats Ring Tuner Sys.

(** ** Tuners *)

(** A free tuner may keep a frontend open: parked for a client that asks again
    soon, or held on the channel selected last.  A hold can also be installed while
    the tuner is claimed, by a scan that ends or by a race with the claim. *)
Inductive life :=
  | Idle
  | Parked (fd : Z)
  | Held (fd : Z)
  | Claimed
  | ClaimedHeld (fd : Z)
  | Streaming (s : nat).

#[export] Instance life_eq_dec : EqDecision life.
Proof. solve_decision. Defined.

(** The descriptor in a slot. *)
Definition slot (fd : Z) : option Z := if 0 <=? fd then Some fd else None.

(** None: the fields contradict each other. *)
Definition life_of (t : hdhr_tuner) : option life :=
  match busy t, active_stream t, slot (held_fd t), slot (parked_fd t) with
  | false, None, None, None => Some Idle
  | false, None, None, Some fd => Some (Parked fd)
  | false, None, Some fd, None => Some (Held fd)
  | true, None, None, None => Some Claimed
  | true, None, Some fd, None => Some (ClaimedHeld fd)
  | true, Some s, None, None => Some (Streaming s)
  | _, _, _, _ => None
  end.

Inductive life_step : life -> life -> Prop :=
  | L_claim : life_step Idle Claimed
  | L_claim_parked fd : life_step (Parked fd) Claimed
  | L_claim_held fd : life_step (Held fd) Claimed
  | L_attach s : life_step Claimed (Streaming s)
  | L_detach s : life_step (Streaming s) Claimed
  | L_release : life_step Claimed Idle
  | L_release_held fd : life_step (ClaimedHeld fd) (Held fd)
  | L_park fd : life_step Claimed (Parked fd)
  | L_expire fd : life_step (Parked fd) Idle
  | L_hold fd : life_step Idle (Held fd)
  | L_hold_claimed fd : life_step Claimed (ClaimedHeld fd)
  | L_drop fd : life_step (Held fd) Idle
  | L_drop_claimed fd : life_step (ClaimedHeld fd) Claimed.
#[export] Hint Constructors life_step : hdhr.

(** The fields agree before and after, and the tuner stays in its state or takes
    one step. *)
Definition life_moves (o o' : option life) : Prop :=
  forall l, o = Some l -> exists l', o' = Some l' /\ (l' = l \/ life_step l l').
Definition tuner_moves (t t' : hdhr_tuner) : Prop := life_moves (life_of t) (life_of t').

Lemma slot_some fd : 0 <= fd -> slot fd = Some fd.
Proof. intros H. unfold slot. by rewrite (proj2 (Z.leb_le _ _) H). Qed.
Lemma slot_none fd : fd < 0 -> slot fd = None.
Proof. intros H. unfold slot. by rewrite (proj2 (Z.leb_gt _ _) H). Qed.

(** One lemma for each kind of section. *)
Section Moves.
Context (t t' : hdhr_tuner).

Ltac moves :=
  intros; unfold tuner_moves, life_moves, life_of; intros l;
  repeat match goal with H : _ = _ |- _ => rewrite H end;
  repeat match goal with H : slot _ = _ \/ slot _ = None |- _ => destruct H as [H|H]; rewrite ?H end;
  repeat match goal with H : _ < 0 |- _ => rewrite (slot_none _ H); clear H end;
  repeat match goal with H : 0 <= _ |- _ => rewrite (slot_some _ H); clear H end;
  repeat (match goal with |- context [match ?x with _ => _ end] => destruct x end);
  intros [= <-]; eauto 6 with hdhr.

Lemma moves_same : busy t' = busy t -> active_stream t' = active_stream t -> held_fd t' = held_fd t ->
  parked_fd t' = parked_fd t -> tuner_moves t t'.
Proof. intros E1 E2 E3 E4. unfold tuner_moves, life_of. rewrite E1, E2, E3, E4. intros l. eauto. Qed.

Lemma moves_claim : busy t = false -> busy t' = true -> active_stream t' = active_stream t -> held_fd t' < 0 ->
  parked_fd t' < 0 -> tuner_moves t t'.
Proof. moves. Qed.

Lemma moves_attach s : busy t' = busy t -> active_stream t = None -> active_stream t' = s -> busy t = true ->
  held_fd t' = held_fd t -> parked_fd t' = parked_fd t -> (s <> None -> held_fd t < 0 /\ parked_fd t < 0) -> tuner_moves t t'.
Proof.
  intros E1 E2 E3 E4 E5 E6 Hs. destruct s as [s|]; [|apply moves_same; congruence]. destruct (Hs ltac:(done)) as [H1 H2]. clear Hs. moves.
Qed.

Lemma moves_detach : busy t' = busy t -> active_stream t' = None -> held_fd t' = held_fd t -> parked_fd t' = parked_fd t ->
  busy t = true -> tuner_moves t t'.
Proof. moves. Qed.

Lemma moves_release : busy t = true -> busy t' = false -> active_stream t = None -> active_stream t' = None ->
  held_fd t' = held_fd t -> parked_fd t' = parked_fd t -> tuner_moves t t'.
Proof. moves. Qed.

Lemma moves_park : busy t = true -> busy t' = false -> active_stream t = None -> active_stream t' = None ->
  held_fd t < 0 -> held_fd t' = held_fd t -> 0 <= parked_fd t' -> tuner_moves t t'.
Proof. moves. Qed.

Lemma moves_hold : busy t' = busy t -> active_stream t = None -> active_stream t' = None -> held_fd t < 0 -> parked_fd t < 0 ->
  0 <= held_fd t' -> parked_fd t' = parked_fd t -> tuner_moves t t'.
Proof. moves. Qed.

Lemma moves_drop : busy t' = busy t -> active_stream t' = active_stream t ->
  slot (held_fd t') = slot (held_fd t) \/ slot (held_fd t') = None ->
  slot (parked_fd t') = slot (parked_fd t) \/ slot (parked_fd t') = None -> tuner_moves t t'.
Proof. moves. Qed.
End Moves.

Lemma moves_refl t : tuner_moves t t.
Proof. by apply moves_same. Qed.
Lemma moves_drop_held t : tuner_moves t (t <| held_fd := -1 |>).
Proof. apply moves_drop; [done..|by right|by left]. Qed.
Lemma moves_drop_parked t : tuner_moves t (t <| parked_fd := -1 |>).
Proof. apply moves_drop; [done..|by left|by right]. Qed.
Lemma moves_drop_both t : tuner_moves t (t <| held_fd := -1 |> <| parked_fd := -1 |>).
Proof. apply moves_drop; [done..|by right|by right]. Qed.

(** ** Streams *)

Inductive phase := Opening | Open | Closing.
#[export] Instance phase_eq_dec : EqDecision phase.
Proof. solve_decision. Defined.

Definition stream_phase (st : dvb_stream) : phase :=
  if closing st then Closing else if opened st then Open else Opening.

(** None: not allocated. *)
Inductive phase_step : option phase -> option phase -> Prop :=
  | P_alloc : phase_step None (Some Opening)
  | P_open : phase_step (Some Opening) (Some Open)
  | P_close : phase_step (Some Open) (Some Closing)
  | P_free : phase_step (Some Closing) None.

Definition stream_moves (c c' : option phase) : Prop := c' = c \/ phase_step c c'.

(** No wake-up is lost: the counts of signals never decrease, and a step after
    which the capture thread or the consumer need no longer wait, although it had
    to before, has signalled its condition variable; closing a stream signals
    [not_full] whether or not the ring is full. *)
Definition wakes_kept (st st' : dvb_stream) : Prop :=
  (not_full_wakes st <= not_full_wakes st')%nat /\ (not_empty_wakes st <= not_empty_wakes st')%nat /\
  (reader_waits st = true -> reader_waits st' = true \/ (not_full_wakes st < not_full_wakes st')%nat) /\
  (consumer_waits st = true -> consumer_waits st' = true \/ (not_empty_wakes st < not_empty_wakes st')%nat) /\
  (closing st' = true -> closing st = true \/ (not_full_wakes st < not_full_wakes st')%nat).

Lemma wakes_same st st' : not_full_wakes st' = not_full_wakes st -> not_empty_wakes st' = not_empty_wakes st ->
  rng st' = rng st -> closing st' = closing st -> eof st' = eof st -> wakes_kept st st'.
Proof.
  intros E1 E2 E3 E4 E5. unfold wakes_kept, reader_waits, consumer_waits. rewrite E1, E2, E3, E4, E5. auto 10.
Qed.

(** A section that signals one of them. *)
Lemma wakes_signal_empty st st' : not_full_wakes st' = not_full_wakes st -> not_empty_wakes st' = S (not_empty_wakes st) ->
  closing st' = closing st -> (reader_waits st = true -> reader_waits st' = true) -> wakes_kept st st'.
Proof.
  intros E1 E2 E3 Hr. unfold wakes_kept. rewrite E1, E2, E3. split; [lia|]. split; [lia|]. split; [auto|].
  split; [right; lia|auto].
Qed.
Lemma wakes_signal_full st st' : not_full_wakes st' = S (not_full_wakes st) -> not_empty_wakes st' = not_empty_wakes st ->
  (consumer_waits st = true -> consumer_waits st' = true) -> wakes_kept st st'.
Proof. intros E1 E2 Hr. unfold wakes_kept. rewrite E1, E2. split; [lia|]. split; [lia|]. split; [right; lia|]. split; [auto|right; lia]. Qed.

Lemma wakes_refl st : wakes_kept st st.
Proof. by apply wakes_same. Qed.

(** ** The channel table *)

(** No slot is emptied or given to another channel. *)
Definition table_grows (db db' : channel_db) : Prop :=
  forall i ch, db !! i = Some ch -> exists ch', db' !! i = Some ch' /\ key ch' = key ch.

#[export] Instance table_grows_preorder : PreOrder table_grows.
Proof.
  split.
  - intros db i ch H. eauto.
  - intros db1 db2 db3 H1 H2 i ch H. apply H1 in H as (ch2 & H & E2). apply H2 in H as (ch3 & H & E3).
    exists ch3. split; [done|congruence].
Qed.

Lemma add_grows db ch : table_grows db (dvb_channel_db_add db ch).2.
Proof.
  intros i x Hx. destruct (dvb_channel_db_add db ch) as [ok db'] eqn:E.
  destruct (add_keeps db ch ok db' E i x Hx) as [H|[H Hk]]; eauto.
Qed.

(** ** The shared state *)

Record guarantee (w w' : world) : Prop := {
  g_tuner : forall i t t', w_tuners w !! i = Some t -> w_tuners w' !! i = Some t' -> tuner_moves t t';
  g_stream : forall s, stream_moves (stream_phase <$> w_streams w !! s) (stream_phase <$> w_streams w' !! s);
  g_wakes : forall s st st', w_streams w !! s = Some st -> w_streams w' !! s = Some st' -> wakes_kept st st';
  g_table : table_grows (w_db w) (w_db w')
}.

Lemma guarantee_same w w' : w_tuners w' = w_tuners w -> w_streams w' = w_streams w -> w_db w' = w_db w -> guarantee w w'.
Proof.
  intros E1 E2 E3. split.
  - rewrite E1. intros i t t' H H'. assert (t' = t) as -> by congruence. by apply moves_same.
  - rewrite E2. by left.
  - rewrite E2. intros s st st' H H'. assert (st' = st) as -> by congruence. apply wakes_refl.
  - by rewrite E3.
Qed.

Lemma guarantee_refl w : guarantee w w.
Proof. by apply guarantee_same. Qed.

(** One tuner, one stream. *)
Lemma guarantee_tuner w i t t' : w_tuners w !! i = Some t -> tuner_moves t t' ->
  guarantee w (w <| w_tuners ::= <[i := t']> |>).
Proof.
  intros Ht Hm. split; upd_simpl; [|by left|intros s st st' H H'; assert (st' = st) as -> by congruence; apply wakes_refl|done].
  intros j u u' Hu Hu'. apply list_lookup_insert_Some in Hu' as [(<- & <- & _)|[_ Hu']].
  - by assert (u = t) as -> by congruence.
  - assert (u' = u) as -> by congruence. by apply moves_same.
Qed.

Lemma guarantee_stream w s st' : stream_moves (stream_phase <$> w_streams w !! s) (Some (stream_phase st')) ->
  (forall st, w_streams w !! s = Some st -> wakes_kept st st') ->
  guarantee w (w <| w_streams ::= <[s := st']> |>).
Proof.
  intros Hm Hk. split; upd_simpl; [intros i t t' H H'; assert (t' = t) as -> by congruence; by apply moves_same| | |done].
  - intros s0. destruct (decide (s0 = s)) as [->|Hne]; [by rewrite lookup_insert_eq|left; by rewrite lookup_insert_ne].
  - intros s0 st st0 H H'. apply lookup_insert_Some in H' as [[<- <-]|[_ H']]; [by apply Hk|].
    assert (st0 = st) as -> by congruence. apply wakes_refl.
Qed.

Lemma guarantee_free w s st : w_streams w !! s = Some st -> stream_phase st = Closing ->
  guarantee w (w <| w_streams ::= delete s |>).
Proof.
  intros Hs Hp. split; upd_simpl; [intros i t t' H H'; assert (t' = t) as -> by congruence; by apply moves_same| | |done].
  - intros s0. destruct (decide (s0 = s)) as [->|Hne]; [|left; by rewrite lookup_delete_ne].
    right. rewrite lookup_delete_eq, Hs. simpl. rewrite Hp. constructor.
  - intros s0 st1 st2 H H'. apply lookup_delete_Some in H' as [_ H']. assert (st2 = st1) as -> by congruence. apply wakes_refl.
Qed.
