(* ===== verification/Own.v ===== *)
(** Ownership of descriptors, claims and streams.

    A logic for the programs of [Sys] in the style of a separation logic: each
    thread owns a multiset of tokens, and the tokens of all threads together
    with those of the shared structures are exactly the resources that exist
    (the open descriptors, one claim per tuner, the live streams).  [wp p R Q]
    says that program [p], started with the tokens [R], never faults and ends
    with tokens that satisfy [Q], and that each of its sections keeps the
    [guarantee] of [Life].  [step_inv], [cinv_safe]: a daemon whose threads are all
    verified never faults, in any interleaving, and leaks nothing. *)
From stdpp Require Import gmultiset countable.
From S2P Require Import Prelude RecordUpd CLib ChannelDb Config Stats Ring Tuner Sys Life.

(** ** Tokens *)

(** [TFd]: an open descriptor on a node.  [TClaim i o]: the claim of tuner [i],
    whose active stream is [o].  [TStr s c d]: a stream on frontend [d] in
    phase [c].
    [TReader], [TStats]: what the two threads of a stream work with.
    [TJoin]: the right to join a thread.  [TRefr i fd]: what the refresher of tuner
    [i]'s hold works with.
    [TLive i fd tid b]: the descriptor [fd] of a hold of tuner [i] while its
    refresher [tid] has not been joined, asked to stop or not ([b]).  It stands in
    place of [TFd]: such a descriptor may not be closed. *)
#[export] Instance phase_countable : Countable phase.
Proof.
  apply (inj_countable' (fun p => match p with Opening => 0%nat | Open => 1%nat | Closing => 2%nat end)
    (fun n => match n with O => Opening | 1%nat => Open | _ => Closing end)).
  by intros [].
Defined.

Inductive tok :=
  | TFd (fd : Z) (d : devnode)
  | TClaim (i : nat) (o : option nat)
  | TStr (s : nat) (c : phase) (d : devnode)
  | TReader (s : nat) (fd : Z)
  | TStats (s : nat) (fd : Z)
  | TJoin (tid : nat) (j : joinable)
  | TLive (i : nat) (fd : Z) (tid : nat) (stop : bool)
  | TRefr (i : nat) (fd : Z).

#[export] Instance devnode_countable : Countable devnode.
Proof.
  apply (inj_countable' (fun d => match d with
      | DevFrontend a f => (0%nat, a, f) | DevDemux a f => (1%nat, a, f) | DevDvr a f => (2%nat, a, f) end)
    (fun '(n, a, f) => match n with O => DevFrontend a f | 1%nat => DevDemux a f | _ => DevDvr a f end)).
  by intros [].
Defined.

#[export] Instance joinable_countable : Countable joinable.
Proof.
  apply (inj_countable' (fun j => match j with
      | JReader s fd => (0%nat, s, fd) | JStats s fd => (1%nat, s, fd) | JHeld i fd => (2%nat, i, fd) | JServer => (3%nat, 0%nat, 0) end)
    (fun '(n, s, fd) => match n with O => JReader s fd | 1%nat => JStats s fd | 2%nat => JHeld s fd | _ => JServer end)).
  by intros [].
Defined.

#[export] Instance tok_eq_dec : EqDecision tok.
Proof. solve_decision. Defined.

#[export] Instance tok_countable : Countable tok.
Proof.
  apply (inj_countable' (fun t => match t with
      | TFd fd d => inl (inl (fd, d)) | TClaim i o => inl (inr (inl (i, o)))
      | TStr s c d => inl (inr (inr (s, c, d))) | TReader s fd => inr (inl (true, s, fd))
      | TStats s fd => inr (inl (false, s, fd)) | TJoin tid j => inr (inr (inl (tid, j)))
      | TLive i fd tid b => inr (inr (inr (inl (i, fd, tid, b)))) | TRefr i fd => inr (inr (inr (inr (i, fd)))) end)
    (fun x => match x with
      | inl (inl (fd, d)) => TFd fd d | inl (inr (inl (i, o))) => TClaim i o
      | inl (inr (inr (s, c, d))) => TStr s c d | inr (inl (true, s, fd)) => TReader s fd
      | inr (inl (false, s, fd)) => TStats s fd | inr (inr (inl (tid, j))) => TJoin tid j
      | inr (inr (inr (inl (i, fd, tid, b)))) => TLive i fd tid b
      | inr (inr (inr (inr (i, fd)))) => TRefr i fd end)).
  by intros [].
Defined.

Abbreviation toks := (gmultiset tok).

(** ** Sums of token multisets *)

Lemma mult_pos (x : tok) (X : toks) : x ∈ X -> (0 < multiplicity x X)%nat.
Proof. apply elem_of_multiplicity. Qed.

Definition msum (l : list toks) : toks := foldr disj_union ∅ l.

Lemma msum_app l1 l2 : msum (l1 ++ l2) = msum l1 ⊎ msum l2.
Proof. induction l1 as [|x l1 IH]; simpl; [multiset_solver|]. rewrite IH. multiset_solver. Qed.

Lemma msum_perm l1 l2 : l1 ≡ₚ l2 -> msum l1 = msum l2.
Proof. induction 1; simpl; [done|congruence|multiset_solver|congruence]. Qed.

Lemma msum_insert l (i : nat) x y : l !! i = Some x -> msum (<[i := y]> l) ⊎ x = msum l ⊎ y.
Proof.
  revert i. induction l as [|z l IH]; intros i H; [done|]. destruct i as [|i]; simpl in H |- *.
  - injection H as ->. multiset_solver.
  - specialize (IH i H). multiset_solver.
Qed.

Lemma msum_in l (i : nat) x : l !! i = Some x -> x ⊆ msum l.
Proof.
  revert i. induction l as [|z l IH]; intros i H; [done|]. destruct i as [|i]; simpl in H |- *.
  - injection H as ->. multiset_solver.
  - specialize (IH i H). multiset_solver.
Qed.

Definition map_sum {A} (f : nat -> A -> toks) (m : gmap nat A) : toks :=
  msum ((fun p => f p.1 p.2) <$> map_to_list m).

Lemma map_sum_insert {A} f (m : gmap nat A) k a :
  m !! k = None -> map_sum f (<[k := a]> m) = f k a ⊎ map_sum f m.
Proof.
  intros H. unfold map_sum. by rewrite (msum_perm _ _ (fmap_Permutation _ _ _ (map_to_list_insert m k a H))).
Qed.

Lemma map_sum_delete {A} f (m : gmap nat A) k a :
  m !! k = Some a -> map_sum f m = f k a ⊎ map_sum f (delete k m).
Proof.
  intros H. rewrite <- (map_sum_insert f (delete k m)) by apply lookup_delete_eq.
  by rewrite insert_delete_id.
Qed.

Lemma map_sum_update {A} f (m : gmap nat A) k a b :
  m !! k = Some a -> map_sum f (<[k := b]> m) ⊎ f k a = map_sum f m ⊎ f k b.
Proof.
  intros H. rewrite <- insert_delete_eq, map_sum_insert by apply lookup_delete_eq.
  rewrite (map_sum_delete f m k a H). multiset_solver.
Qed.

Lemma map_sum_in {A} f (m : gmap nat A) k a : m !! k = Some a -> f k a ⊆ map_sum f m.
Proof. intros H. rewrite (map_sum_delete f m k a H). multiset_solver. Qed.

(** ** The resources of a world *)

(** The nodes a stream's descriptors are open on. *)
Definition stream_frontend (st : dvb_stream) : devnode := let '(a, f, _) := opened_on st in DevFrontend a f.
Definition stream_demux (st : dvb_stream) : devnode := let '(a, _, d) := opened_on st in DevDemux a d.
Definition stream_dvr (st : dvb_stream) : devnode := let '(a, _, d) := opened_on st in DevDvr a d.

(** The refresher of a tuner's hold: the descriptor it works on, its id, whether
    it is asked to stop. *)
Definition refresher_of (t : hdhr_tuner) : option (Z * nat * bool) :=
  if held_stats_thread_started t then Some (held_live_fd t, held_stats_thread t, held_stats_stop_requested t) else None.
(** The descriptors refreshers work on. *)
Definition live_fds (ts : list hdhr_tuner) : list Z := omap (fun t => (fun r => r.1.1) <$> refresher_of t) ts.

(** The tokens that exist. *)
Definition exists_tok (w : world) (jn : gmap nat joinable) (x : tok) : bool :=
  match x with
  | TFd fd d => bool_decide (w_fds w !! fd = Some d /\ fd ∉ live_fds (w_tuners w))
  | TClaim i o => bool_decide (active_stream <$> w_tuners w !! i = Some o)
  | TStr s c d => bool_decide ((fun st => (stream_phase st, stream_frontend st)) <$> w_streams w !! s = Some (c, d))
  | TReader s fd => bool_decide (dvr_fd <$> w_streams w !! s = Some fd)
  | TStats s fd => bool_decide (frontend_fd <$> w_streams w !! s = Some fd)
  | TJoin tid j => bool_decide (jn !! tid = Some j)
  | TLive i fd tid b => bool_decide (refresher_of <$> w_tuners w !! i = Some (Some (fd, tid, b)))
  | TRefr i fd => bool_decide ((fun r => r.1.1) <$> (w_tuners w !! i ≫= refresher_of) = Some fd)
  end.
Definition kmult (w : world) (jn : gmap nat joinable) (x : tok) : nat := if exists_tok w jn x then 1 else 0.

(** The tokens of a descriptor slot (negative: none). *)
Definition fd_toks (fd : Z) (d : devnode) : toks := if 0 <=? fd then {[+ TFd fd d +]} else ∅.

Definition tuner_dev (t : hdhr_tuner) : devnode := DevFrontend (adapter t) (frontend t).

(** The tokens of a held descriptor [fd] on [d]: with a refresher ([r]: its id and
    whether it is asked to stop) also the right to join it. *)
Definition hold_toks (i : nat) (d : devnode) (r : option (nat * bool)) (fd : Z) : toks :=
  if 0 <=? fd then
    match r with
    | Some (tid, b) => {[+ TLive i fd tid b +]} ⊎ {[+ TJoin tid (JHeld i fd) +]}
    | None => {[+ TFd fd d +]}
    end
  else ∅.
Definition hold_of (t : hdhr_tuner) : option (nat * bool) := (fun r => (r.1.2, r.2)) <$> refresher_of t.

(** A free tuner keeps its claim; the held, parked and streaming descriptors
    belong to it. *)
Definition tuner_res (i : nat) (t : hdhr_tuner) : toks :=
  hold_toks i (tuner_dev t) (hold_of t) (held_fd t) ⊎ fd_toks (parked_fd t) (tuner_dev t) ⊎
  (if active_stream t is Some s then {[+ TStr s Open (tuner_dev t) +]} else ∅) ⊎
  (if busy t then ∅ else {[+ TClaim i (active_stream t) +]}).

(** The descriptors of a stream. *)
Definition stream_fd_toks (st : dvb_stream) : toks :=
  {[+ TFd (frontend_fd st) (stream_frontend st) +]} ⊎ {[+ TFd (dvr_fd st) (stream_dvr st) +]} ⊎
  list_to_set_disj ((fun p => TFd p.1 (stream_demux st)) <$> demux_fds st).

(** Until it is closing, a stream keeps the right to join its threads. *)
Definition stream_join_toks (s : nat) (st : dvb_stream) : toks :=
  {[+ TJoin (reader_thread st) (JReader s (dvr_fd st)) +]} ⊎
  (if opened st then
     if stats_thread_started st then {[+ TJoin (stats_thread st) (JStats s (frontend_fd st)) +]}
     else {[+ TStats s (frontend_fd st) +]}
   else ∅).

Definition stream_res (s : nat) (st : dvb_stream) : toks :=
  stream_fd_toks st ⊎ (if closing st then ∅ else stream_join_toks s st).

Definition world_res (w : world) : toks :=
  msum (imap tuner_res (w_tuners w)) ⊎ map_sum stream_res (w_streams w).

#[global] Typeclasses Opaque msum map_sum fd_toks hold_toks tuner_res stream_fd_toks stream_join_toks stream_res world_res.

(** Adding an unchanged part on both sides. *)
Lemma toks_shift (A M M' r r' : toks) : M' ⊎ r = M ⊎ r' -> A ⊎ M' ⊎ r = A ⊎ M ⊎ r'.
Proof. multiset_solver. Qed.
Lemma toks_shift_l (A M M' r r' : toks) : M' ⊎ r = M ⊎ r' -> M' ⊎ A ⊎ r = M ⊎ A ⊎ r'.
Proof. multiset_solver. Qed.

(** Case analysis on the condition variable of a wait. *)
Ltac case_cond := match goal with c : cond |- _ => destruct c end.

Section Own.
Context (cfg : hdhr_config).

(** *** Known undefined behaviour *)

(** A character JSON escapes. *)
Definition json_special (c : ascii) : bool := (code c <? 0x20) || (code c =? 34) || (code c =? 92).

(** An object larger than its buffer was made for: a text with a character to
    escape, a reading of more than 40 characters, more than 20 programs. *)
Definition outsized (o : json_object) : bool :=
  existsb (fun s => existsb json_special (String.list_ascii_of_string s)) (jo_words o) ||
  existsb (fun r => (40 <? String.length r)%nat) (jo_readings o) || (20 <? jo_entries o)%nat.

(** The undefined behaviour a verified thread may run into: in one of the four
    JSON buffers of web_ui.c, with an outsized object. *)
Definition known (u : undefined) : Prop :=
  match u with
  | JsonOverrun cap objects =>
      cap ∈ [256; 384; 4096; 4096 + Z.to_nat (Config.tuner_count cfg) * 4096]%nat /\ existsb outsized objects = true
  | ThreadNotCreated => True
  end.

(** Type invariant of a tuner: its place in the pool, the hardware it was
    configured with, no stream on a free tuner, a sound queue. *)
Definition tuner_ok (i : nat) (t : hdhr_tuner) : Prop :=
  index t = Z.of_nat i /\ adapter t = nth i (dvb_adapter cfg) 0 /\ frontend t = dvb_frontend cfg /\
  (busy t = false -> active_stream t = None) /\ pending_ok t.

Definition ntuners : nat := Z.to_nat (Config.tuner_count cfg).

Record world_ok (w : world) : Prop := {
  wok_count : length (w_tuners w) = ntuners;
  wok_tuner : forall i t, w_tuners w !! i = Some t -> tuner_ok i t;
  wok_db : table_ok (w_db w);
  wok_fd : forall fd d, w_fds w !! fd = Some d -> 0 <= fd;
  wok_excl : forall fd fd' a f, w_fds w !! fd = Some (DevFrontend a f) ->
               w_fds w !! fd' = Some (DevFrontend a f) -> fd = fd';
  wok_live : forall i t, w_tuners w !! i = Some t -> held_stats_thread_started t = true ->
               w_fds w !! held_live_fd t = Some (tuner_dev t);
  wok_live_inj : forall i j t t', w_tuners w !! i = Some t -> w_tuners w !! j = Some t' ->
               held_stats_thread_started t = true -> held_stats_thread_started t' = true ->
               held_live_fd t = held_live_fd t' -> i = j
}.

(** The tokens of the threads and of the shared structures are exactly those
    that exist. *)
Record winv (w : world) (jn : gmap nat joinable) (R : toks) : Prop := {
  winv_ok : world_ok w;
  winv_res : forall x, (multiplicity x R + multiplicity x (world_res w) = kmult w jn x)%nat
}.

(** ** Verified programs *)

Definition join_toks (j : joinable) : toks :=
  match j with JReader s fd => {[+ TReader s fd +]} | JStats s fd => {[+ TStats s fd +]}
  | JHeld i fd => {[+ TRefr i fd +]} | JServer => ∅ end.

(** A thread is joined only once it is asked to stop: its stream is closing, its
    hold has the request. *)
Definition join_ready (tid : nat) (j : joinable) (R : toks) : Prop :=
  match j with
  | JReader s _ | JStats s _ => exists d, TStr s Closing d ∈ R
  | JHeld i fd => TLive i fd tid true ∈ R
  | JServer => True
  end.

(** What a thread is started with, and ends with. *)
Definition thread_pre (th : thread) : Prop :=
  match th with
  | T_held_stats i | T_park_expiry i _ => (i < ntuners)%nat
  | T_scan c => (sc_tuner c < ntuners)%nat
  | T_push c => (pc_tuner c < ntuners)%nat
  | _ => True
  end.
Definition thread_res (th : thread) (R : toks) : Prop :=
  match th with
  | T_scan c => exists r, R = {[+ TClaim (sc_tuner c) None +]} ⊎
      hold_toks (sc_tuner c) (DevFrontend (nth (sc_tuner c) (dvb_adapter cfg) 0) (dvb_frontend cfg)) r (sc_stale_held_fd c)
  | T_reader s fd => R = join_toks (JReader s fd)
  | T_stats s fd => R = join_toks (JStats s fd)
  | T_held_stats i => exists fd, R = join_toks (JHeld i fd)
  | _ => R = ∅
  end.
Definition thread_post (th : thread) (R : toks) : toks :=
  match th with T_reader _ _ | T_stats _ _ | T_held_stats _ => R | _ => ∅ end.

(** How the threads that are joined are joined: joining gives back what the thread
    ended with. *)
Definition joins_as (th : thread) (j : joinable) : Prop :=
  match th with
  | T_reader s fd => j = JReader s fd
  | T_stats s fd => j = JStats s fd
  | T_held_stats i => exists fd, j = JHeld i fd
  | T_discovery | T_control | T_http => j = JServer
  | _ => False
  end.

(** A new thread with its tokens [R]. *)
Definition spawn_ok (sp : option spawn) (R : toks) : Prop :=
  match sp with
  | None => R = ∅
  | Some s => thread_pre (sp_thread s) /\ thread_res (sp_thread s) R /\
      match sp_join s with
      | Some j => joins_as (sp_thread s) j /\ thread_post (sp_thread s) R = join_toks j
      | None => thread_post (sp_thread s) R = ∅
      end
  end.

(** A thread may use a descriptor it owns, or that its stream or its hold lends it. *)
Definition may_use (R : toks) (fd : Z) : Prop :=
  (exists d, TFd fd d ∈ R) \/ (exists s, TReader s fd ∈ R) \/ (exists s, TStats s fd ∈ R) \/
  (exists i, TRefr i fd ∈ R).

(** Tokens that keep a stream alive. *)
Definition stream_live (R : toks) (s : nat) : Prop :=
  (exists c d, TStr s c d ∈ R) \/ (exists fd, TReader s fd ∈ R) \/ (exists fd, TStats s fd ∈ R) \/
  (exists i, TClaim i (Some s) ∈ R).

Definition env_ok (q : query) (R : toks) : (answer q -> toks -> Prop) -> Prop :=
  match q with
  | QOpen d => fun K => forall fd, K fd (R ⊎ fd_toks fd d)
  | QClose fd => fun K => exists d R', R = R' ⊎ {[+ TFd fd d +]} /\ K tt R'
  | QIoctl fd r => fun K => may_use R fd /\ forall a, K a R
  | QPollMany fds _ => fun K => (forall fd, fd ∈ fds -> may_use R fd) /\ forall a, K a R
  | QCondWait (NotEmpty s | NotFull s _) _ => fun K => stream_live R s /\ forall a, K a R
  | _ => fun K => forall a, K a R
  end.

Definition op_ok {B} (o : op B) (R : toks) : (B -> toks -> Prop) -> Prop :=
  match o with
  | Sect f => fun K =>
      forall e w jn F, winv w jn (R ⊎ F) -> jn !! e_tid e = None ->
      match f e w with
      | None => False
      | Some (x, w', sp) =>
          exists R' Rs, spawn_ok sp Rs /\ winv w' (join_table (e_tid e) sp jn) (R' ⊎ Rs ⊎ F) /\ guarantee w w' /\ K x R'
      end
  | Env q => env_ok q R
  | Join tid => fun K => exists j R', R = R' ⊎ {[+ TJoin tid j +]} /\ join_ready tid j R' /\ K tt (R' ⊎ join_toks j)
  end.

Fixpoint wp {X} (p : prog X) (R : toks) (Q : X -> toks -> Prop) : Prop :=
  match p with
  | Ret x => Q x R
  | Do o k => op_ok o R (fun b R' => wp (k b) R' Q)
  | Stop why => match why with Undefined u => known u | OutOfFuel => True end
  end.

(** ** Structural rules *)

Lemma op_ok_mono {B} (o : op B) R (K K' : B -> toks -> Prop) :
  (forall b R', K b R' -> K' b R') -> op_ok o R K -> op_ok o R K'.
Proof.
  intros H. destruct o as [X f|q|tid]; simpl.
  - intros Ho e w jn F Hw Hj. specialize (Ho e w jn F Hw Hj).
    destruct (f e w) as [[[x w'] sp]|]; [|done]. destruct Ho as (R' & Rs & ? & ? & ? & ?). eauto 10.
  - destruct q; simpl; try case_cond; naive_solver.
  - naive_solver.
Qed.

Lemma wp_mono {X} (p : prog X) R (Q Q' : X -> toks -> Prop) :
  (forall x R', Q x R' -> Q' x R') -> wp p R Q -> wp p R Q'.
Proof.
  intros H. revert R. induction p as [x|B o k IH|]; intros R; simpl; [auto| |done].
  apply op_ok_mono. intros b R'. apply IH.
Qed.

Lemma wp_bind {X Y} (p : prog X) (f : X -> prog Y) R Q :
  wp p R (fun x R' => wp (f x) R' Q) -> wp (bind p f) R Q.
Proof.
  revert R. induction p as [x|B o k IH|]; intros R; simpl; [done| |done].
  apply op_ok_mono. intros b R'. apply IH.
Qed.

Lemma wp_when b p R (Q : unit -> toks -> Prop) :
  (b = true -> wp p R Q) -> (b = false -> Q tt R) -> wp (when b p) R Q.
Proof. destruct b; simpl; auto. Qed.

(** The frame rule: what a program does not mention it leaves alone. *)
Lemma may_use_frame R F fd : may_use R fd -> may_use (R ⊎ F) fd.
Proof.
  intros [[d H]|[[s H]|[[s H]|[i H]]]];
    [left; exists d|right; left; exists s|right; right; left; exists s|right; right; right; exists i]; multiset_solver.
Qed.

Lemma stream_live_frame R F s : stream_live R s -> stream_live (R ⊎ F) s.
Proof.
  intros [(c & d & H)|[[fd H]|[[fd H]|[i H]]]];
    [left; exists c, d|right; left; exists fd|right; right; left; exists fd|right; right; right; exists i]; multiset_solver.
Qed.

Lemma join_ready_frame tid j R F : join_ready tid j R -> join_ready tid j (R ⊎ F).
Proof. destruct j; simpl; [intros [d H]; exists d; multiset_solver..|intros H; multiset_solver|done]. Qed.

Lemma op_ok_frame {B} (o : op B) R F (K K' : B -> toks -> Prop) :
  (forall b R', K b R' -> K' b (R' ⊎ F)) -> op_ok o R K -> op_ok o (R ⊎ F) K'.
Proof.
  intros H. destruct o as [X f|q|tid]; simpl.
  - intros Ho e w jn F' Hw Hj. specialize (Ho e w jn (F ⊎ F')). rewrite (assoc_L (⊎)) in Ho.
    specialize (Ho Hw Hj). destruct (f e w) as [[[x w'] sp]|]; [|done].
    destruct Ho as (R' & Rs & Hs & Hw' & Hg & HK). exists (R' ⊎ F), Rs. split; [done|]. split; [|auto].
    replace (R' ⊎ F ⊎ Rs ⊎ F') with (R' ⊎ Rs ⊎ (F ⊎ F')) by multiset_solver. done.
  - destruct q; simpl; try (intros Ho a; by apply H).
    + intros Ho fd. replace (R ⊎ F ⊎ fd_toks fd d) with (R ⊎ fd_toks fd d ⊎ F) by multiset_solver. auto.
    + intros (d & R' & -> & HK). exists d, (R' ⊎ F). split; [multiset_solver|auto].
    + intros [Hu Ho]. split; [by apply may_use_frame|auto].
    + intros [Hu Ho]. split; [intros fd Hfd; by apply may_use_frame, Hu|auto].
    + case_cond; try (intros Ho a; by apply H); intros [Hl Ho]; (split; [by apply stream_live_frame|auto]).
  - intros (j & R' & -> & Hr & HK). exists j, (R' ⊎ F). split; [multiset_solver|]. split; [by apply join_ready_frame|].
    replace (R' ⊎ F ⊎ join_toks j) with (R' ⊎ join_toks j ⊎ F) by multiset_solver. auto.
Qed.

Lemma wp_frame {X} (p : prog X) R F (Q : X -> toks -> Prop) :
  wp p R Q -> wp p (R ⊎ F) (fun x R' => exists R0, R' = R0 ⊎ F /\ Q x R0).
Proof.
  revert R. induction p as [x|B o k IH|]; intros R; simpl; [eauto| |done].
  apply op_ok_frame. intros b R'. apply IH.
Qed.

(** ** Adequacy *)

Lemma in_msum (Rs : list toks) (j : nat) R x : Rs !! j = Some R -> x ∈ R -> x ∈ msum Rs.
Proof. intros H Hx. pose proof (msum_in _ _ _ H). multiset_solver. Qed.

Lemma msum_split (Rs : list toks) (j : nat) R : Rs !! j = Some R -> exists F, msum Rs = R ⊎ F /\
  forall R', msum (<[j := R']> Rs) = R' ⊎ F.
Proof.
  intros H. exists (msum Rs ∖ R). pose proof (msum_in _ _ _ H). split; [multiset_solver|].
  intros R'. pose proof (msum_insert _ _ _ R' H). multiset_solver.
Qed.

Lemma winv_exists w jn R x : winv w jn R -> x ∈ R -> exists_tok w jn x = true.
Proof.
  intros [_ H] Hx. specialize (H x). unfold kmult in H. destruct (exists_tok w jn x); [done|].
  apply mult_pos in Hx. lia.
Qed.

Lemma stream_fds_open w jn R s st :
  winv w jn R -> w_streams w !! s = Some st ->
  is_Some (w_fds w !! frontend_fd st) /\ is_Some (w_fds w !! dvr_fd st).
Proof.
  intros [_ H] Hs. pose proof (map_sum_in stream_res _ _ _ Hs) as Hin.
  assert (Hk : forall x, x ∈ stream_fd_toks st -> exists_tok w jn x = true).
  { intros x Hx. specialize (H x). unfold kmult in H. destruct (exists_tok w jn x); [done|].
    assert (x ∈ world_res w) as Hw by (unfold world_res, stream_res in *; multiset_solver).
    apply mult_pos in Hw. lia. }
  split.
  - specialize (Hk (TFd (frontend_fd st) (stream_frontend st)) ltac:(unfold stream_fd_toks; multiset_solver)).
    simpl in Hk. apply bool_decide_eq_true_1 in Hk as [Hk _]. eauto.
  - specialize (Hk (TFd (dvr_fd st) (stream_dvr st)) ltac:(unfold stream_fd_toks; multiset_solver)).
    simpl in Hk. apply bool_decide_eq_true_1 in Hk as [Hk _]. eauto.
Qed.

Lemma may_use_open w jn R F fd : winv w jn (R ⊎ F) -> may_use R fd -> is_Some (w_fds w !! fd).
Proof.
  intros Hw Hu. assert (Hx : forall x, x ∈ R -> exists_tok w jn x = true)
    by (intros x Hx; eapply winv_exists; [done|multiset_solver]).
  destruct Hu as [[d H]|[[s H]|[[s H]|[i H]]]]; apply Hx in H; simpl in H; apply bool_decide_eq_true_1 in H.
  - destruct H as [H _]. eauto.
  - destruct (w_streams w !! s) as [st|] eqn:E; [|done]. injection H as <-. by eapply stream_fds_open.
  - destruct (w_streams w !! s) as [st|] eqn:E; [|done]. injection H as <-. by eapply stream_fds_open.
  - destruct (w_tuners w !! i) as [t|] eqn:E; [|done]. simpl in H.
    destruct (refresher_of t) as [[[fd0 tid] b]|] eqn:Er; [|done]. injection H as ->. eexists.
    unfold refresher_of in Er. destruct (held_stats_thread_started t) eqn:Es; [|done].
    replace fd with (held_live_fd t) by congruence. by eapply (wok_live w (winv_ok _ _ _ Hw)).
Qed.

Lemma tuner_res_in w i t : w_tuners w !! i = Some t -> tuner_res i t ⊆ world_res w.
Proof.
  intros H. unfold world_res. assert (tuner_res i t ⊆ msum (imap tuner_res (w_tuners w))); [|multiset_solver].
  apply (msum_in _ i). by rewrite list_lookup_imap, H.
Qed.

Lemma live_stream w jn R F s : winv w jn (R ⊎ F) -> stream_live R s -> is_Some (w_streams w !! s).
Proof.
  intros Hw Hl.
  assert (Hk : forall x, x ∈ R -> exists_tok w jn x = true) by (intros x Hx; eapply winv_exists; [done|multiset_solver]).
  destruct Hl as [(c & d & H)|[[fd H]|[[fd H]|[i H]]]]; pose proof (Hk _ H) as Hx; simpl in Hx;
    apply bool_decide_eq_true_1 in Hx; try by destruct (w_streams w !! s).
  destruct (w_tuners w !! i) as [t|] eqn:Et; [|done]. simpl in Hx. injection Hx as Ha.
  pose proof (tuner_res_in _ _ _ Et) as Hs. unfold tuner_res in Hs. rewrite Ha in Hs.
  assert (TStr s Open (tuner_dev t) ∈ world_res w) as Hin by multiset_solver.
  pose proof (winv_res _ _ _ Hw (TStr s Open (tuner_dev t))) as Hm. apply mult_pos in Hin. unfold kmult in Hm. simpl in Hm.
  case_bool_decide as E; [|lia]. by destruct (w_streams w !! s).
Qed.

Lemma live_fds_elem ts fd : fd ∈ live_fds ts <->
  exists (i : nat) t, ts !! i = Some t /\ held_stats_thread_started t = true /\ held_live_fd t = fd.
Proof.
  unfold live_fds. rewrite list_elem_of_omap. split.
  - intros (t & Ht & H). apply list_elem_of_lookup in Ht as [i Hi]. exists i, t. split; [done|].
    unfold refresher_of in H. destruct (held_stats_thread_started t); [|done]. by injection H.
  - intros (i & t & Hi & Hs & <-). exists t. split; [by eapply list_elem_of_lookup_2|].
    unfold refresher_of. by rewrite Hs.
Qed.

Lemma live_fds_open w fd : world_ok w -> fd ∈ live_fds (w_tuners w) -> is_Some (w_fds w !! fd).
Proof. intros Hw (i & t & Hi & Hs & <-)%live_fds_elem. eexists. by eapply wok_live. Qed.

(** Opening and closing a descriptor. *)
Lemma winv_open w jn R fd d :
  winv w jn R -> 0 <= fd -> w_fds w !! fd = None ->
  (forall a f fd', d = DevFrontend a f -> w_fds w !! fd' = Some d -> False) ->
  winv (w <| w_fds ::= insert fd d |>) jn (R ⊎ {[+ TFd fd d +]}).
Proof.
  intros [[Hc Ht Hdb Hf He Hl Hli] Hm] H0 Hn Hx. split.
  - split; try done; upd_simpl.
    + intros fd' d' H. apply lookup_insert_Some in H as [[<- _]|[_ H]]; [done|eauto].
    + intros f1 f2 a f H1 H2.
      apply lookup_insert_Some in H1 as [[<- ->]|[N1 H1]]; apply lookup_insert_Some in H2 as [[<- E2]|[N2 H2]];
        try done; [exfalso; eauto|subst; exfalso; eauto|eauto].
    + intros i t Hi Hs. apply lookup_insert_Some. right. split; [|by apply (Hl i)].
      intros ->. by rewrite (Hl i t Hi Hs) in Hn.
  - intros x. specialize (Hm x). change (world_res (w <| w_fds ::= insert fd d |>)) with (world_res w).
    rewrite multiplicity_disj_union. unfold kmult in *.
    destruct (decide (x = TFd fd d)) as [->|Hne].
    + rewrite multiplicity_singleton_eq. simpl in Hm |- *. upd_simpl.
      rewrite Hn in Hm. rewrite bool_decide_false in Hm by (by intros [? _]).
      rewrite bool_decide_true; [lia|]. split; [apply lookup_insert_eq|].
      intros (i & t & Hi & Hs & Hl')%live_fds_elem. rewrite <- Hl', (Hl i t Hi Hs) in Hn. done.
    + rewrite multiplicity_singleton_ne by done.
      assert (exists_tok (w <| w_fds ::= insert fd d |>) jn x = exists_tok w jn x) as ->; [|lia].
      destruct x as [fd' d'| | | | | | |]; try done. simpl. upd_simpl. apply bool_decide_ext.
      destruct (decide (fd = fd')) as [->|].
      * rewrite lookup_insert_eq, Hn. split; [intros [[= ->] _]; done|by intros [? _]].
      * by rewrite lookup_insert_ne.
Qed.

Lemma winv_close w jn R fd d :
  winv w jn (R ⊎ {[+ TFd fd d +]}) -> winv (w <| w_fds ::= delete fd |>) jn R.
Proof.
  intros Hw. pose proof (winv_exists _ _ _ (TFd fd d) Hw ltac:(multiset_solver)) as Hd.
  simpl in Hd. apply bool_decide_eq_true_1 in Hd as [Hd Hnl]. destruct Hw as [[Hc Ht Hdb Hf He Hl Hli] Hm]. split.
  - split; try done; upd_simpl.
    + intros fd' d' H. apply lookup_delete_Some in H as [_ H]. eauto.
    + intros f1 f2 a f H1 H2. apply lookup_delete_Some in H1 as [_ H1]. apply lookup_delete_Some in H2 as [_ H2]. eauto.
    + intros i t Hi Hs. apply lookup_delete_Some. split; [|by apply (Hl i)].
      intros ->. apply Hnl, live_fds_elem. eauto.
  - intros x. specialize (Hm x). change (world_res (w <| w_fds ::= delete fd |>)) with (world_res w).
    rewrite multiplicity_disj_union in Hm. unfold kmult in *.
    destruct (decide (x = TFd fd d)) as [->|Hne].
    + rewrite multiplicity_singleton_eq in Hm. simpl in Hm |- *. upd_simpl.
      rewrite Hd in Hm. rewrite bool_decide_true in Hm by done.
      rewrite bool_decide_false; [lia|]. rewrite lookup_delete_eq. by intros [? _].
    + rewrite multiplicity_singleton_ne in Hm by done.
      assert (exists_tok (w <| w_fds ::= delete fd |>) jn x = exists_tok w jn x) as ->; [|lia].
      destruct x as [fd' d'| | | | | | |]; try done. simpl. upd_simpl. apply bool_decide_ext.
      destruct (decide (fd = fd')) as [->|].
      * rewrite lookup_delete_eq, Hd. split; [by intros [? _]|intros [[= ->] _]; done].
      * by rewrite lookup_delete_ne.
Qed.

(** Joining gives back the token and takes the thread's. *)
Lemma winv_join w jn R tid j :
  winv w jn (R ⊎ {[+ TJoin tid j +]}) -> jn !! tid = Some j /\ winv w (delete tid jn) R.
Proof.
  intros Hw. pose proof (winv_exists _ _ _ (TJoin tid j) Hw ltac:(multiset_solver)) as Hd.
  simpl in Hd. apply bool_decide_eq_true_1 in Hd. split; [done|]. destruct Hw as [Hok Hm]. split; [done|].
  intros x. specialize (Hm x). rewrite multiplicity_disj_union in Hm. unfold kmult in *.
  destruct (decide (x = TJoin tid j)) as [->|Hne].
  - rewrite multiplicity_singleton_eq in Hm. simpl in Hm |- *.
    rewrite bool_decide_true in Hm by done. rewrite bool_decide_false; [lia|]. by rewrite lookup_delete_eq.
  - rewrite multiplicity_singleton_ne in Hm by done.
    assert (exists_tok w (delete tid jn) x = exists_tok w jn x) as ->; [|lia].
    destruct x as [| | | | |tid' j'| |]; try done. simpl. apply bool_decide_ext.
    destruct (decide (tid = tid')) as [->|].
    + rewrite lookup_delete_eq, Hd. split; [done|intros [= ->]; done].
    + by rewrite lookup_delete_ne.
Qed.

(** *** Verified daemons *)

Context (body : thread -> prog unit).

(** Every start routine is verified. *)
Definition daemon_ok : Prop :=
  forall th R, thread_pre th -> thread_res th R -> wp (body th) R (fun _ R' => R' = thread_post th R).

(** What a finished thread may be left with: only what joining it gives back. *)
Definition final_toks (P : toks) : Prop := forall x, x ∈ P -> match x with TReader _ _ | TStats _ _ | TRefr _ _ => True | _ => False end.

Lemma final_empty : final_toks ∅.
Proof. intros x Hx. multiset_solver. Qed.

Lemma final_post th R : thread_res th R -> final_toks (thread_post th R).
Proof.
  intros Hr x Hx. destruct th; simpl in Hr, Hx; multiset_solver.
Qed.

(** Each thread in the pool has its tokens and its final tokens; together with
    the shared structures the tokens account for everything. *)
Record cinv (c : Sys.config) (Rs Ps : list toks) : Prop := {
  ci_rs : length Rs = length (c_pool c);
  ci_ps : length Ps = length (c_pool c);
  ci_wp : forall j p R P, c_pool c !! j = Some p -> Rs !! j = Some R -> Ps !! j = Some P ->
            wp p R (fun _ R' => R' = P);
  ci_inv : winv (c_world c) (c_join c) (msum Rs);
  ci_join : forall tid j, c_join c !! tid = Some j -> Ps !! tid = Some (join_toks j);
  ci_post : Forall final_toks Ps
}.

Lemma cinv_thread c Rs Ps j p :
  cinv c Rs Ps -> c_pool c !! j = Some p -> exists R P F, Rs !! j = Some R /\ Ps !! j = Some P /\
    wp p R (fun _ R' => R' = P) /\ msum Rs = R ⊎ F /\ forall R', msum (<[j := R']> Rs) = R' ⊎ F.
Proof.
  intros [Hr Hp Hwp _ _ _] Hj. pose proof (lookup_lt_Some _ _ _ Hj).
  destruct (lookup_lt_is_Some_2 Rs j) as [R HR]; [lia|]. destruct (lookup_lt_is_Some_2 Ps j) as [P HP]; [lia|].
  destruct (msum_split Rs j R HR) as (F & HF & HF'). exists R, P, F. eauto 10.
Qed.

Lemma cinv_join_lt c Rs Ps tid j : cinv c Rs Ps -> c_join c !! tid = Some j -> (tid < length (c_pool c))%nat.
Proof.
  intros [Hr Hp _ _ Hj _] H. apply Hj, lookup_lt_Some in H. lia.
Qed.

(** Replacing one thread's program and tokens. *)
Lemma wp_update (pool : list (prog unit)) (Rs Ps : list toks) (j : nat) (p' : prog unit) (R' : toks) :
  (forall j p R P, pool !! j = Some p -> Rs !! j = Some R -> Ps !! j = Some P -> wp p R (fun _ R' => R' = P)) ->
  (forall P, Ps !! j = Some P -> wp p' R' (fun _ R' => R' = P)) ->
  forall j0 p R P, <[j := p']> pool !! j0 = Some p -> <[j := R']> Rs !! j0 = Some R -> Ps !! j0 = Some P ->
    wp p R (fun _ R' => R' = P).
Proof.
  intros H H' j0 p R P Hp HR HP. destruct (decide (j0 = j)) as [->|Hne].
  - apply list_lookup_insert_Some in Hp as [(_ & <- & _)|[? _]]; [|done].
    apply list_lookup_insert_Some in HR as [(_ & <- & _)|[? _]]; [|done]. auto.
  - rewrite list_lookup_insert_ne in Hp by done. rewrite list_lookup_insert_ne in HR by done. eauto.
Qed.

Lemma step_sect_inv w pool jn Rs Ps j X f (k : X -> prog unit) e x w' sp :
  daemon_ok -> cinv {| c_world := w; c_pool := pool; c_join := jn |} Rs Ps ->
  pool !! j = Some (Do (Sect f) k) -> e_tid e = length pool -> f e w = Some (x, w', sp) ->
  guarantee w w' /\
  exists Rs' Ps', cinv {| c_world := w'; c_pool := <[j := k x]> pool ++ spawned body sp;
                          c_join := join_table (length pool) sp jn |} Rs' Ps'.
Proof.
  intros Hd Hc Hj He Hf. pose proof (cinv_thread _ _ _ _ _ Hc Hj) as (R & P & F & HR & HP & Hwp & HF & HF').
  assert (Hfree : jn !! e_tid e = None).
  { destruct (jn !! e_tid e) as [jt|] eqn:E; [|done]. pose proof (cinv_join_lt _ _ _ (e_tid e) jt Hc E) as Hlt. simpl in Hlt. lia. }
  pose proof Hc as [Hlr Hlp Hwps Hinv Hjn Hfin]. cbn [c_world c_pool c_join] in *. rewrite HF in Hinv.
  cbn [wp op_ok] in Hwp. specialize (Hwp e w jn F Hinv Hfree). rewrite Hf in Hwp.
  destruct Hwp as (R' & Rs0 & Hs & Hinv' & Hg & Hk). rewrite He in Hinv'. split; [exact Hg|].
  pose proof (lookup_lt_Some _ _ _ HR). pose proof (lookup_lt_Some _ _ _ HP).
  set (sr := match sp with Some s => [Rs0] | None => [] end).
  set (sps := match sp with Some s => [thread_post (sp_thread s) Rs0] | None => [] end).
  assert (Hup : forall j0 p0 R0 P0, <[j := k x]> pool !! j0 = Some p0 -> <[j := R']> Rs !! j0 = Some R0 ->
     Ps !! j0 = Some P0 -> wp p0 R0 (fun _ R' => R' = P0)).
  { apply wp_update; [done|]. intros P' HP'. rewrite HP in HP'. injection HP' as <-. done. }
  exists (<[j := R']> Rs ++ sr), (Ps ++ sps). split; cbn [c_world c_pool c_join].
  - rewrite !length_app, !length_insert. unfold sr, spawned. destruct sp; simpl; lia.
  - rewrite !length_app, length_insert. unfold sps, spawned. destruct sp; simpl; lia.
  - intros j0 p0 R0 P0 Hp0 HR0 HP0. destruct (decide (j0 < length pool)%nat) as [Hlt|Hge].
    + rewrite lookup_app_l in Hp0 by (rewrite length_insert; lia).
      rewrite lookup_app_l in HR0 by (rewrite length_insert; lia).
      rewrite lookup_app_l in HP0 by lia. eauto.
    + rewrite lookup_app_r in Hp0 by (rewrite length_insert; lia).
      rewrite lookup_app_r in HR0 by (rewrite length_insert; lia).
      rewrite lookup_app_r in HP0 by lia.
      rewrite length_insert in Hp0. rewrite length_insert in HR0. rewrite Hlr in HR0. rewrite Hlp in HP0.
      unfold sr, sps, spawned in *. destruct sp as [s|]; [|done].
      apply list_lookup_singleton_Some in Hp0 as [_ <-]. apply list_lookup_singleton_Some in HR0 as [_ <-].
      apply list_lookup_singleton_Some in HP0 as [_ <-]. by destruct Hs as (Hp & Hr & _); apply Hd.
  - rewrite msum_app, HF'. unfold sr. destruct sp as [s|]; simpl in Hs, Hinv' |- *.
    + replace (R' ⊎ F ⊎ (Rs0 ⊎ ∅)) with (R' ⊎ Rs0 ⊎ F) by multiset_solver. done.
    + subst Rs0. replace (R' ⊎ F ⊎ ∅) with (R' ⊎ ∅ ⊎ F) by multiset_solver. done.
  - intros tid jt Ht. unfold join_table in Ht. unfold sps. destruct sp as [[th [jt'|]]|].
    + apply lookup_insert_Some in Ht as [[<- <-]|[_ Ht]].
      * rewrite lookup_app_r, Hlp, Nat.sub_diag by lia. simpl. destruct Hs as (_ & _ & _ & Hs). cbn in Hs |- *. by rewrite Hs.
      * apply lookup_app_l_Some. auto.
    + apply lookup_app_l_Some. auto.
    + apply lookup_app_l_Some. auto.
  - apply Forall_app. split; [done|]. unfold sps. destruct sp as [s|]; [|done]. constructor; [apply final_post, Hs|done].
Qed.

Lemma step_env_inv w pool jn Rs Ps j q (k : answer q -> prog unit) a w' :
  cinv {| c_world := w; c_pool := pool; c_join := jn |} Rs Ps ->
  pool !! j = Some (Do (Env q) k) -> env_step q a w w' ->
  exists Rs', cinv {| c_world := w'; c_pool := <[j := k a]> pool; c_join := jn |} Rs' Ps.
Proof.
  intros Hc Hj He. pose proof (cinv_thread _ _ _ _ _ Hc Hj) as (R & P & F & HR & HP & Hwp & HF & HF').
  destruct Hc as [Hlr Hlp Hwps Hinv Hjn Hfin]. cbn [c_world c_pool c_join] in *. rewrite HF in Hinv.
  cbn [wp op_ok] in Hwp.
  assert (exists R', winv w' jn (R' ⊎ F) /\ wp (k a) R' (fun _ R' => R' = P)) as (R' & Hinv' & Hk).
  { destruct q; cbn [env_ok env_step] in Hwp, He; try case_cond;
      try (subst w'; exists R; split; [done|first [apply Hwp | apply (proj2 Hwp)]]).
    - specialize (Hwp a). unfold fd_toks in Hwp. destruct He as [[Hn ->]|(H0 & Hn & Hx & ->)].
      + destruct (0 <=? a) eqn:E; zb; [lia|]. exists R.
        replace (R ⊎ ∅) with R in Hwp by multiset_solver. done.
      + destruct (0 <=? a) eqn:E; zb; [|lia]. exists (R ⊎ {[+ TFd a d +]}). split; [|done].
        replace (R ⊎ {[+ TFd a d +]} ⊎ F) with (R ⊎ F ⊎ {[+ TFd a d +]}) by multiset_solver.
        by apply winv_open.
    - destruct Hwp as (d & R' & -> & Hk). subst w'. destruct a. exists R'. split; [|done].
      apply (winv_close w jn (R' ⊎ F) fd d).
      replace (R' ⊎ F ⊎ {[+ TFd fd d +]}) with (R' ⊎ {[+ TFd fd d +]} ⊎ F) by multiset_solver. done. }
  exists (<[j := R']> Rs). split; cbn [c_world c_pool c_join].
  - by rewrite !length_insert.
  - by rewrite length_insert.
  - apply wp_update; [done|]. intros P' HP'. rewrite HP in HP'. injection HP' as <-. done.
  - by rewrite HF'.
  - done.
  - done.
Qed.

Lemma step_join_inv w pool jn Rs Ps j tid (k : unit -> prog unit) :
  cinv {| c_world := w; c_pool := pool; c_join := jn |} Rs Ps ->
  pool !! j = Some (Do (Join tid) k) -> pool !! tid = Some (Ret tt) ->
  exists Rs' Ps', cinv {| c_world := w; c_pool := <[j := k tt]> pool; c_join := delete tid jn |} Rs' Ps'.
Proof.
  intros Hc Hj Ht. pose proof (cinv_thread _ _ _ _ _ Hc Hj) as (R & P & F & HR & HP & Hwp & HF & HF').
  pose proof (cinv_thread _ _ _ _ _ Hc Ht) as (Rt & Pt & Ft & HRt & HPt & Hwpt & _ & _).
  destruct Hc as [Hlr Hlp Hwps Hinv Hjn Hfin]. cbn [c_world c_pool c_join] in *.
  cbn [wp op_ok] in Hwp, Hwpt. subst Pt. destruct Hwp as (jt & R' & -> & _ & Hk).
  assert (Hne : j <> tid) by (intros ->; congruence).
  destruct (winv_join w jn (msum (<[j := R']> Rs)) tid jt) as [Hjt Hinv'].
  { rewrite HF'. rewrite HF in Hinv.
    replace (R' ⊎ F ⊎ {[+ TJoin tid jt +]}) with (R' ⊎ {[+ TJoin tid jt +]} ⊎ F) by multiset_solver. done. }
  pose proof (Hjn _ _ Hjt) as E. rewrite HPt in E. injection E as ->.
  set (Rs1 := <[tid := ∅]> (<[j := R' ⊎ join_toks jt]> Rs)).
  exists Rs1, (<[tid := ∅]> Ps). split; cbn [c_world c_pool c_join].
  - unfold Rs1. by rewrite !length_insert.
  - by rewrite !length_insert.
  - intros j0 p0 R0 P0 Hp0 HR0 HP0. destruct (decide (j0 = tid)) as [->|Hn].
    + rewrite list_lookup_insert_ne in Hp0 by done. rewrite Ht in Hp0. injection Hp0 as <-.
      apply list_lookup_insert_Some in HR0 as [(_ & <- & _)|[? _]]; [|done].
      apply list_lookup_insert_Some in HP0 as [(_ & <- & _)|[? _]]; [|done]. done.
    + unfold Rs1 in HR0. rewrite list_lookup_insert_ne in HR0 by done. rewrite list_lookup_insert_ne in HP0 by done.
      eapply (wp_update pool Rs Ps j (k tt) (R' ⊎ join_toks jt)); eauto. intros P' HP'. rewrite HP in HP'. injection HP' as <-. done.
  - assert (msum Rs1 = msum (<[j := R']> Rs)) as ->; [|done]. unfold Rs1.
    assert (Ht' : <[j := R' ⊎ join_toks jt]> Rs !! tid = Some (join_toks jt)) by by rewrite list_lookup_insert_ne.
    pose proof (msum_insert _ _ _ ∅ Ht') as E1. rewrite !HF' in *. multiset_solver.
  - intros tid' jt' Hd. apply lookup_delete_Some in Hd as [Hn Hd]. rewrite list_lookup_insert_ne by done. auto.
  - apply Forall_insert; [done|apply final_empty].
Qed.

Lemma env_guarantee q (a : answer q) w w' : env_step q a w w' -> guarantee w w'.
Proof.
  intros He. apply guarantee_same; destruct q; simpl in He; try by subst w'.
  all: by destruct He as [[_ ->]|(_ & _ & _ & ->)].
Qed.

Lemma step_inv c c' Rs Ps :
  daemon_ok -> cinv c Rs Ps -> step body c c' ->
  guarantee (c_world c) (c_world c') /\ exists Rs' Ps', cinv c' Rs' Ps'.
Proof.
  intros Hd Hc Hs. destruct Hs.
  - by eapply step_sect_inv.
  - split; [by eapply env_guarantee|]. edestruct step_env_inv as [Rs' ?]; eauto.
  - split; [apply guarantee_refl|]. by eapply step_join_inv.
Qed.

Lemma reachable_inv c0 c Rs Ps :
  daemon_ok -> cinv c0 Rs Ps -> reachable body c0 c -> exists Rs' Ps', cinv c Rs' Ps'.
Proof.
  intros Hd Hc Hr. induction Hr as [|c c' _ (Rs' & Ps' & IH) Hs]; [eauto|]. by eapply step_inv.
Qed.

(** A configuration whose tokens are accounted for is not at fault. *)
Lemma cinv_safe c Rs Ps : cinv c Rs Ps -> ~ faulty c.
Proof.
  intros Hc (j & p & Hj & Hp). pose proof (cinv_thread _ _ _ _ _ Hc Hj) as (R & P & F & HR & HP & Hwp & HF & HF').
  pose proof (ci_inv _ _ _ Hc) as Hinv. rewrite HF in Hinv.
  destruct p as [x|B o k|]; [done| |done]. destruct o as [X f|q|tid]; cbn [wp op_ok] in Hwp.
  - destruct Hp as (e & He & Hf).
    assert (Hfree : c_join c !! e_tid e = None).
    { destruct (c_join c !! e_tid e) as [jt|] eqn:E; [|done]. pose proof (cinv_join_lt _ _ _ (e_tid e) jt Hc E). lia. }
    specialize (Hwp e _ _ _ Hinv Hfree). by rewrite Hf in Hwp.
  - destruct q; cbn [env_ok] in Hwp; try done.
    + destruct Hwp as (d & R' & -> & _). destruct (may_use_open _ _ _ _ fd Hinv) as [d' Hd]; [|congruence].
      left. exists d. multiset_solver.
    + destruct Hwp as [Hu _].
      destruct (may_use_open _ _ _ _ fd Hinv Hu) as [d' Hd]. congruence.
    + destruct Hp as (fd & Hfd & Hn). destruct Hwp as [Hu _].
      destruct (may_use_open _ _ _ _ fd Hinv (Hu _ Hfd)) as [d' Hd]. congruence.
    + case_cond; try done; destruct Hwp as [Hl _]; destruct (live_stream _ _ _ _ _ Hinv Hl); congruence.
  - destruct Hwp as (jt & R' & -> & _ & _).
    pose proof (winv_exists _ _ _ (TJoin tid jt) Hinv ltac:(multiset_solver)) as Hx.
    simpl in Hx. apply bool_decide_eq_true_1 in Hx. congruence.
Qed.

(** A thread stops at undefined behaviour only where it is known. *)
Lemma cinv_known c Rs Ps j u : cinv c Rs Ps -> c_pool c !! j = Some (Stop (Undefined u)) -> known u.
Proof. intros Hc Hj. by destruct (cinv_thread _ _ _ _ _ Hc Hj) as (R & P & F & _ & _ & Hwp & _). Qed.
End Own.
