(* ===== verification/Rules.v ===== *)
(** Rules of the ownership logic for the sections of the daemon: sections on a
    tuner, on a stream, on the channel table, creation of detached threads, and
    the automation that applies them. *)
From stdpp Require Import gmultiset.
From S2P Require Import Prelude RecordUpd CLib ChannelDb Config Stats Ring Tuner Sys Life Own.

Lemma imap_insert {A B} (f : nat -> A -> B) l (i : nat) x :
  imap f (<[i := x]> l) = <[i := f i x]> (imap f l).
Proof.
  apply list_eq. intros j. rewrite list_lookup_imap. destruct (decide (j = i)) as [->|Hne].
  - destruct (decide (i < length l)%nat) as [Hl|Hl].
    + rewrite !list_lookup_insert_eq; [done|by rewrite length_imap|done].
    + rewrite !lookup_ge_None_2; [done| |]; rewrite ?length_insert, ?length_imap; lia.
  - rewrite !list_lookup_insert_ne by done. by rewrite list_lookup_imap.
Qed.

Section Rules.
Context (cfg : hdhr_config).

Local Notation wp := (wp cfg).
Local Notation winv := (winv cfg).
Local Notation tuner_ok := (tuner_ok cfg).
Local Notation ntuners := (ntuners cfg).

Lemma winv_lookup w jn R i : winv w jn R -> (i < ntuners)%nat ->
  exists t, w_tuners w !! i = Some t /\ tuner_ok i t.
Proof.
  intros [[Hc Ht _ _ _ _ _] _] Hi. destruct (lookup_lt_is_Some_2 (w_tuners w) i) as [t E]; [lia|]. eauto.
Qed.

(** Every token exists at most once. *)
Lemma winv_once w jn R x : winv w jn R -> (multiplicity x R + multiplicity x (world_res w) <= 1)%nat.
Proof. intros [_ H]. rewrite H. unfold kmult. destruct (exists_tok _ _ _); lia. Qed.

(** The holder of a claim knows the active stream. *)
Lemma claim_info w jn R i o t :
  winv w jn R -> TClaim i o ∈ R -> w_tuners w !! i = Some t -> active_stream t = o /\ busy t = true.
Proof.
  intros Hw Hin Ht. pose proof (winv_exists _ _ _ _ _ Hw Hin) as He. simpl in He.
  apply bool_decide_eq_true_1 in He. rewrite Ht in He. simpl in He. injection He as Ha. split; [done|].
  destruct (busy t) eqn:E; [done|]. pose proof (winv_once _ _ _ (TClaim i o) Hw) as H1.
  pose proof (tuner_res_in _ _ _ Ht) as Hs. unfold tuner_res in Hs. rewrite E, Ha in Hs.
  apply mult_pos in Hin. assert (TClaim i o ∈ world_res w) as Hx by multiset_solver.
  apply mult_pos in Hx. lia.
Qed.

(** There is at most one descriptor open on a frontend. *)
Lemma toks_exist w jn R x : winv w jn R -> x ∈ R ⊎ world_res w -> exists_tok w jn x = true.
Proof.
  intros Hw Hx. pose proof (winv_res _ _ _ _ Hw x) as H. apply mult_pos in Hx.
  rewrite multiplicity_disj_union in Hx. unfold kmult in H. destruct (exists_tok w jn x); [done|]. lia.
Qed.

Lemma fd_exists w jn R fd d : winv w jn R -> TFd fd d ∈ R ⊎ world_res w ->
  w_fds w !! fd = Some d /\ fd ∉ live_fds (w_tuners w).
Proof. intros Hw Hx. pose proof (toks_exist _ _ _ _ Hw Hx) as H. by apply bool_decide_eq_true_1 in H. Qed.

Lemma one_frontend w jn R fd fd' a f (T1 T2 : toks) :
  winv w jn R -> TFd fd (DevFrontend a f) ∈ T1 -> TFd fd' (DevFrontend a f) ∈ T2 -> T1 ⊎ T2 ⊆ R ⊎ world_res w -> False.
Proof.
  intros Hw H1 H2 Hs.
  destruct (fd_exists w jn R fd (DevFrontend a f) Hw ltac:(multiset_solver)) as [E1 _].
  destruct (fd_exists w jn R fd' (DevFrontend a f) Hw ltac:(multiset_solver)) as [E2 _].
  pose proof (wok_excl _ _ (winv_ok _ _ _ _ Hw) _ _ _ _ E1 E2) as <-.
  pose proof (winv_once _ _ _ (TFd fd (DevFrontend a f)) Hw) as H. apply mult_pos in H1, H2.
  specialize (Hs (TFd fd (DevFrontend a f))). rewrite !multiplicity_disj_union in Hs. lia.
Qed.

(** While a refresher has not been joined nobody else has its frontend open. *)
Lemma live_excludes w jn R i t fd :
  winv w jn R -> w_tuners w !! i = Some t -> TFd fd (tuner_dev t) ∈ R ⊎ world_res w -> held_stats_thread_started t = false.
Proof.
  intros Hw Ht Hin. destruct (held_stats_thread_started t) eqn:Es; [|done]. exfalso.
  destruct (fd_exists _ _ _ _ _ Hw Hin) as [Hf Hn]. pose proof (wok_live _ _ (winv_ok _ _ _ _ Hw) _ _ Ht Es) as Hl.
  unfold tuner_dev in *. pose proof (wok_excl _ _ (winv_ok _ _ _ _ Hw) _ _ _ _ Hf Hl) as ->.
  apply Hn, live_fds_elem. eauto.
Qed.

(** A tuner never has both a held and a parked descriptor, and neither while a
    thread has its frontend open. *)
Lemma hold_excludes w jn R i t fd :
  winv w jn R -> w_tuners w !! i = Some t -> 0 <= held_fd t ->
  hold_toks i (tuner_dev t) (hold_of t) (held_fd t) ⊎ {[+ TFd fd (tuner_dev t) +]} ⊆ R ⊎ world_res w -> False.
Proof.
  intros Hw Ht H0 Hs. assert (Es : held_stats_thread_started t = false).
  { apply (live_excludes w jn R i t fd); [done..|]. multiset_solver. }
  unfold hold_toks, hold_of, refresher_of in Hs. rewrite Es, (proj2 (Z.leb_le _ _) H0) in Hs. simpl in Hs.
  eapply (one_frontend w jn R (held_fd t) fd (adapter t) (frontend t) {[+ TFd (held_fd t) (tuner_dev t) +]} {[+ TFd fd (tuner_dev t) +]});
    [done|unfold tuner_dev; multiset_solver..|done].
Qed.

Lemma held_parked w jn R i t :
  winv w jn R -> w_tuners w !! i = Some t -> held_fd t < 0 \/ parked_fd t < 0.
Proof.
  intros Hw Ht. destruct (decide (held_fd t < 0)); [by left|]. destruct (decide (parked_fd t < 0)); [by right|].
  exfalso. pose proof (tuner_res_in _ _ _ Ht) as Hs. unfold tuner_res, fd_toks in Hs.
  destruct (0 <=? parked_fd t) eqn:E2; zb; [|lia].
  eapply (hold_excludes w jn R i t (parked_fd t)); [done..|lia|]. multiset_solver.
Qed.

Lemma fd_excludes w jn R i t fd :
  winv w jn R -> w_tuners w !! i = Some t -> TFd fd (tuner_dev t) ∈ R ->
  held_fd t < 0 /\ parked_fd t < 0 /\ held_stats_thread_started t = false.
Proof.
  intros Hw Ht Hin. pose proof (tuner_res_in _ _ _ Ht) as Hs. unfold tuner_res, fd_toks in *.
  repeat split; [apply Z.nle_gt; intros H0..|].
  - eapply (hold_excludes w jn R i t fd); [done..|]. multiset_solver.
  - rewrite (proj2 (Z.leb_le 0 (parked_fd t)) H0) in Hs.
    eapply (one_frontend w jn R fd (parked_fd t) (adapter t) (frontend t) {[+ TFd fd (tuner_dev t) +]}
      {[+ TFd (parked_fd t) (tuner_dev t) +]}); [done|unfold tuner_dev; multiset_solver..|multiset_solver].
  - apply (live_excludes w jn R i t fd); [done..|]. multiset_solver.
Qed.

(** A stream has its frontend open. *)
Lemma stream_excludes w jn R i t s c :
  winv w jn R -> w_tuners w !! i = Some t -> TStr s c (tuner_dev t) ∈ R -> held_fd t < 0 /\ parked_fd t < 0.
Proof.
  intros Hw Ht Hin. pose proof (winv_exists _ _ _ _ _ Hw Hin) as Hx. simpl in Hx. apply bool_decide_eq_true_1 in Hx.
  destruct (w_streams w !! s) as [st|] eqn:Es; [|done]. simpl in Hx. injection Hx as _ Hd.
  pose proof (tuner_res_in _ _ _ Ht) as Hs.
  assert (Hw2 : tuner_res i t ⊎ stream_res s st ⊆ R ⊎ world_res w).
  { pose proof (map_sum_in stream_res _ _ _ Es) as Hm. unfold world_res.
    assert (tuner_res i t ⊆ msum (imap tuner_res (w_tuners w))) by (apply (msum_in _ i); by rewrite list_lookup_imap, Ht).
    multiset_solver. }
  assert (Hfd : TFd (frontend_fd st) (tuner_dev t) ∈ stream_res s st).
  { unfold stream_res, stream_fd_toks. rewrite Hd. multiset_solver. }
  clear Hs. unfold tuner_res, fd_toks in *. split; apply Z.nle_gt; intros H0.
  - eapply (hold_excludes w jn R i t (frontend_fd st)); [done..|]. multiset_solver.
  - rewrite (proj2 (Z.leb_le 0 (parked_fd t)) H0) in Hw2.
    eapply (one_frontend w jn R (frontend_fd st) (parked_fd t) (adapter t) (frontend t) (stream_res s st)
      {[+ TFd (parked_fd t) (tuner_dev t) +]}); [done|exact Hfd|unfold tuner_dev; multiset_solver|]. multiset_solver.
Qed.

(** ** Sections on a tuner *)

(** What a thread with the tokens [R] knows of tuner [i] inside a section. *)
Definition tuner_facts (i : nat) (R : toks) (t : hdhr_tuner) : Prop :=
  tuner_ok i t /\ (forall o, TClaim i o ∈ R -> active_stream t = o /\ busy t = true) /\
  (held_fd t < 0 \/ parked_fd t < 0) /\
  (forall fd, TFd fd (tuner_dev t) ∈ R -> held_fd t < 0 /\ parked_fd t < 0 /\ held_stats_thread_started t = false) /\
  (forall fd tid b, TLive i fd tid b ∈ R -> refresher_of t = Some (fd, tid, b) /\ held_fd t < 0) /\
  (forall fd, TRefr i fd ∈ R -> held_fd t < 0 \/ held_fd t = fd) /\
  (forall s c, TStr s c (tuner_dev t) ∈ R -> held_fd t < 0 /\ parked_fd t < 0).

Lemma winv_tuner_facts w jn R F i t :
  winv w jn (R ⊎ F) -> w_tuners w !! i = Some t -> tuner_ok i t -> tuner_facts i R t.
Proof.
  intros Hw Ht Hok. split; [done|].
  split; [intros o Ho; apply (claim_info w jn (R ⊎ F) i); [done|multiset_solver|done]|].
  split; [by apply (held_parked w jn (R ⊎ F) i)|].
  split; [intros fd Hfd; apply (fd_excludes w jn (R ⊎ F) i t fd); [done..|multiset_solver]|].
  split; [|split].
  3:{ intros s c Hs. apply (stream_excludes w jn (R ⊎ F) i t s c); [done..|multiset_solver]. }
  2:{ intros fd Hl. pose proof (winv_exists _ _ _ _ (TRefr i fd) Hw ltac:(multiset_solver)) as Hx.
      simpl in Hx. apply bool_decide_eq_true_1 in Hx. rewrite Ht in Hx. simpl in Hx.
      destruct (refresher_of t) as [[[fd0 tid] b]|] eqn:Hr; [|done]. injection Hx as ->.
      destruct (decide (held_fd t < 0)) as [|Hn]; [by left|right].
      pose proof (tuner_res_in _ _ _ Ht) as Hs. unfold tuner_res, hold_toks, hold_of in Hs.
      rewrite Hr, (proj2 (Z.leb_le _ _)) in Hs by lia. simpl in Hs.
      pose proof (toks_exist w jn (R ⊎ F) (TLive i (held_fd t) tid b) Hw ltac:(multiset_solver)) as Hy.
      simpl in Hy. apply bool_decide_eq_true_1 in Hy. rewrite Ht in Hy. simpl in Hy. rewrite Hr in Hy. by injection Hy. }
  intros fd tid b Hl. pose proof (winv_exists _ _ _ _ (TLive i fd tid b) Hw ltac:(multiset_solver)) as Hx.
  simpl in Hx. apply bool_decide_eq_true_1 in Hx. rewrite Ht in Hx. injection Hx as Hx. split; [done|].
  apply Z.nle_gt. intros H0. pose proof (tuner_res_in _ _ _ Ht) as Hs. unfold tuner_res, hold_toks, hold_of in Hs.
  rewrite Hx, (proj2 (Z.leb_le _ _) H0) in Hs. simpl in Hs.
  pose proof (toks_exist w jn (R ⊎ F) (TLive i (held_fd t) tid b) Hw ltac:(multiset_solver)) as Hy.
  simpl in Hy. apply bool_decide_eq_true_1 in Hy. rewrite Ht in Hy. simpl in Hy. rewrite Hx in Hy. injection Hy as ->.
  pose proof (winv_once _ _ _ (TLive i (held_fd t) tid b) Hw) as H1. apply mult_pos in Hl.
  assert (TLive i (held_fd t) tid b ∈ world_res w) as Hr%mult_pos by multiset_solver.
  rewrite multiplicity_disj_union in H1. lia.
Qed.

(** What the state of a tuner makes exist, and what it makes disappear: the claim;
    while a refresher has not been joined, its descriptor as [TLive] instead of
    [TFd]. *)
Definition live_toks (i : nat) (t : hdhr_tuner) : toks :=
  if refresher_of t is Some (fd, tid, b) then {[+ TLive i fd tid b +]} ⊎ {[+ TRefr i fd +]} else ∅.
Definition state_toks (i : nat) (t : hdhr_tuner) : toks := {[+ TClaim i (active_stream t) +]} ⊎ live_toks i t.
Definition gone_toks (t : hdhr_tuner) : toks :=
  if refresher_of t is Some (fd, _, _) then {[+ TFd fd (tuner_dev t) +]} else ∅.

Lemma mult_live i t x : multiplicity x (live_toks i t) =
  match x with
  | TLive j fd tid b => if bool_decide (j = i /\ refresher_of t = Some (fd, tid, b)) then 1%nat else 0%nat
  | TRefr j fd => if bool_decide (j = i /\ (fun r => r.1.1) <$> refresher_of t = Some fd) then 1%nat else 0%nat
  | _ => 0%nat
  end.
Proof.
  unfold live_toks. destruct (refresher_of t) as [[[fd0 tid0] b0]|]; simpl.
  - rewrite multiplicity_disj_union, !multiplicity_singleton. destruct x; repeat case_decide; repeat case_bool_decide; naive_solver.
  - rewrite multiplicity_empty. destruct x; try done; by rewrite bool_decide_false by naive_solver.
Qed.

Lemma mult_gone t x : multiplicity x (gone_toks t) =
  match x with
  | TFd fd d => if bool_decide (held_stats_thread_started t = true /\ held_live_fd t = fd /\ d = tuner_dev t) then 1%nat else 0%nat
  | _ => 0%nat
  end.
Proof.
  unfold gone_toks, refresher_of. destruct (held_stats_thread_started t).
  - rewrite multiplicity_singleton. destruct x; repeat case_decide; repeat case_bool_decide; naive_solver.
  - rewrite multiplicity_empty. destruct x; try done; by rewrite bool_decide_false by naive_solver.
Qed.

(** The refresher of [t'] works on the descriptor of that of [t], or on one of [R]. *)
Definition refresher_from (R : toks) (t t' : hdhr_tuner) : Prop :=
  held_stats_thread_started t' = true ->
  (held_stats_thread_started t = true /\ held_live_fd t = held_live_fd t') \/ TFd (held_live_fd t') (tuner_dev t') ∈ R.

Lemma live_fds_insert ts (i : nat) t' fd : (i < length ts)%nat ->
  fd ∈ live_fds (<[i := t']> ts) <->
  (held_stats_thread_started t' = true /\ held_live_fd t' = fd) \/
  (exists j t, j <> i /\ ts !! j = Some t /\ held_stats_thread_started t = true /\ held_live_fd t = fd).
Proof.
  intros Hi. rewrite live_fds_elem. split.
  - intros (j & t & Hj & H). apply list_lookup_insert_Some in Hj as [(-> & -> & _)|[? Hj]]; [by left|]. right. eauto 10.
  - intros [H|(j & t & Hne & Hj & H)]; [exists i, t'|exists j, t].
    + by rewrite list_lookup_insert_eq.
    + by rewrite list_lookup_insert_ne.
Qed.

Section Replace.
Context (w : world) (jn : gmap nat joinable) (R F : toks) (i : nat) (t t' : hdhr_tuner).
Context (Hw : winv w jn (R ⊎ F)) (Ht : w_tuners w !! i = Some t) (Hok : tuner_ok i t').
Context (Hfrom : refresher_from (R ⊎ F) t t').

Lemma same_dev : tuner_dev t' = tuner_dev t.
Proof using Hok Hw Ht.
  destruct (wok_tuner _ _ (winv_ok _ _ _ _ Hw) _ _ Ht) as (_ & E1 & E2 & _). destruct Hok as (_ & E3 & E4 & _).
  unfold tuner_dev. by rewrite E1, E2, E3, E4.
Qed.

Lemma refresher_alone : held_stats_thread_started t' = true ->
  w_fds w !! held_live_fd t' = Some (tuner_dev t') /\
  forall j tj, j <> i -> w_tuners w !! j = Some tj -> held_stats_thread_started tj = true -> held_live_fd tj <> held_live_fd t'.
Proof using All.
  intros Hs. destruct (Hfrom Hs) as [[Hs0 E]|Hin].
  - rewrite <- E, same_dev. split; [by apply (wok_live _ _ (winv_ok _ _ _ _ Hw) i)|]. intros j tj Hne Hj Hsj Heq.
    apply Hne. by eapply (wok_live_inj _ _ (winv_ok _ _ _ _ Hw)).
  - destruct (fd_exists w jn (R ⊎ F) (held_live_fd t') (tuner_dev t') Hw ltac:(multiset_solver)) as [Hf Hn].
    split; [done|]. intros j tj Hne Hj Hsj Heq. apply Hn, live_fds_elem. eauto.
Qed.

Lemma world_ok_replace : world_ok cfg (w <| w_tuners ::= <[i := t']> |>).
Proof using All.
  pose proof (winv_ok _ _ _ _ Hw) as [Hc Hts Hdb Hf He Hl Hli]. split; upd_simpl; try done.
  - by rewrite length_insert.
  - intros j t0 [(<- & <- & _)|[_ H]]%list_lookup_insert_Some; [done|eauto].
  - intros j t0 [(<- & <- & _)|[_ H]]%list_lookup_insert_Some; [apply refresher_alone|eauto].
  - intros j k tj tk [(<- & <- & _)|[N1 H1]]%list_lookup_insert_Some [(<- & <- & _)|[N2 H2]]%list_lookup_insert_Some S1 S2 E;
      [done| | |eauto].
    + exfalso. destruct (refresher_alone S1) as [_ Hn]. by apply (Hn k tk).
    + exfalso. destruct (refresher_alone S2) as [_ Hn]. by apply (Hn j tj).
Qed.

(** How the tokens that exist change: the descriptors. *)
Lemma fd_replace fd d :
  (kmult (w <| w_tuners ::= <[i := t']> |>) jn (TFd fd d) + multiplicity (TFd fd d) (gone_toks t') =
   kmult w jn (TFd fd d) + multiplicity (TFd fd d) (gone_toks t))%nat.
Proof using All.
  pose proof (lookup_lt_Some _ _ _ Ht) as Hlt. pose proof (winv_ok _ _ _ _ Hw) as Hwok.
  rewrite !mult_gone, same_dev. unfold kmult. cbn [exists_tok]. upd_simpl.
  pose proof (live_fds_insert (w_tuners w) i t' fd Hlt) as H1. pose proof (live_fds_insert (w_tuners w) i t fd Hlt) as H2.
  rewrite list_insert_id in H2 by done.
  set (O := exists j t, j <> i /\ w_tuners w !! j = Some t /\ held_stats_thread_started t = true /\ held_live_fd t = fd) in *.
  assert (Ho' : held_stats_thread_started t' = true -> held_live_fd t' = fd -> ~ O /\ w_fds w !! fd = Some (tuner_dev t)).
  { intros Hs <-. destruct (refresher_alone Hs) as [Hf Hn]. rewrite same_dev in Hf. split; [|done].
    intros (j & tj & Hne & Hj & Hsj & E). by eapply Hn. }
  assert (Ho : held_stats_thread_started t = true -> held_live_fd t = fd -> ~ O /\ w_fds w !! fd = Some (tuner_dev t)).
  { intros Hs <-. split; [|by apply (wok_live _ _ Hwok i)]. intros (j & tj & Hne & Hj & Hsj & E). apply Hne.
    by eapply (wok_live_inj _ _ Hwok). }
  clearbody O. revert H1 H2 Ho Ho'. generalize (held_live_fd t) (held_live_fd t'). intros f f' H1 H2 Ho Ho'.
  destruct (held_stats_thread_started t), (held_stats_thread_started t');
    repeat case_bool_decide; simplify_eq; try lia; exfalso; naive_solver.
Qed.

(** How the tokens that exist change. *)
Lemma kmult_replace x :
  (kmult (w <| w_tuners ::= <[i := t']> |>) jn x + multiplicity x (state_toks i t ⊎ gone_toks t') =
   kmult w jn x + multiplicity x (state_toks i t' ⊎ gone_toks t))%nat.
Proof using All.
  pose proof (lookup_lt_Some _ _ _ Ht) as Hlt. unfold state_toks. rewrite !multiplicity_disj_union.
  destruct x as [fd d| j o | | | | |j fd tid b|j fd].
  1: { pose proof (fd_replace fd d). rewrite !mult_live, !multiplicity_singleton_ne by done. lia. }
  all: rewrite !mult_gone, !mult_live; try (rewrite !multiplicity_singleton_ne by done; done).
  all: unfold kmult; cbn [exists_tok]; upd_simpl; destruct (decide (j = i)) as [->|Hne];
    [rewrite list_lookup_insert_eq, Ht by done; cbn [fmap option_fmap option_map mbind option_bind]
    |rewrite list_lookup_insert_ne by done].
  1: rewrite !multiplicity_singleton; generalize (active_stream t) (active_stream t'); intros a a';
    repeat case_bool_decide; repeat case_decide; simplify_eq; lia.
  1: by rewrite !multiplicity_singleton_ne by congruence.
  all: rewrite !multiplicity_singleton_ne by done; try (rewrite !(bool_decide_false (j = i /\ _)) by (by intros [? _]); done).
  all: generalize (refresher_of t) (refresher_of t'); intros a a'; repeat case_bool_decide; naive_solver lia.
Qed.

(** Replacing the resources of tuner [i]. *)
Lemma winv_replace R' :
  R' ⊎ tuner_res i t' ⊎ (state_toks i t ⊎ gone_toks t') = R ⊎ tuner_res i t ⊎ (state_toks i t' ⊎ gone_toks t) ->
  winv (w <| w_tuners ::= <[i := t']> |>) jn (R' ⊎ F).
Proof using All.
  intros Heq. split; [apply world_ok_replace|]. intros x. pose proof (winv_res _ _ _ _ Hw x) as Hm.
  assert (Hwr : world_res (w <| w_tuners ::= <[i := t']> |>) ⊎ tuner_res i t = world_res w ⊎ tuner_res i t').
  { unfold world_res. upd_simpl. rewrite imap_insert.
    pose proof (msum_insert (imap tuner_res (w_tuners w)) i (tuner_res i t) (tuner_res i t')) as Hi.
    rewrite list_lookup_imap, Ht in Hi. by apply toks_shift_l, Hi. }
  pose proof (kmult_replace x) as Hk.
  apply (f_equal (multiplicity x)) in Heq. apply (f_equal (multiplicity x)) in Hwr.
  rewrite !multiplicity_disj_union in *. lia.
Qed.
End Replace.

(** The refresher stays as it is. *)
Lemma winv_tuner w jn R R' F i t t' :
  winv w jn (R ⊎ F) -> w_tuners w !! i = Some t -> tuner_ok i t' -> refresher_of t' = refresher_of t ->
  R' ⊎ tuner_res i t' ⊎ {[+ TClaim i (active_stream t) +]} = R ⊎ tuner_res i t ⊎ {[+ TClaim i (active_stream t') +]} ->
  winv (w <| w_tuners ::= <[i := t']> |>) jn (R' ⊎ F).
Proof.
  intros Hw Ht Hok Hr Heq. apply (winv_replace w jn R F i t t'); [done..| |].
  - intros Hs. left. unfold refresher_of in Hr. rewrite Hs in Hr.
    destruct (held_stats_thread_started t); [|done]. split; [done|]. congruence.
  - assert (live_toks i t' = live_toks i t) as E1 by (unfold live_toks; by rewrite Hr).
    assert (gone_toks t' = gone_toks t) as E2 by (unfold gone_toks; by rewrite Hr, (same_dev w jn R F i t t')).
    unfold state_toks. rewrite E1, E2. revert Heq. clear.
    generalize (tuner_res i t) (tuner_res i t') ({[+ TClaim i (active_stream t) +]} : toks)
      ({[+ TClaim i (active_stream t') +]} : toks) (live_toks i t) (gone_toks t).
    intros. multiset_solver.
Qed.

(** A section that leaves the resources of the tuner alone. *)
Definition same_tuner_res (t t' : hdhr_tuner) : Prop :=
  index t' = index t /\ adapter t' = adapter t /\ frontend t' = frontend t /\ held_fd t' = held_fd t /\
  parked_fd t' = parked_fd t /\ active_stream t' = active_stream t /\ busy t' = busy t /\
  refresher_of t' = refresher_of t /\
  (pending_ok t -> pending_ok t').

Lemma same_tuner_ok i t t' : same_tuner_res t t' -> tuner_ok i t -> tuner_ok i t'.
Proof.
  intros (E1 & E2 & E3 & E4 & E5 & E6 & E7 & Er & Hp) (H1 & H2 & H3 & H4 & H5). unfold Own.tuner_ok.
  rewrite E1, E2, E3, E6, E7. auto 10.
Qed.

Lemma same_tuner_res_eq i t t' : same_tuner_res t t' -> tuner_res i t' = tuner_res i t.
Proof.
  intros (E1 & E2 & E3 & E4 & E5 & E6 & E7 & Er & Hp). unfold tuner_res, tuner_dev, hold_of. by rewrite E2, E3, E4, E5, E6, E7, Er.
Qed.

Lemma same_tuner_moves t t' : same_tuner_res t t' -> tuner_moves t t'.
Proof. intros (_ & _ & _ & E4 & E5 & E6 & E7 & _). by apply moves_same. Qed.

Lemma same_life t t' : same_tuner_res t t' -> life_of t = life_of t'.
Proof. intros (_ & _ & _ & E4 & E5 & E6 & E7 & _). unfold life_of. by rewrite E4, E5, E6, E7. Qed.

Lemma winv_tuner_same w jn R i t t' :
  winv w jn R -> w_tuners w !! i = Some t -> same_tuner_res t t' -> winv (w <| w_tuners ::= <[i := t']> |>) jn R.
Proof.
  intros Hw Ht Hs. pose proof (wok_tuner _ _ (winv_ok _ _ _ _ Hw) _ _ Ht) as Hok.
  replace R with (R ⊎ ∅) in * by multiset_solver.
  apply (winv_tuner w jn R R ∅ i t t'); [done|done|by eapply same_tuner_ok|apply Hs|].
  rewrite (same_tuner_res_eq i t t' Hs). destruct Hs as (_ & _ & _ & _ & _ & -> & _). done.
Qed.

Lemma wp_tuner_live {X} i (f : sect_env -> hdhr_tuner -> X * hdhr_tuner) R (Q : X -> toks -> Prop) :
  (i < ntuners)%nat ->
  (forall e t, tuner_facts i R t ->
     tuner_ok i (f e t).2 /\ tuner_moves t (f e t).2 /\ refresher_from R t (f e t).2 /\ exists R',
       R' ⊎ tuner_res i (f e t).2 ⊎ (state_toks i t ⊎ gone_toks (f e t).2) =
       R ⊎ tuner_res i t ⊎ (state_toks i (f e t).2 ⊎ gone_toks t) /\ Q (f e t).1 R') ->
  wp (tuner_sect i f) R Q.
Proof.
  intros Hi H e w jn F Hw Hj. destruct (winv_lookup _ _ _ i Hw Hi) as (t & Ht & Hok). rewrite Ht.
  specialize (H e t (winv_tuner_facts _ _ _ _ _ _ Hw Ht Hok)).
  destruct (f e t) as [x t'] eqn:E. simpl in H. destruct H as (Hok' & Hmv & Hfrom & R' & Heq & HQ).
  exists R', ∅. split; [done|]. simpl. replace (R' ⊎ ∅ ⊎ F) with (R' ⊎ F) by multiset_solver.
  split; [|split; [by apply (guarantee_tuner w i t t')|done]]. eapply winv_replace; try done. intros Hs. destruct (Hfrom Hs); [by left|right; multiset_solver].
Qed.

Lemma wp_tuner_sect {X} i (f : sect_env -> hdhr_tuner -> X * hdhr_tuner) R (Q : X -> toks -> Prop) :
  (i < ntuners)%nat ->
  (forall e t, tuner_facts i R t ->
     tuner_ok i (f e t).2 /\ tuner_moves t (f e t).2 /\ refresher_of (f e t).2 = refresher_of t /\ exists R',
       R' ⊎ tuner_res i (f e t).2 ⊎ {[+ TClaim i (active_stream t) +]} =
       R ⊎ tuner_res i t ⊎ {[+ TClaim i (active_stream (f e t).2) +]} /\ Q (f e t).1 R') ->
  wp (tuner_sect i f) R Q.
Proof.
  intros Hi H e w jn F Hw Hj. destruct (winv_lookup _ _ _ i Hw Hi) as (t & Ht & Hok). rewrite Ht.
  specialize (H e t (winv_tuner_facts _ _ _ _ _ _ Hw Ht Hok)).
  destruct (f e t) as [x t'] eqn:E. simpl in H. destruct H as (Hok' & Hmv & Hr & R' & Heq & HQ).
  exists R', ∅. split; [done|]. simpl. replace (R' ⊎ ∅ ⊎ F) with (R' ⊎ F) by multiset_solver.
  split; [by eapply winv_tuner|]. split; [by apply (guarantee_tuner w i t t')|done].
Qed.

Lemma wp_tuner_neutral {X} i (f : sect_env -> hdhr_tuner -> X * hdhr_tuner) R (Q : X -> toks -> Prop) :
  (i < ntuners)%nat ->
  (forall e t, tuner_facts i R t -> same_tuner_res t (f e t).2 /\ Q (f e t).1 R) ->
  wp (tuner_sect i f) R Q.
Proof.
  intros Hi H. apply wp_tuner_sect; [done|]. intros e t Ht. destruct (H e t Ht) as [Hs HQ].
  split; [eapply same_tuner_ok; [done|apply Ht]|]. split; [by apply same_tuner_moves|]. split; [apply Hs|]. exists R. rewrite (same_tuner_res_eq i t) by done.
  destruct Hs as (_ & _ & _ & _ & _ & -> & _). done.
Qed.

Lemma wp_tun_get {X} i (f : hdhr_tuner -> X) R (Q : X -> toks -> Prop) :
  (i < ntuners)%nat -> (forall t, tuner_facts i R t -> Q (f t) R) -> wp (tun_get i f) R Q.
Proof.
  intros Hi H. apply wp_tuner_neutral; [done|]. intros e t Ht. simpl. split; [|auto].
  unfold same_tuner_res. auto 12.
Qed.

Lemma wp_tun_set i (f : hdhr_tuner -> hdhr_tuner) R (Q : unit -> toks -> Prop) :
  (i < ntuners)%nat -> (forall t, same_tuner_res t (f t)) -> Q tt R -> wp (tun_set i f) R Q.
Proof. intros Hi H HQ. apply wp_tuner_neutral; [done|]. intros e t Ht. simpl. auto. Qed.

(** ** Sections that leave every resource alone *)

Definition same_res (w w' : world) : Prop :=
  w_fds w' = w_fds w /\ w_streams w' = w_streams w /\ (table_ok (w_db w) -> table_ok (w_db w') /\ table_grows (w_db w) (w_db w')) /\
  length (w_tuners w') = length (w_tuners w) /\
  (forall i t t', w_tuners w !! i = Some t -> w_tuners w' !! i = Some t' -> same_tuner_res t t').

Lemma refresher_same t t' : refresher_of t' = refresher_of t -> held_stats_thread_started t' = true ->
  held_stats_thread_started t = true /\ held_live_fd t' = held_live_fd t.
Proof.
  unfold refresher_of. intros H E. rewrite E in H. destruct (held_stats_thread_started t); [|done].
  split; [done|]. congruence.
Qed.

Lemma winv_same_res w w' jn R : same_res w w' -> winv w jn R -> winv w' jn R.
Proof.
  intros (Ef & Es & Ed & El & Et) [[Hc Ht Hdb Hf He Hl Hli] Hm].
  assert (Hlk : forall i t', w_tuners w' !! i = Some t' -> exists t, w_tuners w !! i = Some t /\ same_tuner_res t t').
  { intros i t' H'. destruct (lookup_lt_is_Some_2 (w_tuners w) i) as [t H]; [apply lookup_lt_Some in H'; lia|]. eauto. }
  split.
  - assert (Hrs : forall i t', w_tuners w' !! i = Some t' -> held_stats_thread_started t' = true ->
      exists t, w_tuners w !! i = Some t /\ held_stats_thread_started t = true /\ held_live_fd t' = held_live_fd t /\
        tuner_dev t' = tuner_dev t).
    { intros i t' H' Hs'. destruct (Hlk i t' H') as (t & H & (_ & E2 & E3 & _ & _ & _ & _ & Er & _)).
      destruct (refresher_same t t' Er Hs'). exists t. unfold tuner_dev. rewrite E2, E3. auto. }
    split; rewrite ?Ef, ?El; try done; [|by apply Ed| |].
    + intros i t' H'. destruct (Hlk i t' H') as (t & H & Hs). eapply same_tuner_ok; eauto.
    + intros i t' H' Hs'. destruct (Hrs i t' H' Hs') as (t & H & Hs & -> & ->). eauto.
    + intros i j t1 t2 H1 H2 S1 S2 E. destruct (Hrs i t1 H1 S1) as (u1 & U1 & V1 & E1 & _).
      destruct (Hrs j t2 H2 S2) as (u2 & U2 & V2 & E2 & _). apply (Hli i j u1 u2); congruence.
  - intros x. specialize (Hm x).
    assert (world_res w' = world_res w) as ->.
    { unfold world_res. rewrite Es. f_equal. f_equal. apply list_eq. intros i. rewrite !list_lookup_imap.
      destruct (w_tuners w' !! i) as [t'|] eqn:E'.
      - destruct (Hlk i t' E') as (t & -> & Hs). simpl. f_equal. by apply same_tuner_res_eq.
      - apply lookup_ge_None in E'. rewrite lookup_ge_None_2; [done|lia]. }
    assert (kmult w' jn x = kmult w jn x) as ->; [|done]. unfold kmult.
    assert (exists_tok w' jn x = exists_tok w jn x) as ->; [|done].
    assert (El' : live_fds (w_tuners w') = live_fds (w_tuners w)).
    { unfold live_fds. revert El Et. clear. generalize (w_tuners w) (w_tuners w').
      intros l. induction l as [|t l IH]; intros [|t' l'] El Et; try done. rewrite !omap_cons_eq.
      rewrite (IH l') by (first [by injection El|intros i; apply (Et (S i))]).
      pose proof (Et 0%nat t t' eq_refl eq_refl) as (_ & _ & _ & _ & _ & _ & _ & Er & _). by rewrite Er. }
    destruct x; simpl; rewrite ?Ef, ?Es, ?El'; try done;
      (destruct (w_tuners w' !! i) as [t'|] eqn:E';
       [destruct (Hlk i t' E') as (t & -> & Hs); simpl; by destruct Hs as (_ & _ & _ & _ & _ & Ea & _ & Er & _); rewrite ?Ea, ?Er
       |apply lookup_ge_None in E'; rewrite (lookup_ge_None_2 (w_tuners w)); [done|lia]]).
Qed.

Lemma same_res_guarantee w w' : same_res w w' -> table_ok (w_db w) -> guarantee w w'.
Proof.
  intros (_ & Es & Ed & _ & Et) Hdb. split; [|by left; rewrite Es| |by apply Ed].
  - intros i t t' H H'. by eapply same_tuner_moves, Et.
  - rewrite Es. intros s st st' H H'. assert (st' = st) as -> by congruence. apply wakes_refl.
Qed.

Lemma same_res_refl w : same_res w w.
Proof.
  split; [done|]. split; [done|]. split; [done|]. split; [done|]. intros i t t' H H'. assert (t' = t) as -> by congruence.
  unfold same_tuner_res. auto 12.
Qed.

(** Knowledge a thread has in a section on the whole world. *)
Definition world_facts (R : toks) (w : world) : Prop :=
  length (w_tuners w) = ntuners /\
  (forall i t, w_tuners w !! i = Some t -> tuner_ok i t) /\
  (forall i t s, w_tuners w !! i = Some t -> active_stream t = Some s -> is_Some (w_streams w !! s)) /\
  table_ok (w_db w).

Lemma winv_facts w jn R F : winv w jn (R ⊎ F) -> world_facts R w.
Proof.
  intros Hw. split; [apply (wok_count _ _ (winv_ok _ _ _ _ Hw))|].
  split; [apply (wok_tuner _ _ (winv_ok _ _ _ _ Hw))|].
  split; [|apply (wok_db _ _ (winv_ok _ _ _ _ Hw))]. intros i t s Ht Ha.
  pose proof (tuner_res_in _ _ _ Ht) as Hs. unfold tuner_res in Hs. rewrite Ha in Hs.
  assert (TStr s Open (tuner_dev t) ∈ world_res w) as Hx by multiset_solver.
  pose proof (winv_res _ _ _ _ Hw (TStr s Open (tuner_dev t))) as H. apply mult_pos in Hx. unfold kmult in H. simpl in H.
  case_bool_decide as E; [|lia]. by destruct (w_streams w !! s).
Qed.

Lemma wp_sect_same {X} (f : sect_env -> world -> option (X * world * option spawn)) R (Q : X -> toks -> Prop) :
  (forall e w, world_facts R w -> exists x w', f e w = Some (x, w', None) /\ same_res w w' /\ Q x R) ->
  wp (sect f) R Q.
Proof.
  intros H e w jn F Hw Hj. destruct (H e w (winv_facts _ _ _ _ Hw)) as (x & w' & -> & Hs & HQ).
  exists R, ∅. split; [done|]. simpl. replace (R ⊎ ∅ ⊎ F) with (R ⊎ F) by multiset_solver.
  split; [by eapply winv_same_res|]. split; [|done]. apply same_res_guarantee; [done|apply (winv_ok _ _ _ _ Hw)].
Qed.

Lemma wp_tun_db i (f : channel_db -> hdhr_tuner -> hdhr_tuner) R (Q : unit -> toks -> Prop) :
  (i < ntuners)%nat -> (forall db t, same_tuner_res t (f db t)) -> Q tt R -> wp (tun_db i f) R Q.
Proof.
  intros Hi Hf HQ. apply wp_sect_same. intros e w (Hc & _).
  destruct (lookup_lt_is_Some_2 (w_tuners w) i) as [t Ht]; [lia|]. rewrite Ht. eexists _, _. split; [done|]. split; [|done].
  split; [done|]. split; [done|]. split; [by intros Hdb; split|]. split; [cbn; by rewrite length_insert|]. intros j t1 t2 H1 H2.
  cbn in H2. destruct (decide (j = i)) as [->|Hne].
  - rewrite list_lookup_insert_eq in H2 by (by eapply lookup_lt_Some). rewrite H1 in Ht. simplify_eq. apply Hf.
  - rewrite list_lookup_insert_ne in H2 by done. assert (t2 = t1) as -> by congruence. apply same_res_refl with (w := w) (i := j); done.
Qed.

Lemma wp_db_sect {X} (f : channel_db -> X * channel_db) R (Q : X -> toks -> Prop) :
  (forall db, table_ok db -> table_ok (f db).2 /\ table_grows db (f db).2 /\ Q (f db).1 R) -> wp (db_sect f) R Q.
Proof.
  intros H. apply wp_sect_same. intros e w (_ & _ & _ & Hok). specialize (H (w_db w) Hok). destruct (f (w_db w)) as [x db].
  eexists _, _. split; [done|]. split; [|apply H].
  split; [done|]. split; [done|]. split; [intros _; split; apply H|]. split; [done|]. apply (same_res_refl w).
Qed.

Lemma wp_db_get {X} (f : channel_db -> X) R (Q : X -> toks -> Prop) :
  (forall db, table_ok db -> Q (f db) R) -> wp (db_get f) R Q.
Proof. intros H. apply wp_db_sect. intros db Hdb. split; [done|]. split; [done|]. by apply H. Qed.

(** ** Sections on a stream *)

(** The fields that carry resources are the same, and no wake-up is lost. *)
Definition same_stream_res (s s' : dvb_stream) : Prop :=
  opened_on s' = opened_on s /\ frontend_fd s' = frontend_fd s /\ demux_fds s' = demux_fds s /\
  dvr_fd s' = dvr_fd s /\ reader_thread s' = reader_thread s /\ closing s' = closing s /\
  opened s' = opened s /\ stats_thread s' = stats_thread s /\ stats_thread_started s' = stats_thread_started s /\
  wakes_kept s s'.

(** Replacing stream [s] and what its tokens stand for. *)
Lemma winv_stream w jn R R' F s st st' :
  winv w jn (R ⊎ F) -> w_streams w !! s = Some st ->
  dvr_fd st' = dvr_fd st -> frontend_fd st' = frontend_fd st ->
  R' ⊎ stream_res s st' ⊎ {[+ TStr s (stream_phase st) (stream_frontend st) +]} =
    R ⊎ stream_res s st ⊎ {[+ TStr s (stream_phase st') (stream_frontend st') +]} ->
  winv (w <| w_streams ::= <[s := st']> |>) jn (R' ⊎ F).
Proof.
  intros [[Hc Ht Hdb Hf He Hl Hli] Hm] Hs Hd Hff Heq. split; [by split|]. intros x. specialize (Hm x).
  assert (Hwr : world_res (w <| w_streams ::= <[s := st']> |>) ⊎ stream_res s st = world_res w ⊎ stream_res s st').
  { unfold world_res. upd_simpl. pose proof (map_sum_update stream_res _ _ _ st' Hs) as Hi.
    by apply toks_shift. }
  assert (Hk : (kmult (w <| w_streams ::= <[s := st']> |>) jn x +
                multiplicity x {[+ TStr s (stream_phase st) (stream_frontend st) +]} =
                kmult w jn x + multiplicity x {[+ TStr s (stream_phase st') (stream_frontend st') +]})%nat).
  { unfold kmult. destruct x as [fd d|i o|s0 c d|s0 fd|s0 fd|tid j|i fd tid b|i fd]; simpl; upd_simpl;
      try (rewrite !multiplicity_singleton_ne by done; done).
    - destruct (decide (s0 = s)) as [->|Hne].
      + rewrite lookup_insert_eq, Hs. simpl. rewrite !multiplicity_singleton.
        repeat case_bool_decide; repeat case_decide; try lia; try congruence; simplify_eq.
      + rewrite lookup_insert_ne by done. by rewrite !multiplicity_singleton_ne by congruence.
    - rewrite !multiplicity_singleton_ne by done. destruct (decide (s0 = s)) as [->|Hne].
      + rewrite lookup_insert_eq, Hs. simpl. by rewrite Hd.
      + by rewrite lookup_insert_ne.
    - rewrite !multiplicity_singleton_ne by done. destruct (decide (s0 = s)) as [->|Hne].
      + rewrite lookup_insert_eq, Hs. simpl. by rewrite Hff.
      + by rewrite lookup_insert_ne. }
  apply (f_equal (multiplicity x)) in Heq. apply (f_equal (multiplicity x)) in Hwr.
  rewrite !multiplicity_disj_union in *. lia.
Qed.

Lemma wp_stream_neutral {X} s (f : sect_env -> dvb_stream -> X * dvb_stream) R (Q : X -> toks -> Prop) :
  stream_live R s ->
  (forall e st, same_stream_res st (f e st).2 /\ Q (f e st).1 R) ->
  wp (stream_sect s f) R Q.
Proof.
  intros Hl H e w jn F Hw Hj.
  destruct (live_stream _ w jn _ F s Hw Hl) as [st Hs]. rewrite Hs.
  specialize (H e st). destruct (f e st) as [x st'] eqn:E. simpl in H.
  destruct H as ((E1 & E2 & E3 & E4 & E5 & E6 & E7 & E8 & E9 & Hk) & HQ).
  exists R, ∅. split; [done|]. simpl. replace (R ⊎ ∅ ⊎ F) with (R ⊎ F) by multiset_solver. split.
  2:{ split; [|done]. apply guarantee_stream; [left; rewrite Hs; unfold stream_phase; simpl; by rewrite E6, E7|].
      intros st0 Hs0. by assert (st0 = st) as -> by congruence. }
  eapply winv_stream; try done.
  unfold stream_res, stream_join_toks, stream_fd_toks, stream_phase, stream_frontend, stream_demux, stream_dvr.
  by rewrite E1, E2, E3, E4, E5, E6, E7, E8, E9.
Qed.

Lemma wp_spawn_detached th Rth R R0 (Q : bool -> toks -> Prop) :
  thread_pre cfg th -> thread_post th Rth = ∅ -> thread_res cfg th Rth -> R = R0 ⊎ Rth ->
  Q true R0 -> Q false R -> wp (spawn_detached th) R Q.
Proof.
  intros Hp Hpost Hres -> Ht Hf e w jn F Hw Hj. destruct (e_create_ok e).
  - exists R0, Rth. split; [done|]. split; [done|]. split; [apply guarantee_refl|done].
  - exists (R0 ⊎ Rth), ∅. simpl. split; [done|]. split; [|split; [apply guarantee_refl|done]].
    replace (R0 ⊎ Rth ⊎ ∅ ⊎ F) with (R0 ⊎ Rth ⊎ F) by multiset_solver. done.
Qed.
End Rules.

(** A tuner section whose changes touch no resource: first the case analysis,
    then one of these. *)
Ltac neutral_set := intros; unfold same_tuner_res; repeat apply conj; first [reflexivity | exact id].
Ltac neutral := intros; split; [neutral_set|].

(** A stream section that changes no resource. *)
Ltac same_stream :=
  cbn [fst snd]; unfold same_stream_res; repeat (split; [reflexivity|]);
  first [apply wakes_same; reflexivity | apply wakes_signal_empty; [reflexivity..|] | apply wakes_signal_full; [reflexivity..|]].

(** ** Automation *)

(** A query that neither needs nor changes tokens. *)
Definition plain_query (q : query) : bool :=
  match q with QOpen _ | QClose _ | QIoctl _ _ | QPollMany _ _ | QCondWait (NotEmpty _ | NotFull _ _) _ => false | _ => true end.

Lemma wp_env_plain cfg q R (Q : answer q -> toks -> Prop) :
  plain_query q = true -> (forall a, Q a R) -> wp cfg (env q) R Q.
Proof. intros Hq HQ. simpl. destruct q; try done. by case_cond. Qed.

Lemma wp_wait_stream cfg c ms s R (Q : bool -> toks -> Prop) :
  match c with NotEmpty s' | NotFull s' _ => s' = s | _ => False end -> stream_live R s -> (forall b, Q b R) ->
  wp cfg (env (QCondWait c ms)) R Q.
Proof. intros Hc Hl HQ. destruct c; try done; subst; by split. Qed.

Lemma wp_ioctl cfg fd r R (Q : fd_answer r -> toks -> Prop) :
  may_use R fd -> (forall a, Q a R) -> wp cfg (env (QIoctl fd r)) R Q.
Proof. intros Hu HQ. simpl. by split. Qed.

Lemma wp_ret cfg {X} (x : X) R (Q : X -> toks -> Prop) : Q x R -> wp cfg (Ret x) R Q.
Proof. done. Qed.

(** Consequence for a program that leaves its tokens alone. *)
Lemma wp_keep cfg {X} (p : prog X) R (Q : X -> toks -> Prop) :
  wp cfg p R (fun _ R' => R' = R) -> (forall x, Q x R) -> wp cfg p R Q.
Proof. intros H HQ. eapply wp_mono; [|exact H]. intros x R' ->. apply HQ. Qed.

Create HintDb wp discriminated.

(** [wp_rule] closes or simplifies a [wp] goal of a called function with the
    rules of the hint database; [wp_step] goes past one operation or branch. *)
Lemma fd_toks_nonneg fd d : 0 <= fd -> fd_toks fd d = {[+ TFd fd d +]}.
Proof. intros H. unfold fd_toks. destruct (0 <=? fd) eqn:E; zb; [done|lia]. Qed.
Lemma fd_toks_neg fd d : fd < 0 -> fd_toks fd d = ∅.
Proof. intros H. unfold fd_toks. destruct (0 <=? fd) eqn:E; zb; [lia|done]. Qed.

Lemma wp_open cfg d R (Q : Z -> toks -> Prop) :
  (forall fd, fd < 0 -> Q fd R) -> (forall fd, 0 <= fd -> Q fd (R ⊎ {[+ TFd fd d +]})) -> wp cfg (env (QOpen d)) R Q.
Proof.
  intros Hn Hp fd. destruct (decide (fd < 0)).
  - rewrite fd_toks_neg by done. replace (R ⊎ ∅) with R by multiset_solver. apply wp_ret. auto.
  - rewrite fd_toks_nonneg by lia. apply wp_ret. apply Hp. lia.
Qed.

Lemma wp_close cfg fd d R R' (Q : unit -> toks -> Prop) :
  R = R' ⊎ {[+ TFd fd d +]} -> Q tt R' -> wp cfg (env (QClose fd)) R Q.
Proof. intros -> HQ. exists d, R'. done. Qed.

Lemma may_use_fd R fd d : TFd fd d ∈ R -> may_use R fd.
Proof. intros H. left. by exists d. Qed.

Lemma may_use_last R fd d : may_use (R ⊎ {[+ TFd fd d +]}) fd.
Proof. apply (may_use_fd _ fd d). multiset_solver. Qed.
Lemma may_use_reader R s fd : may_use (R ⊎ {[+ TReader s fd +]}) fd.
Proof. right; left. exists s. multiset_solver. Qed.
#[export] Hint Resolve may_use_last may_use_reader may_use_frame : wp.

Ltac wp_use := solve [ assumption | done | eauto 6 with wp ].
Ltac wp_step :=
  cbv beta zeta;
  lazymatch goal with
  | |- wp ?c (bind (Ret ?x) ?f) ?R ?Q => change (wp c (f x) R Q)
  | |- wp _ (bind _ _) _ _ => apply wp_bind
  | |- wp _ (Ret _) _ _ => apply wp_ret
  | |- wp _ (Stop OutOfFuel) _ _ => exact I
  | |- wp _ (env (QIoctl _ _)) _ _ => apply wp_ioctl; [intros; wp_use|intros ?]
  | |- wp _ (env (QCondWait (NotEmpty _) _)) _ _ => eapply wp_wait_stream; [reflexivity|wp_use|intros ?]
  | |- wp _ (env (QCondWait (NotFull _ _) _)) _ _ => eapply wp_wait_stream; [reflexivity|wp_use|intros ?]
  | |- wp _ (env _) _ _ => apply wp_env_plain; [reflexivity|intros ?]
  | |- wp _ (when _ _) _ _ => apply wp_when; intros ?
  | |- wp _ (match ?b with _ => _ end) _ _ => destruct b eqn:?
  end.
Ltac wp_go := repeat wp_step; cbv beta zeta.
