(* ===== verification/Frontend.v ===== *)
(** Frontend control: src/src/dvb_frontend.c.

    Opening, tuning, waiting for lock and reading statistics, as programs over
    the frontend's ioctls (the arithmetic is in [Stats]).  The theorem: waiting
    for lock ends, by lock or by the timeout. *)
From stdpp Require Import gmultiset.
From S2P Require Import Prelude RecordUpd CLib ChannelDb Config Stats Ring Tuner Sys Own Rules.

(** Property numbers of the DVB API. *)
Definition DTV_TUNE : Z := 1.
Definition DTV_FREQUENCY : Z := 3.
Definition DTV_MODULATION : Z := 4.
Definition DTV_SYMBOL_RATE : Z := 8.
Definition DTV_DELIVERY_SYSTEM : Z := 17.
Definition SYS_DVBC_ANNEX_B : Z := 2.
Definition SYS_ATSC : Z := 11.
Definition QAM_AUTO : Z := 6.
Definition VSB_8 : Z := 7.
Definition HDHR_QAM_SYMBOL_RATE : Z := 5360537.

Definition ioctl (fd : Z) (r : fdreq) : prog (fd_answer r) := env (QIoctl fd r).

Definition dvb_frontend_open (adapter frontend : Z) : prog Z := env (QOpen (DevFrontend adapter frontend)).

Definition dvb_frontend_close (fd : Z) : prog unit := if 0 <=? fd then env (QClose fd) else Ret tt.

Definition dvb_frontend_tune_8vsb (fd frequency_hz : Z) : prog Z :=
  ok <- ioctl fd (FE_SET_PROPERTY [(DTV_DELIVERY_SYSTEM, SYS_ATSC); (DTV_MODULATION, VSB_8);
                                   (DTV_FREQUENCY, frequency_hz); (DTV_TUNE, 0)]) ;;
  Ret (if ok : bool then 0 else -1).

Definition dvb_frontend_tune_qam (fd frequency_hz : Z) : prog Z :=
  ok <- ioctl fd (FE_SET_PROPERTY [(DTV_DELIVERY_SYSTEM, SYS_DVBC_ANNEX_B); (DTV_MODULATION, QAM_AUTO);
                                   (DTV_SYMBOL_RATE, HDHR_QAM_SYMBOL_RATE);
                                   (DTV_FREQUENCY, frequency_hz); (DTV_TUNE, 0)]) ;;
  Ret (if ok : bool then 0 else -1).

(** The callers' choice between the two. *)
Definition tune_delivery (fd delivery frequency_hz : Z) : prog Z :=
  if is_qam delivery then dvb_frontend_tune_qam fd frequency_hz else dvb_frontend_tune_8vsb fd frequency_hz.

(** The answer is the property cache's frequency and delivery system. *)
Definition dvb_frontend_is_tuned_to (fd freq_hz : Z) (qam : bool) : prog bool :=
  p <- ioctl fd FE_GET_TUNED ;;
  Ret match p : option (Z * Z) with
      | None => false
      | Some (f, d) => (f =? freq_hz) && (d =? if qam then SYS_DVBC_ANNEX_B else SYS_ATSC)
      end.

Definition PROGRESS_CB_INTERVAL_MS : Z := 250.

Definition elapsed_ms (since now : timespec) : Z :=
  (tv_sec now - tv_sec since) * 1000 + Z.quot (tv_nsec now - tv_nsec since) 1000000.

(** The loop of [dvb_frontend_wait_lock]; [cb] is the progress callback, which
    works on a context of type [C] of its caller. *)
Fixpoint wait_lock_loop {C} (fuel : nat) (fd timeout_ms : Z) (cb : option (C -> Z -> prog C)) (ctx : C)
    (start : timespec) (since_cb_ms : Z) : prog (bool * C) :=
  match fuel with
  | O => Spin
  | S fuel =>
      status <- ioctl fd FE_READ_STATUS ;;
      let call := match status : option Z, cb with Some _, Some _ => PROGRESS_CB_INTERVAL_MS <=? since_cb_ms | _, _ => false end in
      ctx <- (if call then match cb with Some cb => cb ctx fd | None => Ret ctx end else Ret ctx) ;;
      let since_cb_ms := if call then 0 else since_cb_ms in
      if (match status : option Z with Some st => negb (Z.land st FE_HAS_LOCK =? 0) | None => false end) then Ret (true, ctx)
      else
        env (QSleep 50000) ;;
        now <- env QNow ;;
        if timeout_ms <=? elapsed_ms start now then Ret (false, ctx)
        else wait_lock_loop fuel fd timeout_ms cb ctx start (since_cb_ms + 50)
  end.

Definition dvb_frontend_wait_lock {C} (fuel : nat) (fd timeout_ms : Z) (cb : option (C -> Z -> prog C)) (ctx : C) :
    prog (bool * C) :=
  start <- env QNow ;;
  wait_lock_loop fuel fd timeout_ms cb ctx start PROGRESS_CB_INTERVAL_MS.

Definition dvb_frontend_read_stats (fd : Z) : prog dvb_signal_stats :=
  status <- env (QIoctl fd FE_READ_STATUS) ;;
  props <- env (QIoctl fd FE_GET_STATS) ;;
  Ret (stats_of status props).

Definition dvb_frontend_read_legacy_ucblocks (fd : Z) : prog (option Z) :=
  env (QIoctl fd FE_READ_UNCORRECTED_BLOCKS).

(** One property alone, in decibels. *)
Definition DTV_STAT_SIGNAL_STRENGTH : Z := 62.
Definition DTV_STAT_CNR : Z := 63.
Definition read_raw_decibel (fd cmd : Z) : prog (option dbl) :=
  st <- ioctl fd (FE_GET_STAT cmd) ;;
  Ret ((st : option dtv_stat) ≫= raw_decibel).
Definition dvb_frontend_read_raw_signal_dbm (fd : Z) : prog (option dbl) := read_raw_decibel fd DTV_STAT_SIGNAL_STRENGTH.
Definition dvb_frontend_read_raw_snr_db (fd : Z) : prog (option dbl) := read_raw_decibel fd DTV_STAT_CNR.

(** The ioctl and the clock reading of [dvb_frontend_legacy_seq_pct], without a
    lock neither; [legacy_seq_step] does the rest. *)
Definition legacy_reading (fd : Z) (lock : bool) : prog (option Z * timespec) :=
  if lock then
    ub <- dvb_frontend_read_legacy_ucblocks fd ;;
    match ub with
    | None => Ret (None, time0)
    | Some _ => now <- env QNow ;; Ret (ub, now)
    end
  else Ret (None, time0).

Definition dvb_frontend_legacy_seq_pct (fd : Z) (state : dvb_legacy_seq_state) (lock : bool) :
    prog (Z * dvb_legacy_seq_state) :=
  r <- legacy_reading fd lock ;;
  Ret (legacy_seq_step state lock r.1 r.2).

(** ** Ownership *)

Section Specs.
Context (cfg : hdhr_config).
Local Notation wp := (wp cfg).

Lemma wp_frontend_open a f R (Q : Z -> toks -> Prop) :
  (forall fd, fd < 0 -> Q fd R) -> (forall fd, 0 <= fd -> Q fd (R ⊎ {[+ TFd fd (DevFrontend a f) +]})) ->
  wp (dvb_frontend_open a f) R Q.
Proof. apply wp_open. Qed.

Lemma wp_frontend_close fd d R R' (Q : unit -> toks -> Prop) :
  R = R' ⊎ fd_toks fd d -> Q tt R' -> wp (dvb_frontend_close fd) R Q.
Proof.
  intros -> HQ. unfold dvb_frontend_close, fd_toks. destruct (0 <=? fd).
  - exists d, R'. done.
  - simpl. by replace (R' ⊎ ∅) with R' by multiset_solver.
Qed.

Lemma wp_tune_8vsb fd freq R (Q : Z -> toks -> Prop) :
  may_use R fd -> (forall rc, Q rc R) -> wp (dvb_frontend_tune_8vsb fd freq) R Q.
Proof. intros Hu HQ. unfold dvb_frontend_tune_8vsb, ioctl. wp_go. apply HQ. Qed.

Lemma wp_tune_delivery fd d freq R (Q : Z -> toks -> Prop) :
  may_use R fd -> (forall rc, Q rc R) -> wp (tune_delivery fd d freq) R Q.
Proof.
  intros Hu HQ. unfold tune_delivery, dvb_frontend_tune_8vsb, dvb_frontend_tune_qam, ioctl. wp_go; apply HQ.
Qed.

Lemma wp_is_tuned_to fd freq qam R (Q : bool -> toks -> Prop) :
  may_use R fd -> (forall b, Q b R) -> wp (dvb_frontend_is_tuned_to fd freq qam) R Q.
Proof. intros Hu HQ. unfold dvb_frontend_is_tuned_to, ioctl. wp_go. apply HQ. Qed.

Lemma wp_read_stats fd R (Q : dvb_signal_stats -> toks -> Prop) :
  may_use R fd -> (forall s, Q s R) -> wp (dvb_frontend_read_stats fd) R Q.
Proof. intros Hu HQ. unfold dvb_frontend_read_stats. wp_go; auto. Qed.

Lemma wp_read_raw_decibel fd cmd R (Q : option dbl -> toks -> Prop) :
  may_use R fd -> (forall d, Q d R) -> wp (read_raw_decibel fd cmd) R Q.
Proof. intros Hu HQ. unfold read_raw_decibel, ioctl. wp_go; apply HQ. Qed.

Lemma wp_legacy_reading fd lock R (Q : option Z * timespec -> toks -> Prop) :
  may_use R fd -> (forall r, Q r R) -> wp (legacy_reading fd lock) R Q.
Proof. intros Hu HQ. unfold legacy_reading, dvb_frontend_read_legacy_ucblocks. wp_go; apply HQ. Qed.

Lemma wp_legacy_seq_pct fd state lock R (Q : Z * dvb_legacy_seq_state -> toks -> Prop) :
  may_use R fd -> (forall r, Q r R) -> wp (dvb_frontend_legacy_seq_pct fd state lock) R Q.
Proof.
  intros Hu HQ. unfold dvb_frontend_legacy_seq_pct. wp_step. apply wp_legacy_reading; [done|]. intros r. wp_go. apply HQ.
Qed.

(** The callback must leave the tokens alone. *)
Definition cb_ok {C} (R : toks) (fd : Z) (cb : option (C -> Z -> prog C)) : Prop :=
  match cb with None => True | Some cb => forall ctx, wp (cb ctx fd) R (fun _ R' => R' = R) end.

Lemma wp_wait_lock {C} fuel fd timeout (cb : option (C -> Z -> prog C)) ctx R (Q : bool * C -> toks -> Prop) :
  may_use R fd -> cb_ok R fd cb -> (forall b, Q b R) -> wp (dvb_frontend_wait_lock fuel fd timeout cb ctx) R Q.
Proof.
  intros Hu Hcb HQ. unfold dvb_frontend_wait_lock. wp_step. wp_step. generalize PROGRESS_CB_INTERVAL_MS.
  rename a into start. revert ctx. induction fuel as [|fuel IH]; intros ctx since; [done|]. cbn [wait_lock_loop]. unfold ioctl.
  wp_step. wp_step. wp_step. apply wp_keep.
  - match goal with |- context [if ?b then _ else _] => destruct b end; [|done]. destruct cb as [cb|]; [apply Hcb|done].
  - intros ctx'. wp_go; first [apply HQ | apply IH].
Qed.
End Specs.

(** ** Waiting for lock terminates *)

(** An environment that answers queries from a state of its own. *)
Definition handler (S : Type) : Type := forall q : query, S -> answer q * S.

(** Runs a program without shared-state operations. *)
Fixpoint run_env {S X} (h : handler S) (p : prog X) (s : S) : option (X * S) :=
  match p with
  | Ret x => Some (x, s)
  | Stop _ => None
  | Do o k =>
      match o in op B return (B -> prog X) -> (B -> S -> option (X * S)) -> option (X * S) with
      | Env q => fun _ rec => let '(a, s') := h q s in rec a s'
      | _ => fun _ _ => None
      end k (fun b s' => run_env h (k b) s')
  end.

Lemma run_env_bind {S X Y} (h : handler S) (p : prog X) (f : X -> prog Y) s :
  run_env h (bind p f) s = match run_env h p s with Some (x, s') => run_env h (f x) s' | None => None end.
Proof.
  revert s. induction p as [x|B o k IH|]; intros s; simpl; [done| |done].
  destruct o as [X' g|q|tid]; simpl; try done. destruct (h q s) as [a s']. apply IH.
Qed.

(** A clock in nanoseconds that never goes back and that sleeping advances. *)
Record clocked {S} (h : handler S) (ns : S -> Z) : Prop := {
  ck_mono : forall q s, ns s <= ns (h q s).2;
  ck_sleep : forall us s, ns s + us * 1000 <= ns (h (QSleep us) s).2;
  ck_now : forall s, let ts : timespec := (h QNow s).1 in
             tv_sec ts * 10 ^ 9 + tv_nsec ts = ns s /\ 0 <= tv_nsec ts < 10 ^ 9
}.

Lemma elapsed_ms_bounds a b :
  0 <= tv_nsec a < 10 ^ 9 -> 0 <= tv_nsec b < 10 ^ 9 ->
  let d := (tv_sec b * 10 ^ 9 + tv_nsec b) - (tv_sec a * 10 ^ 9 + tv_nsec a) in
  elapsed_ms a b * 10 ^ 6 - 10 ^ 6 < d < elapsed_ms a b * 10 ^ 6 + 10 ^ 6.
Proof.
  intros Ha Hb. cbv zeta. unfold elapsed_ms.
  pose proof (Z.quot_rem' (tv_nsec b - tv_nsec a) 1000000).
  pose proof (Z.rem_bound_abs (tv_nsec b - tv_nsec a) 1000000). lia.
Qed.

Section Termination.
Context {S C : Type} (h : handler S) (ns : S -> Z) (Hclk : clocked h ns).
Context (fd timeout_ms : Z) (cb : option (C -> Z -> prog C)).
Context (Hcb : forall f ctx s, cb = Some f -> exists ctx' s', run_env h (f ctx fd) s = Some (ctx', s') /\ ns s <= ns s').

Lemma wait_lock_loop_ends fuel start since ctx s t0 :
  tv_sec start * 10 ^ 9 + tv_nsec start = t0 -> 0 <= tv_nsec start < 10 ^ 9 ->
  (timeout_ms * 10 ^ 6 <= (ns s - t0) + 50 * 10 ^ 6 * Z.of_nat fuel) -> (0 < fuel)%nat ->
  exists b ctx' s', run_env h (wait_lock_loop fuel fd timeout_ms cb ctx start since) s = Some ((b, ctx'), s') /\
    (b = false -> (timeout_ms - 1) * 10 ^ 6 < ns s' - t0).
Proof using All.
  intros Hs Hr. revert ctx since s. induction fuel as [|fuel IH]; intros ctx since s Hf Hpos; [lia|].
  cbn [wait_lock_loop]. unfold ioctl. rewrite run_env_bind. cbn [env run_env].
  pose proof (ck_mono _ _ Hclk (QIoctl fd FE_READ_STATUS) s) as Hm.
  destruct (h (QIoctl fd FE_READ_STATUS) s) as [status s1]. cbv zeta. rewrite run_env_bind.
  set (call := match status : option Z, cb with Some _, Some _ => _ | _, _ => _ end).
  assert (exists ctx' s2, run_env h (if call then match cb with Some f => f ctx fd | None => Ret ctx end else Ret ctx) s1 = Some (ctx', s2) /\
            ns s1 <= ns s2) as (ctx2 & s2 & -> & Hm2).
  { destruct call; [|exists ctx, s1; split; [done|lia]].
    destruct cb as [f|]; [by apply Hcb|exists ctx, s1; split; [done|lia]]. }
  match goal with |- context [if ?b then Ret (true, _) else _] => destruct b end; [exists true, ctx2, s2; done|].
  rewrite run_env_bind. cbn [env run_env].
  pose proof (ck_sleep _ _ Hclk 50000 s2) as Hsl. destruct (h (QSleep 50000) s2) as [u s3].
  rewrite run_env_bind. cbn [env run_env].
  pose proof (ck_now _ _ Hclk s3) as Hn. pose proof (ck_mono _ _ Hclk QNow s3) as Hm4.
  destruct (h QNow s3) as [now s4]. cbn [fst snd] in *. cbv zeta in Hn. destruct Hn as [Hn Hnr].
  pose proof (elapsed_ms_bounds start now Hr Hnr) as Hb. cbv zeta in Hb. rewrite Hs, Hn in Hb.
  destruct (timeout_ms <=? elapsed_ms start now) eqn:E; zb.
  - exists false, ctx2, s4. split; [done|]. intros _. lia.
  - destruct fuel as [|fuel]; [exfalso; lia|]. apply IH; lia.
Qed.
End Termination.

(** Claim C25: [dvb_frontend_wait_lock] returns, whatever the frontend answers,
    within timeout/50 polls (each preceded by a 50 ms sleep), whether or not a
    progress callback runs; and it reports "no lock" only once the timeout has
    passed. *)
Theorem wait_lock_terminates {S C} (h : handler S) (ns : S -> Z) (fd timeout_ms : Z)
    (cb : option (C -> Z -> prog C)) (ctx : C) (fuel : nat) (s : S) :
  clocked h ns -> 0 <= timeout_ms -> timeout_ms < 50 * Z.of_nat fuel ->
  (forall f ctx s, cb = Some f -> exists ctx' s', run_env h (f ctx fd) s = Some (ctx', s') /\ ns s <= ns s') ->
  exists b ctx' s', run_env h (dvb_frontend_wait_lock fuel fd timeout_ms cb ctx) s = Some ((b, ctx'), s') /\
    (b = false -> (timeout_ms - 1) * 10 ^ 6 < ns s' - ns s).
Proof.
  intros Hclk Ht Hf Hcb. unfold dvb_frontend_wait_lock. rewrite run_env_bind. cbn [env run_env].
  pose proof (ck_now _ _ Hclk s) as Hn. pose proof (ck_mono _ _ Hclk QNow s) as Hm.
  destruct (h QNow s) as [start s1]. cbn [fst snd] in *. cbv zeta in Hn. destruct Hn as [Hn Hr].
  apply wait_lock_loop_ends with (ns := ns); try done; lia.
Qed.

(** A frontend that never locks, on a clock that only sleeping advances. *)
Definition idle_fd_answer (r : fdreq) : fd_answer r :=
  match r return fd_answer r with
  | FE_SET_PROPERTY _ | DMX_SET_PES_FILTER _ | DMX_START | DMX_SET_FILTER _ _ _ | DMX_STOP => true
  | FE_GET_TUNED => None
  | FE_READ_STATUS | FE_READ_UNCORRECTED_BLOCKS => Some 0
  | FE_GET_STATS => None
  | FE_GET_STAT _ => None
  | FdPoll _ => 0
  | FdRead _ => ReadData []
  end.
Definition idle_answer (q : query) : answer q :=
  match q return answer q with
  | QOpen _ | QTime | QPid | QAccept _ | QSend _ _ | QSendTo _ _ _ _ | QReply _ _ _ _ => 0
  | QSocket _ | QBind _ _ | QListen _ _ | QConnect _ _ _ | QPeerAddr _ => 0
  | QClose _ | QSleep _ | QCloseSock _ | QStdout _ | QStderr _ | QExit => tt
  | QIoctl _ r => idle_fd_answer r
  | QPollMany _ _ => None
  | QNow => time0
  | QCondWait _ _ => true
  | QRecv _ _ => ReadData []
  | QRecvFrom _ _ => None
  | QSockName _ | QInetPton _ => None
  | QReadFile _ => None
  end.
Definition dead_frontend : handler Z := fun q =>
  match q return Z -> answer q * Z with
  | QSleep us => fun s => (tt, s + Z.max 0 (us * 1000))
  | QNow => fun s => ({| tv_sec := s / 10 ^ 9; tv_nsec := s mod 10 ^ 9 |}, s)
  | q => fun s => (idle_answer q, s)
  end.

Lemma wait_lock_terminates_witness :
  exists b ctx s', run_env dead_frontend (dvb_frontend_wait_lock 31 5 1500 None tt) 7 = Some ((b, ctx), s') /\
    (b = false -> (1500 - 1) * 10 ^ 6 < s' - 7).
Proof.
  assert (Hclk : clocked dead_frontend (fun s => s)).
  { split.
    - intros q s. destruct q; simpl; lia.
    - intros us s. simpl. lia.
    - intros s. simpl. pose proof (Z.mod_pos_bound s (10 ^ 9)). pose proof (Z.div_mod s (10 ^ 9)). lia. }
  apply (wait_lock_terminates dead_frontend (fun s => s) 5 1500 None tt 31 7 Hclk); [lia|lia|done].
Defined.
