(* ===== verification/Exec.v ===== *)
(** Undisturbed runs of one thread.

    [run] executes a program of [Sys] from start to end on a world, the
    environment answered by a handler; other threads do not interfere, and a
    joined thread is taken to have finished.  It gives the functions of the
    daemon their sequential meaning, which the functional theorems state. *)
From S2P Require Import Prelude RecordUpd CLib ChannelDb Config Stats Ring Tuner Sys Own Rules Frontend.

Definition env_world (q : query) : answer q -> world -> world :=
  match q with
  | QOpen d => fun fd w => if 0 <=? fd then w <| w_fds ::= insert fd d |> else w
  | QClose fd => fun _ w => w <| w_fds ::= delete fd |>
  | _ => fun _ w => w
  end.

(** None: a fault, or out of fuel.  [se] is what a section asks. *)
Fixpoint run {S X} (h : handler S) (se : S -> sect_env) (p : prog X) (w : world) (s : S) : option (X * world * S) :=
  match p with
  | Ret x => Some (x, w, s)
  | Stop _ => None
  | Do o k =>
      match o in op B return (B -> world -> S -> option (X * world * S)) -> option (X * world * S) with
      | Sect f => fun rec =>
          match f (se s) w with Some (x, w', _) => rec x w' s | None => None end
      | Env q => fun rec => let '(a, s') := h q s in rec a (env_world q a w) s'
      | Join _ => fun rec => rec tt w s
      end (fun b w' s' => run h se (k b) w' s')
  end.

Lemma same_tuner_world w i t : w_tuners w !! i = Some t -> w <| w_tuners ::= <[i := t]> |> = w.
Proof. intros H. destruct w as [ts db st fd ov fl start]. cbv [upd]. simpl in *. by rewrite list_insert_id. Qed.

Section Run.
Context {S : Type} (h : handler S) (se : S -> sect_env).

Lemma run_bind {X Y} (p : prog X) (f : X -> prog Y) w s :
  run h se (bind p f) w s =
    match run h se p w s with Some (x, w', s') => run h se (f x) w' s' | None => None end.
Proof.
  revert w s. induction p as [x|B o k IH|]; intros w s; simpl; [done| |done].
  destruct o as [X' g|q|tid]; simpl.
  - destruct (g (se s) w) as [[[x w'] sp]|]; [apply IH|done].
  - destruct (h q s) as [a s']. apply IH.
  - apply IH.
Qed.

Lemma run_env_op q w s : run h se (env q) w s = let '(a, s') := h q s in Some (a, env_world q a w, s').
Proof. simpl. by destruct (h q s). Qed.

Lemma run_tuner_sect {X} i (f : sect_env -> hdhr_tuner -> X * hdhr_tuner) w s t :
  w_tuners w !! i = Some t ->
  run h se (tuner_sect i f) w s = Some ((f (se s) t).1, w <| w_tuners ::= <[i := (f (se s) t).2]> |>, s).
Proof. intros H. simpl. rewrite H. by destruct (f (se s) t). Qed.

Lemma run_tun_get {X} i (f : hdhr_tuner -> X) w s t :
  w_tuners w !! i = Some t -> run h se (tun_get i f) w s = Some (f t, w, s).
Proof.
  intros H. unfold tun_get, tun. rewrite (run_tuner_sect i _ w s t) by done. simpl.
  by rewrite same_tuner_world.
Qed.

Lemma run_stream_sect {X} i (f : sect_env -> dvb_stream -> X * dvb_stream) w s st :
  w_streams w !! i = Some st ->
  run h se (stream_sect i f) w s = Some ((f (se s) st).1, w <| w_streams ::= <[i := (f (se s) st).2]> |>, s).
Proof. intros H. simpl. rewrite H. by destruct (f (se s) st). Qed.

Lemma run_db_sect {X} (f : channel_db -> X * channel_db) w s :
  run h se (db_sect f) w s = Some ((f (w_db w)).1, w <| w_db := (f (w_db w)).2 |>, s).
Proof. simpl. by destruct (f (w_db w)). Qed.

Lemma run_when b p w s :
  run h se (when b p) w s = if b then run h se p w s else Some (tt, w, s).
Proof. by destruct b. Qed.
End Run.

(** [run_step] goes past one operation whose outcome is known. *)
Ltac run_step :=
  cbv beta zeta iota;
  lazymatch goal with
  | |- context [run _ _ (bind (Ret ?x) ?f)] => change (bind (Ret x) f) with (f x)
  | |- context [run _ _ (bind _ _)] => rewrite run_bind
  | |- context [run _ _ (env _)] => rewrite run_env_op
  | |- context [run _ _ (when _ _)] => rewrite run_when
  | |- context [run ?h ?se (Ret ?x) ?w ?s] => change (run h se (Ret x) w s) with (Some (x, w, s))
  | |- context [run _ _ (db_get _)] => unfold db_get; rewrite run_db_sect
  end.

(** A section environment for runs in which nothing fails. *)
Definition calm (now : timespec) : sect_env := {| e_now := now; e_tid := 0%nat; e_create_ok := true; e_open_ok := true |}.

(** ** What a program may ask

    [only P p]: every query of [p], whatever the answers and the state, satisfies [P]. *)
Fixpoint only {X} (P : query -> Prop) (p : prog X) : Prop :=
  match p with
  | Ret _ | Stop _ => True
  | Do o k =>
      match o in op B return (B -> Prop) -> Prop with
      | Sect f => fun K => forall e w x w' sp, f e w = Some (x, w', sp) -> K x
      | Env q => fun K => P q /\ forall a, K a
      | Join _ => fun K => K tt
      end (fun b => only P (k b))
  end.

Lemma only_bind {X Y} P (p : prog X) (f : X -> prog Y) : only P p -> (forall x, only P (f x)) -> only P (bind p f).
Proof.
  intros Hp Hf. induction p as [x|B o k IH|]; [apply Hf| |done].
  destruct o as [X' g|q|tid]; simpl in Hp |- *.
  - intros e w x w' sp H. eapply IH, Hp, H.
  - split; [apply Hp|]. intros a. apply IH, Hp.
  - by apply IH.
Qed.

Lemma only_env P q : P q -> only P (env q).
Proof. simpl. auto. Qed.

(** [only_go] goes past binds, branches and operations. *)
Ltac only_go :=
  repeat (cbv beta zeta; lazymatch goal with
  | |- only _ (Ret _) => exact I
  | |- only _ (Stop _) => exact I
  | |- only _ (bind _ _) => apply only_bind; [|intros ?]
  | |- only _ (env _) => apply only_env
  | |- only _ (when ?b _) => unfold when
  | |- only _ (sect _) => simpl; intros; exact I
  | |- only _ (match ?b with _ => _ end) => destruct b
  end).
