(* ===== verification/Sched.v ===== *)
(** Executable interleavings.

    [step] is a relation; [schedule] executes it: a list says which thread goes
    on for how many operations, a handler answers the environment.  Every state it
    computes is reachable, so witnesses can exhibit states deep inside a run of
    several threads by evaluation. *)
From S2P Require Import Prelude RecordUpd CLib ChannelDb Config Stats Ring Tuner Sys Own Rules Frontend Exec.

Section Sched.
Context {S : Type} (h : handler S) (se : S -> sect_env) (body : thread -> prog unit).

(** Whether the kernel may answer so. *)
Definition may_open (w : world) (d : devnode) (fd : Z) : bool :=
  (fd <? 0) ||
  (bool_decide (w_fds w !! fd = None) &&
   match d with
   | DevFrontend _ _ => negb (existsb (fun p => bool_decide (p.2 = d)) (map_to_list (w_fds w)))
   | _ => true
   end).
Definition possible (w : world) (q : query) : answer q -> bool :=
  match q with QOpen d => fun fd => may_open w d fd | _ => fun _ => true end.

(** The next operation of thread [i]; None: it has none, or waits in a join. *)
Definition turn (i : nat) (c : Sys.config) (s : S) : option (Sys.config * S) :=
  let '{| c_world := w; c_pool := pool; c_join := jn |} := c in
  match pool !! i with
  | Some (Do o k) =>
      match o in op B return (B -> prog unit) -> option (Sys.config * S) with
      | Sect f => fun k =>
          let e := se s in
          match f {| e_now := e_now e; e_tid := length pool; e_create_ok := e_create_ok e; e_open_ok := e_open_ok e |} w with
          | Some (x, w', sp) =>
              Some ({| c_world := w'; c_pool := <[i := k x]> pool ++ spawned body sp;
                       c_join := join_table (length pool) sp jn |}, s)
          | None => None
          end
      | Env q => fun k =>
          let '(a, s') := h q s in
          if possible w q a then Some ({| c_world := env_world q a w; c_pool := <[i := k a]> pool; c_join := jn |}, s') else None
      | Join tid => fun k =>
          match pool !! tid, jn !! tid with
          | Some (Ret _), Some _ => Some ({| c_world := w; c_pool := <[i := k tt]> pool; c_join := delete tid jn |}, s)
          | _, _ => None
          end
      end k
  | _ => None
  end.

(** At most [n] operations of thread [i]. *)
Fixpoint turns (n i : nat) (c : Sys.config) (s : S) : Sys.config * S :=
  match n with
  | O => (c, s)
  | Datatypes.S n => match turn i c s with Some (c', s') => turns n i c' s' | None => (c, s) end
  end.

Fixpoint schedule (l : list (nat * nat)) (c : Sys.config) (s : S) : Sys.config * S :=
  match l with
  | [] => (c, s)
  | (i, n) :: l => let '(c', s') := turns n i c s in schedule l c' s'
  end.

(** *** Soundness *)

Lemma possible_step w q a : possible w q a = true -> env_step q a w (env_world q a w).
Proof.
  destruct q; try done. simpl. unfold may_open. intros H. destruct (0 <=? a) eqn:E0.
  - apply Z.leb_le in E0. right. apply orb_true_iff in H as [H|H]; [apply Z.ltb_lt in H; lia|].
    apply andb_true_iff in H as [H1 H2]. apply bool_decide_eq_true_1 in H1. split; [done|]. split; [done|]. split; [|done]. intros ad f fd' -> Hf.
    apply negb_true_iff in H2. assert (Hx : existsb (fun p => bool_decide (p.2 = DevFrontend ad f)) (map_to_list (w_fds w)) = true); [|congruence].
    apply existsb_exists. exists (fd', DevFrontend ad f). split; [|by apply bool_decide_eq_true_2].
    by apply list_elem_of_In, elem_of_map_to_list.
  - apply Z.leb_gt in E0. left. split; [lia|done].
Qed.

Lemma turn_step i c s c' s' : turn i c s = Some (c', s') -> step body c c'.
Proof.
  destruct c as [w pool jn]. unfold turn. destruct (pool !! i) as [p|] eqn:Hi; [|done]. destruct p as [x|B o k|]; [done| |done].
  destruct o as [X f|q|tid].
  - cbv zeta. set (e := {| e_now := _; e_tid := _; e_create_ok := _; e_open_ok := _ |}).
    destruct (f e w) as [[[x w'] sp]|] eqn:Hf; [|done]. intros [= <- <-]. by eapply (step_sect body w pool jn i X f k e).
  - destruct (h q s) as [a s1]. destruct (possible w q a) eqn:Hp; [|done]. intros [= <- <-].
    eapply step_env; [exact Hi|]. by apply possible_step.
  - destruct (pool !! tid) as [[[]| |]|] eqn:Ht; try done. destruct (jn !! tid) as [j|] eqn:Hj; [|done]. intros [= <- <-].
    by apply step_join.
Qed.

Lemma turns_reachable n i c0 c s : reachable body c0 c -> reachable body c0 (turns n i c s).1.
Proof.
  revert c s. induction n as [|n IH]; intros c s Hr; [done|]. cbn [turns].
  destruct (turn i c s) as [[c' s']|] eqn:E; [|done]. apply IH. eapply reach_step; [exact Hr|by eapply turn_step].
Qed.

Lemma schedule_reachable l c0 c s : reachable body c0 c -> reachable body c0 (schedule l c s).1.
Proof.
  revert c s. induction l as [|[i n] l IH]; intros c s Hr; [done|]. cbn [schedule].
  pose proof (turns_reachable n i c0 c s Hr) as Ht. destruct (turns n i c s) as [c' s']. by apply IH.
Qed.
End Sched.
