(* ===== verification/Stream.v ===== *)
(** Streams: src/src/dvb_stream.c.

    Opening a stream (frontend, PID filters, DVR device, the two threads), the
    capture and statistics threads, reading and closing, as programs.  The ring
    is in [Ring]; [StreamPids] says which PIDs a stream filters.  The ownership
    lemmas feed [Daemon.daemon_safe]. *)
From stdpp Require Import gmultiset.
From S2P Require Import Prelude RecordUpd CLib PidFilter ChannelDb Config Stats Ring Tuner Sys Life Own Rules Frontend.

Definition MAX_DEMUX_FDS : nat := 6.
Definition STREAM_LOCK_TIMEOUT_MS : Z := 2000.
Definition FULL_MUX_PID : Z := 0x2000.
Definition STATS_REFRESH_US : Z := 500 * 1000.

Definition open_pes_pid_filter (adapter demux_num pid : Z) : prog Z :=
  fd <- env (QOpen (DevDemux adapter demux_num)) ;;
  if fd <? 0 then Ret (-1)
  else
    ok <- ioctl fd (DMX_SET_PES_FILTER pid) ;;
    if negb (ok : bool) then env (QClose fd) ;; Ret (-1)
    else
      ok <- ioctl fd DMX_START ;;
      if negb (ok : bool) then env (QClose fd) ;; Ret (-1)
      else Ret fd.

(** [fds]: the descriptors opened so far, each with its PID. *)
Definition add_pid (adapter demux_num : Z) (fds : list (Z * Z)) (pid : Z) : prog (bool * list (Z * Z)) :=
  if existsb (fun p => p.2 =? pid) fds then Ret (true, fds)
  else if (MAX_DEMUX_FDS <=? length fds)%nat then Ret (false, fds)
  else
    fd <- open_pes_pid_filter adapter demux_num pid ;;
    if fd <? 0 then Ret (false, fds) else Ret (true, fds ++ [(fd, pid)]).

Definition add_pid_if_new (adapter demux_num : Z) (fds : list (Z * Z)) (pid : Z) : prog (bool * list (Z * Z)) :=
  if pid =? 0 then Ret (true, fds) else add_pid adapter demux_num fds pid.

(** What to ask for: [always] marks a call of [add_pid], the others are calls
    of [add_pid_if_new]. *)
Record pid_request := { always : bool; pid : Z }.

(** Adds the requests in order until one fails. *)
Fixpoint add_pids (adapter demux_num : Z) (fds : list (Z * Z)) (reqs : list pid_request) : prog (bool * list (Z * Z)) :=
  match reqs with
  | [] => Ret (true, fds)
  | r :: reqs =>
      x <- (if always r then add_pid adapter demux_num fds (pid r) else add_pid_if_new adapter demux_num fds (pid r)) ;;
      if x.1 then add_pids adapter demux_num x.2 reqs else Ret (false, x.2)
  end.

(** The PIDs of a range, in order. *)
Definition range_pids (r : pid_range) : list Z := seqZ (start r) (end_ r - start r + 1).

Definition program_requests (target : dvb_channel) : list pid_request :=
  [{| always := true; pid := 0 |}; {| always := false; pid := pmt_pid target |};
   {| always := false; pid := pcr_pid target |}; {| always := false; pid := video_pid target |};
   {| always := false; pid := audio_pid target |}].

(** An explicit filter that parses to at least one range. *)
Definition explicit_filter (text : option string) : option pid_filter :=
  match text with
  | None | Some EmptyString => None
  | Some _ => match pid_filter_parse text with
              | None | Some [] => None
              | Some pf => Some pf
              end
  end.

(** The entry of the mux with a program number, or the channel itself. *)
Definition resolve_program (db : channel_db) (ch : dvb_channel) (program_override : Z) : dvb_channel :=
  if (0 <? program_override) && negb (program_override =? program_number ch) then
    let siblings := omap (fun i => db !! i) (dvb_channels_on_freq db (frequency_hz ch) DVB_CHANNEL_MAX) in
    match List.find (fun x => program_number x =? u16 program_override) siblings with
    | Some x => x
    | None => ch
    end
  else ch.

(** The requests of [dvb_stream_open], in order. *)
Definition pid_requests (db : channel_db) (ch : dvb_channel) (program_override : Z) (text : option string) :
    list pid_request :=
  match explicit_filter text with
  | Some pf =>
      if pid_filter_total_count pf <=? Z.of_nat MAX_DEMUX_FDS - 1 then
        {| always := true; pid := 0 |} ::
        ((fun p => {| always := false; pid := u16 p |}) <$> concat (range_pids <$> pf))
      else [{| always := false; pid := FULL_MUX_PID |}]
  | None =>
      if program_override =? 0 then [{| always := false; pid := FULL_MUX_PID |}]
      else program_requests (resolve_program db ch program_override)
  end.

(** Closes a list of descriptors, in order. *)
Fixpoint close_all (fds : list Z) : prog unit :=
  match fds with [] => Ret tt | fd :: fds => env (QClose fd) ;; close_all fds end.

(** The stream object when the capture thread is created: [calloc] and the
    assignments made before. *)
Definition new_stream (nodes : Z * Z * Z) (ffd : Z) (fds : list (Z * Z)) (dvr : Z) (tid : nat) : dvb_stream :=
  {| opened_on := nodes; frontend_fd := ffd; demux_fds := fds; dvr_fd := dvr; reader_thread := tid;
     rng := empty_ring; opened := false; not_empty_wakes := 0%nat; not_full_wakes := 0%nat; closing := false; eof := false; total_bytes := 0; start_time := time0;
     window_start_bytes := 0; window_start_time := time0; last_bps := S754_zero false;
     last_pps := S754_zero false; legacy_seq := legacy0; stats_thread := 0%nat;
     stats_thread_started := false; stats_stop_requested := false; stats_cache := no_stats;
     stats_cache_valid := false |}.

(** [pthread_create] of the capture thread: the stream gets a fresh pointer. *)
Definition start_reader (nodes : Z * Z * Z) (ffd : Z) (fds : list (Z * Z)) (dvr : Z) : prog (option nat) :=
  sect (fun e w =>
    if e_create_ok e then
      let s := fresh (dom (w_streams w)) in
      Some (Some s, w <| w_streams ::= <[s := new_stream nodes ffd fds dvr (e_tid e)]> |>,
            Some {| sp_thread := T_reader s dvr; sp_join := Some (JReader s dvr) |})
    else Some (None, w, None)).

(** [pthread_create] of the statistics thread; its failure is not fatal. *)
Definition start_stats (s : nat) (ffd : Z) (now : timespec) : prog unit :=
  sect (fun e w =>
    match w_streams w !! s with
    | None => None
    | Some st =>
        let st := st <| start_time := now |> <| window_start_time := now |> <| window_start_bytes := 0 |>
                     <| opened := true |> in
        if e_create_ok e then
          Some (tt, w <| w_streams ::= <[s := st <| stats_thread := e_tid e |> <| stats_thread_started := true |>]> |>,
                Some {| sp_thread := T_stats s ffd; sp_join := Some (JStats s ffd) |})
        else Some (tt, w <| w_streams ::= <[s := st <| stats_thread_started := false |>]> |>, None)
    end).

(** From an open frontend (adopted or fresh) to a locked one; None: failed, the
    frontend closed.  A failed lock is retried once on a reopened frontend.
    [d] is the channel's delivery system, read once; its frequency is read
    again at each use. *)
Definition confirm_lock (fuel : nat) (adapter frontend : Z) (ch : channel_ref) (d : Z) (adopted : bool) (ffd : Z) : prog (option Z) :=
  let freq := db_get (fun db => frequency_hz (channel_of ch db)) in
  tuned <- (if adopted then hz <- freq ;; dvb_frontend_is_tuned_to ffd hz (is_qam d) else Ret false) ;;
  rc <- (if tuned then Ret 0 else hz <- freq ;; tune_delivery ffd d hz) ;;
  if negb (rc =? 0) then dvb_frontend_close ffd ;; Ret None
  else
    locked <- dvb_frontend_wait_lock fuel ffd STREAM_LOCK_TIMEOUT_MS None tt ;;
    if locked.1 then Ret (Some ffd)
    else
      dvb_frontend_close ffd ;;
      ffd <- dvb_frontend_open adapter frontend ;;
      if ffd <? 0 then Ret None
      else
        hz <- freq ;;
        rc <- tune_delivery ffd d hz ;;
        locked <- (if rc =? 0 then dvb_frontend_wait_lock fuel ffd STREAM_LOCK_TIMEOUT_MS None tt else Ret (false, tt)) ;;
        if locked.1 then Ret (Some ffd) else dvb_frontend_close ffd ;; Ret None.

Definition acquire_frontend (fuel : nat) (adapter frontend : Z) (ch : channel_ref) (adopt_fd : Z) : prog (option Z) :=
  d <- db_get (fun db => delivery (channel_of ch db)) ;;
  if 0 <=? adopt_fd then confirm_lock fuel adapter frontend ch d true adopt_fd
  else
    ffd <- dvb_frontend_open adapter frontend ;;
    if ffd <? 0 then Ret None else confirm_lock fuel adapter frontend ch d false ffd.

Definition dvb_stream_open (fuel : nat) (adapter frontend demux_num : Z) (ch : channel_ref)
    (program_override : Z) (pid_filter_text : option string) (adopt_fd : Z) : prog (option nat) :=
  a <- acquire_frontend fuel adapter frontend ch adopt_fd ;;
  match a with
  | None => Ret None
  | Some ffd =>
      reqs <- db_get (fun db => pid_requests db (channel_of ch db) program_override pid_filter_text) ;;
      x <- add_pids adapter demux_num [] reqs ;;
      let '(ok, fds) := x in
      if negb ok || (length fds =? 0)%nat then
        close_all fds.*1 ;; dvb_frontend_close ffd ;; Ret None
      else
        dvr <- env (QOpen (DevDvr adapter demux_num)) ;;
        if dvr <? 0 then close_all fds.*1 ;; dvb_frontend_close ffd ;; Ret None
        else
          s <- start_reader (adapter, frontend, demux_num) ffd fds dvr ;;
          match s with
          | None => env (QClose dvr) ;; close_all fds.*1 ;; dvb_frontend_close ffd ;; Ret None
          | Some s =>
              now <- env QNow ;;
              start_stats s ffd now ;;
              Ret (Some s)
          end
  end.

(** ** The threads *)

Fixpoint stats_thread_main (fuel : nat) (s : nat) (ffd : Z) : prog unit :=
  match fuel with
  | O => Spin
  | S fuel =>
      stats <- dvb_frontend_read_stats ffd ;;
      stats <- (if symbol_quality_pct stats <? 0 then
                  r <- legacy_reading ffd (has_lock stats) ;;
                  legacy <- stream_sect s (fun _ st => dvb_stream_get_legacy_seq_pct st (has_lock stats) r.1 r.2) ;;
                  Ret (with_legacy stats legacy)
                else Ret stats) ;;
      stop <- stream_sect s (fun _ st => stats_publish st stats) ;;
      if stop then Ret tt
      else
        env (QSleep STATS_REFRESH_US) ;;
        stop <- stream_sect s (fun _ st => (stats_stop_requested st || closing st, st)) ;;
        if stop then Ret tt else stats_thread_main fuel s ffd
  end.

(** What the capture thread leaves a section with: the bytes that are left when
    it has to wait on [not_full], and how often [not_full] had been signalled when
    it went to sleep, which it does as it leaves the section. *)
Definition or_sleep (r : dvb_stream * option (list Z)) : option (list Z * nat) * dvb_stream :=
  let '(st, rest) := r in ((fun data => (data, not_full_wakes st)) <$> rest, st).

(** The copy loop, waiting on [not_full] while the ring is full. *)
Fixpoint reader_store (fuel : nat) (s : nat) (rest : option (list Z * nat)) : prog unit :=
  match rest, fuel with
  | None, _ => Ret tt
  | _, O => Spin
  | Some (data, since), S fuel =>
      env (QCondWait (NotFull s since) None) ;;
      rest <- stream_sect s (fun _ st => or_sleep (reader_copy st data)) ;;
      reader_store fuel s rest
  end.

Fixpoint reader_loop (fuel : nat) (s : nat) (dvr : Z) : prog unit :=
  match fuel with
  | O => Spin
  | S fuel =>
      stop <- stream_sect s (fun _ st => (closing st, st)) ;;
      if stop then Ret tt
      else
        pr <- ioctl dvr (FdPoll 500) ;;
        if (pr : Z) <=? 0 then reader_loop fuel s dvr
        else
          n <- ioctl dvr (FdRead (188 * 64)) ;;
          match n : read_result with
          | ReadError e => if (e =? EAGAIN) || (e =? EINTR) then reader_loop fuel s dvr else Ret tt
          | ReadData [] => Ret tt
          | ReadData data =>
              rest <- stream_sect s (fun _ st => or_sleep (reader_accept st data)) ;;
              reader_store fuel s rest ;;
              reader_loop fuel s dvr
          end
  end.

Definition reader_thread_main (fuel : nat) (s : nat) (dvr : Z) : prog unit :=
  reader_loop fuel s dvr ;;
  stream_sect s (fun _ st => (tt, reader_finish st)).

(** ** Reading and closing *)

Fixpoint dvb_stream_read (fuel : nat) (s : nat) (len : Z) : prog (list Z) :=
  match fuel with
  | O => Spin
  | S fuel =>
      r <- stream_sect s (fun _ st => let '(st, out) := stream_read_section st (Z.to_nat len) in (out, st)) ;;
      match r with
      | Some data => Ret data
      | None => env (QCondWait (NotEmpty s) None) ;; dvb_stream_read fuel s len
      end
  end.

(** [free]: no other thread can reach the stream any more.  The model removes
    the object before closing its descriptors, the C code after. *)
Definition stream_free (s : nat) : prog dvb_stream :=
  sect (fun _ w => match w_streams w !! s with
                   | Some st => Some (st, w <| w_streams ::= delete s |>, None)
                   | None => None
                   end).

Definition stream_teardown (s : nat) (keep_frontend : bool) : prog Z :=
  tids <- stream_sect s (fun _ st => ((reader_thread st, if stats_thread_started st then Some (stats_thread st) else None),
                                      teardown_begin st)) ;;
  join_thread tids.1 ;;
  match tids.2 with Some tid => join_thread tid | None => Ret tt end ;;
  st <- stream_free s ;;
  env (QClose (dvr_fd st)) ;;
  close_all (demux_fds st).*1 ;;
  if keep_frontend then Ret (frontend_fd st) else dvb_frontend_close (frontend_fd st) ;; Ret (-1).

(** The NULL checks of the two callers. *)
Definition dvb_stream_close (s : option nat) : prog unit :=
  match s with None => Ret tt | Some s => stream_teardown s false ;; Ret tt end.
Definition dvb_stream_close_keep_frontend (s : option nat) : prog Z :=
  match s with None => Ret (-1) | Some s => stream_teardown s true end.

(** ** Ownership *)

Section Specs.
Context (cfg : hdhr_config).
Local Notation wp := (wp cfg).

Lemma wp_frontend_close_tok fd d R (Q : unit -> toks -> Prop) :
  0 <= fd -> Q tt R -> wp (dvb_frontend_close fd) (R ⊎ {[+ TFd fd d +]}) Q.
Proof. intros H HQ. apply (wp_frontend_close cfg fd d _ R); [by rewrite fd_toks_nonneg|done]. Qed.

Lemma wp_confirm_lock fuel a f ch d adopted ffd R (Q : option Z -> toks -> Prop) :
  0 <= ffd -> Q None R -> (forall ffd, 0 <= ffd -> Q (Some ffd) (R ⊎ {[+ TFd ffd (DevFrontend a f) +]})) ->
  wp (confirm_lock fuel a f ch d adopted ffd) (R ⊎ {[+ TFd ffd (DevFrontend a f) +]}) Q.
Proof.
  intros H0 Hn Hs. unfold confirm_lock. cbv zeta. wp_step.
  apply wp_keep; [destruct adopted; [wp_step; apply wp_db_get; intros db _; apply wp_is_tuned_to; [wp_use|done]|done]|]. intros tuned. wp_step.
  apply wp_keep; [destruct tuned; [done|wp_step; apply wp_db_get; intros db _; apply wp_tune_delivery; [wp_use|done]]|]. intros rc.
  destruct (negb (rc =? 0)).
  { wp_step. apply wp_frontend_close_tok; [done|]. wp_go. done. }
  wp_step. apply wp_wait_lock; [wp_use|done|]. intros [[|] []]; cbn [fst]; [apply wp_ret; auto|].
  wp_step. apply wp_frontend_close_tok; [done|]. wp_step.
  apply wp_frontend_open; intros ffd2 E; (destruct (ffd2 <? 0) eqn:E'; zb; try lia); [done|].
  wp_step. apply wp_db_get. intros db _. wp_step. apply wp_tune_delivery; [wp_use|]. intros rc2. wp_step.
  apply wp_keep; [destruct (rc2 =? 0); [apply wp_wait_lock; [wp_use|done|done]|done]|].
  intros [[|] []]; cbn [fst]; [apply wp_ret; auto|]. wp_step. apply wp_frontend_close_tok; [done|]. wp_go. done.
Qed.

Lemma wp_acquire_frontend fuel a f ch adopt R (Q : option Z -> toks -> Prop) :
  Q None R -> (forall ffd, 0 <= ffd -> Q (Some ffd) (R ⊎ {[+ TFd ffd (DevFrontend a f) +]})) ->
  wp (acquire_frontend fuel a f ch adopt) (R ⊎ fd_toks adopt (DevFrontend a f)) Q.
Proof.
  intros Hn Hs. unfold acquire_frontend. wp_step. apply wp_db_get. intros db _. destruct (0 <=? adopt) eqn:E; zb.
  - rewrite fd_toks_nonneg by done. by apply wp_confirm_lock.
  - rewrite fd_toks_neg by done. replace (R ⊎ ∅) with R by multiset_solver.
    wp_step. apply wp_frontend_open; intros ffd E1; (destruct (ffd <? 0) eqn:E'; zb; try lia); [done|].
    by apply wp_confirm_lock.
Qed.

(** *** PID filters *)

(** The tokens of descriptors open on one demux node. *)
Definition demux_toks (a d : Z) (fds : list (Z * Z)) : toks :=
  list_to_set_disj ((fun p => TFd p.1 (DevDemux a d)) <$> fds).

Lemma demux_toks_app a d l1 l2 : demux_toks a d (l1 ++ l2) = demux_toks a d l1 ⊎ demux_toks a d l2.
Proof. unfold demux_toks. by rewrite fmap_app, list_to_set_disj_app. Qed.

Lemma wp_open_pes_pid_filter a d p R (Q : Z -> toks -> Prop) :
  (forall fd, fd < 0 -> Q fd R) -> (forall fd, 0 <= fd -> Q fd (R ⊎ {[+ TFd fd (DevDemux a d) +]})) ->
  wp (open_pes_pid_filter a d p) R Q.
Proof.
  intros Hn Hp. unfold open_pes_pid_filter, ioctl. wp_step.
  apply wp_open; intros fd E; (destruct (fd <? 0) eqn:E'; zb; try lia); [by apply Hn|].
  wp_go; [|..]; first [by apply Hp | (apply (wp_close cfg fd (DevDemux a d) _ R); [done|]; wp_go; by apply Hn)].
Qed.

Lemma wp_add_pid a d fds p R (Q : bool * list (Z * Z) -> toks -> Prop) :
  (forall ok fds', Q (ok, fds') (R ⊎ demux_toks a d fds')) ->
  wp (add_pid a d fds p) (R ⊎ demux_toks a d fds) Q.
Proof.
  intros HQ. unfold add_pid. wp_go; [apply HQ..|].
  apply wp_open_pes_pid_filter; intros fd E; (destruct (fd <? 0) eqn:E'; zb; try lia); [apply HQ|].
  apply wp_ret. specialize (HQ true (fds ++ [(fd, p)])). rewrite demux_toks_app in HQ.
  unfold demux_toks at 2 in HQ. simpl in HQ.
  replace (R ⊎ demux_toks a d fds ⊎ {[+ TFd fd (DevDemux a d) +]})
    with (R ⊎ (demux_toks a d fds ⊎ ({[+ TFd fd (DevDemux a d) +]} ⊎ ∅))) by multiset_solver. done.
Qed.

Lemma wp_add_pids a d fds reqs R (Q : bool * list (Z * Z) -> toks -> Prop) :
  (forall ok fds', Q (ok, fds') (R ⊎ demux_toks a d fds')) ->
  wp (add_pids a d fds reqs) (R ⊎ demux_toks a d fds) Q.
Proof.
  intros HQ. revert fds. induction reqs as [|r reqs IH]; intros fds; cbn [add_pids]; [apply HQ|]. wp_step.
  assert (Hk : forall (ok : bool) fds', wp (if ok then add_pids a d fds' reqs else Ret (false, fds'))
                 (R ⊎ demux_toks a d fds') Q) by (intros [|] fds'; [apply IH|apply HQ]).
  unfold add_pid_if_new. destruct (always r); [by apply wp_add_pid|].
  destruct (pid r =? 0); [apply (Hk true)|by apply wp_add_pid].
Qed.

Lemma wp_close_all a d (fds : list (Z * Z)) R (Q : unit -> toks -> Prop) :
  Q tt R -> wp (close_all fds.*1) (R ⊎ demux_toks a d fds) Q.
Proof.
  intros HQ. induction fds as [|[fd p] fds IH]; cbn [fmap list_fmap close_all].
  - unfold demux_toks. simpl. by replace (R ⊎ ∅) with R by multiset_solver.
  - wp_step. apply (wp_close cfg fd (DevDemux a d) _ (R ⊎ demux_toks a d fds)); [|done].
    unfold demux_toks. simpl. multiset_solver.
Qed.

(** *** Creating a stream *)

Lemma new_stream_res s a f d ffd fds dvr tid :
  stream_res s (new_stream (a, f, d) ffd fds dvr tid) =
    {[+ TFd ffd (DevFrontend a f) +]} ⊎ {[+ TFd dvr (DevDvr a d) +]} ⊎ demux_toks a d fds ⊎
    ({[+ TJoin tid (JReader s dvr) +]} ⊎ ∅).
Proof. done. Qed.

(** The tokens that come into being with a stream and its first thread. *)
Lemma winv_new_stream w jn R s st tid :
  Own.winv cfg w jn (R ⊎ stream_fd_toks st) -> w_streams w !! s = None -> jn !! tid = None ->
  reader_thread st = tid -> opened st = false -> closing st = false ->
  Own.winv cfg (w <| w_streams ::= <[s := st]> |>) (<[tid := (JReader s (dvr_fd st))]> jn)
    (R ⊎ {[+ TStr s Opening (stream_frontend st) +]} ⊎ {[+ TReader s (dvr_fd st) +]} ⊎ {[+ TStats s (frontend_fd st) +]}).
Proof.
  intros [[Hc Ht Hdb Hf He Hl Hli] Hm] Hs Hj Htid Ho Hcl. split; [by split|]. intros x. specialize (Hm x).
  assert (Hwr : world_res (w <| w_streams ::= <[s := st]> |>) =
     world_res w ⊎ (stream_fd_toks st ⊎ {[+ TJoin tid (JReader s (dvr_fd st)) +]})).
  { unfold world_res. upd_simpl. rewrite map_sum_insert by done. unfold stream_res, stream_join_toks.
    rewrite Hcl, Ho, Htid. clear. generalize (msum (imap tuner_res (w_tuners w))) (map_sum stream_res (w_streams w)).
    intros A B. multiset_solver. }
  assert (Hph : stream_phase st = Opening) by (unfold stream_phase; by rewrite Hcl, Ho).
  assert (Hk : (kmult (w <| w_streams ::= <[s := st]> |>) (<[tid := (JReader s (dvr_fd st))]> jn) x =
     kmult w jn x + multiplicity x ({[+ TStr s Opening (stream_frontend st) +]} ⊎ {[+ TReader s (dvr_fd st) +]} ⊎
       {[+ TStats s (frontend_fd st) +]} ⊎ {[+ TJoin tid (JReader s (dvr_fd st)) +]}))%nat).
  { rewrite !multiplicity_disj_union. unfold kmult. destruct x as [fd dd|i o|s0 c dd|s0 fd|s0 fd|tid0 j|i fd tid0 b|i fd]; simpl; upd_simpl.
    - rewrite !multiplicity_singleton_ne by done. lia.
    - rewrite !multiplicity_singleton_ne by done. lia.
    - rewrite (multiplicity_singleton_ne _ (TReader _ _)), (multiplicity_singleton_ne _ (TStats _ _)),
        (multiplicity_singleton_ne _ (TJoin _ _)) by done. destruct (decide (s0 = s)) as [->|Hne].
      + rewrite lookup_insert_eq, Hs. simpl. rewrite Hph, multiplicity_singleton.
        repeat case_bool_decide; repeat case_decide; try lia; try congruence; simplify_eq.
      + rewrite lookup_insert_ne, multiplicity_singleton_ne by congruence. lia.
    - rewrite (multiplicity_singleton_ne _ (TStr _ _ _)), (multiplicity_singleton_ne _ (TStats _ _)),
        (multiplicity_singleton_ne _ (TJoin _ _)) by done. destruct (decide (s0 = s)) as [->|Hne].
      + rewrite lookup_insert_eq, Hs. simpl. rewrite multiplicity_singleton.
        repeat case_bool_decide; repeat case_decide; try lia; try congruence; simplify_eq.
      + rewrite lookup_insert_ne, multiplicity_singleton_ne by congruence. lia.
    - rewrite (multiplicity_singleton_ne _ (TStr _ _ _)), (multiplicity_singleton_ne _ (TReader _ _)),
        (multiplicity_singleton_ne _ (TJoin _ _)) by done. destruct (decide (s0 = s)) as [->|Hne].
      + rewrite lookup_insert_eq, Hs. simpl. rewrite multiplicity_singleton.
        repeat case_bool_decide; repeat case_decide; try lia; try congruence; simplify_eq.
      + rewrite lookup_insert_ne, multiplicity_singleton_ne by congruence. lia.
    - rewrite (multiplicity_singleton_ne _ (TStr _ _ _)), (multiplicity_singleton_ne _ (TReader _ _)),
        (multiplicity_singleton_ne _ (TStats _ _)) by done. destruct (decide (tid0 = tid)) as [->|Hne].
      + rewrite lookup_insert_eq, Hj, multiplicity_singleton.
        repeat case_bool_decide; repeat case_decide; try lia; try congruence; simplify_eq.
      + rewrite lookup_insert_ne, multiplicity_singleton_ne by congruence. lia.
    - rewrite !multiplicity_singleton_ne by done. lia.
    - rewrite !multiplicity_singleton_ne by done. lia. }
  rewrite Hk, Hwr. rewrite !multiplicity_disj_union in *. lia.
Qed.

Lemma wp_start_reader a f d ffd fds dvr R (Q : option nat -> toks -> Prop) :
  let fdt := {[+ TFd ffd (DevFrontend a f) +]} ⊎ {[+ TFd dvr (DevDvr a d) +]} ⊎ demux_toks a d fds in
  Q None (R ⊎ fdt) ->
  (forall s, Q (Some s) (R ⊎ {[+ TStr s Opening (DevFrontend a f) +]} ⊎ {[+ TStats s ffd +]})) ->
  wp (start_reader (a, f, d) ffd fds dvr) (R ⊎ fdt) Q.
Proof.
  intros fdt Hn Hs e w jn F Hw Hj. destruct (e_create_ok e).
  - set (s := fresh (dom (w_streams w))). set (st := new_stream (a, f, d) ffd fds dvr (e_tid e)).
    exists (R ⊎ {[+ TStr s Opening (DevFrontend a f) +]} ⊎ {[+ TStats s ffd +]}), {[+ TReader s dvr +]}.
    split; [done|]. assert (Hf : w_streams w !! s = None) by (apply not_elem_of_dom, is_fresh). split.
    2:{ split; [|apply Hs]. apply guarantee_stream; [right; rewrite Hf; constructor|]. intros st0 Hs0. congruence. }
    pose proof (winv_new_stream w jn (R ⊎ F) s st (e_tid e)) as Hnew.
    change (stream_fd_toks st) with fdt in Hnew. change (stream_frontend st) with (DevFrontend a f) in Hnew.
    change (dvr_fd st) with dvr in Hnew. change (frontend_fd st) with ffd in Hnew.
    replace (R ⊎ fdt ⊎ F) with (R ⊎ F ⊎ fdt) in Hw by multiset_solver. specialize (Hnew Hw Hf Hj eq_refl eq_refl eq_refl).
    simpl join_table.
    match type of Hnew with Own.winv _ _ _ ?y => match goal with |- Own.winv _ _ _ ?x => replace x with y by multiset_solver end end.
    exact Hnew.
  - exists (R ⊎ fdt), ∅. split; [done|]. simpl. replace (R ⊎ fdt ⊎ ∅ ⊎ F) with (R ⊎ fdt ⊎ F) by multiset_solver.
    split; [done|]. split; [apply guarantee_refl|done].
Qed.

(** A new joinable thread brings the right to join it. *)
Lemma winv_new_join w jn R tid j :
  Own.winv cfg w jn R -> jn !! tid = None -> Own.winv cfg w (<[tid := j]> jn) (R ⊎ {[+ TJoin tid j +]}).
Proof.
  intros [Hok Hm] Hj. split; [done|]. intros x. specialize (Hm x). rewrite multiplicity_disj_union.
  unfold kmult in *. destruct x as [| | | | |tid0 j0| |]; try (rewrite multiplicity_singleton_ne by done; simpl in *; lia).
  simpl in *. destruct (decide (tid0 = tid)) as [->|Hne].
  - rewrite lookup_insert_eq, multiplicity_singleton. rewrite Hj in Hm.
    repeat case_bool_decide; repeat case_decide; try lia; try congruence; simplify_eq.
  - rewrite lookup_insert_ne, multiplicity_singleton_ne by congruence. lia.
Qed.

(** What the tokens of a stream say of its object. *)
Lemma str_info w jn R s c d :
  Own.winv cfg w jn R -> TStr s c d ∈ R ->
  exists st, w_streams w !! s = Some st /\ stream_phase st = c /\ stream_frontend st = d.
Proof.
  intros Hw Hin. pose proof (winv_exists _ _ _ _ _ Hw Hin) as H. simpl in H. apply bool_decide_eq_true_1 in H.
  destruct (w_streams w !! s) as [st|]; [|done]. simpl in H. injection H as <- <-. eauto.
Qed.

Lemma stats_info w jn R s fd st :
  Own.winv cfg w jn R -> TStats s fd ∈ R -> w_streams w !! s = Some st -> frontend_fd st = fd.
Proof.
  intros Hw Hin Hs. pose proof (winv_exists _ _ _ _ _ Hw Hin) as H. simpl in H. apply bool_decide_eq_true_1 in H.
  rewrite Hs in H. by injection H.
Qed.

Lemma reader_info w jn R s fd st :
  Own.winv cfg w jn R -> TReader s fd ∈ R -> w_streams w !! s = Some st -> dvr_fd st = fd.
Proof.
  intros Hw Hin Hs. pose proof (winv_exists _ _ _ _ _ Hw Hin) as H. simpl in H. apply bool_decide_eq_true_1 in H.
  rewrite Hs in H. by injection H.
Qed.

Lemma wp_start_stats s ffd d now R (Q : unit -> toks -> Prop) :
  Q tt (R ⊎ {[+ TStr s Open d +]}) ->
  wp (start_stats s ffd now) (R ⊎ {[+ TStr s Opening d +]} ⊎ {[+ TStats s ffd +]}) Q.
Proof.
  intros HQ e w jn F Hw Hj.
  destruct (str_info _ _ _ s Opening d Hw) as (st & Hs & Hph & Hd); [multiset_solver|].
  pose proof (stats_info _ _ _ s ffd st Hw ltac:(multiset_solver) Hs) as Hffd. rewrite Hs.
  assert (Hst : opened st = false /\ closing st = false).
  { unfold stream_phase in Hph. by destruct (closing st), (opened st). }
  destruct Hst as [Ho Hcl]. subst ffd d.
  assert (Hold : stream_res s st = stream_fd_toks st ⊎ {[+ TJoin (reader_thread st) (JReader s (dvr_fd st)) +]}).
  { unfold stream_res, stream_join_toks. rewrite Hcl, Ho. multiset_solver. }
  assert (Hg : forall st', opened st' = true -> closing st' = closing st -> wakes_kept st st' -> guarantee w (w <| w_streams ::= <[s := st']> |>)).
  { intros st' E1 E2 Hk. apply guarantee_stream; [right; rewrite Hs; simpl; rewrite Hph; unfold stream_phase; rewrite E2, E1, Hcl; constructor|].
    intros st0 Hs0. by assert (st0 = st) as -> by congruence. }
  destruct (e_create_ok e); exists (R ⊎ {[+ TStr s Open (stream_frontend st) +]}).
  - exists {[+ TStats s (frontend_fd st) +]}. split; [done|]. split; [|split; [by apply Hg; [..|apply wakes_same]|exact HQ]].
    pose proof (winv_new_join _ _ _ (e_tid e) (JStats s (frontend_fd st)) Hw Hj) as Hw2.
    set (st' := (_ : dvb_stream) <| stats_thread_started := true |>).
    assert (Hnew : stream_res s st' = stream_fd_toks st ⊎ {[+ TJoin (reader_thread st) (JReader s (dvr_fd st)) +]} ⊎
                     {[+ TJoin (e_tid e) (JStats s (frontend_fd st)) +]}).
    { change (stream_res s st') with (stream_fd_toks st ⊎ (if closing st then ∅ else
        {[+ TJoin (reader_thread st) (JReader s (dvr_fd st)) +]} ⊎ {[+ TJoin (e_tid e) (JStats s (frontend_fd st)) +]})).
      rewrite Hcl. multiset_solver. }
    assert (Hph' : stream_phase st' = Open).
    { change (stream_phase st') with (if closing st then Closing else Open). by rewrite Hcl. }
    assert (Hfr' : stream_frontend st' = stream_frontend st) by done.
    assert (Hdvr' : dvr_fd st' = dvr_fd st) by done. assert (Hffd' : frontend_fd st' = frontend_fd st) by done.
    simpl join_table. clearbody st'.
    apply (winv_stream cfg w _ (R ⊎ {[+ TStr s Opening (stream_frontend st) +]} ⊎ {[+ TStats s (frontend_fd st) +]} ⊎
             {[+ TJoin (e_tid e) (JStats s (frontend_fd st)) +]}) _ _ s st); [|done..|].
    + match type of Hw2 with Own.winv _ _ _ ?y => match goal with |- Own.winv _ _ _ ?x => replace x with y by multiset_solver end end.
      exact Hw2.
    + rewrite Hph, Hph', Hfr', Hold, Hnew. multiset_solver.
  - exists ∅. split; [done|]. split; [|split; [by apply Hg; [..|apply wakes_same]|exact HQ]].
    set (st' := (_ : dvb_stream) <| stats_thread_started := false |>).
    assert (Hnew : stream_res s st' = stream_fd_toks st ⊎ {[+ TJoin (reader_thread st) (JReader s (dvr_fd st)) +]} ⊎
                     {[+ TStats s (frontend_fd st) +]}).
    { change (stream_res s st') with (stream_fd_toks st ⊎ (if closing st then ∅ else
        {[+ TJoin (reader_thread st) (JReader s (dvr_fd st)) +]} ⊎ {[+ TStats s (frontend_fd st) +]})).
      rewrite Hcl. multiset_solver. }
    assert (Hph' : stream_phase st' = Open).
    { change (stream_phase st') with (if closing st then Closing else Open). by rewrite Hcl. }
    assert (Hfr' : stream_frontend st' = stream_frontend st) by done.
    assert (Hdvr' : dvr_fd st' = dvr_fd st) by done. assert (Hffd' : frontend_fd st' = frontend_fd st) by done.
    simpl join_table. clearbody st'.
    replace (R ⊎ {[+ TStr s Open (stream_frontend st) +]} ⊎ ∅ ⊎ F) with (R ⊎ {[+ TStr s Open (stream_frontend st) +]} ⊎ F)
      by multiset_solver.
    eapply (winv_stream cfg w _ _ _ _ s st); [exact Hw|done..|].
    rewrite Hph, Hph', Hfr', Hold, Hnew. multiset_solver.
Qed.

Lemma wp_dvb_stream_open fuel a f d ch po flt adopt R (Q : option nat -> toks -> Prop) :
  Q None R -> (forall s, Q (Some s) (R ⊎ {[+ TStr s Open (DevFrontend a f) +]})) ->
  wp (dvb_stream_open fuel a f d ch po flt adopt) (R ⊎ fd_toks adopt (DevFrontend a f)) Q.
Proof.
  intros Hn Hs. unfold dvb_stream_open. wp_step. apply wp_acquire_frontend; [done|]. intros ffd H0.
  wp_step. apply wp_db_get. intros db _. wp_step.
  set (R1 := R ⊎ {[+ TFd ffd (DevFrontend a f) +]}).
  replace R1 with (R1 ⊎ demux_toks a d []) by (unfold demux_toks; simpl; multiset_solver).
  apply wp_add_pids. intros ok fds. cbn beta zeta iota.
  assert (Hfail : wp (close_all fds.*1 ;; dvb_frontend_close ffd ;; Ret None) (R1 ⊎ demux_toks a d fds) Q).
  { wp_step. apply wp_close_all. wp_step. by apply wp_frontend_close_tok. }
  destruct (negb ok || _); [exact Hfail|]. wp_step.
  apply wp_open; intros dvr E; (destruct (dvr <? 0) eqn:E'; zb; try lia); [exact Hfail|]. wp_step.
  replace (R1 ⊎ demux_toks a d fds ⊎ {[+ TFd dvr (DevDvr a d) +]})
    with (R ⊎ ({[+ TFd ffd (DevFrontend a f) +]} ⊎ {[+ TFd dvr (DevDvr a d) +]} ⊎ demux_toks a d fds))
    by (unfold R1; multiset_solver).
  apply wp_start_reader.
  - wp_step. apply (wp_close cfg dvr (DevDvr a d) _ (R1 ⊎ demux_toks a d fds)); [unfold R1; multiset_solver|exact Hfail].
  - intros s. wp_step. wp_step. wp_step. apply wp_start_stats. apply wp_ret, Hs.
Qed.

(** *** Threads, reading and closing *)

Lemma reader_copy_same st data : same_stream_res st (reader_copy st data).1.
Proof.
  unfold reader_copy. destruct (closing st); [same_stream|]. destruct data; [same_stream|].
  destruct (_ =? _)%nat eqn:E; [same_stream|].
  assert (Hw : forall b, reader_waits st = true -> b = true) by (unfold reader_waits; rewrite E; done).
  cbv zeta. destruct (drop _ _); same_stream; apply Hw.
Qed.

Lemma reader_accept_same st data : same_stream_res st (reader_accept st data).1.
Proof.
  unfold reader_accept.
  match goal with |- same_stream_res _ (reader_copy ?a ?b).1 => pose proof (reader_copy_same a b) as H end.
  revert H. generalize (reader_copy (st <| total_bytes := (total_bytes st + Z.of_nat (length data)) mod 2 ^ 64 |>) data).1.
  intros st' H. exact H.
Qed.

Lemma stream_read_section_same st len : same_stream_res st (stream_read_section st len).1.
Proof.
  unfold stream_read_section. destruct (consumer_waits st) eqn:E; [same_stream|].
  destruct (_ =? _)%nat; [same_stream|]. cbv zeta. destruct (ring_get _ _ _). same_stream. by rewrite E.
Qed.

Lemma stats_publish_same st stats : same_stream_res st (stats_publish st stats).2.
Proof. unfold stats_publish. destruct (_ || _); same_stream. Qed.

Lemma legacy_pct_same st lock ub now : same_stream_res st (dvb_stream_get_legacy_seq_pct st lock ub now).2.
Proof. unfold dvb_stream_get_legacy_seq_pct. destruct (legacy_seq_step _ _ _ _). same_stream. Qed.

Lemma live_reader s fd R : stream_live (R ⊎ {[+ TReader s fd +]}) s.
Proof. right; left. exists fd. multiset_solver. Qed.
Lemma live_stats s fd R : stream_live (R ⊎ {[+ TStats s fd +]}) s.
Proof. right; right; left. exists fd. multiset_solver. Qed.

Lemma may_use_stats R s fd : may_use (R ⊎ {[+ TStats s fd +]}) fd.
Proof. right; right; left. exists s. multiset_solver. Qed.
#[local] Hint Resolve may_use_stats live_reader live_stats : wp.

Lemma wp_stats_thread_main fuel s ffd R (Q : unit -> toks -> Prop) :
  Q tt (R ⊎ {[+ TStats s ffd +]}) -> wp (stats_thread_main fuel s ffd) (R ⊎ {[+ TStats s ffd +]}) Q.
Proof.
  intros HQ. induction fuel as [|fuel IH]; [done|]. cbn [stats_thread_main]. pose proof (live_stats s ffd R) as Hl.
  wp_step. apply wp_read_stats; [wp_use|]. intros stats. wp_step. apply wp_keep.
  { wp_step; [|done]. wp_step. apply wp_legacy_reading; [wp_use|]. intros r. wp_step.
    apply wp_stream_neutral; [done|]. intros e st. split; [apply legacy_pct_same|]. done. }
  intros stats'. wp_step. apply wp_stream_neutral; [done|]. intros e st. split; [apply stats_publish_same|].
  wp_go; [done|]. apply wp_stream_neutral; [done|]. intros e' st'. split; [same_stream|].
  wp_go; done.
Qed.

Lemma wp_reader_store fuel s dvr rest R (Q : unit -> toks -> Prop) :
  Q tt (R ⊎ {[+ TReader s dvr +]}) -> wp (reader_store fuel s rest) (R ⊎ {[+ TReader s dvr +]}) Q.
Proof.
  intros HQ. revert rest. induction fuel as [|fuel IH]; intros rest; destruct rest as [[data since]|]; try done.
  cbn [reader_store]. wp_step. wp_step. wp_step. apply wp_stream_neutral; [apply live_reader|]. intros e st.
  pose proof (reader_copy_same st data) as Hs. unfold or_sleep. destruct (reader_copy st data) as [st' rest'].
  split; [exact Hs|]. apply IH.
Qed.

Lemma wp_reader_thread_main fuel s dvr R (Q : unit -> toks -> Prop) :
  Q tt (R ⊎ {[+ TReader s dvr +]}) -> wp (reader_thread_main fuel s dvr) (R ⊎ {[+ TReader s dvr +]}) Q.
Proof.
  intros HQ. unfold reader_thread_main. wp_step.
  assert (Hend : wp (stream_sect s (fun _ st => (tt, reader_finish st))) (R ⊎ {[+ TReader s dvr +]}) Q).
  { apply wp_stream_neutral; [apply live_reader|]. intros e st. split; [same_stream|done]. done. }
  induction fuel as [|fuel IH]; [done|]. cbn [reader_loop]. unfold ioctl. wp_step.
  apply wp_stream_neutral; [apply live_reader|]. intros e st. split; [same_stream|].
  assert (Hstore : forall data, wp (rest <- stream_sect s (fun _ st => or_sleep (reader_accept st data)) ;;
                      reader_store fuel s rest ;; reader_loop fuel s dvr) (R ⊎ {[+ TReader s dvr +]})
                    (fun _ R' => wp (stream_sect s (fun _ st => (tt, reader_finish st))) R' Q)).
  { intros data. wp_step. apply wp_stream_neutral; [apply live_reader|]. intros e' st'.
    pose proof (reader_accept_same st' data) as Hs. unfold or_sleep. destruct (reader_accept st' data) as [st2 rest].
    split; [exact Hs|]. wp_step. by apply wp_reader_store. }
  wp_go; first [exact Hend | exact IH | apply Hstore].
Qed.

Lemma wp_dvb_stream_read fuel s len R (Q : list Z -> toks -> Prop) :
  stream_live R s -> (forall data, Q data R) -> wp (dvb_stream_read fuel s len) R Q.
Proof.
  intros Hl HQ. induction fuel as [|fuel IH]; [done|]. cbn [dvb_stream_read]. wp_step.
  apply wp_stream_neutral; [done|]. intros e st. pose proof (stream_read_section_same st (Z.to_nat len)) as Hs.
  destruct (stream_read_section st _) as [st' out]. split; [exact Hs|]. wp_go; [apply HQ|exact IH].
Qed.

(** What the first section of a teardown takes out of the stream. *)
Definition begin_toks (s : nat) (d : devnode) (tids : nat * option nat) (dvr ffd : Z) : toks :=
  {[+ TStr s Closing d +]} ⊎ {[+ TJoin tids.1 (JReader s dvr) +]} ⊎
  (if tids.2 is Some tid then {[+ TJoin tid (JStats s ffd) +]} else {[+ TStats s ffd +]}).

(** The broadcasts of [dvb_stream_close]. *)
Lemma teardown_wakes st : wakes_kept st (teardown_begin st).
Proof.
  unfold wakes_kept. change (not_full_wakes (teardown_begin st)) with (S (not_full_wakes st)).
  change (not_empty_wakes (teardown_begin st)) with (S (not_empty_wakes st)). lia.
Qed.

Lemma wp_teardown_begin s d R (Q : nat * option nat -> toks -> Prop) :
  (forall tids dvr ffd, Q tids (R ⊎ begin_toks s d tids dvr ffd)) ->
  wp (stream_sect s (fun _ st => ((reader_thread st, if stats_thread_started st then Some (stats_thread st) else None),
                                  teardown_begin st))) (R ⊎ {[+ TStr s Open d +]}) Q.
Proof.
  intros HQ e w jn F Hw Hj.
  destruct (str_info _ _ _ s Open d Hw) as (st & Hs & Hph & Hd); [multiset_solver|]. rewrite Hs.
  assert (Hst : opened st = true /\ closing st = false).
  { unfold stream_phase in Hph. by destruct (closing st), (opened st). }
  destruct Hst as [Ho Hcl]. set (tids := (reader_thread st, _)).
  exists (R ⊎ begin_toks s d tids (dvr_fd st) (frontend_fd st)), ∅. split; [done|]. split.
  2:{ split; [|apply HQ]. apply guarantee_stream; [right; rewrite Hs; simpl; rewrite Hph; constructor|].
      intros st0 Hs0. assert (st0 = st) as -> by congruence. apply teardown_wakes. }
  simpl join_table.
  assert (Hold : stream_res s st = stream_fd_toks st ⊎ ({[+ TJoin tids.1 (JReader s (dvr_fd st)) +]} ⊎
     (if tids.2 is Some tid then {[+ TJoin tid (JStats s (frontend_fd st)) +]} else {[+ TStats s (frontend_fd st) +]}))).
  { unfold stream_res, stream_join_toks. rewrite Hcl, Ho. unfold tids. simpl. by destruct (stats_thread_started st). }
  assert (Hnew : stream_res s (teardown_begin st) = stream_fd_toks st).
  { change (stream_res s (teardown_begin st)) with (stream_fd_toks st ⊎ ∅). multiset_solver. }
  replace (R ⊎ begin_toks s d tids (dvr_fd st) (frontend_fd st) ⊎ ∅ ⊎ F)
    with (R ⊎ begin_toks s d tids (dvr_fd st) (frontend_fd st) ⊎ F) by multiset_solver.
  apply (winv_stream cfg w _ (R ⊎ {[+ TStr s Open d +]}) _ _ s st); [exact Hw|done..|].
  rewrite Hph, Hold, Hnew. change (stream_phase (teardown_begin st)) with Closing.
  change (stream_frontend (teardown_begin st)) with (stream_frontend st). rewrite Hd. unfold begin_toks. clear.
  generalize (stream_fd_toks st) (if tids.2 is Some tid then {[+ TJoin tid (JStats s (frontend_fd st)) +]} else {[+ TStats s (frontend_fd st) +]} : toks).
  intros A B. multiset_solver.
Qed.

Lemma winv_free w jn R s st :
  Own.winv cfg w jn (R ⊎ {[+ TStr s Closing (stream_frontend st) +]} ⊎ {[+ TReader s (dvr_fd st) +]} ⊎ {[+ TStats s (frontend_fd st) +]}) ->
  w_streams w !! s = Some st ->
  Own.winv cfg (w <| w_streams ::= delete s |>) jn (R ⊎ stream_fd_toks st).
Proof.
  intros Hw Hs. destruct (str_info _ _ _ s Closing (stream_frontend st) Hw) as (st' & Hs' & Hph & _); [multiset_solver|].
  assert (st' = st) as -> by congruence. assert (Hcl : closing st = true).
  { unfold stream_phase in Hph. by destruct (closing st), (opened st). }
  destruct Hw as [[Hc Ht Hdb Hf He Hl Hli] Hm]. split; [by split|]. intros x. specialize (Hm x).
  assert (Hwr : world_res w = world_res (w <| w_streams ::= delete s |>) ⊎ stream_fd_toks st).
  { unfold world_res. upd_simpl. rewrite (map_sum_delete stream_res _ _ _ Hs). unfold stream_res at 1. rewrite Hcl. clear.
    generalize (msum (imap tuner_res (w_tuners w))) (map_sum stream_res (delete s (w_streams w))). intros A B. multiset_solver. }
  assert (Hk : (kmult w jn x = kmult (w <| w_streams ::= delete s |>) jn x +
     multiplicity x ({[+ TStr s Closing (stream_frontend st) +]} ⊎ {[+ TReader s (dvr_fd st) +]} ⊎ {[+ TStats s (frontend_fd st) +]}))%nat).
  { rewrite !multiplicity_disj_union. unfold kmult. destruct x as [fd dd|i o|s0 c dd|s0 fd|s0 fd|tid0 j|i fd tid0 b|i fd]; simpl; upd_simpl;
      try (rewrite !multiplicity_singleton_ne by done; lia).
    - rewrite (multiplicity_singleton_ne _ (TReader _ _)), (multiplicity_singleton_ne _ (TStats _ _)) by done.
      destruct (decide (s0 = s)) as [->|Hne].
      + rewrite lookup_delete_eq, Hs. simpl. rewrite Hph, multiplicity_singleton.
        repeat case_bool_decide; repeat case_decide; try lia; try congruence; simplify_eq.
      + rewrite lookup_delete_ne, multiplicity_singleton_ne by congruence. lia.
    - rewrite (multiplicity_singleton_ne _ (TStr _ _ _)), (multiplicity_singleton_ne _ (TStats _ _)) by done.
      destruct (decide (s0 = s)) as [->|Hne].
      + rewrite lookup_delete_eq, Hs. simpl. rewrite multiplicity_singleton.
        repeat case_bool_decide; repeat case_decide; try lia; try congruence; simplify_eq.
      + rewrite lookup_delete_ne, multiplicity_singleton_ne by congruence. lia.
    - rewrite (multiplicity_singleton_ne _ (TStr _ _ _)), (multiplicity_singleton_ne _ (TReader _ _)) by done.
      destruct (decide (s0 = s)) as [->|Hne].
      + rewrite lookup_delete_eq, Hs. simpl. rewrite multiplicity_singleton.
        repeat case_bool_decide; repeat case_decide; try lia; try congruence; simplify_eq.
      + rewrite lookup_delete_ne, multiplicity_singleton_ne by congruence. lia. }
  rewrite Hk, Hwr in Hm. rewrite !multiplicity_disj_union in *. lia.
Qed.

Lemma wp_stream_free s d dvr ffd R (Q : dvb_stream -> toks -> Prop) :
  (forall st, stream_frontend st = d -> 0 <= frontend_fd st -> Q st (R ⊎ stream_fd_toks st)) ->
  wp (stream_free s) (R ⊎ {[+ TStr s Closing d +]} ⊎ {[+ TReader s dvr +]} ⊎ {[+ TStats s ffd +]}) Q.
Proof.
  intros HQ e w jn F Hw Hj.
  destruct (str_info _ _ _ s Closing d Hw) as (st & Hs & Hph & Hd); [multiset_solver|].
  pose proof (stats_info _ _ _ s ffd st Hw ltac:(multiset_solver) Hs) as Hffd.
  pose proof (reader_info _ _ _ s dvr st Hw ltac:(multiset_solver) Hs) as Hdvr. rewrite Hs. subst d dvr ffd.
  assert (H0 : 0 <= frontend_fd st).
  { destruct (stream_fds_open _ _ _ _ _ _ Hw Hs) as [[dd H] _]. eapply wok_fd; [apply (winv_ok _ _ _ _ Hw)|exact H]. }
  exists (R ⊎ stream_fd_toks st), ∅. split; [done|]. split.
  2:{ split; [by apply (guarantee_free w s st)|by apply HQ]. }
  simpl join_table.
  replace (R ⊎ stream_fd_toks st ⊎ ∅ ⊎ F) with (R ⊎ F ⊎ stream_fd_toks st) by (generalize (stream_fd_toks st); multiset_solver).
  apply winv_free; [|done].
  match type of Hw with Own.winv _ _ _ ?y => match goal with |- Own.winv _ _ _ ?x => replace x with y by multiset_solver end end.
  exact Hw.
Qed.

Lemma wp_join tid j R R' (Q : unit -> toks -> Prop) :
  R = R' ⊎ {[+ TJoin tid j +]} -> join_ready tid j R' -> Q tt (R' ⊎ join_toks j) -> wp (join_thread tid) R Q.
Proof. intros -> Hr HQ. exists j, R'. done. Qed.

Lemma wp_stream_teardown s keep d R (Q : Z -> toks -> Prop) :
  (keep = false -> Q (-1) R) -> (keep = true -> forall fd, 0 <= fd -> Q fd (R ⊎ {[+ TFd fd d +]})) ->
  wp (stream_teardown s keep) (R ⊎ {[+ TStr s Open d +]}) Q.
Proof.
  intros Hf Ht. unfold stream_teardown. wp_step. apply wp_teardown_begin. intros tids dvr ffd. unfold begin_toks. wp_step.
  set (T := if tids.2 is Some tid then {[+ TJoin tid (JStats s ffd) +]} else {[+ TStats s ffd +]} : toks).
  apply (wp_join _ (JReader s dvr) _ (R ⊎ {[+ TStr s Closing d +]} ⊎ T));
    [clear; generalize T; multiset_solver|exists d; multiset_solver|].
  set (R1 := R ⊎ {[+ TStr s Closing d +]} ⊎ {[+ TReader s dvr +]}).
  assert (Hrest : wp (st <- stream_free s ;; env (QClose (dvr_fd st)) ;; close_all (demux_fds st).*1 ;;
      if keep then Ret (frontend_fd st) else dvb_frontend_close (frontend_fd st) ;; Ret (-1)) (R1 ⊎ {[+ TStats s ffd +]}) Q).
  { wp_step. unfold R1. apply wp_stream_free. intros st Hd H0. wp_step.
    set (L := demux_fds st). destruct (opened_on st) as [[a fr] dm] eqn:Eo.
    assert (Hfds : stream_fd_toks st = {[+ TFd (frontend_fd st) d +]} ⊎ {[+ TFd (dvr_fd st) (DevDvr a dm) +]} ⊎ demux_toks a dm L).
    { unfold stream_fd_toks. rewrite Hd. unfold stream_dvr, stream_demux. by rewrite Eo. }
    rewrite Hfds. apply (wp_close cfg _ (DevDvr a dm) _ (R ⊎ {[+ TFd (frontend_fd st) d +]} ⊎ demux_toks a dm L)).
    { generalize (demux_toks a dm L). multiset_solver. }
    wp_step. apply wp_close_all. destruct keep; [by apply wp_ret, Ht|]. wp_step. apply wp_frontend_close_tok; [done|].
    by apply wp_ret, Hf. }
  unfold T. wp_step. wp_step.
  - apply (wp_join _ (JStats s ffd) _ R1);
      [unfold R1, join_toks; multiset_solver|exists d; unfold R1; multiset_solver|exact Hrest].
  - apply wp_ret. unfold join_toks.
    replace (R ⊎ {[+ TStr s Closing d +]} ⊎ {[+ TStats s ffd +]} ⊎ {[+ TReader s dvr +]})
      with (R1 ⊎ {[+ TStats s ffd +]}) by (unfold R1; multiset_solver). exact Hrest.
Qed.

(** The resources of an optional stream. *)
Definition opt_str (s : option nat) (d : devnode) : toks := if s is Some s then {[+ TStr s Open d +]} else ∅.

Lemma wp_dvb_stream_close s d R (Q : unit -> toks -> Prop) :
  Q tt R -> wp (dvb_stream_close s) (R ⊎ opt_str s d) Q.
Proof.
  intros HQ. destruct s as [s|]; unfold dvb_stream_close, opt_str.
  - wp_step. apply wp_stream_teardown; [|done]. intros _. apply wp_ret, HQ.
  - replace (R ⊎ ∅) with R by multiset_solver. apply wp_ret, HQ.
Qed.

Lemma wp_dvb_stream_close_keep_frontend s d R (Q : Z -> toks -> Prop) :
  (forall fd, Q fd (R ⊎ fd_toks fd d)) ->
  wp (dvb_stream_close_keep_frontend s) (R ⊎ opt_str s d) Q.
Proof.
  intros HQ. destruct s as [s|]; unfold dvb_stream_close_keep_frontend, opt_str.
  - apply wp_stream_teardown; [done|]. intros _ fd Hfd. specialize (HQ fd). by rewrite fd_toks_nonneg in HQ.
  - apply wp_ret. specialize (HQ (-1)). by rewrite fd_toks_neg in HQ.
Qed.
End Specs.
