(* ===== verification/StreamPids.v ===== *)
(** Which PIDs a stream filters: the PID selection of src/src/dvb_stream.c.

    [wanted] says what a stream is to contain, from the channel, the program
    override and the filter text.  The theorem: whatever the kernel answers, the
    filters opened are distinct, at most six, and of wanted PIDs only; when
    opening succeeds they are all the wanted PIDs; and it succeeds when the
    kernel accepts every filter. *)
From S2P Require Import Prelude RecordUpd CLib PidFilter ChannelDb Config Stats Ring Tuner Sys Own Frontend Exec Stream.

(** ** Which PIDs a stream filters *)

(** The PIDs of a list of requests. *)
Definition asked (r : pid_request) : bool := always r || negb (pid r =? 0).
Definition asked_pids (reqs : list pid_request) : list Z := pid <$> List.filter asked reqs.

(** A driver that opens every demux and accepts every filter. *)
Record accepts {S} (h : handler S) : Prop := {
  acc_open : forall d s, 0 <= (h (QOpen d) s).1;
  acc_filter : forall fd p s, (h (QIoctl fd (DMX_SET_PES_FILTER p)) s).1 = true;
  acc_start : forall fd s, (h (QIoctl fd DMX_START) s).1 = true
}.

Section Pids.
Context {S : Type} (h : handler S) (se : S -> sect_env) (a d : Z).

Lemma run_env_bind_op {Y} (q : query) (f : answer q -> prog Y) w s :
  run h se (bind (env q) f) w s = run h se (f (h q s).1) (env_world q (h q s).1 w) (h q s).2.
Proof. rewrite run_bind, run_env_op. by destruct (h q s). Qed.

Lemma run_ioctl {Y} fd (r : fdreq) (f : fd_answer r -> prog Y) w s :
  run h se (bind (ioctl fd r) f) w s = run h se (f (h (QIoctl fd r) s).1) w (h (QIoctl fd r) s).2.
Proof. exact (run_env_bind_op (QIoctl fd r) f w s). Qed.

Lemma run_open_filter p w s : exists fd w' s', run h se (open_pes_pid_filter a d p) w s = Some (fd, w', s') /\ (accepts h -> 0 <= fd).
Proof.
  unfold open_pes_pid_filter. rewrite run_env_bind_op.
  pose proof (fun H => acc_open h H (DevDemux a d) s) as Ho. destruct (h (QOpen (DevDemux a d)) s) as [fd s1]. cbn [fst snd] in *.
  destruct (fd <? 0) eqn:Ef.
  { eexists _, _, _. split; [reflexivity|]. intros Ha. apply Ho in Ha. apply Z.ltb_lt in Ef. lia. }
  apply Z.ltb_ge in Ef. rewrite run_ioctl. pose proof (fun H => acc_filter h H fd p s1) as Hf.
  destruct (h (QIoctl fd (DMX_SET_PES_FILTER p)) s1) as [ok s2]. cbn [fst snd] in *.
  destruct ok; cbn [negb]; [|rewrite run_env_bind_op; eexists _, _, _; split; [reflexivity|intros Ha; by apply Hf in Ha]].
  rewrite run_ioctl. pose proof (fun H => acc_start h H fd s2) as Hs.
  destruct (h (QIoctl fd DMX_START) s2) as [ok s3]. cbn [fst snd] in *.
  destruct ok; cbn [negb]; [eexists _, _, _; split; [reflexivity|done]|].
  rewrite run_env_bind_op. eexists _, _, _. split; [reflexivity|]. intros Ha. by apply Hs in Ha.
Qed.

(** One request: already there, added, or refused. *)
Lemma run_add_pid fds p w s : exists ok fds' w' s',
  run h se (add_pid a d fds p) w s = Some ((ok, fds'), w', s') /\
  ((ok = true /\ p ∈ fds.*2 /\ fds' = fds) \/
   (ok = true /\ p ∉ fds.*2 /\ (length fds < MAX_DEMUX_FDS)%nat /\ exists fd, fds' = fds ++ [(fd, p)]) \/
   (ok = false /\ p ∉ fds.*2 /\ fds' = fds /\ (accepts h -> (MAX_DEMUX_FDS <= length fds)%nat))).
Proof.
  unfold add_pid. destruct (existsb (fun x => x.2 =? p) fds) eqn:Ex.
  { eexists _, _, _, _. split; [reflexivity|]. left. split; [done|]. split; [|done].
    apply existsb_exists in Ex as (x & Hx & Hp). apply Z.eqb_eq in Hp. apply list_elem_of_fmap. exists x.
    split; [done|by apply list_elem_of_In]. }
  assert (Hn : p ∉ fds.*2).
  { intros Hp. apply list_elem_of_fmap in Hp as (x & -> & Hx). apply not_true_iff_false in Ex. apply Ex, existsb_exists.
    exists x. split; [by apply list_elem_of_In|apply Z.eqb_refl]. }
  destruct (MAX_DEMUX_FDS <=? length fds)%nat eqn:El.
  { apply Nat.leb_le in El. eexists _, _, _, _. split; [reflexivity|]. right. right. done. }
  apply Nat.leb_gt in El. destruct (run_open_filter p w s) as (fd & w' & s' & Hr & Ha). rewrite run_bind, Hr.
  destruct (fd <? 0) eqn:Ef; eexists _, _, _, _; (split; [reflexivity|]).
  - right. right. split; [done|]. split; [done|]. split; [done|]. intros H. apply Ha in H. apply Z.ltb_lt in Ef. lia.
  - right. left. split; [done|]. split; [done|]. split; [done|]. by exists fd.
Qed.

Lemma run_add_pids reqs : forall fds w s, NoDup fds.*2 -> (length fds <= MAX_DEMUX_FDS)%nat ->
  exists ok fds' w' s', run h se (add_pids a d fds reqs) w s = Some ((ok, fds'), w', s') /\
    NoDup fds'.*2 /\ (length fds' <= MAX_DEMUX_FDS)%nat /\ fds.*2 ⊆ fds'.*2 /\
    (forall p, p ∈ fds'.*2 -> p ∈ fds.*2 \/ p ∈ asked_pids reqs) /\
    (ok = true -> asked_pids reqs ⊆ fds'.*2) /\
    (forall L, accepts h -> (length L <= MAX_DEMUX_FDS)%nat -> fds.*2 ⊆ L -> asked_pids reqs ⊆ L -> ok = true).
Proof.
  induction reqs as [|r reqs IH]; intros fds w s Hnd Hl.
  { exists true, fds, w, s. split; [done|]. split; [exact Hnd|]. split; [exact Hl|]. split; [done|]. split; [by left|]. split; [|done].
    intros _ x Hx. by apply elem_of_nil in Hx. }
  cbn [add_pids]. unfold asked_pids. cbn [List.filter]. fold (asked_pids reqs). unfold add_pid_if_new.
  destruct (asked r) eqn:Ea.
  - assert (Hrun : forall w s, run h se (if always r then add_pid a d fds (pid r) else if pid r =? 0 then Ret (true, fds) else add_pid a d fds (pid r)) w s =
      run h se (add_pid a d fds (pid r)) w s).
    { intros w0 s0. unfold asked in Ea. destruct (always r); [done|]. by destruct (pid r =? 0). }
    destruct (run_add_pid fds (pid r) w s) as (ok & fds1 & w1 & s1 & Hr & Hc). rewrite run_bind, Hrun, Hr. cbn [fst snd].
    rewrite fmap_cons. fold (asked_pids reqs). destruct Hc as [(-> & Hp & ->)|[(-> & Hp & Hlt & fd & ->)|(-> & Hp & -> & Hfull)]].
    + destruct (IH fds w1 s1 Hnd Hl) as (ok & fds' & w' & s' & H & H1 & H2 & H3 & H4 & H5 & H6).
      exists ok, fds', w', s'. split; [exact H|]. split; [exact H1|]. split; [exact H2|]. split; [exact H3|]. split; [|split].
      * intros x Hx. destruct (H4 x Hx); [by left|]. right. by right.
      * intros Hok x [->|Hx]%elem_of_cons; [by apply H3|by apply H5].
      * intros L HA HL Hs Hq. apply (H6 L HA HL Hs). intros x Hx. apply Hq. by right.
    + assert (Hnd' : NoDup (fds ++ [(fd, pid r)]).*2).
      { rewrite fmap_app. apply NoDup_app. split; [done|]. split; [|apply NoDup_singleton].
        intros x Hx ->%list_elem_of_singleton. contradiction. }
      destruct (IH (fds ++ [(fd, pid r)]) w1 s1 Hnd') as (ok & fds' & w' & s' & H & H1 & H2 & H3 & H4 & H5 & H6).
      { rewrite length_app. simpl. unfold MAX_DEMUX_FDS in *. lia. }
      rewrite fmap_app in H3, H4, H6. cbn [fmap list_fmap snd] in H3, H4, H6.
      exists ok, fds', w', s'. split; [exact H|]. split; [exact H1|]. split; [exact H2|]. split; [|split; [|split]].
      * intros x Hx. apply H3, elem_of_app. by left.
      * intros x Hx. destruct (H4 x Hx) as [[Hf| ->%list_elem_of_singleton]%elem_of_app|Hq]; [by left|right; by left|right; by right].
      * intros Hok x [->|Hx]%elem_of_cons; [apply H3, elem_of_app; right; by left|by apply H5].
      * intros L HA HL Hs Hq. apply (H6 L HA HL); [|intros x Hx; apply Hq; by right].
        intros x [Hx| ->%list_elem_of_singleton]%elem_of_app; [by apply Hs|apply Hq; by left].
    + exists false, fds, w1, s1. split; [done|]. split; [exact Hnd|]. split; [exact Hl|]. split; [done|]. split; [by left|]. split; [done|].
      intros L HA HL Hs Hq.
      assert (Hincl : (length (pid r :: fds.*2) <= length L)%nat).
      { apply NoDup_incl_length; [apply NoDup_ListNoDup, NoDup_cons; done|]. intros x Hx. apply list_elem_of_In. apply list_elem_of_In in Hx.
        apply elem_of_cons in Hx as [->|Hx]; [apply Hq; by left|by apply Hs]. }
      simpl in Hincl. rewrite length_fmap in Hincl. specialize (Hfull HA). lia.
  - unfold asked in Ea. apply orb_false_iff in Ea as [-> Ez]. apply negb_false_iff in Ez. rewrite Ez. run_step. cbn [fst snd].
    by apply IH.
Qed.
End Pids.

(** ** What a stream is to contain *)

(** The PIDs wanted: those of an explicit filter with the PAT, or the whole mux
    when the filter is too wide or the program is 0, or else the PAT and the
    program's PMT, PCR, video and audio (those it has). *)
Definition wanted (db : channel_db) (ch : dvb_channel) (program_override : Z) (text : option string) (p : Z) : Prop :=
  match explicit_filter text with
  | Some pf =>
      if pid_filter_total_count pf <=? Z.of_nat MAX_DEMUX_FDS - 1 then p = 0 \/ covers pf p else p = FULL_MUX_PID
  | None =>
      if program_override =? 0 then p = FULL_MUX_PID
      else let c := resolve_program db ch program_override in
           p = 0 \/ (p <> 0 /\ (p = pmt_pid c \/ p = pcr_pid c \/ p = video_pid c \/ p = audio_pid c))
  end.

Lemma explicit_ranges text pf : explicit_filter text = Some pf -> Forall range_ok pf.
Proof.
  destruct text as [[|c s]|]; cbn [explicit_filter]; [done| |done].
  destruct (pid_filter_parse (Some (String c s))) as [pf'|] eqn:E; [|done]. intros H.
  assert (pf' = pf) as -> by (destruct pf'; congruence).
  eapply proj1, parse_loop_ok; [| |exact E]; [done|simpl; lia].
Qed.

Lemma total_from pf k : fold_left (fun total r => total + (end_ r - start r + 1)) pf k = k + pid_filter_total_count pf.
Proof.
  unfold pid_filter_total_count. revert k. induction pf as [|r pf IH]; intros k; cbn [fold_left]; [lia|].
  rewrite IH, (IH (0 + _)). lia.
Qed.

Lemma ranges_length pf : Forall range_ok pf -> Z.of_nat (length (concat (range_pids <$> pf))) = pid_filter_total_count pf.
Proof.
  induction 1 as [|r pf [Hr _] _ IH]; [done|]. rewrite fmap_cons. cbn [concat]. rewrite length_app, Nat2Z.inj_add, IH.
  unfold pid_filter_total_count at 2. cbn [fold_left]. rewrite total_from. unfold range_pids. rewrite length_seqZ. lia.
Qed.

Lemma ranges_covers pf p : p ∈ concat (range_pids <$> pf) <-> covers pf p.
Proof.
  unfold covers. induction pf as [|r pf IH].
  - split; [intros H; by apply elem_of_nil in H|intros H; inversion H].
  - rewrite fmap_cons, Exists_cons. cbn [concat]. rewrite elem_of_app, IH. unfold range_pids. rewrite elem_of_seqZ. split; intros [H|H]; auto; left; lia.
Qed.

Lemma asked_never (l : list Z) p : p ∈ asked_pids ((fun x => {| always := false; pid := x |}) <$> l) <-> p <> 0 /\ p ∈ l.
Proof.
  unfold asked_pids. induction l as [|x l IH]; [set_solver|]. rewrite fmap_cons. cbn [List.filter asked always pid orb].
  destruct (Z.eqb_spec x 0) as [->|Hx]; cbn [negb].
  - rewrite IH, elem_of_cons. naive_solver.
  - rewrite fmap_cons. cbn [pid]. rewrite !elem_of_cons, IH. naive_solver.
Qed.

(** The requests ask for exactly the wanted PIDs, never more than six. *)
Lemma requests_wanted db ch po text : let reqs := pid_requests db ch po text in
  (forall p, p ∈ asked_pids reqs <-> wanted db ch po text p) /\ (length (asked_pids reqs) <= MAX_DEMUX_FDS)%nat.
Proof.
  cbv zeta. unfold pid_requests, wanted. destruct (explicit_filter text) as [pf|] eqn:E.
  - apply explicit_ranges in E. destruct (_ <=? _) eqn:Et.
    + apply Z.leb_le in Et. rewrite <- (ranges_length pf E) in Et.
      set (l := concat (range_pids <$> pf)) in *.
      assert (Hu : u16 <$> l = l).
      { transitivity (id <$> l); [apply list_fmap_ext|apply list_fmap_id]. intros i p Hp. change (u16 p = p). apply u16_id. apply list_elem_of_lookup_2, ranges_covers in Hp.
        unfold covers in Hp. apply Exists_exists in Hp as (r & Hr & Hp). apply (proj1 (Forall_forall _ _) E) in Hr as [? ?].
        unfold is_u16. lia. }
      assert (Hreq : ((fun p => {| always := false; pid := u16 p |}) <$> l) = (fun x => {| always := false; pid := x |}) <$> l)
        by (rewrite <- Hu at 2; by rewrite <- list_fmap_compose).
      rewrite Hreq. unfold asked_pids at 1 2. cbn [List.filter asked always orb]. rewrite fmap_cons. cbn [pid].
      fold (asked_pids ((fun x => {| always := false; pid := x |}) <$> l)). split.
      * intros p. rewrite elem_of_cons, asked_never, <- ranges_covers. fold l. destruct (decide (p = 0)); naive_solver.
      * unfold asked_pids. cbn [length]. rewrite length_fmap.
        etransitivity; [apply le_n_S, List.filter_length_le|]. rewrite length_fmap. unfold MAX_DEMUX_FDS in *. lia.
    + split; [|unfold asked_pids, MAX_DEMUX_FDS; simpl; lia]. intros p. apply list_elem_of_singleton.
  - destruct (po =? 0); [split; [intros p; apply list_elem_of_singleton|unfold asked_pids, MAX_DEMUX_FDS; simpl; lia]|].
    set (c := resolve_program db ch po). split.
    + intros p. change (program_requests c) with ({| always := true; pid := 0 |} ::
        ((fun x => {| always := false; pid := x |}) <$> [pmt_pid c; pcr_pid c; video_pid c; audio_pid c])).
      unfold asked_pids. cbn [List.filter asked always orb]. rewrite fmap_cons. cbn [pid].
      fold (asked_pids ((fun x => {| always := false; pid := x |}) <$> [pmt_pid c; pcr_pid c; video_pid c; audio_pid c])).
      rewrite elem_of_cons, asked_never, !elem_of_cons, elem_of_nil. naive_solver.
    + unfold asked_pids. rewrite length_fmap. etransitivity; [apply List.filter_length_le|]. simpl. unfold MAX_DEMUX_FDS. lia.
Qed.

(** Claim C22: a stream filters the right PIDs.  Whatever the kernel answers, no
    PID is filtered twice, there are at most six filters, and each is for a
    wanted PID.  When the selection succeeds every wanted PID is filtered, and it
    does succeed when the kernel accepts each filter: the six slots are always
    enough. *)
Theorem stream_selects_pids {S} (h : handler S) (se : S -> sect_env) (adapter demux_num : Z) (db : channel_db) (ch : dvb_channel)
    (program_override : Z) (text : option string) (w : world) (s : S) :
  exists ok fds w' s',
    run h se (add_pids adapter demux_num [] (pid_requests db ch program_override text)) w s = Some ((ok, fds), w', s') /\
    NoDup fds.*2 /\ (length fds <= MAX_DEMUX_FDS)%nat /\
    (forall p, p ∈ fds.*2 -> wanted db ch program_override text p) /\
    (ok = true -> forall p, wanted db ch program_override text p -> p ∈ fds.*2) /\
    (accepts h -> ok = true).
Proof.
  destruct (requests_wanted db ch program_override text) as [Hw Hl]. cbv zeta in Hw, Hl.
  destruct (run_add_pids h se adapter demux_num (pid_requests db ch program_override text) [] w s) as (ok & fds & w' & s' & Hr & H1 & H2 & _ & H4 & H5 & H6);
    [constructor|simpl; lia|].
  exists ok, fds, w', s'. split; [exact Hr|]. split; [exact H1|]. split; [exact H2|]. split; [|split].
  - intros p Hp. apply Hw. destruct (H4 p Hp) as [Hn|]; [by apply elem_of_nil in Hn|done].
  - intros Hok p Hp. by apply H5, Hw.
  - intros Ha. apply (H6 (asked_pids (pid_requests db ch program_override text)) Ha Hl); [|done]. intros x Hx. by apply elem_of_nil in Hx.
Qed.

(** A kernel that numbers the descriptors from 3. *)
Definition willing : handler Z := fun q =>
  match q return Z -> answer q * Z with
  | QOpen _ => fun n => (n, n + 1)
  | QIoctl _ r => fun n => (match r return fd_answer r with
                              | DMX_SET_PES_FILTER _ | DMX_START => true
                              | r => idle_fd_answer r
                              end, n)
  | q => fun n => (idle_answer q, n)
  end.

Lemma stream_selects_pids_witness : exists ok fds w' s',
  run willing (fun _ => calm time0) (add_pids 0 0 [] (pid_requests [] (sample_channel 10 1 "KABC") (-1) None))
    {| w_tuners := []; w_db := []; w_streams := ∅; w_fds := ∅; w_8vsb_override := ""; w_files := ∅; w_start_time := 0 |} 3 = Some ((ok, fds), w', s') /\
  fds.*2 = [0; 48; 49; 52] /\
  (ok = true -> forall p, wanted [] (sample_channel 10 1 "KABC") (-1) None p -> p ∈ fds.*2).
Proof.
  destruct (stream_selects_pids willing (fun _ => calm time0) 0 0 [] (sample_channel 10 1 "KABC") (-1) None
    {| w_tuners := []; w_db := []; w_streams := ∅; w_fds := ∅; w_8vsb_override := ""; w_files := ∅; w_start_time := 0 |} 3)
    as (ok & fds & w' & s' & Hr & _ & _ & _ & Hc & _).
  exists ok, fds, w', s'. split; [exact Hr|]. split; [|exact Hc].
  vm_compute in Hr. by injection Hr as <- <- _ _.
Defined.
