(* ===== verification/TunerOps.v ===== *)
(** Claiming, releasing and holding tuners: the functions of src/src/tuner.c.

    Programs over the sections of [Tuner].  The ownership lemmas say what each
    function does with a claim and with the descriptors of the tuner: claiming
    gives the caller the claim and the descriptor to reuse, releasing takes the
    claim back and closes, parks or holds the frontend.  Memory allocation is
    taken to succeed. *)
From stdpp Require Import gmultiset.
From S2P Require Import Prelude RecordUpd CLib ChannelDb Config Stats Ring Tuner Sys Life Own Rules Frontend Stream.

Definition HELD_STATS_REFRESH_MS : Z := 500.
Definition TUNER_PARK_MS : Z := 5000.

(** ** The statistics refresher of a hold *)

Fixpoint held_stats_loop (fuel : nat) (i : nat) (fd : Z) : prog unit :=
  match fuel with
  | O => Spin
  | S fuel =>
      stats <- dvb_frontend_read_stats fd ;;
      stats <- (if symbol_quality_pct stats <? 0 then
                  r <- legacy_reading fd (has_lock stats) ;;
                  legacy <- tun i (fun t =>
                    let '(pct, seq) := legacy_seq_step (held_legacy_seq t) (has_lock stats) r.1 r.2 in
                    (pct, t <| held_legacy_seq := seq |>)) ;;
                  Ret (with_legacy stats legacy)
                else Ret stats) ;;
      stop <- tun i (held_publish_section fd stats) ;;
      if stop then Ret tt
      else
        env (QSleep (HELD_STATS_REFRESH_MS * 1000)) ;;
        stop <- tun_get i (held_stop fd) ;;
        if stop then Ret tt else held_stats_loop fuel i fd
  end.

Definition held_stats_thread_main (fuel : nat) (i : nat) : prog unit :=
  fd <- tun_get i held_fd ;;
  if 0 <=? fd then held_stats_loop fuel i fd else Ret tt.

(** The thread id is read after the lock is released, when joining. *)
Definition stop_held_stats_thread (i : nat) : prog unit :=
  started <- tun i stop_stats_section ;;
  if negb started then Ret tt
  else
    tid <- tun_get i held_stats_thread ;;
    join_thread tid ;;
    tun i stats_joined_section.

(** ** Claims *)

(** [out]: whether the caller passed [out_reused_fd]; the result is the value
    stored there. *)
Definition resolve_claimed_hold (i : nat) (held tuned_freq_hz tuned_delivery want_freq_hz want_delivery : Z)
    (out : bool) : prog Z :=
  if held <? 0 then Ret (-1)
  else
    stop_held_stats_thread i ;;
    if out && (tuned_freq_hz =? want_freq_hz) && (tuned_delivery =? want_delivery) then Ret held
    else dvb_frontend_close held ;; Ret (-1).

Definition resolve_claimed_parked (parked : Z) (out : bool) (reused : Z) : prog Z :=
  if parked <? 0 then Ret reused
  else if out && (reused <? 0) then Ret parked
  else dvb_frontend_close parked ;; Ret reused.

Definition resolve_claimed (i : nat) (c : claimed) (want_freq_hz want_delivery : Z) (out : bool) : prog Z :=
  reused <- resolve_claimed_hold i (c_held c) (c_freq c) (c_delivery c) want_freq_hz want_delivery out ;;
  resolve_claimed_parked (c_parked c) out reused.

(** None: the tuner is busy; otherwise the reused descriptor, or -1. *)
Definition tuner_try_claim (i : nat) (want_freq_hz want_delivery : Z) (out : bool) : prog (option Z) :=
  c <- tun i claim_section ;;
  match c with
  | None => Ret None
  | Some c => reused <- resolve_claimed i c want_freq_hz want_delivery out ;; Ret (Some reused)
  end.

Definition tuner_try_claim_fast (i : nat) : prog (option Z) := tun i claim_fast_section.

Definition tuner_resolve_stale_held_fd (i : nat) (stale_held_fd : Z) : prog unit :=
  if stale_held_fd <? 0 then Ret tt
  else stop_held_stats_thread i ;; dvb_frontend_close stale_held_fd.

(** Waits on [free_cond] until the tuner is free or the deadline passes. *)
Fixpoint claim_wait_loop (fuel : nat) (i : nat) (timeout_ms : Z) : prog (option claimed) :=
  match fuel with
  | O => Spin
  | S fuel =>
      timed_out <- env (QCondWait (Free i) (Some timeout_ms)) ;;
      r <- tun i (claim_wait_check timed_out) ;;
      match r with
      | WaitMore => claim_wait_loop fuel i timeout_ms
      | WaitFailed => Ret None
      | WaitClaimed c => Ret (Some c)
      end
  end.

Definition tuner_try_claim_wait (fuel : nat) (i : nat) (timeout_ms want_freq_hz want_delivery : Z) (out : bool) :
    prog (option Z) :=
  r <- tun i claim_wait_section ;;
  c <- match r with
       | WaitMore => claim_wait_loop fuel i timeout_ms
       | WaitFailed => Ret None
       | WaitClaimed c => Ret (Some c)
       end ;;
  match c with
  | None => Ret None
  | Some c => reused <- resolve_claimed i c want_freq_hz want_delivery out ;; Ret (Some reused)
  end.

Definition tuner_set_stream (i : nat) (s : option nat) : prog unit := tun i (set_stream_section s).

(** ** Holds *)

Definition close_existing_hold_for_new_one (i : nat) : prog bool :=
  r <- tun i hold_detach_section ;;
  match r with
  | None => Ret false
  | Some r =>
      when (0 <=? r.1) (stop_held_stats_thread i ;; dvb_frontend_close r.1) ;;
      when (0 <=? r.2) (dvb_frontend_close r.2) ;;
      Ret true
  end.

Definition install_hold_fd (i : nat) (fd : Z) : prog unit :=
  installed <- sect (fun e w =>
    match w_tuners w !! i with
    | None => None
    | Some t =>
        let '(ok, t') := install_section fd (if e_create_ok e then Some (e_tid e) else None) t in
        Some (ok, w <| w_tuners ::= <[i := t']> |>,
              if ok && e_create_ok e then Some {| sp_thread := T_held_stats i; sp_join := Some (JHeld i fd) |} else None)
    end) ;;
  if installed then Ret tt else dvb_frontend_close fd.

Definition tuner_open_hold (i : nat) (freq_hz delivery : Z) : prog unit :=
  ok <- close_existing_hold_for_new_one i ;;
  if negb ok then Ret tt
  else
    node <- tun_get i (fun t => (adapter t, frontend t)) ;;
    fd <- dvb_frontend_open node.1 node.2 ;;
    if fd <? 0 then Ret tt
    else
      rc <- tune_delivery fd delivery freq_hz ;;
      if negb (rc =? 0) then dvb_frontend_close fd else install_hold_fd i fd.

Definition tuner_open_hold_from_fd (i : nat) (fd : Z) : prog unit :=
  ok <- close_existing_hold_for_new_one i ;;
  if negb ok then dvb_frontend_close fd else install_hold_fd i fd.

Definition tuner_close_hold (i : nat) : prog unit :=
  fd <- tun i close_hold_section ;;
  if fd <? 0 then Ret tt else stop_held_stats_thread i ;; dvb_frontend_close fd.

(** ** Release *)

Definition tuner_release (i : nat) : prog unit :=
  s <- tun i take_stream_section ;;
  dvb_stream_close s ;;
  rehold <- tun i release_section ;;
  match rehold with
  | Some sel => tuner_open_hold i sel.1 sel.2
  | None => Ret tt
  end.

Definition park_expiry_thread_main (i : nat) (generation : Z) : prog unit :=
  env (QSleep (TUNER_PARK_MS * 1000)) ;;
  fd <- tun i (park_expiry_section generation) ;;
  when (0 <=? fd) (dvb_frontend_close fd).

Definition tuner_release_park (i : nat) : prog unit :=
  r <- tun i park_take_section ;;
  let '(s, selected) := r in
  match s, selected with
  | None, _ | _, true => tuner_set_stream i s ;; tuner_release i
  | Some _, false =>
      fd <- dvb_stream_close_keep_frontend s ;;
      let ctx := 0 <=? fd in
      generation <- tun i (park_section ctx fd) ;;
      if ctx then
        ok <- spawn_detached (T_park_expiry i generation) ;;
        if ok then Ret tt
        else
          still <- tun i (park_undo_section generation) ;;
          when (0 <=? still) (dvb_frontend_close still)
      else Ret tt
  end.

(** ** The pool *)

(** The claimed tuner and the reused descriptor. *)
Fixpoint pool_claim_from (i count : nat) (want_freq_hz want_delivery : Z) (out : bool) : prog (option (nat * Z)) :=
  match count with
  | O => Ret None
  | S count =>
      r <- tuner_try_claim i want_freq_hz want_delivery out ;;
      match r with
      | Some reused => Ret (Some (i, reused))
      | None => pool_claim_from (S i) count want_freq_hz want_delivery out
      end
  end.
Definition tuner_pool_claim_free (count : nat) (want_freq_hz want_delivery : Z) (out : bool) : prog (option (nat * Z)) :=
  pool_claim_from 0 count want_freq_hz want_delivery out.

Definition tuner_bind_channel (i : nat) (ch : channel_ref) (program_override : Z) : prog unit :=
  tun_db i (fun db => bind_section (channel_of ch db) program_override).

(** ** Ownership *)

Section Specs.
Context (cfg : hdhr_config).
Local Notation wp := (wp cfg).
Local Notation ntuners := (ntuners cfg).

(** The frontend node of tuner [i]. *)
Definition tdev (i : nat) : devnode := DevFrontend (nth i (dvb_adapter cfg) 0) (dvb_frontend cfg).

Lemma tuner_dev_tdev i t : tuner_ok cfg i t -> tuner_dev t = tdev i.
Proof. intros (_ & Ha & Hf & _). unfold tuner_dev. by rewrite Ha, Hf. Qed.

(** A tuner whose descriptors and stream were taken away still satisfies its
    type invariant. *)
Lemma tuner_ok_clear i t t' :
  index t' = index t -> adapter t' = adapter t -> frontend t' = frontend t ->
  (busy t' = false -> active_stream t' = None) -> (pending_ok t -> pending_ok t') -> tuner_ok cfg i t -> tuner_ok cfg i t'.
Proof. intros E1 E2 E3 Hb Hp (H1 & H2 & H3 & H4 & H5). unfold tuner_ok. rewrite E1, E2, E3. auto 10. Qed.

(** The resources of a tuner, with the node known. *)
Lemma tuner_res_eq i t : tuner_ok cfg i t ->
  tuner_res i t = hold_toks i (tdev i) (hold_of t) (held_fd t) ⊎ fd_toks (parked_fd t) (tdev i) ⊎ opt_str (active_stream t) (tdev i) ⊎
    (if busy t then ∅ else {[+ TClaim i (active_stream t) +]}).
Proof. intros H. unfold tuner_res. by rewrite (tuner_dev_tdev i t H). Qed.



Lemma claim_eq i t : tuner_ok cfg i t -> busy t = false -> active_stream t = None /\
  tuner_res i t = hold_toks i (tdev i) (hold_of t) (held_fd t) ⊎ fd_toks (parked_fd t) (tdev i) ⊎ {[+ TClaim i None +]}.
Proof.
  intros Hok Hb. assert (Ha : active_stream t = None) by (apply Hok, Hb). split; [done|].
  rewrite tuner_res_eq, Ha, Hb by done. unfold opt_str. multiset_solver.
Qed.

(** [r]: the refresher of the detached hold. *)
Definition claimed_toks (i : nat) (c : claimed) (r : option (nat * bool)) : toks :=
  {[+ TClaim i None +]} ⊎ hold_toks i (tdev i) r (c_held c) ⊎ fd_toks (c_parked c) (tdev i).

Lemma fd_toks_m1 d : fd_toks (-1) d = ∅.
Proof. done. Qed.
Lemma hold_toks_m1 i d r : hold_toks i d r (-1) = ∅.
Proof. done. Qed.
Lemma hold_toks_neg i d r fd : fd < 0 -> hold_toks i d r fd = ∅.
Proof. intros H. unfold hold_toks. destruct (0 <=? fd) eqn:E; zb; [lia|done]. Qed.

(** The state change of every claim. *)
Lemma take_claim_eq i t R : tuner_ok cfg i t -> busy t = false ->
  let t' := (take_claim t).2 in
  tuner_ok cfg i t' /\ tuner_moves t t' /\
  refresher_of t' = refresher_of t /\
  (R ⊎ claimed_toks i (take_claim t).1 (hold_of t)) ⊎ tuner_res i t' ⊎ {[+ TClaim i (active_stream t) +]} =
    R ⊎ tuner_res i t ⊎ {[+ TClaim i (active_stream t') +]}.
Proof.
  intros Hok Hb. destruct (claim_eq i t Hok Hb) as [Ha Hr]. cbv zeta.
  assert (Hok' : tuner_ok cfg i (take_claim t).2) by (apply (tuner_ok_clear i t); done).
  split; [done|]. split; [by apply moves_claim|]. split; [done|].
  rewrite Hr, (tuner_res_eq i (take_claim t).2 Hok'). unfold take_claim, claimed_toks. cbn [fst snd]. upd_simpl.
  rewrite fd_toks_m1, hold_toks_m1, Ha. cbn [c_held c_parked c_freq c_delivery]. unfold opt_str.
  generalize (hold_toks i (tdev i) (hold_of t) (held_fd t)). multiset_solver.
Qed.

Lemma wp_claim_section i R (Q : option claimed -> toks -> Prop) :
  (i < ntuners)%nat -> Q None R -> (forall c r, Q (Some c) (R ⊎ claimed_toks i c r)) -> wp (tun i claim_section) R Q.
Proof.
  intros Hi Hn Hs. apply wp_tuner_sect; [done|]. intros e t (Hok & _ & _). unfold claim_section.
  destruct (busy t) eqn:Hb; [split; [done|split; [apply moves_refl|split; [done|by exists R]]]|].
  destruct (take_claim_eq i t R Hok Hb) as (Hok' & Hm & Hr & Heq). destruct (take_claim t) as [c t'] eqn:E.
  cbn [fst snd] in *. split; [done|]. split; [done|]. split; [done|]. eauto.
Qed.

Lemma wp_claim_fast i R (Q : option Z -> toks -> Prop) :
  (i < ntuners)%nat -> Q None R ->
  (forall stale r, Q (Some stale) (R ⊎ {[+ TClaim i None +]} ⊎ hold_toks i (tdev i) r stale)) ->
  wp (tuner_try_claim_fast i) R Q.
Proof.
  intros Hi Hn Hs. apply wp_tuner_sect; [done|]. intros e t (Hok & _ & Hhp & _). unfold claim_fast_section.
  destruct (busy t) eqn:Hb; [split; [done|split; [apply moves_refl|split; [done|by exists R]]]|].
  destruct (take_claim_eq i t R Hok Hb) as (Hok' & Hm & Hr & Heq). unfold take_claim, claimed_toks in Heq, Hok', Hm, Hr.
  cbn [fst snd c_held c_parked] in *. split; [done|]. split; [done|]. split; [done|].
  exists (R ⊎ {[+ TClaim i None +]} ⊎ hold_toks i (tdev i) (if held_fd t <? 0 then None else hold_of t)
            (if held_fd t <? 0 then parked_fd t else held_fd t)). split; [|apply Hs].
  rewrite <- Heq. destruct (held_fd t <? 0) eqn:E; zb.
  - rewrite (hold_toks_neg i (tdev i) (hold_of t)) by done. change (hold_toks i (tdev i) None) with (fun fd => fd_toks fd (tdev i)).
    multiset_solver.
  - rewrite (fd_toks_neg (parked_fd t)) by (destruct Hhp; [lia|done]).
    generalize (hold_toks i (tdev i) (hold_of t) (held_fd t)). multiset_solver.
Qed.

(** *** Neutral sections *)


(** The first section of [stop_held_stats_thread]: the request. *)
Lemma wp_stop_request i fd tid b R (Q : bool -> toks -> Prop) :
  (i < ntuners)%nat -> Q true (R ⊎ {[+ TLive i fd tid true +]}) ->
  wp (tun i stop_stats_section) (R ⊎ {[+ TLive i fd tid b +]}) Q.
Proof.
  intros Hi HQ. apply wp_tuner_live; [done|]. intros e t (Hok & _ & _ & _ & Hlv & _).
  destruct (Hlv fd tid b) as [Hr Hh]; [multiset_solver|].
  assert (Es : held_stats_thread_started t = true) by (unfold refresher_of in Hr; by destruct (held_stats_thread_started t)).
  assert (Hr' : refresher_of (stop_stats_section t).2 = Some (fd, tid, true)).
  { unfold refresher_of in Hr |- *. cbn [snd stop_stats_section]. upd_simpl. rewrite Es in Hr |- *. congruence. }
  assert (Hok' : tuner_ok cfg i (stop_stats_section t).2) by exact Hok.
  split; [exact Hok'|]. split; [by apply moves_same|]. split; [intros _; by left|]. exists (R ⊎ {[+ TLive i fd tid true +]}). cbn [fst stop_stats_section].
  rewrite Es. split; [|done]. rewrite (tuner_res_eq i _ Hok), (tuner_res_eq i _ Hok').
  unfold state_toks, live_toks, gone_toks. rewrite Hr, Hr'. cbn [snd stop_stats_section] in *. upd_simpl.
  rewrite !hold_toks_neg by done. change (tuner_dev (t <| held_stats_stop_requested := true |>)) with (tuner_dev t).
  generalize (opt_str (active_stream t) (tdev i)) (if busy t then ∅ else {[+ TClaim i (active_stream t) +]} : toks)
    (fd_toks (parked_fd t) (tdev i)). multiset_solver.
Qed.

(** The last section: the descriptor is an ordinary one again. *)
Lemma wp_stats_joined i fd tid R (Q : unit -> toks -> Prop) :
  (i < ntuners)%nat -> Q tt (R ⊎ {[+ TFd fd (tdev i) +]}) ->
  wp (tun i stats_joined_section) (R ⊎ {[+ TLive i fd tid true +]} ⊎ {[+ TRefr i fd +]}) Q.
Proof.
  intros Hi HQ. apply wp_tuner_live; [done|]. intros e t (Hok & _ & _ & _ & Hlv & _).
  destruct (Hlv fd tid true) as [Hr Hh]; [multiset_solver|].
  assert (Hok' : tuner_ok cfg i (stats_joined_section t).2) by exact Hok.
  split; [exact Hok'|]. split; [by apply moves_same|]. split; [done|]. exists (R ⊎ {[+ TFd fd (tdev i) +]}). split; [|done].
  rewrite (tuner_res_eq i _ Hok), (tuner_res_eq i _ Hok').
  unfold state_toks, live_toks, gone_toks. rewrite Hr. change (refresher_of (stats_joined_section t).2) with (None : option (Z * nat * bool)).
  cbn [snd stats_joined_section] in *. upd_simpl. rewrite !hold_toks_neg, (tuner_dev_tdev i t Hok) by done.
  generalize (opt_str (active_stream t) (tdev i)) (if busy t then ∅ else {[+ TClaim i (active_stream t) +]} : toks)
    (fd_toks (parked_fd t) (tdev i)). multiset_solver.
Qed.

(** With the descriptor of a detached hold in hand: no other thread can be joining
    the refresher, and afterwards the descriptor may be closed. *)
Lemma wp_stop_held i r fd R (Q : unit -> toks -> Prop) :
  (i < ntuners)%nat -> 0 <= fd -> Q tt (R ⊎ fd_toks fd (tdev i)) ->
  wp (stop_held_stats_thread i) (R ⊎ hold_toks i (tdev i) r fd) Q.
Proof.
  intros Hi H0 HQ. rewrite fd_toks_nonneg in HQ by done. unfold stop_held_stats_thread, hold_toks.
  rewrite (proj2 (Z.leb_le _ _) H0). wp_step. destruct r as [[tid b]|].
  - replace (R ⊎ _) with (R ⊎ {[+ TJoin tid (JHeld i fd) +]} ⊎ {[+ TLive i fd tid b +]}) by multiset_solver.
    apply wp_stop_request; [done|]. cbn [negb]. wp_step. apply wp_tun_get; [done|]. intros t (_ & _ & _ & _ & Hlv & _).
    destruct (Hlv fd tid true) as [Hr _]; [multiset_solver|].
    assert (held_stats_thread t = tid) as ->.
    { unfold refresher_of in Hr. destruct (held_stats_thread_started t); congruence. }
    wp_step. apply (wp_join cfg tid (JHeld i fd) _ (R ⊎ {[+ TLive i fd tid true +]}));
      [multiset_solver|simpl; multiset_solver|]. by apply wp_stats_joined.
  - apply wp_tuner_neutral; [done|]. intros e t (Hok & _ & _ & Hx & _). rewrite (tuner_dev_tdev i t Hok) in Hx.
    destruct (Hx fd) as (_ & _ & Es); [multiset_solver|]. cbn [fst snd stop_stats_section]. rewrite Es. split; [|done].
    unfold same_tuner_res, refresher_of. upd_simpl. rewrite Es. auto 12.
Qed.

(** The refresher reads the statistics of the descriptor it was started for: it
    stays open until the refresher has been joined. *)
Lemma wp_held_stats_thread_main fuel i fd R (Q : unit -> toks -> Prop) :
  (i < ntuners)%nat -> TRefr i fd ∈ R -> Q tt R -> wp (held_stats_thread_main fuel i) R Q.
Proof.
  intros Hi Hin HQ. assert (Hu : may_use R fd) by (right; right; right; by exists i).
  unfold held_stats_thread_main. wp_step. apply wp_tun_get; [done|]. intros t (_ & _ & _ & _ & _ & Hrf & _).
  wp_step; [|done]. zb. destruct (Hrf fd Hin) as [?| ->]; [lia|].
  clear Heqb Hrf t. induction fuel as [|fuel IH]; [done|]. cbn [held_stats_loop].
  wp_step. apply wp_read_stats; [done|]. intros stats. wp_step. apply wp_keep.
  { wp_step; [|done]. wp_step. apply wp_legacy_reading; [done|]. intros r. wp_step.
    apply wp_tuner_neutral; [done|]. intros e t _. destruct (legacy_seq_step _ _ _ _). by neutral. }
  intros stats'. wp_step. apply wp_tuner_neutral; [done|]. intros e t _. unfold held_publish_section.
  assert (Hrest : forall b : bool, wp (if b then Ret tt else env (QSleep (HELD_STATS_REFRESH_MS * 1000)) ;;
     stop <- tun_get i (held_stop fd) ;; if stop then Ret tt else held_stats_loop fuel i fd) R Q).
  { intros b. wp_go; [done|]. apply wp_tun_get; [done|]. intros t' _. wp_go; done. }
  destruct (held_stop fd t); neutral; apply Hrest.
Qed.

Lemma wp_close_dev fd i R (Q : unit -> toks -> Prop) :
  Q tt R -> wp (dvb_frontend_close fd) (R ⊎ fd_toks fd (tdev i)) Q.
Proof. by apply (wp_frontend_close cfg fd (tdev i) _ R). Qed.

Lemma wp_resolve_claimed i c r wf wd out R (Q : Z -> toks -> Prop) :
  (i < ntuners)%nat ->
  (forall reused, (out = false -> reused < 0) -> Q reused (R ⊎ {[+ TClaim i None +]} ⊎ fd_toks reused (tdev i))) ->
  wp (resolve_claimed i c wf wd out) (R ⊎ claimed_toks i c r) Q.
Proof.
  intros Hi HQ. unfold resolve_claimed, claimed_toks. set (R1 := R ⊎ {[+ TClaim i None +]}) in *.
  set (P := fd_toks (c_parked c) (tdev i)).
  replace (R ⊎ _) with (R1 ⊎ P ⊎ hold_toks i (tdev i) r (c_held c)) by multiset_solver.
  assert (Hparked : forall reused, (out = false -> reused < 0) ->
     wp (resolve_claimed_parked (c_parked c) out reused) (R1 ⊎ P ⊎ fd_toks reused (tdev i)) Q).
  { intros reused Hr. unfold resolve_claimed_parked, P. destruct (c_parked c <? 0) eqn:Ep; zb.
    - rewrite (fd_toks_neg (c_parked c)) by done. apply wp_ret. replace (R1 ⊎ ∅) with R1 by multiset_solver. auto.
    - destruct (out && (reused <? 0)) eqn:Er.
      + zb. rewrite (fd_toks_neg reused) by lia. apply wp_ret.
        replace (R1 ⊎ fd_toks (c_parked c) (tdev i) ⊎ ∅) with (R1 ⊎ fd_toks (c_parked c) (tdev i)) by multiset_solver.
        apply HQ. by intros ->.
      + wp_step. replace (R1 ⊎ _ ⊎ _) with (R1 ⊎ fd_toks reused (tdev i) ⊎ fd_toks (c_parked c) (tdev i)) by multiset_solver.
        apply wp_close_dev. apply wp_ret. auto. }
  assert (Hnone : wp (resolve_claimed_parked (c_parked c) out (-1)) (R1 ⊎ P) Q).
  { replace (R1 ⊎ P) with (R1 ⊎ P ⊎ fd_toks (-1) (tdev i)) by (rewrite fd_toks_m1; multiset_solver). apply Hparked. lia. }
  wp_step. unfold resolve_claimed_hold. destruct (c_held c <? 0) eqn:E; zb.
  - rewrite hold_toks_neg by done. apply wp_ret. by replace (R1 ⊎ P ⊎ ∅) with (R1 ⊎ P) by multiset_solver.
  - wp_step. apply wp_stop_held; [done|lia|]. wp_step.
    + apply wp_ret, Hparked. by intros ->.
    + wp_step. apply wp_close_dev. apply wp_ret, Hnone.
Qed.

Lemma wp_tuner_try_claim i wf wd out R (Q : option Z -> toks -> Prop) :
  (i < ntuners)%nat -> Q None R ->
  (forall reused, (out = false -> reused < 0) -> Q (Some reused) (R ⊎ {[+ TClaim i None +]} ⊎ fd_toks reused (tdev i))) ->
  wp (tuner_try_claim i wf wd out) R Q.
Proof.
  intros Hi Hn Hs. unfold tuner_try_claim. wp_step. apply wp_claim_section; [done|by apply wp_ret|].
  intros c r. wp_step. apply wp_resolve_claimed; [done|]. intros reused Hr. apply wp_ret. auto.
Qed.

(** The outcome of the wait loop's test. *)
Definition wait_post (i : nat) (R : toks) (r : wait_result) (R' : toks) : Prop :=
  match r with WaitClaimed c => exists h, R' = R ⊎ claimed_toks i c h | _ => R' = R end.

Lemma wp_wait_check i R (Q : wait_result -> toks -> Prop) (f : sect_env -> hdhr_tuner -> wait_result * hdhr_tuner) :
  (forall e t, exists b t0, f e t = claim_wait_check b t0 /\ same_tuner_res t t0 /\ busy t0 = busy t) ->
  (i < ntuners)%nat -> (forall r R', wait_post i R r R' -> Q r R') -> wp (tuner_sect i f) R Q.
Proof.
  intros Hf Hi HQ. apply wp_tuner_sect; [done|]. intros e t (Hok & _ & _).
  destruct (Hf e t) as (b & t0 & -> & Hs & Hb). assert (Ha : active_stream t = active_stream t0) by (symmetry; apply Hs).
  pose proof (same_tuner_ok cfg i t t0 Hs Hok) as Hok0. rewrite <- (same_tuner_res_eq i t t0 Hs). rewrite Ha.
  assert (Er : refresher_of t = refresher_of t0) by (symmetry; apply Hs). rewrite Er.
  unfold tuner_moves. rewrite (same_life t t0 Hs). change (life_moves (life_of t0) (life_of ?x)) with (tuner_moves t0 x).
  clear Ha Hs Hok t Hb Er.
  unfold claim_wait_check. cbv zeta.
  destruct (busy t0 && negb b) eqn:E1; [split; [done|split; [apply moves_refl|split; [done|exists R; split; [done|by apply HQ]]]]|].
  set (t1 := t0 <| claim_waiters ::= _ |>).
  assert (Hs1 : same_tuner_res t0 t1) by neutral_set.
  pose proof (same_tuner_ok cfg i t0 t1 Hs1 Hok0) as Hok1. rewrite <- (same_tuner_res_eq i t0 t1 Hs1).
  change (active_stream t0) with (active_stream t1). change (refresher_of t0) with (refresher_of t1).
  change (tuner_moves t0) with (tuner_moves t1). clearbody t1.
  destruct (busy t1) eqn:Hb; [split; [done|split; [apply moves_refl|split; [done|exists R; split; [done|by apply HQ]]]]|].
  destruct (take_claim_eq i t1 R Hok1 Hb) as (Hok' & Hm & Hr & Heq). destruct (take_claim t1) as [c t'].
  cbn [fst snd] in *. split; [done|]. split; [done|]. split; [done|]. eexists. split; [exact Heq|]. apply HQ. by eexists.
Qed.

Lemma wp_claim_wait_loop fuel i timeout R (Q : option claimed -> toks -> Prop) :
  (i < ntuners)%nat -> Q None R -> (forall c r, Q (Some c) (R ⊎ claimed_toks i c r)) ->
  wp (claim_wait_loop fuel i timeout) R Q.
Proof.
  intros Hi Hn Hs. induction fuel as [|fuel IH]; [done|]. cbn [claim_wait_loop]. wp_step. wp_step. wp_step.
  apply wp_wait_check; [|done|].
  - intros e t. exists a, t. split; [done|]. split; [|done]. neutral_set.
  - intros [| |c] R' Hp; simpl in Hp; [subst R'; exact IH|subst R'; by apply wp_ret|destruct Hp as [h ->]; apply wp_ret, Hs].
Qed.

Lemma wp_tuner_try_claim_wait fuel i timeout wf wd out R (Q : option Z -> toks -> Prop) :
  (i < ntuners)%nat -> Q None R ->
  (forall reused, (out = false -> reused < 0) -> Q (Some reused) (R ⊎ {[+ TClaim i None +]} ⊎ fd_toks reused (tdev i))) ->
  wp (tuner_try_claim_wait fuel i timeout wf wd out) R Q.
Proof.
  intros Hi Hn Hs. unfold tuner_try_claim_wait. wp_step.
  assert (Hc : forall c r, wp (reused <- resolve_claimed i c wf wd out ;; Ret (Some reused)) (R ⊎ claimed_toks i c r) Q).
  { intros c r. wp_step. apply wp_resolve_claimed; [done|]. intros reused Hr. apply wp_ret. auto. }
  apply wp_wait_check; [|done|].
  - intros e t. eexists false, _. split; [reflexivity|]. split; [|done].
    neutral_set.
  - intros [| |c] R' Hp; simpl in Hp; [subst R'..|destruct Hp as [h ->]]; wp_step.
    + apply wp_claim_wait_loop; [done|by apply wp_ret|exact Hc].
    + by apply wp_ret.
    + exact (Hc c h).
Qed.

(** *** Streams of a claimed tuner *)

(** A section that changes only the active stream of a claimed tuner. *)
Lemma active_change i t s R : tuner_ok cfg i t -> busy t = true -> active_stream t = None ->
  let t' := t <| active_stream := s |> in
  tuner_ok cfg i t' /\
  (R ⊎ {[+ TClaim i s +]}) ⊎ tuner_res i t' ⊎ {[+ TClaim i (active_stream t) +]} =
    (R ⊎ {[+ TClaim i None +]} ⊎ opt_str s (tdev i)) ⊎ tuner_res i t ⊎ {[+ TClaim i (active_stream t') +]}.
Proof.
  intros Hok Hb Ha t'. assert (Hok' : tuner_ok cfg i t').
  { apply (tuner_ok_clear i t); try done. unfold t'. upd_simpl. by rewrite Hb. }
  split; [done|]. rewrite (tuner_res_eq i t Hok), (tuner_res_eq i t' Hok'). unfold t'. upd_simpl. rewrite Ha, Hb.
  change (opt_str None (tdev i)) with (∅ : toks).
  generalize (hold_toks i (tdev i) (hold_of t) (held_fd t)). multiset_solver.
Qed.

Lemma wp_tuner_set_stream i s R (Q : unit -> toks -> Prop) :
  (i < ntuners)%nat -> Q tt (R ⊎ {[+ TClaim i s +]}) ->
  wp (tuner_set_stream i s) (R ⊎ {[+ TClaim i None +]} ⊎ opt_str s (tdev i)) Q.
Proof.
  intros Hi HQ. apply wp_tuner_sect; [done|]. intros e t (Hok & Hcl & _ & _ & _ & _ & Hst).
  destruct (Hcl None) as [Ha Hb]; [multiset_solver|]. destruct (active_change i t s R Hok Hb Ha) as [Hok' Heq].
  split; [exact Hok'|]. split.
  { apply (moves_attach t _ s); try done. intros Hs. destruct s as [s|]; [|done]. apply (Hst s Open).
    rewrite (tuner_dev_tdev i t Hok). unfold opt_str. multiset_solver. }
  split; [done|]. exists (R ⊎ {[+ TClaim i s +]}). done.
Qed.

(** Taking the stream out is the reverse change. *)
Lemma active_take i t s R : tuner_ok cfg i t -> busy t = true -> active_stream t = s ->
  let t' := t <| active_stream := None |> in
  tuner_ok cfg i t' /\
  (R ⊎ {[+ TClaim i None +]} ⊎ opt_str s (tdev i)) ⊎ tuner_res i t' ⊎ {[+ TClaim i (active_stream t) +]} =
    (R ⊎ {[+ TClaim i s +]}) ⊎ tuner_res i t ⊎ {[+ TClaim i (active_stream t') +]}.
Proof.
  intros Hok Hb Ha t'. assert (Hok' : tuner_ok cfg i t') by by apply (tuner_ok_clear i t).
  split; [done|]. rewrite (tuner_res_eq i t Hok), (tuner_res_eq i t' Hok'). unfold t'. upd_simpl. rewrite Ha, Hb.
  change (opt_str None (tdev i)) with (∅ : toks).
  generalize (hold_toks i (tdev i) (hold_of t) (held_fd t)). multiset_solver.
Qed.

Lemma wp_take_stream {X} i o R (f : hdhr_tuner -> X * hdhr_tuner) (Q : X -> toks -> Prop) :
  (i < ntuners)%nat -> (forall t, (f t).2 = t <| active_stream := None |>) ->
  (forall t, active_stream t = o -> Q (f t).1 (R ⊎ {[+ TClaim i None +]} ⊎ opt_str o (tdev i))) ->
  wp (tun i f) (R ⊎ {[+ TClaim i o +]}) Q.
Proof.
  intros Hi Hf HQ. apply wp_tuner_sect; [done|]. intros e t (Hok & Hcl & _).
  destruct (Hcl o) as [Ha Hb]; [multiset_solver|]. destruct (active_take i t o R Hok Hb Ha) as [Hok' Heq].
  rewrite Hf. split; [exact Hok'|]. split; [by apply moves_detach|]. split; [done|]. eexists. split; [exact Heq|]. by apply HQ.
Qed.

(** *** Holds *)

Lemma wp_stop_and_close i r fd R (Q : unit -> toks -> Prop) :
  (i < ntuners)%nat -> 0 <= fd -> Q tt R ->
  wp (stop_held_stats_thread i ;; dvb_frontend_close fd) (R ⊎ hold_toks i (tdev i) r fd) Q.
Proof. intros Hi H0 HQ. wp_step. apply wp_stop_held; [done..|]. by apply wp_close_dev. Qed.

Lemma hold_toks_skip i d r fd R : (0 <=? fd) = false -> R ⊎ hold_toks i d r fd = R.
Proof. intros H. zb. rewrite hold_toks_neg by done. multiset_solver. Qed.

Lemma wp_resolve_stale i r fd R (Q : unit -> toks -> Prop) :
  (i < ntuners)%nat -> Q tt R -> wp (tuner_resolve_stale_held_fd i fd) (R ⊎ hold_toks i (tdev i) r fd) Q.
Proof.
  intros Hi HQ. unfold tuner_resolve_stale_held_fd. destruct (fd <? 0) eqn:E; zb; [|by apply wp_stop_and_close].
  apply wp_ret. rewrite hold_toks_neg by done. by replace (R ⊎ ∅) with R by multiset_solver.
Qed.

Lemma fd_toks_skip fd d R : (0 <=? fd) = false -> R ⊎ fd_toks fd d = R.
Proof. intros H. zb. rewrite fd_toks_neg by done. multiset_solver. Qed.

Lemma wp_close_existing i R (Q : bool -> toks -> Prop) :
  (i < ntuners)%nat -> (forall b, Q b R) -> wp (close_existing_hold_for_new_one i) R Q.
Proof.
  intros Hi HQ. unfold close_existing_hold_for_new_one. wp_step. apply wp_tuner_sect; [done|].
  intros e t (Hok & _ & _). unfold hold_detach_section. destruct (active_stream t) as [s|] eqn:Ha.
  { rewrite <- Ha. split; [done|]. split; [apply moves_refl|]. split; [done|]. exists R. split; [done|]. apply wp_ret, HQ. }
  cbn [fst snd]. set (t' := t <| held_fd := -1 |> <| parked_fd := -1 |>).
  assert (Hok' : tuner_ok cfg i t') by (apply (tuner_ok_clear i t); try done; apply Hok).
  split; [done|]. split; [apply moves_drop_both|]. split; [done|].
  exists (R ⊎ fd_toks (parked_fd t) (tdev i) ⊎ hold_toks i (tdev i) (hold_of t) (held_fd t)). split.
  - rewrite (tuner_res_eq i t Hok), (tuner_res_eq i t' Hok'). unfold t'. upd_simpl. rewrite fd_toks_m1, hold_toks_m1, Ha.
    generalize (if busy t then ∅ else {[+ TClaim i None +]} : toks) (hold_toks i (tdev i) (hold_of t) (held_fd t)).
    unfold opt_str. multiset_solver.
  - generalize (held_fd t) as h, (parked_fd t) as pk, (hold_of t) as r. intros h pk r. cbn [fst snd].
    assert (Hpk : wp (when (0 <=? pk) (dvb_frontend_close pk) ;; Ret true) (R ⊎ fd_toks pk (tdev i)) Q).
    { wp_step. wp_step; [apply wp_close_dev; apply wp_ret, HQ|]. rewrite fd_toks_skip by done. apply wp_ret, HQ. }
    wp_step. apply wp_when; intros E.
    + zb. by apply wp_stop_and_close.
    + by rewrite hold_toks_skip.
Qed.

(** The tuner after [fd] has been installed, with the refresher [tid] if it could be
    created. *)
Lemma winv_installed w jn R F i fd t tid : let r := (fun tid => (tid, false)) <$> tid in
  let t' := (install_section fd tid t).2 in
  Own.winv cfg w jn (R ⊎ {[+ TFd fd (tdev i) +]} ⊎ (if tid is Some tid then {[+ TJoin tid (JHeld i fd) +]} else ∅) ⊎ F) ->
  w_tuners w !! i = Some t -> tuner_ok cfg i t -> 0 <= fd -> active_stream t = None ->
  (install_section fd tid t).1 = true /\ tuner_moves t t' /\
  Own.winv cfg (w <| w_tuners ::= <[i := t']> |>) jn (R ⊎ (if tid is Some _ then {[+ TRefr i fd +]} else ∅) ⊎ F).
Proof.
  intros r t' Hw Ht Hok H0 Ha.
  pose proof (winv_tuner_facts cfg w jn _ F i t Hw Ht Hok) as (_ & _ & _ & Hx & _). rewrite (tuner_dev_tdev i t Hok) in Hx.
  destruct (Hx fd) as (Hh & Hp & Es); [multiset_solver|]. clear Hx.
  assert (Hf : (install_section fd tid t).1 = true /\ held_fd t' = fd /\ parked_fd t' = parked_fd t /\
    active_stream t' = None /\ busy t' = busy t /\ index t' = index t /\ adapter t' = adapter t /\ frontend t' = frontend t /\
    pending_ok t' /\ hold_of t' = r /\ refresher_of t' = ((fun tid => (fd, tid, false)) <$> tid)).
  { unfold t', install_section. rewrite Ha, (proj2 (Z.leb_gt _ _) Hh).
    destruct tid; repeat apply conj; try reflexivity; try exact Ha; apply Hok. }
  destruct Hf as (E0 & E1 & E2 & E3 & E4 & E5 & E6 & E7 & E8 & Eh & Er). split; [done|]. clear E0. clearbody t'.
  split; [apply moves_hold; rewrite ?E1; done|].
  assert (Hok' : tuner_ok cfg i t').
  { apply (tuner_ok_clear i t); [done|done|done|by rewrite E3|done|done]. }
  apply (winv_replace cfg w jn _ F i t t' Hw Ht Hok').
  - intros Hs. right. unfold refresher_of in Er. rewrite Hs in Er.
    destruct tid; simpl in Er; [|done]. injection Er as -> _ _. rewrite (tuner_dev_tdev i t' Hok'). multiset_solver.
  - rewrite (tuner_res_eq i t Hok), (tuner_res_eq i t' Hok'), E1, E2, E3, E4, Ha, Eh, (hold_toks_neg i (tdev i) (hold_of t)) by done.
    unfold state_toks, live_toks, gone_toks. rewrite Er, Ha, E3, (tuner_dev_tdev i t' Hok'). unfold refresher_of. rewrite Es.
    unfold r, hold_toks. rewrite (proj2 (Z.leb_le _ _) H0).
    generalize (if busy t then ∅ else {[+ TClaim i None +]} : toks) (fd_toks (parked_fd t) (tdev i)) (opt_str None (tdev i)).
    destruct tid as [tid|]; cbn [fmap option_fmap option_map]; multiset_solver.
Qed.

Lemma wp_install i fd R (Q : unit -> toks -> Prop) :
  (i < ntuners)%nat -> 0 <= fd -> Q tt R -> wp (install_hold_fd i fd) (R ⊎ fd_toks fd (tdev i)) Q.
Proof.
  intros Hi H0 HQ. unfold install_hold_fd. wp_step. intros e w jn F Hw Hj.
  destruct (winv_lookup cfg _ _ _ i Hw Hi) as (t & Ht & Hok). rewrite Ht.
  destruct (active_stream t) as [s|] eqn:Ha.
  { unfold install_section at 1. rewrite Ha. cbn [andb]. exists (R ⊎ fd_toks fd (tdev i)), ∅. split; [done|].
    split; [|split; [by apply (guarantee_tuner w i t t), moves_refl|by apply wp_close_dev]]. simpl join_table. replace (_ ⊎ ∅ ⊎ F) with (R ⊎ fd_toks fd (tdev i) ⊎ F) by multiset_solver.
    by apply (winv_tuner cfg w jn (R ⊎ fd_toks fd (tdev i)) _ F i t t). }
  rewrite fd_toks_nonneg in Hw by done.
  destruct (e_create_ok e).
  - destruct (winv_installed w (<[e_tid e := JHeld i fd]> jn) R F i fd t (Some (e_tid e))) as (E & Hm & Hw'); [|done..|].
    { pose proof (winv_new_join cfg _ _ _ (e_tid e) (JHeld i fd) Hw Hj) as Hn.
      replace (R ⊎ {[+ TFd fd (tdev i) +]} ⊎ {[+ TJoin (e_tid e) (JHeld i fd) +]} ⊎ F)
        with (R ⊎ {[+ TFd fd (tdev i) +]} ⊎ F ⊎ {[+ TJoin (e_tid e) (JHeld i fd) +]}) by multiset_solver. exact Hn. }
    destruct (install_section fd (Some (e_tid e)) t) as [ok t']. cbn [fst snd] in E, Hm, Hw'. rewrite E.
    exists R, {[+ TRefr i fd +]}. split; [|split; [exact Hw'|split; [by apply (guarantee_tuner w i t t')|by apply wp_ret]]].
    split; [done|]. split; [by exists fd|]. split; [by exists fd|done].
  - destruct (winv_installed w jn R F i fd t None) as (E & Hm & Hw'); [|done..|].
    { replace (R ⊎ {[+ TFd fd (tdev i) +]} ⊎ ∅ ⊎ F) with (R ⊎ {[+ TFd fd (tdev i) +]} ⊎ F) by multiset_solver. exact Hw. }
    destruct (install_section fd None t) as [ok t']. cbn [fst snd] in E, Hm, Hw'. rewrite E.
    exists R, ∅. split; [done|]. split; [exact Hw'|]. split; [by apply (guarantee_tuner w i t t')|by apply wp_ret].
Qed.

Lemma wp_tuner_open_hold i freq d R (Q : unit -> toks -> Prop) :
  (i < ntuners)%nat -> Q tt R -> wp (tuner_open_hold i freq d) R Q.
Proof.
  intros Hi HQ. unfold tuner_open_hold. wp_step. apply wp_close_existing; [done|]. intros ok. wp_step; [by apply wp_ret|].
  wp_step. apply wp_tun_get; [done|]. intros t (Hok & _). wp_step. cbn [fst snd].
  assert (Hd : DevFrontend (adapter t) (frontend t) = tdev i) by by apply tuner_dev_tdev.
  apply wp_frontend_open; intros fd E; (destruct (fd <? 0) eqn:E'; zb; try lia); [by apply wp_ret|].
  rewrite Hd. wp_step. apply wp_tune_delivery; [wp_use|]. intros rc.
  rewrite <- (fd_toks_nonneg fd) by done. wp_step; [by apply wp_close_dev|by apply wp_install].
Qed.

Lemma wp_tuner_open_hold_from_fd i fd R (Q : unit -> toks -> Prop) :
  (i < ntuners)%nat -> 0 <= fd -> Q tt R -> wp (tuner_open_hold_from_fd i fd) (R ⊎ fd_toks fd (tdev i)) Q.
Proof.
  intros Hi H0 HQ. unfold tuner_open_hold_from_fd. wp_step. apply wp_close_existing; [done|].
  intros ok. wp_step; [by apply wp_close_dev|by apply wp_install].
Qed.

(** A section that detaches descriptors: it may change the held and the parked
    slot and the flags around them, nothing else. *)
Lemma detach_eq i t t' R X : tuner_ok cfg i t ->
  index t' = index t -> adapter t' = adapter t -> frontend t' = frontend t -> active_stream t' = active_stream t ->
  busy t' = busy t -> refresher_of t' = refresher_of t -> (pending_ok t -> pending_ok t') ->
  X ⊎ hold_toks i (tdev i) (hold_of t') (held_fd t') ⊎ fd_toks (parked_fd t') (tdev i) =
    hold_toks i (tdev i) (hold_of t) (held_fd t) ⊎ fd_toks (parked_fd t) (tdev i) ->
  tuner_ok cfg i t' /\ refresher_of t' = refresher_of t /\
  (R ⊎ X) ⊎ tuner_res i t' ⊎ {[+ TClaim i (active_stream t) +]} = R ⊎ tuner_res i t ⊎ {[+ TClaim i (active_stream t') +]}.
Proof.
  intros Hok E1 E2 E3 E4 E5 Er Hp Heq.
  assert (Hok' : tuner_ok cfg i t') by (apply (tuner_ok_clear i t); try done; rewrite E4, E5; apply Hok).
  split; [done|]. split; [done|]. rewrite (tuner_res_eq i t Hok), (tuner_res_eq i t' Hok'), E4, E5.
  revert Heq. generalize (opt_str (active_stream t) (tdev i)) (if busy t then ∅ else {[+ TClaim i (active_stream t) +]} : toks).
  generalize (hold_toks i (tdev i) (hold_of t') (held_fd t')) (fd_toks (parked_fd t') (tdev i)) (hold_toks i (tdev i) (hold_of t) (held_fd t)) (fd_toks (parked_fd t) (tdev i)).
  intros. multiset_solver.
Qed.

Lemma wp_tuner_close_hold i R (Q : unit -> toks -> Prop) :
  (i < ntuners)%nat -> Q tt R -> wp (tuner_close_hold i) R Q.
Proof.
  intros Hi HQ. unfold tuner_close_hold. wp_step. apply wp_tuner_sect; [done|]. intros e t (Hok & _ & _).
  destruct (detach_eq i t (t <| held_fd := -1 |>) R (hold_toks i (tdev i) (hold_of t) (held_fd t)) Hok) as (Hok' & Hr & Heq);
    [reflexivity..|exact id|upd_simpl; rewrite hold_toks_m1; multiset_solver|].
  split; [exact Hok'|]. split; [apply moves_drop_held|]. split; [exact Hr|]. eexists. split; [exact Heq|]. cbn [fst snd close_hold_section].
  generalize (hold_of t) as r. intros r.
  destruct (held_fd t <? 0) eqn:E; zb; [rewrite hold_toks_neg by done; apply wp_ret; by replace (R ⊎ ∅) with R by multiset_solver|].
  by apply wp_stop_and_close.
Qed.

Lemma wp_release_section {X} i R (Q : X -> toks -> Prop) (g : sect_env -> hdhr_tuner -> X * hdhr_tuner) A :
  (i < ntuners)%nat ->
  (forall e t, tuner_ok cfg i t -> busy t = true -> active_stream t = None -> (forall fd, TFd fd (tdev i) ∈ R ⊎ A -> held_fd t < 0 /\ parked_fd t < 0 /\ held_stats_thread_started t = false) ->
     let t' := (g e t).2 in
     index t' = index t /\ adapter t' = adapter t /\ frontend t' = frontend t /\ active_stream t' = None /\
     busy t' = false /\ refresher_of t' = refresher_of t /\ (pending_ok t -> pending_ok t') /\ tuner_moves t t' /\
     (exists R', R' ⊎ hold_toks i (tdev i) (hold_of t') (held_fd t') ⊎ fd_toks (parked_fd t') (tdev i) =
        R ⊎ A ⊎ hold_toks i (tdev i) (hold_of t) (held_fd t) ⊎ fd_toks (parked_fd t) (tdev i) /\ Q (g e t).1 R')) ->
  wp (tuner_sect i g) (R ⊎ A ⊎ {[+ TClaim i None +]}) Q.
Proof.
  intros Hi H. apply wp_tuner_sect; [done|]. intros e t (Hok & Hcl & Hhp & Hx & _).
  destruct (Hcl None) as [Ha Hb]; [multiset_solver|]. specialize (H e t Hok Hb Ha).
  rewrite (tuner_dev_tdev i t Hok) in Hx. specialize (H ltac:(intros fd Hfd; apply (Hx fd); multiset_solver)). cbv zeta in H.
  destruct (g e t) as [x t']. cbn [fst snd] in *. destruct H as (E1 & E2 & E3 & E4 & E5 & Er & E6 & Hm & R' & Heq & HQ).
  assert (Hok' : tuner_ok cfg i t') by by apply (tuner_ok_clear i t). split; [done|]. split; [done|]. split; [done|]. exists R'. split; [|done].
  rewrite (tuner_res_eq i t Hok), (tuner_res_eq i t' Hok'), E4, E5, Ha, Hb. revert Heq. clear.
  change (opt_str None (tdev i)) with (∅ : toks).
  generalize (hold_toks i (tdev i) (hold_of t') (held_fd t')) (fd_toks (parked_fd t') (tdev i)) (hold_toks i (tdev i) (hold_of t) (held_fd t)) (fd_toks (parked_fd t) (tdev i)).
  intros. multiset_solver.
Qed.

Lemma wp_tuner_release i o R (Q : unit -> toks -> Prop) :
  (i < ntuners)%nat -> Q tt R -> wp (tuner_release i) (R ⊎ {[+ TClaim i o +]}) Q.
Proof.
  intros Hi HQ. unfold tuner_release. wp_step. apply wp_take_stream; [done|done|]. intros t Ha. cbn [fst snd take_stream_section].
  rewrite Ha. wp_step. apply wp_dvb_stream_close. wp_step.
  replace (R ⊎ {[+ TClaim i None +]}) with (R ⊎ ∅ ⊎ {[+ TClaim i None +]}) by multiset_solver.
  apply (wp_release_section i); [done|]. clear t Ha. intros e t Hok Hb Ha _. cbn [snd release_section]. repeat apply conj; try reflexivity; try done; [by apply moves_release|].
  exists R. upd_simpl. change (hold_of _) with (hold_of t). split; [generalize (hold_toks i (tdev i) (hold_of t) (held_fd t)); multiset_solver|]. cbn [fst release_section]. wp_step; [by apply wp_tuner_open_hold|by apply wp_ret].
Qed.

Lemma wp_park_expiry i gen R (Q : unit -> toks -> Prop) :
  (i < ntuners)%nat -> Q tt R -> wp (park_expiry_thread_main i gen) R Q.
Proof.
  intros Hi HQ. unfold park_expiry_thread_main. wp_step. wp_step. wp_step.
  apply wp_tuner_sect; [done|]. intros e t (Hok & _ & _). unfold park_expiry_section.
  destruct (park_generation t =? gen).
  - destruct (detach_eq i t (t <| parked_fd := -1 |>) R (fd_toks (parked_fd t) (tdev i)) Hok) as (Hok' & Hr & Heq);
      [reflexivity..|exact id|upd_simpl; rewrite fd_toks_m1; change (hold_of _) with (hold_of t); generalize (hold_toks i (tdev i) (hold_of t) (held_fd t)); multiset_solver|].
    split; [exact Hok'|]. split; [apply moves_drop_parked|]. split; [exact Hr|]. eexists. split; [exact Heq|]. cbn [fst].
    apply wp_when; intros E; [by apply wp_close_dev|by rewrite fd_toks_skip].
  - split; [done|]. split; [apply moves_refl|]. split; [done|]. exists R. split; [done|]. cbn [fst]. by apply wp_ret.
Qed.

Lemma wp_tuner_release_park i o R (Q : unit -> toks -> Prop) :
  (i < ntuners)%nat -> Q tt R -> wp (tuner_release_park i) (R ⊎ {[+ TClaim i o +]}) Q.
Proof.
  intros Hi HQ. unfold tuner_release_park. wp_step. apply wp_take_stream; [done|done|]. intros t Ha.
  cbn [fst snd park_take_section]. rewrite Ha.
  assert (Hback : wp (tuner_set_stream i o ;; tuner_release i) (R ⊎ {[+ TClaim i None +]} ⊎ opt_str o (tdev i)) Q).
  { wp_step. apply wp_tuner_set_stream; [done|]. by apply wp_tuner_release. }
  destruct o as [s|]; [|exact Hback]. destruct (negb (tuned_frequency_hz t =? 0)); [exact Hback|]. clear Hback t Ha.
  wp_step. apply wp_dvb_stream_close_keep_frontend. intros fd. cbv zeta. wp_step.
  replace (R ⊎ {[+ TClaim i None +]} ⊎ fd_toks fd (tdev i)) with (R ⊎ fd_toks fd (tdev i) ⊎ {[+ TClaim i None +]}) by multiset_solver.
  apply (wp_release_section i); [done|]. intros e t Hok Hb Ha Hx. unfold park_section.
  destruct (0 <=? fd) eqn:E; cbn [fst snd]; repeat apply conj; try reflexivity; try done.
  - zb. apply moves_park; try done. apply (Hx fd). rewrite fd_toks_nonneg by done. multiset_solver.
  - zb. exists R. upd_simpl. rewrite (fd_toks_neg (parked_fd t)) by (apply (Hx fd); rewrite fd_toks_nonneg by done; multiset_solver).
    change (hold_of _) with (hold_of t). split; [generalize (hold_toks i (tdev i) (hold_of t) (held_fd t)); multiset_solver|].
    wp_step. apply (wp_spawn_detached cfg _ ∅ R R); [done|done|done|multiset_solver|by apply wp_ret|].
    wp_step. apply wp_tuner_sect; [done|]. intros e' t' (Hok' & _). unfold park_undo_section.
    match goal with |- context [if park_generation t' =? ?g then _ else _] => generalize (park_generation t' =? g) end.
    intros b. destruct (0 <=? (if b then parked_fd t' else -1)) eqn:E2.
    + destruct b; [|done].
      destruct (detach_eq i t' (t' <| parked_fd := -1 |>) R (fd_toks (parked_fd t') (tdev i)) Hok') as (Hok2 & Hr & Heq);
        [reflexivity..|exact id|upd_simpl; rewrite fd_toks_m1; change (hold_of _) with (hold_of t'); generalize (hold_toks i (tdev i) (hold_of t') (held_fd t')); multiset_solver|].
      split; [exact Hok2|]. split; [apply moves_drop_parked|]. split; [exact Hr|]. eexists. split; [exact Heq|]. cbn [fst]. rewrite E2. by apply wp_close_dev.
    + split; [done|]. split; [apply moves_refl|]. split; [done|]. exists R. split; [done|]. cbn [fst]. rewrite E2. by apply wp_ret.
  - by apply moves_release.
  - exists R. split; [|by apply wp_ret]. rewrite (fd_toks_skip fd) by done. done.
Qed.

Lemma wp_pool_claim_from i count wf wd out R (Q : option (nat * Z) -> toks -> Prop) :
  (i + count <= ntuners)%nat -> Q None R ->
  (forall j reused, (j < ntuners)%nat -> (out = false -> reused < 0) ->
     Q (Some (j, reused)) (R ⊎ {[+ TClaim j None +]} ⊎ fd_toks reused (tdev j))) ->
  wp (pool_claim_from i count wf wd out) R Q.
Proof.
  revert i. induction count as [|count IH]; intros i Hi Hn Hs; [done|]. cbn [pool_claim_from]. wp_step.
  apply wp_tuner_try_claim; [lia| |].
  - apply IH; [lia|done|done].
  - intros reused Hr. apply wp_ret, Hs; [lia|done].
Qed.

Lemma wp_tuner_bind_channel i ch po R (Q : unit -> toks -> Prop) :
  (i < ntuners)%nat -> Q tt R -> wp (tuner_bind_channel i ch po) R Q.
Proof. intros Hi HQ. apply wp_tun_db; [done| |done]. neutral_set. Qed.
End Specs.
