(* ===== verification/Liveness.v ===== *)
(** Stop requests are obeyed.

    A background thread that is asked to stop ends after a bounded number of its
    own operations, from any point of its execution.  [takes] counts the
    operations of a thread while other threads change the shared state as they
    like, as long as a condition (the stop request) stays true; [obeys] says so
    of every point a thread can reach. *)
From S2P Require Import Prelude RecordUpd CLib ChannelDb Config Stats Ring Tuner Sys Own Frontend Stream TunerOps.

(** ** Counting the operations of a thread *)

(** What operation [o] may answer when the shared state satisfies [P]. *)
Definition may_answer {B} (P : world -> Prop) (o : op B) : B -> Prop :=
  match o in op B return B -> Prop with
  | Sect f => fun b => exists e w w' sp, P w /\ f e w = Some (b, w', sp)
  | _ => fun _ => True
  end.

(** [p] ends within [n] operations, with a result that satisfies [Q]. *)
Fixpoint takes {X} (P : world -> Prop) (n : nat) (p : prog X) (Q : X -> Prop) {struct p} : Prop :=
  match p with
  | Ret x => Q x
  | Stop _ => False
  | Do o k => match n with O => False | S n => forall b, may_answer P o b -> takes P n (k b) Q end
  end.

Definition anywhere (w : world) : Prop := True.
Definition ends_in {X} (P : world -> Prop) (n : nat) (p : prog X) : Prop := takes P n p (fun _ => True).

(** [p] is at [p'] after [n] operations, in whatever state of the world. *)
Fixpoint after {X} (n : nat) (p p' : prog X) : Prop :=
  match n with
  | O => p' = p
  | S n => match p with Do o k => exists b, may_answer anywhere o b /\ after n (k b) p' | _ => False end
  end.

(** At each of the first [m] operations of [p], [K] more are enough. *)
Fixpoint obeys {X} (P : world -> Prop) (K m : nat) (p : prog X) : Prop :=
  ends_in P K p /\
  match m with
  | O => True
  | S m => match p with Do o k => forall b, may_answer anywhere o b -> obeys P K m (k b) | _ => True end
  end.

Lemma may_answer_any {B} P (o : op B) b : may_answer P o b -> may_answer anywhere o b.
Proof. destruct o; [|done..]. intros (e & w & w' & sp & _ & H). by exists e, w, w', sp. Qed.

Lemma takes_mono {X} P n n' (p : prog X) (Q Q' : X -> Prop) :
  (n <= n')%nat -> (forall x, Q x -> Q' x) -> takes P n p Q -> takes P n' p Q'.
Proof.
  intros Hn HQ. revert n n' Hn. induction p as [x|B o k IH|]; intros n n' Hn; simpl; [auto| |done].
  destruct n as [|n]; [done|]. destruct n' as [|n']; [lia|]. intros H b Hb. apply (IH b n); [lia|auto].
Qed.

Lemma ends_le {X} P n m (p : prog X) : (n <= m)%nat -> ends_in P n p -> ends_in P m p.
Proof. intros Hn. by apply takes_mono. Qed.

Lemma takes_any {X} P n (p : prog X) Q : takes anywhere n p Q -> takes P n p Q.
Proof.
  revert n. induction p as [x|B o k IH|]; intros n; simpl; [done| |done].
  destruct n as [|n]; [done|]. intros H b Hb. by eapply IH, H, may_answer_any.
Qed.

Lemma takes_bind {X Y} P n m (p : prog X) (f : X -> prog Y) Q :
  takes P n p (fun x => takes P m (f x) Q) -> takes P (n + m) (bind p f) Q.
Proof.
  revert n. induction p as [x|B o k IH|]; intros n; simpl; [|destruct n as [|n]; [done|]|done].
  - intros H. eapply takes_mono; [|done|exact H]. lia.
  - intros H b Hb. apply IH. by apply H.
Qed.

Lemma obeys_ends {X} P K m (p : prog X) : obeys P K m p -> ends_in P K p.
Proof. destruct m; intros [H _]; exact H. Qed.

Lemma obeys_after {X} P K m n (p p' : prog X) : obeys P K m p -> (n <= m)%nat -> after n p p' -> ends_in P K p'.
Proof.
  revert m p. induction n as [|n IH]; intros m p Ho Hn Ha.
  - simpl in Ha. subst p'. by eapply obeys_ends.
  - destruct m as [|m]; [lia|]. destruct p as [x|B o k|]; [done| |done].
    destruct Ha as (b & Hb & Ha), Ho as [_ Ho]. apply (IH m (k b)); [by apply Ho|lia|done].
Qed.

Lemma obeys_ret {X} P K m (x : X) : obeys P K m (Ret x).
Proof. destruct m; done. Qed.

Lemma obeys_le {X} P K m m' (p : prog X) : (m' <= m)%nat -> obeys P K m p -> obeys P K m' p.
Proof.
  revert m m'. induction p as [x|B o k IH|]; intros m m' Hm H.
  - apply obeys_ret.
  - destruct m' as [|m']; [split; [by eapply obeys_ends|done]|]. destruct m as [|m]; [lia|].
    destruct H as [He Hs]. split; [done|]. intros b Hb. apply (IH b m); [lia|auto].
  - by apply obeys_ends in H.
Qed.

Lemma obeys_more {X} P K K' m (p : prog X) : (K <= K')%nat -> obeys P K m p -> obeys P K' m p.
Proof.
  intros HK. revert m. induction p as [x|B o k IH|]; intros m H; [apply obeys_ret| |by apply obeys_ends in H].
  pose proof (obeys_ends _ _ _ _ H) as He. apply (ends_le _ K K') in He; [|done].
  destruct m as [|m]; (split; [exact He|]); [done|]. intros b Hb. apply IH. by apply H.
Qed.

(** One operation. *)
Lemma obeys_do {X B} P K m (o : op B) (k : B -> prog X) :
  ends_in P K (Do o k) -> (forall m' b, m = S m' -> may_answer anywhere o b -> obeys P K m' (k b)) -> obeys P K m (Do o k).
Proof. intros He Hk. destruct m as [|m]; (split; [done|]); [done|]. intros b Hb. by apply Hk. Qed.

(** A part that obeys within [a] operations, followed by a part that ends in [c]. *)
Lemma obeys_bind {X Y} P a c K m (p : prog X) (f : X -> prog Y) :
  obeys P a m p -> (a + c <= K)%nat -> (forall x, ends_in P c (f x)) -> (forall x, obeys P K m (f x)) -> obeys P K m (bind p f).
Proof.
  intros Hp HK Hf Ho. revert m Hp Ho. induction p as [x|B o k IH|]; intros m Hp Ho; [apply Ho| |by apply obeys_ends in Hp].
  assert (He : ends_in P K (bind (Do o k) f)).
  { apply (takes_mono P (a + c) K _ (fun _ => True)); [done|done|]. apply takes_bind.
    eapply takes_mono; [reflexivity| |by eapply obeys_ends]. intros x _. apply Hf. }
  apply obeys_do; [exact He|]. intros m' b -> Hb. destruct Hp as [_ Hp]. apply IH; [by apply Hp|].
  intros x. eapply obeys_le; [|apply Ho]. lia.
Qed.

(** A part without loops obeys whatever is asked. *)
Lemma short_obeys {X} P K m (p : prog X) : ends_in anywhere K p -> obeys P K m p.
Proof.
  revert K m. induction p as [x|B o k IH|]; intros K m H; [apply obeys_ret| |done].
  apply obeys_do; [by apply takes_any|]. intros m' b -> Hb.
  destruct K as [|K]; [done|]. assert (Hk : ends_in anywhere K (k b)) by by apply H.
  apply IH. eapply takes_mono; [|done|exact Hk]. lia.
Qed.

(** ** Stop requests *)

(** [dvb_stream_close] has begun on stream [s]. *)
Definition stream_closing (s : nat) (w : world) : Prop :=
  exists st, w_streams w !! s = Some st /\ closing st = true.
(** The statistics thread of stream [s] is asked to stop. *)
Definition stats_stopping (s : nat) (w : world) : Prop :=
  exists st, w_streams w !! s = Some st /\ stats_stop_requested st || closing st = true.
(** The refresher of tuner [i]'s hold is asked to stop. *)
Definition hold_stopping (i : nat) (w : world) : Prop :=
  exists t, w_tuners w !! i = Some t /\ held_stats_stop_requested t = true.

(** A section that sees the request. *)
Lemma stream_answer {X} P (C : dvb_stream -> bool) s (f : sect_env -> dvb_stream -> X * dvb_stream) x :
  (forall w, P w -> exists st, w_streams w !! s = Some st /\ C st = true) ->
  may_answer P (Sect (fun e w => match w_streams w !! s with
    | Some st => let '(x, st') := f e st in Some (x, w <| w_streams ::= <[s := st']> |>, None) | None => None end)) x ->
  exists e st, C st = true /\ x = (f e st).1.
Proof.
  intros HP (e & w & w' & sp & Hw & H). destruct (HP w Hw) as (st & Hs & HC). rewrite Hs in H.
  exists e, st. split; [done|]. destruct (f e st). by simplify_eq.
Qed.

Lemma tuner_answer {X} P (C : hdhr_tuner -> bool) i (f : sect_env -> hdhr_tuner -> X * hdhr_tuner) x :
  (forall w, P w -> exists t, w_tuners w !! i = Some t /\ C t = true) ->
  may_answer P (Sect (fun e w => match w_tuners w !! i with
    | Some t => let '(x, t') := f e t in Some (x, w <| w_tuners ::= <[i := t']> |>, None) | None => None end)) x ->
  exists e t, C t = true /\ x = (f e t).1.
Proof.
  intros HP (e & w & w' & sp & Hw & H). destruct (HP w Hw) as (t & Hs & HC). rewrite Hs in H.
  exists e, t. split; [done|]. destruct (f e t). by simplify_eq.
Qed.

(** Reading the statistics takes four operations, with the fallback's section five. *)
Lemma read_stats_short fd : ends_in anywhere 2 (dvb_frontend_read_stats fd).
Proof. intros a _ b _. exact I. Qed.

Lemma legacy_short fd lock : ends_in anywhere 2 (legacy_reading fd lock).
Proof. destruct lock; [|exact I]. intros a _. destruct a; [|exact I]. intros b _. exact I. Qed.

(** ** The capture thread *)

Lemma closing_copy st data : closing st = true -> reader_copy st data = (st, None).
Proof. intros H. unfold reader_copy. by rewrite H. Qed.

Lemma store_done fuel s : reader_store fuel s None = Ret tt.
Proof. by destruct fuel. Qed.

Lemma store_ends fuel s data : ends_in (stream_closing s) 2 (reader_store (S fuel) s (Some data)).
Proof.
  destruct data as [data since]. intros b _ rest Hr.
  apply (stream_answer _ closing s (fun _ st => or_sleep (reader_copy st data))) in Hr as (e & st & Hc & ->); [|done].
  rewrite closing_copy by done. cbn [bind fst or_sleep fmap option_fmap option_map]. by rewrite store_done.
Qed.

Lemma store_obeys m fuel s rest : (m < fuel)%nat -> obeys (stream_closing s) 2 m (reader_store fuel s rest).
Proof.
  revert m rest. induction fuel as [|fuel IH]; intros m rest Hm; [lia|].
  destruct rest as [[data since]|]; [|apply obeys_ret]. pose proof (store_ends fuel s (data, since)) as He.
  apply obeys_do; [exact He|]. intros m1 b -> _. cbn [bind]. apply obeys_do; [apply (ends_le _ 1); [lia|exact (He b I)]|].
  intros m2 rest -> _. cbn [bind]. apply IH. lia.
Qed.

(** From the head of its loop the thread looks at [closing] first. *)
Lemma loop_ends fuel s dvr : ends_in (stream_closing s) 1 (reader_loop (S fuel) s dvr).
Proof.
  intros stop Hs. apply (stream_answer _ closing s (fun _ st => (closing st, st))) in Hs as (e & st & Hc & ->); [|done].
  cbn [fst]. by rewrite Hc.
Qed.

Lemma ends_op {X B} P n (o : op B) (f : B -> prog X) :
  (forall b, may_answer P o b -> ends_in P n (f b)) -> ends_in P (S n) (bind (Do o Ret) f).
Proof. exact (fun H => H). Qed.

(** One operation followed by what obeys. *)
Lemma obeys_op {X B} P K m (o : op B) (f : B -> prog X) :
  (forall b, may_answer P o b -> ends_in P (K - 1) (f b)) -> (0 < K)%nat ->
  (forall m' b, m = S m' -> obeys P K m' (f b)) -> obeys P K m (bind (Do o Ret) f).
Proof.
  intros He HK Hf. apply (obeys_do P K m o f).
  - destruct K as [|K]; [lia|]. intros b Hb. replace (S K - 1)%nat with K in He by lia. by apply He.
  - intros m' b Hm _. by apply Hf.
Qed.

Lemma ends_bind {X Y} P n m (p : prog X) (f : X -> prog Y) :
  ends_in P n p -> (forall x, ends_in P m (f x)) -> ends_in P (n + m) (bind p f).
Proof. intros Hp Hf. apply takes_bind. eapply takes_mono; [reflexivity| |exact Hp]. intros x _. apply Hf. Qed.

Lemma accept_ends fuel s dvr data : ends_in (stream_closing s) 1 (reader_loop fuel s dvr) ->
  ends_in (stream_closing s) 2 (rest <- stream_sect s (fun _ st => or_sleep (reader_accept st data)) ;;
    reader_store fuel s rest ;; reader_loop fuel s dvr).
Proof.
  intros Hl rest Hr.
  apply (stream_answer _ closing s (fun _ st => or_sleep (reader_accept st data))) in Hr
    as (e & st & Hc & ->); [|done].
  unfold reader_accept. rewrite closing_copy by exact Hc. cbn [fst bind or_sleep fmap option_fmap option_map]. by rewrite store_done.
Qed.

Lemma loop_obeys fuel m s dvr : (m < fuel)%nat -> obeys (stream_closing s) 4 m (reader_loop fuel s dvr).
Proof.
  revert m. induction fuel as [|fuel IH]; intros m Hm; [lia|].
  apply obeys_op; [|lia|]; cbv beta.
  { intros stop Hs. apply (stream_answer _ closing s (fun _ st => (closing st, st))) in Hs as (e & st & Hc & ->); [|done].
    cbn [fst]. by rewrite Hc. }
  intros m1 stop ->. destruct stop; [apply obeys_ret|].
  assert (Hl : ends_in (stream_closing s) 1 (reader_loop fuel s dvr)) by (destruct fuel; [lia|apply loop_ends]).
  assert (Hl' : forall n, (1 <= n)%nat -> ends_in (stream_closing s) n (reader_loop fuel s dvr)) by (intros n Hn; by apply (ends_le _ 1)).
  apply obeys_op; [|lia|]; cbv beta.
  { intros pr _. destruct (pr <=? 0); [apply Hl'; lia|]. apply ends_op; intros n _. destruct n as [e|[|b data]]; [|done|].
    - destruct ((e =? EAGAIN) || (e =? EINTR)); [apply Hl'; lia|exact I].
    - by apply accept_ends. }
  intros m2 pr ->. destruct (pr <=? 0); [apply IH; lia|].
  apply obeys_op; [|lia|]; cbv beta.
  { intros n _. destruct n as [e|[|b data]]; [|done|].
    - destruct ((e =? EAGAIN) || (e =? EINTR)); [apply Hl'; lia|exact I].
    - apply (ends_le _ 2); [lia|]. by apply accept_ends. }
  intros m3 n ->. destruct n as [e|[|b data]]; [|apply obeys_ret|].
  - destruct ((e =? EAGAIN) || (e =? EINTR)); [apply IH; lia|apply obeys_ret].
  - apply obeys_op; [|lia|]; cbv beta.
    { intros rest Hr. apply (ends_le _ 1); [lia|]. by apply (accept_ends fuel s dvr (b :: data) Hl rest). }
    intros m4 rest ->. apply (obeys_bind _ 2 1); [apply store_obeys; lia|lia|intros _; by apply Hl'|intros _; apply IH; lia].
Qed.

Lemma reader_obeys fuel m s dvr : (m < fuel)%nat -> obeys (stream_closing s) 5 m (reader_thread_main fuel s dvr).
Proof.
  intros Hm. assert (He : ends_in anywhere 1 (stream_sect s (fun _ st => (tt, reader_finish st)))) by (intros [] _; exact I).
  apply (obeys_bind _ 4 1); [by apply loop_obeys|lia|intros _; by apply takes_any|].
  intros _. apply short_obeys. apply (ends_le _ 1); [lia|exact He].
Qed.

(** ** The two refreshers *)

(** The end of an iteration: publish, sleep, look for the request, repeat. *)
Lemma refresh_tail P m us (publish check : op bool) (loop : prog unit) :
  (forall b, may_answer P publish b -> b = true) -> (forall b, may_answer P check b -> b = true) ->
  (forall m', (m' < m)%nat -> obeys P 6 m' loop) ->
  let tail := stop <- Do publish Ret ;; if stop then Ret tt else env (QSleep us) ;; stop <- Do check Ret ;; if stop then Ret tt else loop in
  ends_in P 1 tail /\ obeys P 6 m tail.
Proof.
  intros Hp Hc Hl. cbv zeta.
  assert (Hcheck : forall n, ends_in P (S n) (stop <- Do check Ret ;; if stop : bool then Ret tt else loop)).
  { intros n. apply ends_op. intros b Hb. by rewrite (Hc b Hb). }
  split; [apply ends_op; intros b Hb; by rewrite (Hp b Hb)|].
  apply obeys_op; [intros b Hb; by rewrite (Hp b Hb)|lia|]. intros m1 b ->. destruct b; [apply obeys_ret|].
  apply obeys_op; [intros _ _; apply Hcheck|lia|]. intros m2 _ ->.
  apply obeys_op; [intros b Hb; by rewrite (Hc b Hb)|lia|]. intros m3 b ->. destruct b; [apply obeys_ret|apply Hl; lia].
Qed.

(** The beginning of an iteration: read the statistics, with the fallback of
    older drivers. *)
Lemma refresh_obeys P m (fd : Z) (fallback : dvb_signal_stats -> option Z * timespec -> op Z)
    (tail : dvb_signal_stats -> prog unit) :
  (forall v, ends_in P 1 (tail v) /\ obeys P 6 m (tail v)) ->
  obeys P 6 m (stats <- dvb_frontend_read_stats fd ;;
    stats <- (if symbol_quality_pct stats <? 0 then
                r <- legacy_reading fd (has_lock stats) ;; legacy <- Do (fallback stats r) Ret ;; Ret (with_legacy stats legacy)
              else Ret stats) ;;
    tail stats).
Proof.
  intros Ht. assert (Hf : forall v, ends_in anywhere 3 (if symbol_quality_pct v <? 0 then
      r <- legacy_reading fd (has_lock v) ;; legacy <- Do (fallback v r) Ret ;; Ret (with_legacy v legacy) else Ret v)).
  { intros v. destruct (_ <? _); [|exact I]. apply (ends_bind _ 2 1); [apply legacy_short|]. intros r. apply ends_op. intros b _. exact I. }
  apply (obeys_bind _ 2 4); [apply short_obeys, read_stats_short|lia| |].
  - intros v. apply (ends_bind _ 3 1); [apply takes_any, Hf|apply Ht].
  - intros v. apply (obeys_bind _ 3 1); [apply short_obeys, Hf|lia|apply Ht|apply Ht].
Qed.

Lemma stats_obeys fuel m s ffd : (m < fuel)%nat -> obeys (stats_stopping s) 6 m (stats_thread_main fuel s ffd).
Proof.
  revert m. induction fuel as [|fuel IH]; intros m Hm; [lia|]. apply refresh_obeys. intros v. apply refresh_tail.
  - intros b Hb. apply (stream_answer _ (fun st => stats_stop_requested st || closing st) s (fun _ st => stats_publish st v)) in Hb
      as (e & st & Hc & ->); [|done].
    unfold stats_publish. by rewrite Hc.
  - intros b Hb. by apply (stream_answer _ (fun st => stats_stop_requested st || closing st) s
      (fun _ st => (stats_stop_requested st || closing st, st))) in Hb as (e & st & Hc & ->).
  - intros m' Hm'. apply IH. lia.
Qed.

Lemma held_obeys fuel m i fd : (m < fuel)%nat -> obeys (hold_stopping i) 6 m (held_stats_loop fuel i fd).
Proof.
  revert m. induction fuel as [|fuel IH]; intros m Hm; [lia|]. apply refresh_obeys. intros v. apply refresh_tail.
  - intros b Hb. apply (tuner_answer _ held_stats_stop_requested i (fun _ => held_publish_section fd v)) in Hb as (e & t & Hc & ->); [|done].
    unfold held_publish_section, held_stop. by rewrite Hc.
  - intros b Hb. apply (tuner_answer _ held_stats_stop_requested i (fun _ t => (held_stop fd t, t))) in Hb as (e & t & Hc & ->); [|done].
    unfold held_stop. cbn [fst]. by rewrite Hc.
  - intros m' Hm'. apply IH. lia.
Qed.

Lemma held_main_obeys fuel m i : (m < fuel)%nat -> obeys (hold_stopping i) 7 m (held_stats_thread_main fuel i).
Proof.
  intros Hm. assert (H : forall fd, obeys (hold_stopping i) 6 m (if 0 <=? fd then held_stats_loop fuel i fd else Ret tt)).
  { intros fd. destruct (0 <=? fd); [by apply held_obeys|apply obeys_ret]. }
  apply (obeys_bind _ 1 6); [apply short_obeys; intros b _; exact I|lia| |].
  - intros fd. eapply obeys_ends, H.
  - intros fd. eapply obeys_more; [|apply H]. lia.
Qed.

(** ** Waiting for data *)

Lemma read_obeys fuel m s len : (m < fuel)%nat -> obeys (stream_closing s) 2 m (dvb_stream_read fuel s len).
Proof.
  revert m. induction fuel as [|fuel IH]; intros m Hm; [lia|].
  set (sec := fun (_ : sect_env) st => let '(st, out) := stream_read_section st (Z.to_nat len) in (out, st)).
  assert (Hsec : forall r, may_answer (stream_closing s) (Sect (fun e w => match w_streams w !! s with
      | Some st => let '(x, st') := sec e st in Some (x, w <| w_streams ::= <[s := st']> |>, None) | None => None end)) r -> r <> None).
  { intros r Hr. apply (stream_answer _ closing s sec) in Hr as (e & st & Hc & ->); [|done].
    unfold sec, stream_read_section, consumer_waits. rewrite Hc, andb_false_r. destruct (_ =? _)%nat; [done|]. by destruct (ring_get _ _ _). }
  assert (Hl : (1 <= m)%nat -> ends_in (stream_closing s) 1 (dvb_stream_read fuel s len)).
  { intros Hm1. destruct fuel as [|fuel']; [lia|]. apply ends_op. intros r Hr. apply Hsec in Hr. by destruct r. }
  apply obeys_op; [|lia|]; cbv beta.
  { intros r Hr. apply Hsec in Hr. by destruct r. }
  intros m1 r ->. destruct r as [data|]; [apply obeys_ret|].
  apply obeys_op; [intros _ _; apply Hl; lia|lia|]. intros m2 _ ->. apply IH. lia.
Qed.

(** ** Stop requests are obeyed *)

(** Claim C4: stopping a background thread takes boundedly many of its own
    operations, wherever it is and whatever the devices answer.  Once a stream
    is closing, its capture thread ends within five operations, even when it
    waits on a full ring, and a consumer waiting for data returns within two;
    a statistics thread asked to stop ends within six, the refresher of a hold
    within seven.  The joins that wait for them therefore end too. *)
Theorem stop_obeyed (fuel n s i : nat) (dvr ffd len : Z) : (n < fuel)%nat ->
  (forall p, after n (reader_thread_main fuel s dvr) p -> ends_in (stream_closing s) 5 p) /\
  (forall p, after n (dvb_stream_read fuel s len) p -> ends_in (stream_closing s) 2 p) /\
  (forall p, after n (stats_thread_main fuel s ffd) p -> ends_in (stats_stopping s) 6 p) /\
  (forall p, after n (held_stats_thread_main fuel i) p -> ends_in (hold_stopping i) 7 p).
Proof.
  intros Hn. repeat split; intros p Hp; (eapply obeys_after; [|reflexivity|exact Hp]).
  - by apply reader_obeys.
  - by apply read_obeys.
  - by apply stats_obeys.
  - by apply held_main_obeys.
Qed.

(** A statistics thread whose driver has answered neither request. *)
Lemma stop_obeyed_witness :
  exists p, after 2 (stats_thread_main 3 0 7) p /\ p <> Ret tt /\ ends_in (stats_stopping 0) 6 p.
Proof.
  destruct (stop_obeyed 3 2 0 0 9 7 1316) as (_ & _ & H & _); [lia|].
  eexists. split; [|split].
  - exists None. split; [exact I|]. exists None. split; [exact I|]. reflexivity.
  - intros Hq. lazymatch type of Hq with ?p = ?r => exact (eq_ind p (fun x => match x with Ret _ => False | _ => True end) I r Hq) end.
  - apply H. exists None. split; [exact I|]. exists None. split; [exact I|]. reflexivity.
Defined.
