(* ===== verification/Scan.v ===== *)
(** Channel scanning: src/src/mpeg_section.c and src/src/dvb_scan.c.

    Section filters, reading PAT, PMTs and the virtual channel table of a locked
    mux, and the full scan.  The theorems: reading the channel table is bounded
    whatever the device delivers, and it collects every section of the table
    exactly once. *)
From stdpp Require Import gmultiset.
From S2P Require Import Prelude RecordUpd CLib FreqPlan Psip ChannelDb Config Stats Ring Tuner Sys Life Own Rules Frontend.
From S2P Require Import Stream.

(** ** Section filters (mpeg_section.c) *)

Definition mpeg_section_filter_open (adapter demux_num pid table_id timeout_ms : Z) : prog Z :=
  fd <- env (QOpen (DevDemux adapter demux_num)) ;;
  if fd <? 0 then Ret (-1)
  else
    ok <- ioctl fd (DMX_SET_FILTER pid table_id timeout_ms) ;;
    if negb (ok : bool) then env (QClose fd) ;; Ret (-1) else Ret fd.

Definition mpeg_section_filter_rearm (fd pid table_id timeout_ms : Z) : prog Z :=
  ok <- ioctl fd (DMX_SET_FILTER pid table_id timeout_ms) ;;
  Ret (if ok : bool then 0 else -1).

Definition SECTION_BUF : Z := 4096.

(** The return value, and the bytes when it is positive. *)
Definition mpeg_section_read (fd timeout_ms : Z) : prog (Z * list Z) :=
  pr <- ioctl fd (FdPoll timeout_ms) ;;
  if (pr : Z) =? 0 then Ret (0, [])
  else if (pr : Z) <? 0 then Ret (-1, [])
  else
    r <- ioctl fd (FdRead SECTION_BUF) ;;
    Ret match r : read_result with
        | ReadError e => if e =? EOVERFLOW then (0, []) else (-1, [])
        | ReadData data => let data := take (Z.to_nat SECTION_BUF) data in (Z.of_nat (length data), data)
        end.

Definition mpeg_section_filter_close (fd : Z) : prog unit :=
  if 0 <=? fd then ioctl fd DMX_STOP ;; env (QClose fd) else Ret tt.

(** ** Tables of a mux (dvb_scan.c) *)

Definition LOCK_TIMEOUT_MS : Z := 1500.
Definition SECTION_READ_TIMEOUT_MS : Z := 2000.
Definition PMT_MAX_PROGRAMS_TEMP : nat := PAT_MAX_ENTRIES.

Record pmt_cache_entry := { pc_program_number : Z; pc_pmt : pmt_info }.

(** The parsers' results; they never read out of bounds
    ([Psip.parsers_in_bounds]), so the outer [None] does not occur. *)
Definition parsed {A} (r : option (option A)) : option A := mjoin r.

(** None: the function's -1. *)
Definition read_pat (fd : Z) : prog (option (list pat_entry)) :=
  r <- mpeg_section_read fd SECTION_READ_TIMEOUT_MS ;;
  Ret (if r.1 <=? 0 then None else parsed (psip_parse_pat r.2 PAT_MAX_ENTRIES)).

(** A section filter per program, in PAT order; failures are skipped.  Each
    slot is its descriptor and the program number. *)
Fixpoint open_pmt_filters (adapter demux_num : Z) (pat : list pat_entry) : prog (list (Z * Z)) :=
  match pat with
  | [] => Ret []
  | e :: pat =>
      fd <- mpeg_section_filter_open adapter demux_num (pat_pmt_pid e) 0x02 SECTION_READ_TIMEOUT_MS ;;
      rest <- open_pmt_filters adapter demux_num pat ;;
      Ret (if fd <? 0 then rest else (fd, pat_program_number e) :: rest)
  end.

(** One pass over the polled slots: reads the readable ones; returns those
    still waiting and the cache. *)
Fixpoint read_ready (slots : list (Z * Z)) (flags : list bool) (max_cache : nat) (cache : list pmt_cache_entry) :
    prog (list (Z * Z) * list pmt_cache_entry) :=
  match slots with
  | [] => Ret ([], cache)
  | slot :: slots =>
      if default false (head flags) then
        r <- ioctl slot.1 (FdRead SECTION_BUF) ;;
        let cache := match r : read_result with
                     | ReadError _ => cache
                     | ReadData data =>
                         match parsed (psip_parse_pmt (take (Z.to_nat SECTION_BUF) data)) with
                         | Some pmt => if (length cache <? max_cache)%nat
                                       then cache ++ [{| pc_program_number := slot.2; pc_pmt := pmt |}] else cache
                         | None => cache
                         end
                     end in
        read_ready slots (tl flags) max_cache cache
      else
        r <- read_ready slots (tl flags) max_cache cache ;;
        Ret (slot :: r.1, r.2)
  end.

Fixpoint pmt_loop (fuel : nat) (slots : list (Z * Z)) (start : timespec) (max_cache : nat)
    (cache : list pmt_cache_entry) : prog (list pmt_cache_entry) :=
  match slots, fuel with
  | [], _ => Ret cache
  | _, O => Spin
  | _, S fuel =>
      now <- env QNow ;;
      let remaining_ms := SECTION_READ_TIMEOUT_MS - elapsed_ms start now in
      if remaining_ms <=? 0 then Ret cache
      else
        pr <- env (QPollMany slots.*1 remaining_ms) ;;
        match pr : option (list bool) with
        | None => Ret cache
        | Some flags =>
            r <- read_ready slots flags max_cache cache ;;
            pmt_loop fuel r.1 start max_cache r.2
        end
  end.

Fixpoint close_filters (fds : list Z) : prog unit :=
  match fds with [] => Ret tt | fd :: fds => mpeg_section_filter_close fd ;; close_filters fds end.

Definition read_pmts_concurrent (fuel : nat) (adapter demux_num : Z) (pat : list pat_entry) (max_cache : nat) :
    prog (list pmt_cache_entry) :=
  slots <- open_pmt_filters adapter demux_num (take PMT_MAX_PROGRAMS_TEMP pat) ;;
  start <- env QNow ;;
  cache <- pmt_loop fuel slots start max_cache [] ;;
  close_filters slots.*1 ;;
  Ret cache.

(** The loop of [read_vct]: [attempts] left, the section numbers seen, the
    entries collected. *)
Fixpoint read_vct_loop (attempts : nat) (fd : Z) (max_out : nat) (seen : gset Z) (out : list tvct_entry) :
    prog (list tvct_entry) :=
  match attempts with
  | O => Ret out
  | S attempts =>
      if (max_out <=? length out)%nat then Ret out
      else
        r <- mpeg_section_read fd SECTION_READ_TIMEOUT_MS ;;
        if r.1 <=? 0 then Ret out
        else
          match parsed (psip_parse_tvct r.2 (max_out - length out)) with
          | None => read_vct_loop attempts fd max_out seen out
          | Some (sec_num, last_section, got) =>
              if bool_decide (sec_num ∈ seen) then read_vct_loop attempts fd max_out seen out
              else
                let seen := {[sec_num]} ∪ seen in
                let out := out ++ got in
                if forallb (fun s => bool_decide (s ∈ seen)) (seqZ 0 (last_section + 1)) then Ret out
                else read_vct_loop attempts fd max_out seen out
          end
  end.

Definition read_vct (fd : Z) (max_out : nat) : prog (list tvct_entry) := read_vct_loop 8 fd max_out ∅ [].

Definition dvb_scan_tune_and_lock {C} (fuel : nat) (ffd freq_hz delivery : Z) (cb : option (C -> Z -> prog C)) (ctx : C) :
    prog (bool * C) :=
  rc <- tune_delivery ffd delivery freq_hz ;;
  if negb (rc =? 0) then Ret (false, ctx) else dvb_frontend_wait_lock fuel ffd LOCK_TIMEOUT_MS cb ctx.

(** The first PAT entry of a program. *)
Definition pmt_pid_of (pat : list pat_entry) (program : Z) : Z :=
  match List.find (fun e => pat_program_number e =? program) pat with Some e => pat_pmt_pid e | None => 0 end.

(** The channel made of a cached PMT without a channel table. *)
Definition raw_channel (rf_channel freq_hz : Z) (pat : list pat_entry) (c : pmt_cache_entry) : dvb_channel :=
  let av := psip_pmt_pick_av (pc_pmt c) in
  {| ChannelDb.major := rf_channel; ChannelDb.minor := pc_program_number c;
     ChannelDb.short_name := snprintf 16 (dec_u (u32 rf_channel) +:+ "-" +:+ dec_u (pc_program_number c));
     ChannelDb.rf_channel := rf_channel; ChannelDb.delivery := HDHR_DELIVERY_QAM;
     ChannelDb.frequency_hz := freq_hz; ChannelDb.channel_tsid := 0;
     ChannelDb.program_number := pc_program_number c;
     ChannelDb.pmt_pid := pmt_pid_of pat (pc_program_number c);
     ChannelDb.pcr_pid := Psip.pcr_pid (pc_pmt c);
     ChannelDb.video_pid := av_video_pid av; ChannelDb.video_stream_type := av_video_type av;
     ChannelDb.audio_pid := av_audio_pid av; ChannelDb.audio_stream_type := av_audio_type av |}.

(** The channel made of a virtual channel; none when it is hidden or its
    program has no PMT. *)
Definition vct_channel (rf_channel freq_hz delivery : Z) (pat : list pat_entry) (cache : list pmt_cache_entry)
    (e : tvct_entry) : option dvb_channel :=
  if hidden e then None
  else
    match List.find (fun c => pc_program_number c =? Psip.program_number e) cache with
    | None => None
    | Some c =>
        let av := psip_pmt_pick_av (pc_pmt c) in
        Some {| ChannelDb.major := major_channel_number e; ChannelDb.minor := minor_channel_number e;
                ChannelDb.short_name := snprintf 16 (str_take 15 (Psip.short_name e));
                ChannelDb.rf_channel := rf_channel; ChannelDb.delivery := delivery;
                ChannelDb.frequency_hz := freq_hz; ChannelDb.channel_tsid := Psip.channel_tsid e;
                ChannelDb.program_number := Psip.program_number e;
                ChannelDb.pmt_pid := pmt_pid_of pat (Psip.program_number e);
                ChannelDb.pcr_pid := Psip.pcr_pid (pc_pmt c);
                ChannelDb.video_pid := av_video_pid av; ChannelDb.video_stream_type := av_video_type av;
                ChannelDb.audio_pid := av_audio_pid av; ChannelDb.audio_stream_type := av_audio_type av |}
    end.

(** [dvb_channel_db_add] for each; how many were added. *)
Fixpoint add_channels (chs : list dvb_channel) (added : Z) : prog Z :=
  match chs with
  | [] => Ret added
  | ch :: chs =>
      ok <- db_sect (fun db => dvb_channel_db_add db ch) ;;
      add_channels chs (if ok : bool then added + 1 else added)
  end.

Definition add_channels_without_vct (rf_channel freq_hz : Z) (pat : list pat_entry) (cache : list pmt_cache_entry) : prog Z :=
  add_channels (raw_channel rf_channel freq_hz pat <$> cache) 0.

Definition dvb_scan_read_psip (fuel : nat) (adapter demux_num pat_fd vct_fd rf_channel freq_hz delivery : Z) : prog Z :=
  mpeg_section_filter_rearm pat_fd 0 0 SECTION_READ_TIMEOUT_MS ;;
  mpeg_section_filter_rearm vct_fd PSIP_BASE_PID (if is_qam delivery then 0xC9 else 0xC8) SECTION_READ_TIMEOUT_MS ;;
  pat <- read_pat pat_fd ;;
  match pat with
  | None | Some [] => Ret 0
  | Some pat =>
      cache <- read_pmts_concurrent fuel adapter demux_num pat PMT_MAX_PROGRAMS_TEMP ;;
      tvct <- read_vct vct_fd TVCT_MAX_CHANNELS ;;
      match tvct with
      | [] =>
          if is_qam delivery && (0 <? length cache)%nat
          then add_channels_without_vct rf_channel freq_hz pat cache
          else Ret 0
      | _ => add_channels (omap (vct_channel rf_channel freq_hz delivery pat cache) tvct) 0
      end
  end.

Fixpoint scan_freqs (fuel : nat) (adapter demux_num ffd pat_fd vct_fd : Z) (freqs : list Atsc.atsc_channel_freq) (total : Z) : prog Z :=
  match freqs with
  | [] => Ret total
  | f :: freqs =>
      locked <- dvb_scan_tune_and_lock fuel ffd (Atsc.frequency_hz f) HDHR_DELIVERY_ATSC_VSB None tt ;;
      n <- (if locked.1 then
              dvb_scan_read_psip fuel adapter demux_num pat_fd vct_fd (Atsc.channel f) (Atsc.frequency_hz f)
                HDHR_DELIVERY_ATSC_VSB
            else Ret 0) ;;
      scan_freqs fuel adapter demux_num ffd pat_fd vct_fd freqs (total + n)
  end.

Definition dvb_scan_run (fuel : nat) (adapter frontend demux_num : Z) : prog Z :=
  db_sect (fun db => (tt, dvb_channel_db_clear db)) ;;
  ffd <- dvb_frontend_open adapter frontend ;;
  if ffd <? 0 then Ret 0
  else
    pat_fd <- mpeg_section_filter_open adapter demux_num 0 0 SECTION_READ_TIMEOUT_MS ;;
    vct_fd <- mpeg_section_filter_open adapter demux_num PSIP_BASE_PID 0xC8 SECTION_READ_TIMEOUT_MS ;;
    total <- (if (0 <=? pat_fd) && (0 <=? vct_fd)
              then scan_freqs fuel adapter demux_num ffd pat_fd vct_fd Atsc.atsc_freq_table 0 else Ret 0) ;;
    mpeg_section_filter_close pat_fd ;;
    mpeg_section_filter_close vct_fd ;;
    dvb_frontend_close ffd ;;
    Ret total.

(** ** Ownership *)

Section Specs.
Context (cfg : hdhr_config).
Local Notation wp := (wp cfg).

Lemma wp_filter_open a d pid table t R (Q : Z -> toks -> Prop) :
  (forall fd, fd < 0 -> Q fd R) -> (forall fd, 0 <= fd -> Q fd (R ⊎ {[+ TFd fd (DevDemux a d) +]})) ->
  wp (mpeg_section_filter_open a d pid table t) R Q.
Proof.
  intros Hn Hp. unfold mpeg_section_filter_open, ioctl. wp_step.
  apply wp_open; intros fd E; (destruct (fd <? 0) eqn:E'; zb; try lia); [by apply Hn|].
  wp_go; first [by apply Hp | (apply (wp_close cfg fd (DevDemux a d) _ R); [done|]; wp_go; by apply Hn)].
Qed.

Lemma wp_filter_rearm fd pid table t R (Q : Z -> toks -> Prop) :
  may_use R fd -> (forall rc, Q rc R) -> wp (mpeg_section_filter_rearm fd pid table t) R Q.
Proof. intros Hu HQ. unfold mpeg_section_filter_rearm, ioctl. wp_go. apply HQ. Qed.

Lemma wp_section_read fd t R (Q : Z * list Z -> toks -> Prop) :
  may_use R fd -> (forall r, Q r R) -> wp (mpeg_section_read fd t) R Q.
Proof. intros Hu HQ. unfold mpeg_section_read, ioctl. wp_go; apply HQ. Qed.

Lemma wp_filter_close fd d R (Q : unit -> toks -> Prop) :
  Q tt R -> wp (mpeg_section_filter_close fd) (R ⊎ fd_toks fd d) Q.
Proof.
  intros HQ. unfold mpeg_section_filter_close, ioctl. destruct (0 <=? fd) eqn:E.
  - zb. rewrite fd_toks_nonneg by done. wp_step. wp_step. by apply (wp_close cfg fd d _ R).
  - zb. rewrite fd_toks_neg by done. apply wp_ret. by replace (R ⊎ ∅) with R by multiset_solver.
Qed.

Lemma demux_toks_cons a d p l : demux_toks a d (p :: l) = {[+ TFd p.1 (DevDemux a d) +]} ⊎ demux_toks a d l.
Proof. done. Qed.

Lemma wp_open_pmt_filters a d pat R (Q : list (Z * Z) -> toks -> Prop) :
  (forall slots, Forall (fun p => 0 <= p.1) slots -> Q slots (R ⊎ demux_toks a d slots)) ->
  wp (open_pmt_filters a d pat) R Q.
Proof.
  revert R Q. induction pat as [|e pat IH]; intros R Q HQ; cbn [open_pmt_filters].
  - apply wp_ret. specialize (HQ [] (Forall_nil_2 _)). by replace (R ⊎ demux_toks a d []) with R in HQ by (unfold demux_toks; simpl; multiset_solver).
  - wp_step. apply wp_filter_open; intros fd E; wp_step; apply IH; intros slots Hs; apply wp_ret;
      (destruct (fd <? 0) eqn:E'; zb; try lia); [by apply HQ|].
    specialize (HQ ((fd, pat_program_number e) :: slots)). rewrite demux_toks_cons in HQ. simpl in HQ.
    replace (R ⊎ {[+ TFd fd (DevDemux a d) +]} ⊎ demux_toks a d slots)
      with (R ⊎ ({[+ TFd fd (DevDemux a d) +]} ⊎ demux_toks a d slots)) by (generalize (demux_toks a d slots); multiset_solver).
    apply HQ. by constructor.
Qed.

(** Descriptors that may be used. *)
Definition may_use_all (R : toks) (slots : list (Z * Z)) : Prop := Forall (fun p => may_use R p.1) slots.

Lemma demux_may_use a d slots R : may_use_all (R ⊎ demux_toks a d slots) slots.
Proof.
  apply Forall_forall. intros p Hp. left. exists (DevDemux a d). apply gmultiset_elem_of_disj_union. right.
  unfold demux_toks. apply elem_of_list_to_set_disj. apply list_elem_of_fmap. by exists p.
Qed.

Lemma wp_read_ready slots flags maxc cache R (Q : list (Z * Z) * list pmt_cache_entry -> toks -> Prop) :
  may_use_all R slots -> (forall slots' cache', may_use_all R slots' -> Q (slots', cache') R) ->
  wp (read_ready slots flags maxc cache) R Q.
Proof.
  revert flags cache Q. induction slots as [|p slots IH]; intros flags cache Q Hu HQ; cbn [read_ready].
  - apply wp_ret, HQ. constructor.
  - inversion Hu; subst. unfold ioctl. destruct (default false (head flags)).
    + wp_step. apply wp_ioctl; [done|]. intros r. by apply IH.
    + wp_step. apply IH; [done|]. intros slots' cache' Hu'. apply wp_ret, HQ. by constructor.
Qed.

Lemma wp_poll_many fds ms R (Q : option (list bool) -> toks -> Prop) :
  (forall fd, fd ∈ fds -> may_use R fd) -> (forall a, Q a R) -> wp (env (QPollMany fds ms)) R Q.
Proof. done. Qed.

Lemma wp_pmt_loop fuel slots start maxc cache R (Q : list pmt_cache_entry -> toks -> Prop) :
  may_use_all R slots -> (forall c, Q c R) -> wp (pmt_loop fuel slots start maxc cache) R Q.
Proof.
  intros Hu HQ. revert slots cache Hu. induction fuel as [|fuel IH]; intros slots cache Hu;
    destruct slots as [|p slots]; try (by apply wp_ret); [done|].
  cbn [pmt_loop]. wp_step. wp_step. wp_step; [by apply wp_ret|]. wp_step. apply wp_poll_many.
  - intros fd Hfd. apply list_elem_of_fmap in Hfd as (p' & -> & Hp'). by apply (Forall_forall (fun p => may_use R p.1) (p :: slots)).
  - intros pr. destruct pr as [flags|]; [|by apply wp_ret].
    apply wp_bind. apply wp_read_ready; [done|]. intros slots' cache' Hu'. by apply IH.
Qed.

Lemma wp_close_filters a d slots R (Q : unit -> toks -> Prop) :
  Forall (fun p => 0 <= p.1) slots -> Q tt R -> wp (close_filters slots.*1) (R ⊎ demux_toks a d slots) Q.
Proof.
  intros Hs HQ. induction Hs as [|p slots Hp Hs IH].
  - apply wp_ret. replace (R ⊎ demux_toks a d []) with R by (unfold demux_toks; simpl; multiset_solver). done.
  - cbn [fmap list_fmap close_filters]. wp_step. rewrite demux_toks_cons.
    replace (R ⊎ ({[+ TFd p.1 (DevDemux a d) +]} ⊎ demux_toks a d slots))
      with (R ⊎ demux_toks a d slots ⊎ fd_toks p.1 (DevDemux a d))
      by (rewrite fd_toks_nonneg by done; generalize (demux_toks a d slots); multiset_solver).
    by apply wp_filter_close.
Qed.

Lemma wp_read_pmts fuel a d pat maxc R (Q : list pmt_cache_entry -> toks -> Prop) :
  (forall c, Q c R) -> wp (read_pmts_concurrent fuel a d pat maxc) R Q.
Proof.
  intros HQ. unfold read_pmts_concurrent. wp_step. apply wp_open_pmt_filters. intros slots Hs. wp_step. wp_step. wp_step.
  apply wp_pmt_loop; [apply demux_may_use|]. intros c. wp_step. apply wp_close_filters; [done|]. by apply wp_ret.
Qed.

Lemma wp_read_vct fd maxo R (Q : list tvct_entry -> toks -> Prop) :
  may_use R fd -> (forall l, Q l R) -> wp (read_vct fd maxo) R Q.
Proof.
  intros Hu HQ. unfold read_vct. generalize (∅ : gset Z) ([] : list tvct_entry) 8%nat. intros seen out n.
  revert seen out. induction n as [|n IH]; intros seen out; cbn [read_vct_loop]; [by apply wp_ret|].
  wp_step; [by apply wp_ret|]. wp_step. apply wp_section_read; [done|]. intros r. wp_go; first [apply HQ|apply IH].
Qed.

Lemma wp_add_channels chs n R (Q : Z -> toks -> Prop) :
  Forall name_fits chs -> (forall k, Q k R) -> wp (add_channels chs n) R Q.
Proof.
  intros Hn HQ. revert n. induction Hn as [|ch chs Hch _ IH]; intros n; [by apply wp_ret|]. cbn [add_channels]. wp_step.
  apply wp_db_sect. intros db Hdb. split; [by apply table_add_ok|]. split; [apply add_grows|]. apply IH.
Qed.

Lemma raw_channels_fit rf freq pat cache : Forall name_fits (raw_channel rf freq pat <$> cache).
Proof.
  apply Forall_fmap, Forall_true. intros c. unfold name_fits. cbn [compose raw_channel ChannelDb.short_name].
  match goal with |- (String.length (snprintf 16 ?x) <= _)%nat => pose proof (length_snprintf 16 x) end. lia.
Qed.

Lemma vct_channels_fit rf freq dl pat cache es : Forall name_fits (omap (vct_channel rf freq dl pat cache) es).
Proof.
  apply Forall_forall. intros ch H. apply list_elem_of_omap in H as (e & _ & H). unfold vct_channel in H.
  destruct (hidden e); [done|]. destruct (List.find _ _); [|done]. injection H as <-. unfold name_fits. cbn [ChannelDb.short_name].
  match goal with |- (String.length (snprintf 16 ?x) <= _)%nat => pose proof (length_snprintf 16 x) end. lia.
Qed.

Lemma wp_tune_and_lock {C} fuel ffd freq dl (cb : option (C -> Z -> prog C)) ctx R (Q : bool * C -> toks -> Prop) :
  may_use R ffd -> cb_ok cfg R ffd cb -> (forall b, Q b R) -> wp (dvb_scan_tune_and_lock fuel ffd freq dl cb ctx) R Q.
Proof.
  intros Hu Hcb HQ. unfold dvb_scan_tune_and_lock. wp_step. apply wp_tune_delivery; [done|]. intros rc.
  wp_step; [by apply wp_ret|]. by apply wp_wait_lock.
Qed.

Lemma wp_read_psip fuel a d pfd vfd rf freq dl R (Q : Z -> toks -> Prop) :
  may_use R pfd -> may_use R vfd -> (forall n, Q n R) -> wp (dvb_scan_read_psip fuel a d pfd vfd rf freq dl) R Q.
Proof.
  intros Hp Hv HQ. unfold dvb_scan_read_psip. wp_step. apply wp_filter_rearm; [done|]. intros _.
  wp_step. apply wp_filter_rearm; [done|]. intros _. wp_step. unfold read_pat. wp_step.
  apply wp_section_read; [done|]. intros r. apply wp_ret. destruct (if r.1 <=? 0 then _ else _) as [[|e pat]|]; [by apply wp_ret| |by apply wp_ret].
  wp_step. apply wp_read_pmts. intros cache. wp_step. apply wp_read_vct; [done|]. intros tvct.
  destruct tvct as [|v tvct]; [|apply wp_add_channels; [apply vct_channels_fit|done]].
  wp_step; [apply wp_add_channels; [apply raw_channels_fit|done]|by apply wp_ret].
Qed.

Lemma wp_scan_freqs fuel a d ffd pfd vfd freqs n R (Q : Z -> toks -> Prop) :
  may_use R ffd -> may_use R pfd -> may_use R vfd -> (forall n, Q n R) ->
  wp (scan_freqs fuel a d ffd pfd vfd freqs n) R Q.
Proof.
  intros Hf Hp Hv HQ. revert n. induction freqs as [|f freqs IH]; intros n; [by apply wp_ret|]. cbn [scan_freqs].
  wp_step. apply wp_tune_and_lock; [done|done|]. intros b. wp_step. apply wp_keep; [|intros k; apply IH].
  wp_step; [by apply wp_read_psip|done].
Qed.
End Specs.

(** ** Reading the channel table *)

Lemma run_section_read {S} (h : handler S) fd t s :
  exists r s', run_env h (mpeg_section_read fd t) s = Some (r, s').
Proof.
  unfold mpeg_section_read, ioctl. rewrite run_env_bind. cbn [env run_env].
  destruct (h (QIoctl fd (FdPoll t)) s) as [pr s1]. destruct ((pr : Z) =? 0); [eauto|].
  destruct ((pr : Z) <? 0); [eauto|]. rewrite run_env_bind. cbn [env run_env].
  destruct (h (QIoctl fd (FdRead SECTION_BUF)) s1) as [r s2]. cbn [run_env]. eauto.
Qed.

Lemma parse_tvct_length sec m sn lsn got :
  parsed (psip_parse_tvct sec m) = Some (sn, lsn, got) -> (length got <= m)%nat.
Proof.
  unfold parsed, psip_parse_tvct. destruct (_ <? 12)%nat; [done|].
  destruct (section_total sec) as [t|]; [|done]. cbn [mbind option_bind]. destruct (_ || _); [done|].
  do 3 case_bind. destruct (tvct_loop _ _ _ _ _ _) as [o|] eqn:E; [|done]. intros [= _ _ <-].
  eapply tvct_loop_ok in E; [apply E|constructor|simpl; lia].
Qed.

(** Whatever the demux device delivers, reading the virtual channel
    table ends and never collects more entries than the caller's array holds. *)
Lemma read_vct_bounded {S} (h : handler S) (fd : Z) (max_out : nat) (s : S) :
  exists out s', run_env h (read_vct fd max_out) s = Some (out, s') /\ (length out <= max_out)%nat.
Proof.
  unfold read_vct. generalize 8%nat as n, (∅ : gset Z) as seen. intros n seen.
  assert (Hout : (length (@nil tvct_entry) <= max_out)%nat) by (simpl; lia). revert Hout.
  generalize (@nil tvct_entry) as out. revert seen s. induction n as [|n IH]; intros seen s out Hout; cbn [read_vct_loop].
  - by exists out, s.
  - destruct (max_out <=? length out)%nat eqn:E; [by exists out, s|]. apply Nat.leb_gt in E.
    rewrite run_env_bind. destruct (run_section_read h fd SECTION_READ_TIMEOUT_MS s) as (r & s' & ->).
    destruct (r.1 <=? 0); [by exists out, s'|].
    destruct (parsed _) as [[[sn lsn] got]|] eqn:Ep; [|by apply IH]. apply parse_tvct_length in Ep.
    destruct (bool_decide _); [by apply IH|].
    assert (length (out ++ got) <= max_out)%nat by (rewrite length_app; lia).
    destruct (forallb _ _); [by exists (out ++ got), s'|]. by apply IH.
Qed.

(** A demux device that delivers a list of sections, then times out. *)
Definition section_device : handler (list (list Z)) := fun q =>
  match q return list (list Z) -> answer q * list (list Z) with
  | QIoctl fd r => fun s =>
      match r return fd_answer r * list (list Z) with
      | FdPoll _ => (match s with [] => 0 | _ => 1 end, s)
      | FdRead _ => match s with [] => (ReadError 5, []) | d :: s => (ReadData d, s) end
      | r => (idle_fd_answer r, s)
      end
  | q => fun s => (idle_answer q, s)
  end.

(** A section of a table, with sizes that fit an ATSC section. *)
Definition vct_section_ok (vs : list vc) : Prop :=
  Forall vc_range vs /\ (length vs < 256)%nat /\ (length (concat (map enc_vc vs)) <= 3998)%nat.

(** Section [k] of a table, as transmitted. *)
Definition vct_section (tsid ver : Z) (vss : list (list vc)) (k : nat) : list Z :=
  enc_tvct tsid ver (Z.of_nat k) (Z.of_nat (length vss) - 1) (nth k vss []) [0xFC; 0] sample_crc.

Definition section_entries (vss : list (list vc)) (k : nat) : list tvct_entry := vc_entry <$> nth k vss [].

Lemma vct_section_parses tsid ver vss k m : Forall vct_section_ok vss -> (k < length vss)%nat ->
  parsed (psip_parse_tvct (take (Z.to_nat SECTION_BUF) (vct_section tsid ver vss k)) m) =
    Some (Z.of_nat k, Z.of_nat (length vss) - 1, take m (section_entries vss k)).
Proof.
  intros Hok Hk. assert (Hs : vct_section_ok (nth k vss [])).
  { rewrite Forall_forall in Hok. apply Hok. rewrite list_elem_of_In. by apply nth_In. }
  destruct Hs as (Hr & Hl & Hc). unfold vct_section.
  rewrite take_ge.
  - rewrite tvct_enc_parses by (done || (simpl length; lia)). done.
  - unfold enc_tvct. rewrite length_enc_section, !length_app. simpl length. unfold SECTION_BUF. lia.
Qed.

Lemma run_device_read fd t d ds : (0 < length d)%nat ->
  exists n, 0 < n /\
  run_env section_device (mpeg_section_read fd t) (d :: ds) = Some ((n, take (Z.to_nat SECTION_BUF) d), ds).
Proof.
  intros Hd. eexists. split; [|reflexivity]. rewrite length_take. unfold SECTION_BUF. lia.
Qed.

Lemma vct_section_nonempty tsid ver vss k : (0 < length (vct_section tsid ver vss k))%nat.
Proof. unfold vct_section, enc_tvct. rewrite length_enc_section. lia. Qed.

Lemma concat_perm {A B} (f : A -> list B) l l' : l ≡ₚ l' -> concat (f <$> l) ≡ₚ concat (f <$> l').
Proof.
  induction 1; simpl; [done|by f_equiv| |by etrans]. rewrite !(assoc_L (++)). f_equiv. apply Permutation_app_comm.
Qed.

Lemma concat_sub {A B} (f : A -> list B) l l' : l ⊆+ l' -> (length (concat (f <$> l)) <= length (concat (f <$> l')))%nat.
Proof.
  intros H. apply submseteq_Permutation in H as [k Hk]. rewrite (concat_perm f _ _ Hk), fmap_app, concat_app, length_app. lia.
Qed.

Lemma all_entries vss : concat (section_entries vss <$> seq 0 (length vss)) = vc_entry <$> concat vss.
Proof.
  assert (section_entries vss <$> seq 0 (length vss) = fmap vc_entry <$> ((fun k => nth k vss []) <$> seq 0 (length vss))) as ->
    by (by rewrite <- list_fmap_compose).
  assert ((fun k => nth k vss []) <$> seq 0 (length vss) = vss) as ->.
  { apply list_eq. intros i. rewrite list_lookup_fmap. destruct (decide (i < length vss)%nat) as [Hi|Hi].
    - rewrite lookup_seq_lt by done. simpl. destruct (lookup_lt_is_Some_2 vss i Hi) as [x E]. rewrite E. f_equal. by apply nth_lookup_Some.
    - rewrite lookup_ge_None_2 by (rewrite length_seq; lia). by rewrite lookup_ge_None_2 by lia. }
  induction vss as [|v vss IH]; [done|]. cbn [fmap list_fmap concat]. by rewrite fmap_app, <- IH.
Qed.

(** The invariant of the loop: [done], the sections collected so far. *)
(** The test that ends the loop: every section number of the table was seen. *)
Lemma all_seen (n : nat) (done_ : list nat) : (0 < n)%nat ->
  forallb (fun s => bool_decide (s ∈ (list_to_set (Z.of_nat <$> done_) : gset Z))) (seqZ 0 (Z.of_nat n - 1 + 1)) = true <->
  forall k, (k < n)%nat -> k ∈ done_.
Proof.
  intros Hn. rewrite forallb_forall. split.
  - intros H k Hk. specialize (H (Z.of_nat k)). rewrite bool_decide_eq_true, elem_of_list_to_set, list_elem_of_fmap in H.
    destruct H as (y & E & Hy); [rewrite <- list_elem_of_In; apply elem_of_seqZ; lia|]. apply Nat2Z.inj in E. by subst.
  - intros H z Hz. apply list_elem_of_In, elem_of_seqZ in Hz. apply bool_decide_eq_true, elem_of_list_to_set, list_elem_of_fmap.
    exists (Z.to_nat z). split; [lia|]. apply H. lia.
Qed.

Lemma some_missing (n : nat) (done_ : list nat) : ~ (forall k, (k < n)%nat -> k ∈ done_) -> exists k, (k < n)%nat /\ k ∉ done_.
Proof.
  intros H. destruct (decide (Forall (fun j => j ∈ done_) (seq 0 n))) as [Hf|Hf].
  - exfalso. apply H. intros k Hk. rewrite Forall_forall in Hf. apply Hf, elem_of_seq. lia.
  - apply not_Forall_Exists in Hf; [|apply _]. apply Exists_exists in Hf as (j & Hj & Hnj). apply elem_of_seq in Hj. exists j. split; [lia|done].
Qed.

Lemma entries_le vss l : NoDup l -> Forall (fun k => (k < length vss)%nat) l ->
  (length (concat (section_entries vss <$> l)) <= length (concat vss))%nat.
Proof.
  intros Hl Hf. rewrite <- (length_fmap vc_entry (concat vss)), <- all_entries. apply concat_sub, NoDup_submseteq; [done|].
  intros x Hx. rewrite Forall_forall in Hf. apply elem_of_seq. specialize (Hf x Hx). lia.
Qed.

Lemma read_vct_loop_collects tsid ver fd vss max_out ks : forall attempts done_,
  Forall vct_section_ok vss -> (length (concat vss) < max_out)%nat ->
  NoDup done_ -> Forall (fun k => (k < length vss)%nat) done_ -> Forall (fun k => (k < length vss)%nat) ks ->
  (forall k, (k < length vss)%nat -> k ∈ done_ \/ k ∈ ks) -> (exists k, (k < length vss)%nat /\ k ∉ done_) ->
  (length ks <= attempts)%nat ->
  exists out s', run_env section_device
      (read_vct_loop attempts fd max_out (list_to_set (Z.of_nat <$> done_)) (concat (section_entries vss <$> done_)))
      (vct_section tsid ver vss <$> ks) = Some (out, s') /\
    out ≡ₚ vc_entry <$> concat vss.
Proof.
  induction ks as [|k ks IH]; intros attempts done_ Hok Hmax Hnd Hd Hks Hall Hex Hlen.
  { destruct Hex as (j & Hj & Hn). destruct (Hall j Hj) as [?|Hf]; [done|by apply not_elem_of_nil in Hf]. }
  destruct attempts as [|attempts]; [simpl in Hlen; lia|]. simpl in Hlen. cbn [read_vct_loop].
  apply Forall_cons in Hks as [Hk Hks].
  pose proof (entries_le vss done_ Hnd Hd) as Hle.
  destruct (max_out <=? _)%nat eqn:Em; [apply Nat.leb_le in Em; lia|]. rewrite run_env_bind. cbn [fmap list_fmap].
  destruct (run_device_read fd SECTION_READ_TIMEOUT_MS (vct_section tsid ver vss k) (vct_section tsid ver vss <$> ks)
    (vct_section_nonempty _ _ _ _)) as (n & Hn & ->). cbn [fst snd].
  destruct (n <=? 0) eqn:En; zb; [lia|]. rewrite vct_section_parses by done.
  case_bool_decide as Hin.
  - apply elem_of_list_to_set, list_elem_of_fmap in Hin as (k' & E & Hk'). apply Nat2Z.inj in E. subst k'.
    apply IH; try done; [|lia]. intros j Hj. destruct (Hall j Hj) as [?|Hjk]; [by left|].
    apply elem_of_cons in Hjk as [->|?]; [by left|by right].
  - assert (Hkn : k ∉ done_).
    { intros H. apply Hin, elem_of_list_to_set, list_elem_of_fmap. by exists k. }
    assert (Hnd' : NoDup (done_ ++ [k])).
    { apply NoDup_app. split; [done|]. split; [|apply NoDup_singleton]. intros x Hx Hx'. apply list_elem_of_singleton in Hx'. by subst. }
    assert (Hd' : Forall (fun k => (k < length vss)%nat) (done_ ++ [k])) by (apply Forall_app; auto).
    assert (Eout : concat (section_entries vss <$> done_) ++ section_entries vss k = concat (section_entries vss <$> done_ ++ [k])).
    { rewrite fmap_app, concat_app. simpl. by rewrite app_nil_r. }
    pose proof (entries_le vss _ Hnd' Hd') as Hle'. rewrite <- Eout, length_app in Hle'. rewrite take_ge by lia.
    assert (Eseen : {[Z.of_nat k]} ∪ list_to_set (Z.of_nat <$> done_) = (list_to_set (Z.of_nat <$> done_ ++ [k]) : gset Z)).
    { rewrite fmap_app, list_to_set_app_L. simpl. set_solver. }
    assert (Hpos : (0 < length vss)%nat) by lia.
    rewrite Eout, Eseen. destruct (forallb _ _) eqn:Ef.
    + eexists _, _. split; [done|]. rewrite <- all_entries. apply concat_perm.
      apply NoDup_Permutation; [done|apply NoDup_seq|]. intros x. rewrite elem_of_seq. split.
      * rewrite Forall_forall in Hd'. intros Hx. specialize (Hd' x Hx). lia.
      * intros Hx. apply (proj1 (all_seen _ _ Hpos) Ef). lia.
    + apply IH; try done; [| |lia].
      * intros j Hj. destruct (Hall j Hj) as [?|Hjk]; [left; set_solver|].
        apply elem_of_cons in Hjk as [->|?]; [left; set_solver|by right].
      * apply some_missing. intros H. apply (all_seen _ _ Hpos) in H. congruence.
Qed.

(** Claim C26: when the sections of a channel table arrive in any order and with
    repetitions, all of them within eight deliveries, [read_vct] collects the
    channels of every section exactly once, unless they do not fit the array. *)
Theorem read_vct_collects (tsid ver fd : Z) (vss : list (list vc)) (ks : list nat) (max_out : nat) :
  vss <> [] -> Forall vct_section_ok vss -> (length (concat vss) < max_out)%nat ->
  Forall (fun k => (k < length vss)%nat) ks -> (forall k, (k < length vss)%nat -> k ∈ ks) -> (length ks <= 8)%nat ->
  exists out s', run_env section_device (read_vct fd max_out) (vct_section tsid ver vss <$> ks) = Some (out, s') /\
    out ≡ₚ vc_entry <$> concat vss.
Proof.
  intros Hne Hok Hmax Hks Hall Hlen. unfold read_vct.
  destruct (read_vct_loop_collects tsid ver fd vss max_out ks 8 [] Hok Hmax (NoDup_nil_2) (Forall_nil_2 _) Hks) as (out & s' & H & Hp);
    [by right; apply Hall| |done|by exists out, s'].
  exists 0%nat. split; [destruct vss; [done|simpl; lia]|apply not_elem_of_nil].
Qed.

Lemma read_vct_collects_witness :
  exists out s', run_env section_device (read_vct 5 64)
    (vct_section 1 0xC1 [[sample_vc]; [sample_vc; sample_vc]] <$> [1; 1; 0]%nat) = Some (out, s') /\
    out ≡ₚ vc_entry <$> [sample_vc; sample_vc; sample_vc].
Proof.
  assert (Hvc : Forall vc_range [sample_vc; sample_vc]) by (repeat constructor; unfold is_u16, is_byte; simpl; lia).
  apply (read_vct_collects 1 0xC1 5 [[sample_vc]; [sample_vc; sample_vc]] [1; 1; 0]%nat 64).
  - discriminate.
  - apply Forall_cons in Hvc as [Hv Hvs].
    apply Forall_cons_2; [|apply Forall_singleton]; (split; [by repeat apply Forall_cons_2|split; vm_compute; lia]).
  - simpl. lia.
  - repeat constructor; simpl; lia.
  - intros [|[|k]] Hk; [set_solver|set_solver|simpl in Hk; lia].
  - simpl. lia.
Defined.
