(* ===== verification/Push.v ===== *)
(** UDP pushes and their keepalives: src/src/udp_stream.c, src/src/keepalive.c.

    Starting and stopping a push, the pushing thread, and the listener that
    refreshes and reclaims pushes.  The channel is a pointer
    into the table ([ChannelDb.channel_ref]) until the push thread's context
    gets a copy of it.  What a push sends is in [Delivery]. *)
From stdpp Require Import gmultiset.
From S2P Require Import Prelude RecordUpd CLib ChannelDb Config Stats Ring Tuner Sys Life Own Rules Frontend Exec Stream.
From S2P Require Import TunerOps.

Definition TS_PACKET_SIZE : Z := 188.
Definition TS_PER_DATAGRAM : Z := 7.
Definition DATAGRAM_SIZE : Z := TS_PACKET_SIZE * TS_PER_DATAGRAM.
Definition TARGET_CHANNEL_WAIT_MS : Z := 2000.
Definition TARGET_CHANNEL_POLL_MS : Z := 50.
Definition TARGET_CLAIM_WAIT_MS : Z := 8000.

(** ** The pushing thread *)

(** [buf]: the bytes of the datagram gathered so far. *)
Fixpoint push_loop (fuel : nat) (i s : nat) (sock : Z) (ip : string) (port : Z) (buf : list Z) : prog unit :=
  match fuel with
  | O => Spin
  | S fuel' =>
      stop <- tun_get i udp_push_stop_requested ;;
      if stop then Ret tt
      else
        data <- dvb_stream_read fuel s (DATAGRAM_SIZE - Z.of_nat (length buf)) ;;
        match data with
        | [] => Ret tt
        | _ =>
            let buf := buf ++ data in
            if Z.of_nat (length buf) =? DATAGRAM_SIZE then
              sent <- env (QSendTo sock ip port buf) ;;
              if (sent : Z) <? 0 then Ret tt else push_loop fuel' i s sock ip port []
            else push_loop fuel' i s sock ip port buf
        end
  end.

(** [done_no_claim]: clears the flag unless a newer push owns it. *)
Definition push_done_section (generation : Z) (t : hdhr_tuner) : unit * hdhr_tuner :=
  (tt, if udp_push_generation t =? generation then t <| udp_push_active := false |> else t).

(** The thread up to [done_no_claim], after the socket is ready. *)
Definition push_claimed (fuel : nat) (cfg : hdhr_config) (ctx : push_ctx) (sock : Z) : prog unit :=
  let i := pc_tuner ctx in
  claim <- tuner_try_claim_wait fuel i TARGET_CLAIM_WAIT_MS (frequency_hz (pc_channel ctx)) (delivery (pc_channel ctx)) true ;;
  match claim with
  | None => env (QCloseSock sock)
  | Some reused_fd =>
      a <- tun_get i adapter ;;
      ds <- dvb_stream_open fuel a (dvb_frontend cfg) (dvb_demux cfg) (OwnChannel (pc_channel ctx)) (pc_program_override ctx)
              (Some (pc_pid_filter ctx)) reused_fd ;;
      match ds with
      | None => env (QCloseSock sock) ;; tuner_release i
      | Some s =>
          tuner_bind_channel i (OwnChannel (pc_channel ctx)) (pc_program_override ctx) ;;
          tuner_set_stream i (Some s) ;;
          push_loop fuel i s sock (pc_dest_ip ctx) (pc_dest_port ctx) [] ;;
          env (QCloseSock sock) ;;
          tun_set i (fun t => t <| target := snprintf 64 "none" |>) ;;
          tuner_release i
      end
  end.

Definition push_thread_main (fuel : nat) (cfg : hdhr_config) (ctx : push_ctx) : prog unit :=
  sock <- env (QSocket SOCK_DGRAM) ;;
  (if (sock : Z) <? 0 then Ret tt
   else
     addr <- env (QInetPton (pc_dest_ip ctx)) ;;
     match addr : option Z with
     | None => env (QCloseSock sock)
     | Some _ => push_claimed fuel cfg ctx sock
     end) ;;
  tun (pc_tuner ctx) (push_done_section (pc_generation ctx)).

(** ** Stopping and starting *)

Definition push_stop_section (t : hdhr_tuner) : bool * hdhr_tuner :=
  (udp_push_active t, if udp_push_active t then t <| udp_push_stop_requested := true |> else t).

(** Polls until the push is over, at most [n] times. *)
Fixpoint wait_push_over (n : nat) (i : nat) : prog unit :=
  match n with
  | O => Ret tt
  | S n =>
      active <- tun_get i udp_push_active ;;
      if active then env (QSleep 5000) ;; wait_push_over n i else Ret tt
  end.

Definition udp_push_stop (i : nat) : prog unit :=
  active <- tun i push_stop_section ;;
  when active (wait_push_over 400 i).

(** The selection of a tuner, as [udp_push_start] reads it. *)
Record selection := {
  sel_resolved : bool; sel_major : Z; sel_minor : Z; sel_freq : Z; sel_delivery : Z; sel_program : Z
}.
Definition selection_of (t : hdhr_tuner) : selection :=
  {| sel_resolved := vch_resolved t; sel_major := vch_major t; sel_minor := vch_minor t;
     sel_freq := tuned_frequency_hz t; sel_delivery := tuned_delivery t; sel_program := program t |}.

(** A channel that is only a frequency: [memset] and two assignments. *)
Definition synth_channel (freq d : Z) : dvb_channel :=
  {| major := 0; minor := 0; short_name := ""; rf_channel := 0; delivery := d; frequency_hz := freq;
     channel_tsid := 0; program_number := 0; pmt_pid := 0; pcr_pid := 0; video_pid := 0;
     video_stream_type := 0; audio_pid := 0; audio_stream_type := 0 |}.

Definition before_deadline (deadline now : timespec) : bool :=
  negb ((tv_sec deadline <? tv_sec now) || ((tv_sec now =? tv_sec deadline) && (tv_nsec deadline <=? tv_nsec now))).
Definition deadline_after (now : timespec) (ms : Z) : timespec :=
  let ns := tv_nsec now + (ms mod 1000) * 1000000 in
  if 1000000000 <=? ns then {| tv_sec := tv_sec now + ms / 1000 + 1; tv_nsec := ns - 1000000000 |}
  else {| tv_sec := tv_sec now + ms / 1000; tv_nsec := ns |}.

(** Waits for a scan to find channels on the frequency. *)
Fixpoint wait_channel (fuel : nat) (freq : Z) (deadline : timespec) : prog (option chan_ptr) :=
  match fuel with
  | O => Spin
  | S fuel =>
      ch <- db_get (fun db => first_on_freq db freq) ;;
      match ch with
      | Some ch => Ret (Some ch)
      | None =>
          now <- env QNow ;;
          if before_deadline deadline now then
            env (QSleep (TARGET_CHANNEL_POLL_MS * 1000)) ;; wait_channel fuel freq deadline
          else Ret None
      end
  end.

(** What to push: the channel and the program override; None: refused. *)
Definition push_source (fuel : nat) (i : nat) (sel : selection) : prog (option (channel_ref * Z)) :=
  if sel_resolved sel then
    ch <- db_get (find_ptr (sel_major sel) (sel_minor sel)) ;;
    Ret ((fun ch => (TableChannel ch, sel_program sel)) <$> ch)
  else if negb (sel_freq sel =? 0) && (sel_program sel <=? 0) then
    locked <- tun_get i (fun t => (last_attempt_freq t =? sel_freq sel) && last_attempt_locked t) ;;
    Ret (if locked then Some (OwnChannel (synth_channel (sel_freq sel) (sel_delivery sel)), 0) else None)
  else if negb (sel_freq sel =? 0) then
    now <- env QNow ;;
    ch <- wait_channel fuel (sel_freq sel) (deadline_after now TARGET_CHANNEL_WAIT_MS) ;;
    match ch with
    | None => Ret None
    | Some ch =>
        still_current <- tun_get i (fun t => (tuned_frequency_hz t =? sel_freq sel) && negb (vch_resolved t)) ;;
        Ret (if still_current then Some (TableChannel ch, sel_program sel) else None)
    end
  else Ret None.

(** The last section of [udp_push_start], up to the creation of the thread. *)
Definition push_arm (addr : option Z) (port : Z) (now : timespec) (t : hdhr_tuner) : hdhr_tuner :=
  t <| keepalive_match_addr := default 0 addr |> <| keepalive_match_port := u16 port |>
    <| last_keepalive_time := now |> <| udp_push_stop_requested := false |> <| udp_push_active := true |>
    <| udp_push_generation ::= inc32 |>.

Definition udp_push_start (fuel : nat) (i : nat) (dest_ip : string) (dest_port : Z) : prog Z :=
  udp_push_stop i ;;
  sel <- tun_get i selection_of ;;
  src <- push_source fuel i sel ;;
  match src with
  | None => Ret (-1)
  | Some src =>
      addr <- env (QInetPton dest_ip) ;;
      sect (fun e w =>
        match w_tuners w !! i with
        | None => None
        | Some t =>
            let t := push_arm addr dest_port (e_now e) t in
            let ctx := {| pc_tuner := i; pc_channel := channel_of src.1 (w_db w); pc_program_override := src.2;
                          pc_pid_filter := snprintf 256 (filter_override t); pc_dest_ip := snprintf 64 dest_ip;
                          pc_dest_port := dest_port; pc_generation := udp_push_generation t |} in
            if e_create_ok e
            then Some (0, w <| w_tuners ::= <[i := t]> |>, Some {| sp_thread := T_push ctx; sp_join := None |})
            else Some (-1, w <| w_tuners ::= <[i := t <| udp_push_active := false |>]> |>, None)
        end)
  end.

(** ** Keepalives *)

Definition KEEPALIVE_TIMEOUT_MS : Z := 15000.

(** Whether the tuner's push is that of a datagram's sender; if so the time
    stamp is refreshed. *)
Definition keepalive_section (addr port : Z) (now : timespec) (t : hdhr_tuner) : bool * hdhr_tuner :=
  if udp_push_active t && (keepalive_match_addr t =? addr) && (keepalive_match_port t =? port)
  then (true, t <| last_keepalive_time := now |>) else (false, t).

Fixpoint keepalive_refresh (ts : list nat) (addr port : Z) : prog unit :=
  match ts with
  | [] => Ret tt
  | i :: ts =>
      hit <- tuner_sect i (fun e => keepalive_section addr port (e_now e)) ;;
      if hit then Ret tt else keepalive_refresh ts addr port
  end.

(** A push no keepalive refreshed for too long, and not yet being stopped. *)
Definition stale_push (now : timespec) (t : hdhr_tuner) : bool :=
  udp_push_active t && negb (udp_push_stop_requested t) &&
  (KEEPALIVE_TIMEOUT_MS <? elapsed_ms (last_keepalive_time t) now).

Fixpoint sweep_tuners (ts : list nat) (now : timespec) : prog unit :=
  match ts with
  | [] => Ret tt
  | i :: ts =>
      stale <- tun_get i (stale_push now) ;;
      when stale (udp_push_stop i) ;;
      sweep_tuners ts now
  end.

Definition sweep_stale_pushes (count : nat) : prog unit :=
  now <- env QNow ;;
  sweep_tuners (seq 0 count) now.

Fixpoint listener_thread_main (fuel : nat) (count : nat) (sock : Z) : prog unit :=
  match fuel with
  | O => Spin
  | S fuel =>
      m <- env (QRecvFrom sock 16) ;;
      match m : option (list Z * Z * Z) with
      | Some (_, addr, port) => keepalive_refresh (seq 0 count) addr port
      | None => Ret tt
      end ;;
      sweep_stale_pushes count ;;
      listener_thread_main fuel count sock
  end.

Definition KEEPALIVE_PORT : Z := 5004.

(** The socket's timeout makes [recvfrom] fail every two seconds. *)
Definition keepalive_listener_start : prog bool :=
  sock <- env (QSocket SOCK_DGRAM) ;;
  if (sock : Z) <? 0 then Ret false
  else
    r <- env (QBind sock KEEPALIVE_PORT) ;;
    if (r : Z) <? 0 then env (QCloseSock sock) ;; Ret false
    else
      ok <- spawn_detached (T_keepalive sock) ;;
      if ok then Ret true else env (QCloseSock sock) ;; Ret false.

(** ** Ownership *)

Section Specs.
Context (cfg : hdhr_config).
Local Notation wp := (wp cfg).
Local Notation ntuners := (ntuners cfg).


Lemma wp_close_sock sock R (Q : unit -> toks -> Prop) : Q tt R -> wp (env (QCloseSock sock)) R Q.
Proof. intros HQ. apply wp_env_plain; [done|by intros []]. Qed.

Lemma wp_push_loop fuel i s sock ip port buf R (Q : unit -> toks -> Prop) :
  (i < ntuners)%nat -> stream_live R s -> Q tt R -> wp (push_loop fuel i s sock ip port buf) R Q.
Proof.
  intros Hi Hl HQ. revert buf. induction fuel as [|fuel IH]; intros buf; [done|]. cbn [push_loop].
  wp_step. apply wp_tun_get; [done|]. intros t _. wp_step; [by apply wp_ret|]. wp_step.
  apply wp_dvb_stream_read; [done|]. intros data. destruct data as [|b data]; [by apply wp_ret|].
  wp_go; first [done|apply IH].
Qed.

Lemma wp_push_claimed fuel ctx sock R (Q : unit -> toks -> Prop) :
  (pc_tuner ctx < ntuners)%nat -> Q tt R -> wp (push_claimed fuel cfg ctx sock) R Q.
Proof.
  intros Hi HQ. unfold push_claimed. set (i := pc_tuner ctx) in *. wp_step.
  apply wp_tuner_try_claim_wait; [done|by apply wp_close_sock|]. intros reused _. wp_step. apply wp_tun_get; [done|].
  intros t (Hok & _). wp_step. destruct Hok as (_ & Ha & _). rewrite Ha.
  apply wp_dvb_stream_open.
  - wp_step. wp_step. by apply wp_tuner_release.
  - intros s. wp_step. apply wp_tuner_bind_channel; [done|]. wp_step.
    change ({[+ TStr s Open _ +]}) with (opt_str (Some s) (tdev cfg i)). apply wp_tuner_set_stream; [done|]. wp_step.
    apply wp_push_loop; [done| |].
    { right; right; right. exists i. multiset_solver. }
    wp_step. wp_step. wp_step. apply wp_tun_set; [done| |by apply wp_tuner_release].
    neutral_set.
Qed.

Lemma wp_push_thread_main fuel ctx R (Q : unit -> toks -> Prop) :
  (pc_tuner ctx < ntuners)%nat -> Q tt R -> wp (push_thread_main fuel cfg ctx) R Q.
Proof.
  intros Hi HQ. unfold push_thread_main. wp_step. wp_step. wp_step. apply wp_keep.
  - wp_step; [done|]. wp_step. wp_step. destruct a0; [by apply wp_push_claimed|by apply wp_close_sock].
  - intros _. apply wp_tuner_neutral; [done|]. intros e t _. unfold push_done_section.
    destruct (_ =? _); by neutral.
Qed.

Lemma wp_udp_push_stop i R (Q : unit -> toks -> Prop) :
  (i < ntuners)%nat -> Q tt R -> wp (udp_push_stop i) R Q.
Proof.
  intros Hi HQ. unfold udp_push_stop. wp_step. apply wp_tuner_neutral; [done|]. intros e t _. unfold push_stop_section.
  assert (Hw : forall n, wp (wait_push_over n i) R Q).
  { induction n as [|n IH]; [by apply wp_ret|]. cbn [wait_push_over]. wp_step. apply wp_tun_get; [done|]. intros t' _. wp_go; done. }
  destruct (udp_push_active t); neutral; wp_step; done.
Qed.

Lemma wp_push_source fuel i sel R (Q : option (channel_ref * Z) -> toks -> Prop) :
  (i < ntuners)%nat -> (forall r, Q r R) -> wp (push_source fuel i sel) R Q.
Proof.
  intros Hi HQ. unfold push_source. wp_step; [|wp_step; [|wp_step]].
  - wp_step. apply wp_db_get. intros db _. by apply wp_ret.
  - wp_step. apply wp_tun_get; [done|]. intros t _. by apply wp_ret.
  - wp_step. wp_step. wp_step. apply wp_keep.
    + generalize (deadline_after a TARGET_CHANNEL_WAIT_MS). intros dl. induction fuel as [|fuel IH]; [done|]. cbn [wait_channel].
      wp_step. apply wp_db_get. intros db _. destruct (first_on_freq db _); [done|]. wp_go; done.
    + intros [ch|]; [|by apply wp_ret]. wp_step. apply wp_tun_get; [done|]. intros t _. by apply wp_ret.
  - by apply wp_ret.
Qed.

Lemma wp_udp_push_start fuel i ip port R (Q : Z -> toks -> Prop) :
  (i < ntuners)%nat -> (forall rc, Q rc R) -> wp (udp_push_start fuel i ip port) R Q.
Proof.
  intros Hi HQ. unfold udp_push_start. wp_step. apply wp_udp_push_stop; [done|]. wp_step. apply wp_tun_get; [done|].
  intros t0 _. wp_step. apply wp_push_source; [done|]. intros [src|]; [|by apply wp_ret]. wp_step. wp_step.
  intros e w jn F Hw Hj. destruct (winv_lookup cfg _ _ _ i Hw Hi) as (t & Ht & Hok). rewrite Ht.
  destruct (e_create_ok e); exists R, ∅; (split; [done|]); (split; [|split; [by apply (guarantee_tuner w i t), moves_same|apply HQ]]); simpl join_table;
    (replace (R ⊎ ∅ ⊎ F) with (R ⊎ F) by multiset_solver); apply (winv_tuner_same cfg w jn _ i t); try done;
    neutral_set.
Qed.

Lemma wp_keepalive_listener_start R (Q : bool -> toks -> Prop) :
  (forall b, Q b R) -> wp keepalive_listener_start R Q.
Proof.
  intros HQ. unfold keepalive_listener_start.
  assert (Hc : forall sock, wp (env (QCloseSock sock) ;; Ret false) R Q) by (intros sock; wp_step; by apply wp_close_sock, wp_ret).
  wp_step. wp_step. wp_step; [by apply wp_ret|]. wp_step. wp_step. wp_step; [apply Hc|]. wp_step.
  apply (wp_spawn_detached cfg (T_keepalive _) ∅ R R); [done|done|done|multiset_solver|by apply wp_ret|apply Hc].
Qed.

Lemma wp_listener_thread_main fuel count sock R (Q : unit -> toks -> Prop) :
  (count <= ntuners)%nat -> Q tt R -> wp (listener_thread_main fuel count sock) R Q.
Proof.
  intros Hc HQ. induction fuel as [|fuel IH]; [done|]. cbn [listener_thread_main].
  assert (Hseq : Forall (fun i => (i < ntuners)%nat) (seq 0 count)).
  { apply Forall_forall. intros i Hi. apply elem_of_seq in Hi. lia. }
  wp_step. wp_step. wp_step. apply wp_keep.
  - match goal with |- context [match ?m with _ => _ end] => destruct m as [[[d addr] port]|] end; [|by apply wp_ret].
    induction Hseq as [|i ts Hi His IHs]; [by apply wp_ret|]. cbn [keepalive_refresh]. wp_step.
    apply wp_tuner_neutral; [done|]. intros e t _. unfold keepalive_section. destruct (_ && _ && _); neutral; wp_go; done.
  - intros _. wp_step. unfold sweep_stale_pushes. wp_step. wp_step. apply wp_keep; [|intros _; apply IH].
    induction Hseq as [|i ts Hi His IHs]; [by apply wp_ret|]. cbn [sweep_tuners]. wp_step.
    apply wp_tun_get; [done|]. intros t _. wp_step. wp_step; [by apply wp_udp_push_stop|done].
Qed.
End Specs.

(** ** What a sweep reclaims *)

(** An environment whose clock shows [now]. *)
Definition clock_at (now : timespec) : handler unit := fun q =>
  match q return unit -> answer q * unit with
  | QNow => fun s => (now, s)
  | q => fun s => (idle_answer q, s)
  end.

Definition request_stop (t : hdhr_tuner) : hdhr_tuner := t <| udp_push_stop_requested := true |>.

Lemma run_wait_push_over now se n i w t :
  w_tuners w !! i = Some t -> run (clock_at now) se (wait_push_over n i) w tt = Some (tt, w, tt).
Proof.
  intros Ht. induction n as [|n IH]; [done|]. cbn [wait_push_over]. rewrite run_bind, (run_tun_get _ _ _ _ _ _ t) by done.
  destruct (udp_push_active t); [|done]. rewrite run_bind, run_env_op. cbn [clock_at]. exact IH.
Qed.

Lemma run_sweep_tuners now se l w :
  NoDup l -> (forall i, i ∈ l -> is_Some (w_tuners w !! i)) ->
  exists ts, run (clock_at now) se (sweep_tuners l now) w tt = Some (tt, w <| w_tuners := ts |>, tt) /\
    forall i, ts !! i = if bool_decide (i ∈ l)
      then (fun t => if stale_push now t then request_stop t else t) <$> w_tuners w !! i else w_tuners w !! i.
Proof.
  intros Hnd. revert w. induction Hnd as [|i l Hi Hnd IH]; intros w Hl.
  { exists (w_tuners w). split; [by destruct w|]. intros i. by rewrite bool_decide_false by apply not_elem_of_nil. }
  destruct (Hl i) as [t Ht]; [by left|]. cbn [sweep_tuners].
  rewrite run_bind, (run_tun_get _ _ _ _ _ _ t), run_bind, run_when by done.
  assert (Hrest : forall t', (if stale_push now t then request_stop t else t) = t' ->
    exists ts, run (clock_at now) se (sweep_tuners l now) (w <| w_tuners ::= <[i := t']> |>) tt = Some (tt, w <| w_tuners := ts |>, tt) /\
    forall j, ts !! j = if bool_decide (j ∈ i :: l)
      then (fun t => if stale_push now t then request_stop t else t) <$> w_tuners w !! j else w_tuners w !! j).
  { intros t' Et. destruct (IH (w <| w_tuners ::= <[i := t']> |>)) as (ts & Er & Hts).
    { intros j Hj. upd_simpl. rewrite list_lookup_insert_is_Some. apply Hl. by right. }
    exists ts. split; [exact Er|]. intros j. rewrite Hts. upd_simpl. destruct (decide (j = i)) as [->|Hne].
    - rewrite list_lookup_insert_eq by by eapply lookup_lt_Some. rewrite (bool_decide_false (i ∈ l)), bool_decide_true by (done || by left).
      rewrite Ht. simpl. by rewrite Et.
    - rewrite list_lookup_insert_ne by done. rewrite (bool_decide_ext (j ∈ i :: l) (j ∈ l)); [done|]. rewrite elem_of_cons. naive_solver. }
  destruct (stale_push now t) eqn:Es; cbv iota.
  - unfold udp_push_stop. unfold tun at 1. rewrite run_bind, (run_tuner_sect _ _ _ _ _ _ t) by done. unfold push_stop_section.
    assert (udp_push_active t = true) as -> by (unfold stale_push in Es; by destruct (udp_push_active t)).
    cbn [fst snd when]. fold (request_stop t). rewrite (run_wait_push_over now se 400 i _ (request_stop t)).
    + by apply Hrest.
    + upd_simpl. rewrite list_lookup_insert_eq; [done|by eapply lookup_lt_Some].
  - destruct (Hrest t eq_refl) as (ts & Er & Hts). rewrite (same_tuner_world w i t Ht) in Er. eauto.
Qed.

(** Claim C28: a sweep at time [now] asks a tuner's push to stop exactly when it
    is running, not yet being stopped, and its last keepalive is more than 15
    seconds old; it changes nothing else of any tuner. *)
Theorem sweep_reclaims_abandoned (now : timespec) (se : unit -> sect_env) (w : world) :
  exists ts, run (clock_at now) se (sweep_stale_pushes (length (w_tuners w))) w tt = Some (tt, w <| w_tuners := ts |>, tt) /\
    forall i, ts !! i = (fun t => t <| udp_push_stop_requested :=
        if udp_push_active t then udp_push_stop_requested t || (15000 <? elapsed_ms (last_keepalive_time t) now)
        else udp_push_stop_requested t |>) <$> w_tuners w !! i.
Proof.
  unfold sweep_stale_pushes. rewrite run_bind, run_env_op. cbn [clock_at].
  destruct (run_sweep_tuners now se (seq 0 (length (w_tuners w))) w) as (ts & Er & Hts).
  { apply NoDup_seq. }
  { intros i Hi. apply elem_of_seq in Hi. apply lookup_lt_is_Some_2. lia. }
  exists ts. split; [exact Er|]. intros i. rewrite Hts. case_bool_decide as Hi.
  - destruct (w_tuners w !! i) as [t|]; [|done]. simpl. f_equal. unfold stale_push, request_stop, KEEPALIVE_TIMEOUT_MS.
    destruct (udp_push_active t), (udp_push_stop_requested t) eqn:E, (15000 <? _); simpl;
      first [done | destruct t; simpl in E; by subst].
  - rewrite elem_of_seq in Hi. by rewrite lookup_ge_None_2 by lia.
Qed.
