(* ===== verification/ControlText.v ===== *)
(** Names, values and status texts of the control protocol: the pure parts of
    src/src/control.c.

    Parsing of "/tunerN/leaf" paths, push targets and channel values, and the
    text of every readable parameter.  The theorems: a channel value is resolved
    to the frequency its form denotes, and the two other parsers accept exactly
    the documented forms. *)
From S2P Require Import Prelude RecordUpd Pkt CLib FreqPlan PidFilter ChannelDb Config Stats Ring Tuner Push.

(** ** Strings and bytes *)

Definition str_bytes (s : string) : list Z := code <$> String.list_ascii_of_string s.
Definition bytes_str (l : list Z) : string := String.string_of_list_ascii (chr <$> l).

Definition str_eq (a b : string) : bool := bool_decide (a = b).
Definition dquote : string := String "034" "".

(** ** Paths and targets *)

(** [parse_tuner_path]: the index and the leaf. *)
Definition parse_tuner_path (name : string) (max_tuners : Z) : option (Z * string) :=
  match scan_lit "/tuner" name with
  | None => None
  | Some r =>
      match scan_d r with
      | None => None
      | Some (idx, r) =>
          if (idx <? 0) || (max_tuners <=? idx) then None
          else match r with
               | String "/" leaf => Some (idx, leaf)
               | _ => None
               end
      end
  end.

(** [parse_udp_target]: the address text and the port. *)
Definition parse_udp_target (value : string) (ip_out_len : nat) : option (string * Z) :=
  let p := match strstr value "://" with Some r => str_drop 3 r | None => value end in
  match strrchr ":" p with
  | None => None
  | Some (ip, port_text) =>
      let iplen := String.length ip in
      if (iplen =? 0)%nat || (ip_out_len <=? iplen)%nat then None
      else
        let port := atoi port_text in
        if (port <=? 0) || (65535 <? port) then None else Some (ip, port)
  end.

(** ** Channel values *)

Definition resolve_channel_in_map (map_name : string) (channel : Z) : Z :=
  if str_eq map_name "us-bcast" then Atsc.atsc_channel_to_freq channel
  else match ChannelMap.channel_map_find map_name with
       | Some map => ChannelMap.channel_map_channel_to_freq map channel
       | None => 0
       end.

Definition reverse_resolve_freq_in_map (map_name : string) (freq : Z) : Z :=
  if str_eq map_name "us-bcast" then Atsc.atsc_freq_to_channel freq
  else match ChannelMap.channel_map_find map_name with
       | Some map => ChannelMap.channel_map_freq_to_channel map freq
       | None => 0
       end.

Definition delivery_for_map (map_name : string) : Z :=
  if str_eq map_name "us-bcast" then HDHR_DELIVERY_ATSC_VSB
  else match ChannelMap.channel_map_find map_name with
       | Some map => delivery_num (ChannelMap.delivery map)
       | None => HDHR_DELIVERY_ATSC_VSB
       end.

(** "auto<digits>t:" at the front. *)
Definition auto_t_form (value : string) : option string :=
  match scan_lit "auto" value with
  | Some (String c r) => if isdigit c then scan_lit "t:" (skip_while isdigit r) else None
  | _ => None
  end.

(** A bare frequency after the colon. *)
Definition freq_value (channelmap text : string) : option (Z * Z) :=
  let freq := u32 (strtoul 10 text) in
  if freq =? 0 then None else Some (freq, reverse_resolve_freq_in_map channelmap freq).

(** The channel number or frequency of "auto:". *)
Definition auto_value (channelmap text : string) : option (Z * Z) :=
  let n := u32 (strtoul 10 text) in
  if n =? 0 then None
  else if n <? 1000 then
    let freq := resolve_channel_in_map channelmap n in
    if freq =? 0 then None else Some (freq, n)
  else Some (n, reverse_resolve_freq_in_map channelmap n).

(** "<channelmap>:<N>" *)
Definition map_value (value : string) : option (Z * Z) :=
  match strchr ":" value with
  | None => None
  | Some (prefix, r) =>
      if (0 <? String.length prefix)%nat && (String.length prefix <? 16)%nat then
        let ch := atoi r in
        let freq := resolve_channel_in_map prefix ch in
        if freq =? 0 then None else Some (freq, ch)
      else None
  end.

(** [parse_channel_value]: the frequency and the RF channel. *)
Definition parse_channel_value (channelmap value : string) : option (Z * Z) :=
  match auto_t_form value with
  | Some r => freq_value channelmap r
  | None =>
      match scan_lit "auto:" value with
      | Some r => auto_value channelmap r
      | None =>
          match scan_lit "8vsb:" value, scan_lit "qam:" value with
          | Some r, _ | None, Some r => freq_value channelmap r
          | None, None => map_value value
          end
      end
  end.

(** ** Texts *)

(** printf's %.<digits>f of a double. *)
Definition round_half_even (num den : Z) : Z :=
  let q := num / den in
  let r2 := 2 * (num mod den) in
  if (den <? r2) || ((den =? r2) && Z.odd q) then q + 1 else q.
Definition pad_zeros (width : nat) (s : string) : string := zeros (width - String.length s) +:+ s.
Definition fmt_fixed (digits : nat) (x : dbl) : string :=
  let body (n : Z) := match digits with
    | O => dec_u n
    | _ => dec_u (n / 10 ^ Z.of_nat digits) +:+ "." +:+ pad_zeros digits (dec_u (n mod 10 ^ Z.of_nat digits))
    end in
  let sign (s : bool) := if s then "-" else "" in
  match x with
  | S754_zero s => sign s +:+ body 0
  | S754_infinity s => sign s +:+ "inf"
  | S754_nan => "nan"
  | S754_finite s m e =>
      let num := Z.pos m * 10 ^ Z.of_nat digits in
      sign s +:+ body (if 0 <=? e then num * 2 ^ e else round_half_even num (2 ^ (- e)))
  end.

Definition pct0 (p : Z) : Z := if p <? 0 then 0 else p.

(** "ch=.. lock=.. ss=.. snq=.. seq=.." *)
Definition signal_text (ch lock : string) (s : dvb_signal_stats) : string :=
  "ch=" +:+ ch +:+ " lock=" +:+ lock +:+ " ss=" +:+ dec (pct0 (signal_strength_pct s)) +:+
  " snq=" +:+ dec (pct0 (snr_quality_pct s)) +:+ " seq=" +:+ dec (pct0 (symbol_quality_pct s)).

(** [sscanf(s, "%31s")] *)
Definition scan_word31 (s : string) : option string :=
  match take_while (fun c => negb (isspace c)) (skip_while isspace s) with
  | EmptyString => None
  | w => Some (str_take 31 w)
  end.

(** The lock word of a status text. *)
Definition lock_word_of (status : string) : string :=
  match strstr status "lock=" with
  | Some r => default "none"%string (scan_word31 (str_drop 5 r))
  | None => "none"
  end.

Definition FULL_FILTER : string := "0x0000-0x1fff".

(** [compute_auto_filter] *)
Definition compute_auto_filter (db : channel_db) (t : hdhr_tuner) (out_len : nat) : string :=
  if (program t =? 0) || (tuned_frequency_hz t =? 0) then snprintf out_len FULL_FILTER
  else
    let siblings := omap (fun i => db !! i) (dvb_channels_on_freq db (tuned_frequency_hz t) DVB_CHANNEL_MAX) in
    let target := match List.find (fun c => program_number c =? u16 (program t)) siblings with
                  | Some c => Some c
                  | None => if vch_resolved t then find_channel db (vch_major t) (vch_minor t) else None
                  end in
    match target with
    | None => snprintf out_len FULL_FILTER
    | Some c =>
        match List.filter (fun p => negb (p =? 0)) [pmt_pid c; pcr_pid c; video_pid c; audio_pid c] with
        | [] => snprintf out_len "none"
        | pids => pid_filter_format pids out_len
        end
    end.

(** The stream's cached statistics, if it has any. *)
Definition stream_stats (st : option dvb_stream) : option dvb_signal_stats :=
  match st with Some st => dvb_stream_get_cached_stats st | None => None end.

(** /tunerN/status: the text, and the stream after its rate was read. *)
Definition status_text (now : timespec) (st : option dvb_stream) (t : hdhr_tuner) : string * option dvb_stream :=
  match st, stream_stats st with
  | Some st, Some stats =>
      let '(bps, pps, st) := dvb_stream_get_rate st now in
      (snprintf 512 (signal_text (Tuner.channel t) (if has_lock stats then "8vsb" else "none") stats +:+
         " bps=" +:+ fmt_fixed 0 bps +:+ " pps=" +:+ fmt_fixed 0 pps), Some st)
  | st, _ =>
      (if 0 <=? held_fd t then
         if held_stats_cache_valid t then
           let stats := held_stats_cache t in
           snprintf 512 (signal_text (Tuner.channel t)
             (if has_lock stats then (if is_qam (tuned_delivery t) then "qam" else "8vsb") else "none") stats)
         else snprintf 512 ("ch=" +:+ Tuner.channel t +:+ " lock=none ss=45 snq=0 seq=0")
       else if scan_stats_valid t && (scan_stats_freq t =? tuned_frequency_hz t) then
         snprintf 512 (signal_text (Tuner.channel t) (lock_word_of (status t)) (scan_stats t))
       else snprintf 512 (status t), st)
  end.

(** The loop over the channels of a mux; [off] counts what would have been
    written without the limit of the 512-byte buffer. *)
Fixpoint streaminfo_loop (chs : list dvb_channel) (off : nat) (out : string) : string :=
  match chs with
  | [] => out
  | c :: chs =>
      if (off <? 512)%nat then
        let line := dec_u (program_number c) +:+ ": " +:+ dec_u (u32 (major c)) +:+ "." +:+ dec_u (u32 (minor c)) +:+ " " +:+
                    short_name c +:+ nl in
        streaminfo_loop chs (off + String.length line) (out +:+ snprintf (512 - off) line)
      else out
  end.

Definition streaminfo_text (db : channel_db) (t : hdhr_tuner) : string :=
  if tuned_frequency_hz t =? 0 then "none"
  else match omap (fun i => db !! i) (dvb_channels_on_freq db (tuned_frequency_hz t) 32) with
       | [] => "none"
       | (c :: _) as chs =>
           let head := "tsid=0x" +:+ hex_pad true 4 (channel_tsid c) +:+ nl in
           streaminfo_loop chs (String.length head) head
       end.

(** /tunerN/debug *)
Definition debug_text (st : option dvb_stream) (t : hdhr_tuner) : string :=
  let head := status t +:+ " program=" +:+ dec (program t) +:+ " target=" +:+ Tuner.target t +:+ " busy=" +:+ (if busy t then "1" else "0") in
  let raw := match stream_stats st with
             | Some s => Some s
             | None =>
                 if 0 <=? held_fd t then (if held_stats_cache_valid t then Some (held_stats_cache t) else None)
                 else if scan_stats_valid t && (scan_stats_freq t =? tuned_frequency_hz t) then Some (scan_stats t)
                 else None
             end in
  let off := String.length head in
  let '(val, off) :=
    match raw with
    | Some r => if have_signal_dbm r && (off <? 512)%nat then
                  let s := " ss_dbm=" +:+ fmt_fixed 1 (signal_dbm r) in
                  (snprintf 512 head +:+ snprintf (512 - off) s, (off + String.length s)%nat)
                else (snprintf 512 head, off)
    | None => (snprintf 512 head, off)
    end in
  match raw with
  | Some r => if have_snr_db r && (off <? 512)%nat then val +:+ snprintf (512 - off) (" snr_db=" +:+ fmt_fixed 1 (snr_db r)) else val
  | None => val
  end.

(** [handle_tuner_get] without the reply: the value of a leaf (None: unknown),
    and the stream afterwards. *)
Definition tuner_value (now : timespec) (db : channel_db) (st : option dvb_stream) (t : hdhr_tuner) (leaf : string) :
    option string * option dvb_stream :=
  if str_eq leaf "channel" then (Some (Tuner.channel t), st)
  else if str_eq leaf "channelmap" then (Some (channelmap t), st)
  else if str_eq leaf "vchannel" then
    (Some (if vch_resolved t then dec (vch_major t) +:+ "." +:+ dec (vch_minor t) else "none"%string), st)
  else if str_eq leaf "program" then (Some (dec (program t)), st)
  else if str_eq leaf "filter" then
    (Some (match filter_override t with EmptyString => compute_auto_filter db t 512 | f => f end), st)
  else if str_eq leaf "target" then (Some (Tuner.target t), st)
  else if str_eq leaf "lockkey" then
    (Some (if lockkey t =? 0 then "none"%string else "0x" +:+ hex_pad true 8 (lockkey t)), st)
  else if str_eq leaf "status" then let '(v, st) := status_text now st t in (Some v, st)
  else if str_eq leaf "streaminfo" then (Some (streaminfo_text db t), st)
  else if str_eq leaf "debug" then (Some (debug_text st t), st)
  else (None, st).

(** Texts as bytes. *)
Lemma code_bytes s : bytes_ok (str_bytes s).
Proof. unfold str_bytes. apply Forall_fmap, Forall_true. intros c. apply code_range. Qed.

Lemma length_str_bytes s : length (str_bytes s) = String.length s.
Proof. unfold str_bytes. rewrite length_fmap. induction s as [|c s IH]; simpl; congruence. Qed.

Lemma length_tlv_bytes tag v : (length (PktFacts.tlv_bytes tag v) <= 3 + length v)%nat.
Proof. unfold PktFacts.tlv_bytes. cbn [length]. rewrite length_app. pose proof (PktFacts.var_length_bytes_length (length v)). lia. Qed.

Lemma str_tlv_ok (tag : Z) s : is_byte tag -> (String.length s <= 1000)%nat ->
  is_byte tag /\ bytes_ok (str_bytes s ++ [0]) /\ Z.of_nat (length (str_bytes s ++ [0])) < 2 ^ 15.
Proof.
  intros Ht Hs. split; [done|]. split.
  - apply Forall_app. split; [apply code_bytes|]. by constructor.
  - rewrite length_app, length_str_bytes. simpl. lia.
Qed.

Example fmt_examples :
  fmt_fixed 0 (d_of_Z 19392658) = "19392658"%string /\ fmt_fixed 1 (d_lit (-625) 1) = "-62.5"%string /\
  fmt_fixed 1 (d_lit 25 2) = "0.2"%string /\ fmt_fixed 0 (S754_zero false) = "0"%string.
Proof. vm_compute. done. Qed.

(** ** Parsing theorems *)

Lemma strtoul_dec_u n : 0 <= n < 2 ^ 64 -> strtoul 10 (dec_u n) = n.
Proof.
  intros Hn. unfold strtoul. rewrite <- (app_str_nil_r (dec_u n)), scan_num_dec_u by (done || lia).
  unfold ulong_of, ULONG_MAX. destruct (_ <? n) eqn:E; zb; lia.
Qed.

Lemma atoi_dec_u n : 0 <= n < 2 ^ 31 -> atoi (dec_u n) = n.
Proof.
  intros Hn. unfold atoi. rewrite <- (app_str_nil_r (dec_u n)), scan_num_dec_u by (done || lia).
  unfold long_of. rewrite i32_id; unfold is_i32; lia.
Qed.

Lemma freq_value_dec cm n : 0 < n < 2 ^ 32 -> freq_value cm (dec_u n) = Some (n, reverse_resolve_freq_in_map cm n).
Proof.
  intros Hn. unfold freq_value. rewrite strtoul_dec_u by lia. unfold u32. rewrite Z.mod_small by lia.
  destruct (n =? 0) eqn:E; zb; [lia|done].
Qed.

Lemma auto_t_form_dec k r : 0 <= k -> auto_t_form ("auto" +:+ dec_u k +:+ "t:" +:+ r) = Some r.
Proof.
  intros Hk. unfold auto_t_form. change (scan_lit "auto" ("auto" +:+ dec_u k +:+ "t:" +:+ r)) with (Some (dec_u k +:+ "t:" +:+ r)).
  pose proof (dec_u_digits k Hk) as Hd. destruct (dec_u_ne k) as (c & s & E). rewrite E in *. cbn [String.append].
  simpl in Hd. apply andb_true_iff in Hd as [-> Hd]. by rewrite skip_while_app by done.
Qed.

Lemma map_value_nonzero v f r : map_value v = Some (f, r) -> f <> 0.
Proof.
  unfold map_value. destruct (strchr ":" v) as [[p q]|]; [|done]. destruct (_ && _); [|done].
  cbv zeta. destruct (_ =? 0) eqn:E; [done|]. intros [= <- _]. by zb.
Qed.

Lemma freq_value_nonzero cm v f r : freq_value cm v = Some (f, r) -> f <> 0.
Proof. unfold freq_value. cbv zeta. destruct (_ =? 0) eqn:E; [done|]. intros [= <- _]. by zb. Qed.

Lemma auto_value_nonzero cm v f r : auto_value cm v = Some (f, r) -> f <> 0.
Proof.
  unfold auto_value. cbv zeta. destruct (u32 _ =? 0) eqn:E; [done|]. destruct (_ <? 1000).
  - destruct (resolve_channel_in_map _ _ =? 0) eqn:E'; [done|]. intros [= <- _]. by zb.
  - intros [= <- _]. by zb.
Qed.

Lemma parse_channel_nonzero cm v f r : parse_channel_value cm v = Some (f, r) -> f <> 0.
Proof.
  unfold parse_channel_value. destruct (auto_t_form v); [apply freq_value_nonzero|].
  destruct (scan_lit "auto:" v); [apply auto_value_nonzero|].
  destruct (scan_lit "8vsb:" v), (scan_lit "qam:" v); first [apply freq_value_nonzero|apply map_value_nonzero].
Qed.

Definition map_names : list string := ["us-bcast"; "us-cable"; "us-hrc"; "us-irc"; "kr-cable"; "kr-bcast"]%string.

(** Claim C29: a channel value is resolved to what its form denotes: "8vsb:F",
    "qam:F" and "auto<k>t:F" to the frequency F, "auto:N" to channel N of the
    tuner's map below 1000 and to the frequency N otherwise, "<map>:N" to
    channel N of that map; numbers a map does not have are refused, and no
    value whatsoever selects frequency 0, which stands for "nothing tuned". *)
Theorem channel_value_forms (cm m : string) (n k ch : Z) :
  0 < n < 2 ^ 32 -> 0 <= k -> 0 <= ch < 2 ^ 31 -> m ∈ map_names ->
  parse_channel_value cm ("8vsb:" +:+ dec_u n) = Some (n, reverse_resolve_freq_in_map cm n) /\
  parse_channel_value cm ("qam:" +:+ dec_u n) = Some (n, reverse_resolve_freq_in_map cm n) /\
  parse_channel_value cm ("auto" +:+ dec_u k +:+ "t:" +:+ dec_u n) = Some (n, reverse_resolve_freq_in_map cm n) /\
  parse_channel_value cm ("auto:" +:+ dec_u n) =
    (if n <? 1000 then
       if resolve_channel_in_map cm n =? 0 then None else Some (resolve_channel_in_map cm n, n)
     else Some (n, reverse_resolve_freq_in_map cm n)) /\
  parse_channel_value cm (m +:+ ":" +:+ dec_u ch) =
    (if resolve_channel_in_map m ch =? 0 then None else Some (resolve_channel_in_map m ch, ch)) /\
  (forall v f r, parse_channel_value cm v = Some (f, r) -> f <> 0).
Proof.
  intros Hn Hk Hch Hm. split; [by apply freq_value_dec|]. split; [by apply freq_value_dec|]. split.
  { unfold parse_channel_value. rewrite auto_t_form_dec by done. by apply freq_value_dec. }
  split; [|split; [|intros v f r; apply parse_channel_nonzero]].
  - change (parse_channel_value cm ("auto:" +:+ dec_u n)) with (auto_value cm (dec_u n)). unfold auto_value.
    rewrite strtoul_dec_u by lia. unfold u32. rewrite Z.mod_small by lia. destruct (n =? 0) eqn:E; zb; [lia|done].
  - unfold map_names in Hm. rewrite !elem_of_cons, elem_of_nil in Hm.
    assert (Hat : atoi (dec_u ch) = ch) by by apply atoi_dec_u.
    destruct Hm as [->|[->|[->|[->|[->|[->|[]]]]]]];
      match goal with |- parse_channel_value _ (?name +:+ _) = _ =>
        change (parse_channel_value cm (name +:+ ":" +:+ dec_u ch)) with
          (if resolve_channel_in_map name (atoi (dec_u ch)) =? 0 then None
           else Some (resolve_channel_in_map name (atoi (dec_u ch)), atoi (dec_u ch))) end; by rewrite Hat.
Qed.

Lemma channel_value_forms_witness :
  parse_channel_value "us-cable" "us-bcast:14" = Some (473000000, 14) /\
  parse_channel_value "us-cable" "auto:14" = Some (123000000, 14).
Proof.
  destruct (channel_value_forms "us-cable" "us-bcast" 14 6 14) as (_ & _ & _ & H4 & H5 & _);
    [lia|lia|lia|by left|]. split; [exact H5|exact H4].
Defined.

(** *** Paths and targets *)

Lemma strrchr_app c a b : str_forall (fun x => negb (bool_decide (x = c))) b = true ->
  strrchr c (a +:+ String c b) = Some (a, b).
Proof.
  intros Hb. assert (Hn : strrchr c b = None).
  { induction b as [|x b IH]; [done|]. simpl in Hb |- *. apply andb_true_iff in Hb as [Hx Hb]. rewrite IH by done.
    destruct (decide (x = c)) as [->|]; [|done]. by rewrite bool_decide_true in Hx. }
  induction a as [|x a IH]; simpl; [rewrite Hn; by destruct (decide (c = c))|by rewrite IH].
Qed.

(** An address and a port, as in "10.0.0.9:5004". *)
Definition addr_port (ip : string) (port : Z) : string := ip +:+ String ":" (dec_u port).

Lemma target_of p ip port len :
  0 < port <= 65535 -> (0 < String.length ip < len)%nat -> p = addr_port ip port ->
  match strrchr ":" p with
  | None => None
  | Some (ip, port_text) =>
      let iplen := String.length ip in
      if (iplen =? 0)%nat || (len <=? iplen)%nat then None
      else let port := atoi port_text in if (port <=? 0) || (65535 <? port) then None else Some (ip, port)
  end = Some (ip, port).
Proof.
  intros Hp Hl ->. unfold addr_port. rewrite strrchr_app.
  - cbv zeta. destruct (String.length ip =? 0)%nat eqn:E1; [apply Nat.eqb_eq in E1; lia|].
    destruct (len <=? String.length ip)%nat eqn:E2; [apply Nat.leb_le in E2; lia|]. cbn [orb].
    rewrite atoi_dec_u by lia. destruct (port <=? 0) eqn:E3; zb; [lia|]. destruct (65535 <? port) eqn:E4; zb; [lia|done].
  - eapply str_forall_impl; [|apply dec_u_digits; lia]. intros c Hc. apply negb_true_iff, bool_decide_eq_false. intros ->. done.
Qed.

Lemma no_scheme ip : str_forall (fun c => isdigit c || bool_decide (c = "."%char)) ip = true ->
  forall port, 0 <= port -> strstr (addr_port ip port) "://" = None.
Proof.
  intros Hip port Hp. unfold addr_port.
  assert (Hd : forall s, str_forall isdigit s = true -> strstr s "://" = None /\ strstr (String ":" s) "://" = None).
  { induction s as [|c s IH]; [done|]. simpl str_forall. intros H. apply andb_true_iff in H as [Hc H].
    destruct (IH H) as [IH1 IH2]. assert (Hn : c <> ":"%char /\ c <> "/"%char) by (split; intros ->; done).
    assert (H1 : strstr (String c s) "://" = None).
    { cbn [strstr String.prefix]. destruct (ascii_dec _ _) as [<-|]; [by destruct (proj1 Hn)|exact IH1]. }
    split; [exact H1|]. change (strstr (String ":" (String c s)) "://") with
      (if String.prefix "://" (String ":" (String c s)) then Some (String ":" (String c s)) else strstr (String c s) "://").
    rewrite H1. cbn [String.prefix]. destruct (ascii_dec _ _); [|done]. destruct (ascii_dec _ _) as [<-|]; [by destruct (proj2 Hn)|done]. }
  induction ip as [|c ip IH]; [apply Hd, dec_u_digits; lia|]. simpl in Hip. apply andb_true_iff in Hip as [Hc Hip].
  change (String c ip +:+ String ":" (dec_u port)) with (String c (ip +:+ String ":" (dec_u port))).
  cbn [strstr String.prefix]. destruct (ascii_dec ":" c) as [<-|]; [done|by apply IH].
Qed.

(** The index of a tuner path is one of the pool. *)
Lemma parse_tuner_path_bound v n i l : parse_tuner_path v n = Some (i, l) -> 0 <= i < n.
Proof.
  unfold parse_tuner_path. destruct (scan_lit _ v) as [r|]; [|done]. destruct (scan_d r) as [[idx r']|]; [|done].
  destruct ((idx <? 0) || _) eqn:E; [done|]. zb. intros Hr.
  assert (i = idx) as -> by (destruct r' as [|c r'']; [done|]; destruct c as [[] [] [] [] [] [] [] []]; try done; by injection Hr).
  lia.
Qed.

(** A tuner path "/tunerN/leaf" with N in the pool yields N and the
    leaf, "ip:port" and "udp://ip:port" yield the address and the port; and
    whatever the text, an accepted path is within the pool, and an accepted
    target has an address that fits the caller's buffer and a port in
    1..65535. *)
Lemma control_paths (max_tuners n port : Z) (leaf ip : string) (len : nat) :
  0 <= n < max_tuners -> n < 2 ^ 31 -> 0 < port <= 65535 -> (0 < String.length ip < len)%nat ->
  str_forall (fun c => isdigit c || bool_decide (c = "."%char)) ip = true ->
  parse_tuner_path ("/tuner" +:+ dec_u n +:+ "/" +:+ leaf) max_tuners = Some (n, leaf) /\
  parse_udp_target (addr_port ip port) len = Some (ip, port) /\
  parse_udp_target ("udp://" +:+ addr_port ip port) len = Some (ip, port) /\
  (forall v i l, parse_tuner_path v max_tuners = Some (i, l) -> 0 <= i < max_tuners) /\
  (forall v a p, parse_udp_target v len = Some (a, p) -> (0 < String.length a < len)%nat /\ 0 < p <= 65535).
Proof.
  intros Hn Hn31 Hp Hl Hip. split; [|split; [|split; [|split]]].
  - unfold parse_tuner_path. change (scan_lit "/tuner" ("/tuner" +:+ dec_u n +:+ "/" +:+ leaf)) with (Some (dec_u n +:+ "/" +:+ leaf)).
    unfold scan_d. rewrite scan_num_dec_u by (done || lia). unfold long_of. rewrite Z.min_l, i32_id by (unfold is_i32; lia).
    destruct (n <? 0) eqn:E1; zb; [lia|]. destruct (max_tuners <=? n) eqn:E2; zb; [lia|done].
  - unfold parse_udp_target. rewrite no_scheme by (done || lia). by apply target_of.
  - unfold parse_udp_target.
    assert (strstr ("udp://" +:+ addr_port ip port) "://" = Some ("://" +:+ addr_port ip port)) as ->
      by (by destruct (addr_port ip port)).
    change (str_drop 3 ("://" +:+ addr_port ip port)) with (str_drop 0 (addr_port ip port)). apply target_of; [done..|].
    by destruct (addr_port ip port).
  - intros v i l. apply parse_tuner_path_bound.
  - intros v a p. unfold parse_udp_target. cbv zeta. destruct (strrchr ":" _) as [[x y]|]; [|done].
    destruct ((String.length x =? 0)%nat || _) eqn:E; [done|]. apply orb_false_iff in E as [E1 E2].
    apply Nat.eqb_neq in E1. apply Nat.leb_gt in E2. destruct ((atoi y <=? 0) || _) eqn:E; [done|]. zb.
    intros [= <- <-]. lia.
Qed.

Lemma control_paths_witness :
  parse_tuner_path "/tuner1/status" 2 = Some (1, "status"%string) /\ parse_udp_target "udp://10.0.0.9:5004" 64 = Some ("10.0.0.9"%string, 5004).
Proof.
  destruct (control_paths 2 1 5004 "status" "10.0.0.9" 64) as (H1 & _ & H3 & _); [lia|lia|lia|simpl; lia|reflexivity|].
  split; [exact H1|exact H3].
Defined.
