(* ===== verification/Calibrate.v ===== *)
(** The signal calibration tool: src/tools/calibrate_stats.c.

    A stand-alone program over the frontend functions of the daemon: it tunes
    every terrestrial channel once and prints the raw readings and their
    extremes.  Output is a query; the double readings are those of [Stats].  The
    theorem: the sweep ends, and the extremes and counts it reports are those of
    the readings it takes, the first channel among equals. *)
From stdpp Require Import gmultiset.
From S2P Require Import Prelude RecordUpd CLib FreqPlan ChannelDb Config Stats Ring Tuner Sys Own Rules Frontend ControlText.

Definition LOCK_TIMEOUT_MS : Z := 1500.
Definition SETTLE_MS : Z := 500.

(** What one channel yields; None: the driver has no such reading. *)
Record reading := { rd_channel : Z; rd_locked : bool; rd_ss_dbm : option dbl; rd_snr_db : option dbl }.

(** A channel and its value: [best_ss_ch] and [best_ss], and so on. *)
Definition extreme : Type := Z * dbl.

Record summary := {
  worst_ss : extreme; best_ss : extreme; worst_snr : extreme; best_snr : extreme;
  worst_unlocked_ss : extreme; best_unlocked_ss : extreme;
  locked_count : Z; unlocked_ss_count : Z
}.
#[export] Instance eta_summary : Eta summary := fun s =>
  {| worst_ss := worst_ss s; best_ss := best_ss s; worst_snr := worst_snr s; best_snr := best_snr s;
     worst_unlocked_ss := worst_unlocked_ss s; best_unlocked_ss := best_unlocked_ss s;
     locked_count := locked_count s; unlocked_ss_count := unlocked_ss_count s |}.

Definition nothing_yet : summary :=
  let lo : extreme := (0, d_of_Z (- 10 ^ 9)) in
  let hi : extreme := (0, d_of_Z (10 ^ 9)) in
  {| worst_ss := hi; best_ss := lo; worst_snr := hi; best_snr := lo; worst_unlocked_ss := hi; best_unlocked_ss := lo;
     locked_count := 0; unlocked_ss_count := 0 |}.

(** [if (x > best) { best = x; best_ch = ch; }], and the same for the worst. *)
Definition raise (ch : Z) (x : dbl) (b : extreme) : extreme := if dlt b.2 x then (ch, x) else b.
Definition sink (ch : Z) (x : dbl) (b : extreme) : extreme := if dlt x b.2 then (ch, x) else b.

(** The bookkeeping of one channel. *)
Definition note (s : summary) (r : reading) : summary :=
  let ch := rd_channel r in
  let s := match rd_ss_dbm r with
           | Some ss =>
               if rd_locked r
               then s <| best_ss ::= raise ch ss |> <| worst_ss ::= sink ch ss |> <| locked_count ::= Z.succ |>
               else s <| best_unlocked_ss ::= raise ch ss |> <| worst_unlocked_ss ::= sink ch ss |>
                      <| unlocked_ss_count ::= Z.succ |>
           | None => if rd_locked r then s <| locked_count ::= Z.succ |> else s
           end in
  match rd_snr_db r with
  | Some snr => s <| best_snr ::= raise ch snr |> <| worst_snr ::= sink ch snr |>
  | None => s
  end.

(** [%2d] and [%-6s] *)
Fixpoint spaces (n : nat) : string := match n with O => EmptyString | S n => String " " (spaces n) end.
Definition pad_left (w : nat) (s : string) : string := spaces (w - String.length s) +:+ s.
Definition pad_right (w : nat) (s : string) : string := s +:+ spaces (w - String.length s).

Definition reading_text (d : option dbl) : string :=
  snprintf 32 (match d with Some d => fmt_fixed 2 d | None => "NA" end).

Definition csv_header : string := "chan,freq_hz,locked,ss_dbm,ss_pct,snr_db,snq_pct" +:+ nl.
Definition csv_line (freq : Z) (r : reading) (stats : dvb_signal_stats) : string :=
  dec (rd_channel r) +:+ "," +:+ dec_u freq +:+ "," +:+ (if rd_locked r then "1" else "0") +:+ "," +:+
  reading_text (rd_ss_dbm r) +:+ "," +:+ dec (signal_strength_pct stats) +:+ "," +:+
  reading_text (rd_snr_db r) +:+ "," +:+ dec (snr_quality_pct stats) +:+ nl.
Definition log_line (freq : Z) (r : reading) (stats : dvb_signal_stats) : string :=
  "chan " +:+ pad_left 2 (dec (rd_channel r)) +:+ " (" +:+ dec_u freq +:+ " Hz): " +:+
  pad_right 6 (if rd_locked r then "locked" else "no lock") +:+ " ss=" +:+ reading_text (rd_ss_dbm r) +:+ " dBm (" +:+
  dec (signal_strength_pct stats) +:+ "%)  snr=" +:+ reading_text (rd_snr_db r) +:+ " dB (" +:+ dec (snr_quality_pct stats) +:+ "%)" +:+ nl.

(** The body of the loop without its bookkeeping; None: the frontend could not
    be opened or tuned, and the channel is left out. *)
Definition measure (fuel : nat) (adapter frontend : Z) (c : Atsc.atsc_channel_freq) : prog (option reading) :=
  let ch := Atsc.channel c in
  let freq := Atsc.frequency_hz c in
  fd <- dvb_frontend_open adapter frontend ;;
  if fd <? 0 then
    env (QStderr ("chan " +:+ dec ch +:+ ": failed to open adapter" +:+ dec adapter +:+ "/frontend" +:+ dec frontend +:+ nl)) ;;
    Ret None
  else
    rc <- dvb_frontend_tune_8vsb fd freq ;;
    if negb (rc =? 0) then dvb_frontend_close fd ;; Ret None
    else
      locked <- dvb_frontend_wait_lock fuel fd LOCK_TIMEOUT_MS None tt ;;
      env (QSleep (SETTLE_MS * 1000)) ;;
      stats <- (if locked.1 then dvb_frontend_read_stats fd else Ret no_stats) ;;
      ss <- dvb_frontend_read_raw_signal_dbm fd ;;
      snr <- (if locked.1 then dvb_frontend_read_raw_snr_db fd else Ret None) ;;
      let r := {| rd_channel := ch; rd_locked := locked.1; rd_ss_dbm := ss; rd_snr_db := snr |} in
      env (QStdout (csv_line freq r stats)) ;;
      env (QStderr (log_line freq r stats)) ;;
      dvb_frontend_close fd ;;
      Ret (Some r).

Fixpoint sweep (fuel : nat) (adapter frontend : Z) (table : list Atsc.atsc_channel_freq) (s : summary) : prog summary :=
  match table with
  | [] => Ret s
  | c :: table =>
      r <- measure fuel adapter frontend c ;;
      sweep fuel adapter frontend table (match r with Some r => note s r | None => s end)
  end.

Definition at_channel (unit_ : string) (e : extreme) : string := "ch" +:+ dec e.1 +:+ " = " +:+ fmt_fixed 2 e.2 +:+ unit_.
Definition summary_text (s : summary) : string :=
  nl +:+ "=== summary: " +:+ dec (locked_count s) +:+ "/" +:+ dec Atsc.ATSC_FREQ_TABLE_COUNT +:+ " channels locked ===" +:+ nl +:+
  (if 0 <? locked_count s then
     "locked ss:     weakest " +:+ at_channel " dBm" (worst_ss s) +:+ "   strongest " +:+ at_channel " dBm" (best_ss s) +:+ nl +:+
     "locked CNR/SNR: worst   " +:+ at_channel " dB" (worst_snr s) +:+ "    best      " +:+ at_channel " dB" (best_snr s) +:+ nl
   else "no channels locked -- check antenna/adapter" +:+ nl) +:+
  (if 0 <? unlocked_ss_count s then
     "unlocked ss (" +:+ dec (unlocked_ss_count s) +:+ " chans with a reading): weakest " +:+ at_channel " dBm" (worst_unlocked_ss s) +:+
     "   strongest " +:+ at_channel " dBm" (best_unlocked_ss s) +:+ nl
   else "no ss reading available on any unlocked channel (driver may not report AGC-derived strength without lock)" +:+ nl).

(** [args] starts with the program's name; the answer is the exit status. *)
Definition main (fuel : nat) (args : list string) : prog Z :=
  match args with
  | _ :: a :: rest =>
      let adapter := atoi a in
      let frontend := match rest with f :: _ => atoi f | [] => 0 end in
      env (QStdout csv_header) ;;
      s <- sweep fuel adapter frontend Atsc.atsc_freq_table nothing_yet ;;
      env (QStderr (summary_text s)) ;;
      Ret 0
  | _ => env (QStderr ("usage: " +:+ default ""%string (head args) +:+ " <dvb-adapter-num> [frontend-num]" +:+ nl)) ;; Ret 1
  end.
(** ** The order of doubles *)

Definition is_num (x : dbl) : bool := match x with S754_nan => false | _ => true end.

(** Sign class, exponent and mantissa: doubles that are numbers are ordered as
    these are, lexicographically. *)
Definition dbl_rank (x : dbl) : Z * Z * Z :=
  match x with
  | S754_infinity s => (if s then -2 else 2, 0, 0)
  | S754_finite true m e => (-1, - e, - Z.pos m)
  | S754_finite false m e => (1, e, Z.pos m)
  | _ => (0, 0, 0)
  end.
Definition rank_lt (a b : Z * Z * Z) : Prop :=
  let '(a1, a2, a3) := a in let '(b1, b2, b3) := b in a1 < b1 \/ (a1 = b1 /\ (a2 < b2 \/ (a2 = b2 /\ a3 < b3))).

Lemma dlt_rank x y : is_num x = true -> is_num y = true -> dlt x y = true <-> rank_lt (dbl_rank x) (dbl_rank y).
Proof.
  intros Hx Hy. unfold dlt, SFltb, rank_lt.
  destruct x as [sx|sx| |sx mx ex]; destruct y as [sy|sy| |sy my ey]; try done; try destruct sx; try destruct sy; cbn [SFcompare dbl_rank];
    try (split; [intros; first [done|lia]|intros; first [done|lia]]).
  - destruct (Z.compare_spec ex ey); [|split; [done|lia]|split; [lia|done]].
    change (Pos.compare_cont Eq mx my) with (Pos.compare mx my). destruct (Pos.compare_spec mx my); cbn [CompOpp]; split; first [done|lia].
  - destruct (Z.compare_spec ex ey); [|split; [lia|done]|split; [done|lia]].
    change (Pos.compare_cont Eq mx my) with (Pos.compare mx my). destruct (Pos.compare_spec mx my); split; first [done|lia].
Qed.

(** Rounding never makes a NaN of a number. *)
Lemma shr_1_nonneg r : 0 <= shr_m r -> 0 <= shr_m (shr_1 r).
Proof. destruct r as [m r s]. destruct m as [|[p|p|]|[p|p|]]; simpl; lia. Qed.
Lemma shr_nonneg r e n : 0 <= shr_m r -> 0 <= shr_m (shr r e n).1.
Proof.
  intros H. unfold shr. destruct n as [|n|]; simpl; [done| |done].
  revert r H. induction n as [n IH|n IH|]; intros r H; simpl; [|by apply IH, IH|by apply shr_1_nonneg].
  by apply IH, IH, shr_1_nonneg.
Qed.
Lemma round_num prec emax sx m e l : 0 <= m -> is_num (binary_round_aux prec emax sx m e l) = true.
Proof.
  intros Hm. unfold binary_round_aux, shr_fexp.
  assert (H1 : 0 <= shr_m (shr_record_of_loc m l)) by (destruct l as [|[]]; done).
  apply (shr_nonneg _ e (fexp prec emax (Zdigits2 m + e) - e)) in H1. destruct (shr _ _ _) as [r e1]. cbn [fst] in H1.
  assert (H2 : 0 <= round_nearest_even (shr_m r) (loc_of_shr_record r))
    by (unfold round_nearest_even; destruct (loc_of_shr_record r) as [|[]]; try destruct (Z.even _); lia).
  set (m2 := round_nearest_even _ _) in *.
  assert (H3 : 0 <= shr_m (shr_record_of_loc m2 loc_Exact)) by done.
  apply (shr_nonneg _ e1 (fexp prec emax (Zdigits2 m2 + e1) - e1)) in H3. destruct (shr _ _ _) as [r' e2]. cbn [fst] in H3.
  destruct (shr_m r'); [done|by destruct (_ <=? _)|lia].
Qed.

Lemma d_of_Z_num z : is_num (d_of_Z z) = true.
Proof.
  unfold d_of_Z, binary_normalize, binary_round. destruct z as [|p|p]; [done|..]; destruct (shl_align _ _ _); by apply round_num.
Qed.

(** A millidecibel reading in decibels. *)
Lemma millidecibel_num z : is_num (ddiv (d_of_Z z) (d_of_Z 1000)) = true.
Proof.
  pose proof (d_of_Z_num z) as Hn. assert (H : exists m e, d_of_Z 1000 = S754_finite false m e) by (do 2 eexists; vm_compute; reflexivity).
  destruct H as (m & e & ->). unfold ddiv, SFdiv. destruct (d_of_Z z) as [s|s| |s mx ex]; try done.
  unfold SFdiv_core_binary. set (m' := match _ with Z0 => _ | _ => _ end).
  assert (0 <= m') by (unfold m'; destruct (_ - _ - _); [lia|apply Z.shiftl_nonneg; lia|lia]).
  pose proof (Z_div_mod m' (Z.pos m) ltac:(lia)) as Hd. destruct (Z.div_eucl m' (Z.pos m)) as [q r]. apply round_num. nia.
Qed.

Definition from_driver (d : option dbl) : Prop := forall x, d = Some x -> is_num x = true.
Lemma raw_decibel_num st : from_driver (raw_decibel st).
Proof.
  intros x H. unfold raw_decibel in H. destruct (0 <? st_len st); [|done]. destruct (st_scale st); simplify_eq. apply millidecibel_num.
Qed.

(** ** Extremes *)

(** One of two strict orders on numbers. *)
Definition above (x y : dbl) : bool := dlt y x.
Definition below (x y : dbl) : bool := dlt x y.
Class StrictOrderOn (better : dbl -> dbl -> bool) : Prop := {
  better_irrefl : forall x, is_num x = true -> better x x = false;
  better_asym : forall x y, is_num x = true -> is_num y = true -> better x y = true -> better y x = false;
  better_cotrans : forall x y z, is_num x = true -> is_num y = true -> is_num z = true ->
    better x z = true -> better x y = true \/ better y z = true
}.

Lemma rank_lt_dec a b : {rank_lt a b} + {~ rank_lt a b}.
Proof.
  destruct a as [[a1 a2] a3], b as [[b1 b2] b3]. unfold rank_lt.
  destruct (Z_lt_dec a1 b1); [left; lia|]. destruct (Z.eq_dec a1 b1); [|right; lia].
  destruct (Z_lt_dec a2 b2); [left; lia|]. destruct (Z.eq_dec a2 b2); [|right; lia].
  destruct (Z_lt_dec a3 b3); [left; lia|right; lia].
Qed.
Lemma not_dlt x y : is_num x = true -> is_num y = true -> dlt x y = false <-> ~ rank_lt (dbl_rank x) (dbl_rank y).
Proof. intros Hx Hy. rewrite <- dlt_rank by done. by destruct (dlt x y). Qed.

#[export] Instance below_order : StrictOrderOn below.
Proof.
  unfold below. split; intros.
  - apply not_dlt; [done..|]. destruct (dbl_rank x) as [[? ?] ?]. simpl. lia.
  - apply not_dlt; [done..|]. apply dlt_rank in H1; [|done..]. destruct (dbl_rank x) as [[? ?] ?], (dbl_rank y) as [[? ?] ?]. simpl in *. lia.
  - rewrite !dlt_rank by done. apply dlt_rank in H2; [|done..].
    destruct (rank_lt_dec (dbl_rank x) (dbl_rank y)) as [?|Hn]; [by left|right].
    destruct (dbl_rank x) as [[? ?] ?], (dbl_rank y) as [[? ?] ?], (dbl_rank z) as [[? ?] ?]. simpl in *. lia.
Qed.
#[export] Instance above_order : StrictOrderOn above.
Proof.
  unfold above. split; intros.
  - by apply (better_irrefl (better := below)).
  - by apply (better_asym (better := below)).
  - destruct (better_cotrans (better := below) z y x) as [?|?]; auto.
Qed.

Definition pick (better : dbl -> dbl -> bool) (b p : extreme) : extreme := if better p.2 b.2 then p else b.

(** [e] is the first of the best of [l], or still [init] when none is better. *)
Definition first_best (better : dbl -> dbl -> bool) (init : extreme) (l : list extreme) (e : extreme) : Prop :=
  (e = init /\ Forall (fun p => better p.2 init.2 = false) l) \/
  (exists l1 l2, l = l1 ++ e :: l2 /\ better e.2 init.2 = true /\
     Forall (fun p => better e.2 p.2 = true) l1 /\ Forall (fun p => better p.2 e.2 = false) l2).

Lemma pick_first_best better `{!StrictOrderOn better} init l :
  is_num init.2 = true -> Forall (fun p => is_num p.2 = true) l -> first_best better init l (foldl (pick better) init l).
Proof.
  intros Hi. induction l as [|p l IH] using rev_ind; intros Hl; [by left|].
  apply Forall_app in Hl as [Hl Hp]. apply Forall_cons in Hp as [Hp _]. specialize (IH Hl). rewrite foldl_app. cbn [foldl].
  set (e := foldl (pick better) init l) in *. clearbody e. unfold pick.
  assert (He : is_num e.2 = true).
  { destruct IH as [[-> _]|(l1 & l2 & Hl' & _)]; [done|]. rewrite Hl' in Hl. apply Forall_app in Hl as [_ Hl]. by apply Forall_cons in Hl as [? _]. }
  destruct (better p.2 e.2) eqn:E.
  - right. exists l, []. split; [done|].
    assert (Hall : Forall (fun x => better p.2 x.2 = true) l /\ better p.2 init.2 = true); [|by destruct Hall].
    destruct IH as [[Hei Hf]|(l1 & l2 & -> & Hb & H1 & H2)].
    + rewrite Hei in E. split; [|done]. rewrite Forall_forall in Hf, Hl |- *. intros x Hx.
      destruct (better_cotrans p.2 x.2 init.2) as [?|Hc]; auto. by rewrite Hf in Hc.
    + apply Forall_app in Hl as [Hl1 Hl2]. apply Forall_cons in Hl2 as [_ Hl2].
      assert (Hw : forall x, is_num x = true -> better x e.2 = false -> better p.2 x = true).
      { intros x Hx Hxe. destruct (better_cotrans p.2 x e.2) as [?|Hc]; auto. by rewrite Hc in Hxe. }
      assert (Hs : forall x, is_num x = true -> better e.2 x = true -> better p.2 x = true).
      { intros x Hx Hxe. apply Hw; [done|]. by apply better_asym. }
      split; [|by apply Hs]. apply Forall_app; split; [|apply Forall_cons; split; [done|]]; rewrite Forall_forall in *; auto.
  - destruct IH as [[Hei Hf]|(l1 & l2 & Hl' & Hb & H1 & H2)].
    + left. split; [done|]. apply Forall_app; split; [done|]. apply Forall_singleton. by rewrite <- Hei.
    + right. exists l1, (l2 ++ [p]). rewrite Hl' at 1. rewrite <- app_assoc. split; [done|]. split; [done|]. split; [done|].
      apply Forall_app; split; [done|]. by apply Forall_singleton.
Qed.

(** ** What the sweep reports *)

(** The readings of one kind, with their channels. *)
Definition ss_of (locked : bool) (rs : list reading) : list extreme :=
  omap (fun r => if eqb (rd_locked r) locked then (rd_channel r,.) <$> rd_ss_dbm r else None) rs.
Definition snr_of (rs : list reading) : list extreme := omap (fun r => (rd_channel r,.) <$> rd_snr_db r) rs.

Record reports (rs : list reading) (s : summary) : Prop := {
  rp_best_ss : first_best above (best_ss nothing_yet) (ss_of true rs) (best_ss s);
  rp_worst_ss : first_best below (worst_ss nothing_yet) (ss_of true rs) (worst_ss s);
  rp_best_snr : first_best above (best_snr nothing_yet) (snr_of rs) (best_snr s);
  rp_worst_snr : first_best below (worst_snr nothing_yet) (snr_of rs) (worst_snr s);
  rp_best_unlocked : first_best above (best_unlocked_ss nothing_yet) (ss_of false rs) (best_unlocked_ss s);
  rp_worst_unlocked : first_best below (worst_unlocked_ss nothing_yet) (ss_of false rs) (worst_unlocked_ss s);
  rp_locked : locked_count s = Z.of_nat (List.length (List.filter rd_locked rs));
  rp_unlocked : unlocked_ss_count s = Z.of_nat (List.length (ss_of false rs))
}.

Lemma note_fields rs : forall s, let s' := foldl note s rs in
  best_ss s' = foldl (pick above) (best_ss s) (ss_of true rs) /\
  worst_ss s' = foldl (pick below) (worst_ss s) (ss_of true rs) /\
  best_snr s' = foldl (pick above) (best_snr s) (snr_of rs) /\
  worst_snr s' = foldl (pick below) (worst_snr s) (snr_of rs) /\
  best_unlocked_ss s' = foldl (pick above) (best_unlocked_ss s) (ss_of false rs) /\
  worst_unlocked_ss s' = foldl (pick below) (worst_unlocked_ss s) (ss_of false rs) /\
  locked_count s' = locked_count s + Z.of_nat (List.length (List.filter rd_locked rs)) /\
  unlocked_ss_count s' = unlocked_ss_count s + Z.of_nat (List.length (ss_of false rs)).
Proof.
  induction rs as [|r rs IH]; intros s; cbv zeta; [simpl; rewrite !Z.add_0_r; auto 10|].
  cbn [foldl]. specialize (IH (note s r)). cbv zeta in IH. destruct IH as (-> & -> & -> & -> & -> & -> & -> & ->).
  destruct r as [ch [] [ss|] [snr|]]; repeat apply conj; first [reflexivity | cbn; fold (ss_of false rs); lia].
Qed.

Lemma from_driver_values rs :
  Forall (fun r => from_driver (rd_ss_dbm r) /\ from_driver (rd_snr_db r)) rs ->
  (forall b, Forall (fun p : extreme => is_num p.2 = true) (ss_of b rs)) /\ Forall (fun p : extreme => is_num p.2 = true) (snr_of rs).
Proof.
  intros H. split; [intros b|]; induction H as [|r rs [H1 H2] _ IH]; cbn; try done.
  - destruct (eqb _ _); [|done]. destruct (rd_ss_dbm r) eqn:E; [|done]. apply Forall_cons. split; [by apply H1|done].
  - destruct (rd_snr_db r) eqn:E; [|done]. apply Forall_cons. split; [by apply H2|done].
Qed.

Lemma note_reports rs : Forall (fun r => from_driver (rd_ss_dbm r) /\ from_driver (rd_snr_db r)) rs ->
  reports rs (foldl note nothing_yet rs).
Proof.
  intros H. apply from_driver_values in H as [Hss Hsnr]. destruct (note_fields rs nothing_yet) as (H1 & H2 & H3 & H4 & H5 & H6 & H7 & H8).
  split; [rewrite H1|rewrite H2|rewrite H3|rewrite H4|rewrite H5|rewrite H6|exact H7|exact H8];
    (apply pick_first_best; [exact _|apply d_of_Z_num|auto]).
Qed.

(** The readings alone, channel by channel. *)
Fixpoint measure_all (fuel : nat) (adapter frontend : Z) (table : list Atsc.atsc_channel_freq) : prog (list reading) :=
  match table with
  | [] => Ret []
  | c :: table =>
      r <- measure fuel adapter frontend c ;;
      rs <- measure_all fuel adapter frontend table ;;
      Ret (match r with Some r => r :: rs | None => rs end)
  end.

Section Ends.
Context {S : Type} (h : handler S) (ns : S -> Z) (Hclk : clocked h ns).

(** The program ends from every state of the environment, with a good answer. *)
Definition finishes {X} (p : prog X) (P : X -> Prop) : Prop := forall s, exists x s', run_env h p s = Some (x, s') /\ P x.

Lemma finishes_ret {X} (x : X) (P : X -> Prop) : P x -> finishes (Ret x) P.
Proof. intros H s. by exists x, s. Qed.
Lemma finishes_bind {X Y} (p : prog X) (f : X -> prog Y) (P : X -> Prop) (Q : Y -> Prop) :
  finishes p P -> (forall x, P x -> finishes (f x) Q) -> finishes (bind p f) Q.
Proof.
  intros Hp Hf s. destruct (Hp s) as (x & s1 & Hr & Hx). destruct (Hf x Hx s1) as (y & s2 & Hr2 & Hy).
  exists y, s2. rewrite run_env_bind, Hr. done.
Qed.
Lemma finishes_then {X Y} (p : prog X) (f : X -> prog Y) (Q : Y -> Prop) :
  finishes p (fun _ => True) -> (forall x, finishes (f x) Q) -> finishes (bind p f) Q.
Proof. intros Hp Hf. by apply finishes_bind with (P := fun _ => True). Qed.
Lemma finishes_env q (P : answer q -> Prop) : (forall a, P a) -> finishes (env q) P.
Proof. intros H s. simpl. destruct (h q s) as [a s']. by exists a, s'. Qed.
Ltac finishes_io := unfold dvb_frontend_open, ioctl; match goal with |- finishes (env ?q) _ => by apply (finishes_env q) end.
Lemma finishes_read_raw fd cmd : finishes (read_raw_decibel fd cmd) from_driver.
Proof.
  apply finishes_then; [finishes_io|]. intros st. apply finishes_ret.
  destruct (st : option dtv_stat) as [st'|]; [apply raw_decibel_num|by intros x Hx].
Qed.
Lemma finishes_close fd : finishes (dvb_frontend_close fd) (fun _ => True).
Proof. unfold dvb_frontend_close. destruct (0 <=? fd); [finishes_io|by apply finishes_ret]. Qed.
Lemma finishes_wait_lock {C} fuel fd timeout (ctx : C) :
  0 <= timeout -> timeout < 50 * Z.of_nat fuel -> finishes (dvb_frontend_wait_lock fuel fd timeout None ctx) (fun _ => True).
Proof using All.
  intros H0 Hf s. unfold dvb_frontend_wait_lock. rewrite run_env_bind. cbn [env run_env].
  pose proof (ck_now _ _ Hclk s) as Hn. pose proof (ck_mono _ _ Hclk QNow s) as Hm. destruct (h QNow s) as [start s1].
  cbv zeta in Hn. cbn [fst snd] in *. destruct Hn as [Hn Hr].
  destruct (wait_lock_loop_ends h ns Hclk fd timeout None ltac:(done) fuel start PROGRESS_CB_INTERVAL_MS ctx s1 (ns s)) as (b & ctx' & s' & -> & _);
    [done|done|lia|lia|]. by exists (b, ctx'), s'.
Qed.

Context (fuel : nat) (Hfuel : 1500 < 50 * Z.of_nat fuel) (adapter frontend : Z).

Definition reading_ok (c : Atsc.atsc_channel_freq) (r : option reading) : Prop :=
  forall r', r = Some r' -> rd_channel r' = Atsc.channel c /\ from_driver (rd_ss_dbm r') /\ from_driver (rd_snr_db r').

Lemma finishes_measure c : finishes (measure fuel adapter frontend c) (reading_ok c).
Proof using All.
  unfold measure. cbv zeta. apply finishes_then; [finishes_io|]. intros fd.
  destruct (fd <? 0). { apply finishes_then; [finishes_io|]. intros _. by apply finishes_ret. }
  apply finishes_then.
  { unfold dvb_frontend_tune_8vsb. apply finishes_then; [finishes_io|]. intros ok. by apply finishes_ret. }
  intros rc. destruct (negb (rc =? 0)).
  { apply finishes_then; [apply finishes_close|]. intros _. by apply finishes_ret. }
  apply finishes_then; [by apply finishes_wait_lock|]. intros locked.
  apply finishes_then; [finishes_io|]. intros _.
  apply finishes_then.
  { destruct locked.1; [|by apply finishes_ret]. unfold dvb_frontend_read_stats.
    do 2 (apply finishes_then; [finishes_io|]; intros ?). by apply finishes_ret. }
  intros stats. apply finishes_bind with (P := from_driver); [apply finishes_read_raw|]. intros ss Hss.
  apply finishes_bind with (P := from_driver); [destruct locked.1; [apply finishes_read_raw|by apply finishes_ret]|]. intros snr Hsnr.
  do 2 (apply finishes_then; [finishes_io|]; intros _).
  apply finishes_then; [apply finishes_close|]. intros _. apply finishes_ret. intros r' Hr. by injection Hr as <-.
Qed.

(** The sweep is its measurements, noted in order. *)
Lemma sweep_measures table : forall sum s, exists rs s',
  run_env h (measure_all fuel adapter frontend table) s = Some (rs, s') /\
  run_env h (sweep fuel adapter frontend table sum) s = Some (foldl note sum rs, s') /\
  sublist (rd_channel <$> rs) (Atsc.channel <$> table) /\
  Forall (fun r => from_driver (rd_ss_dbm r) /\ from_driver (rd_snr_db r)) rs.
Proof using All.
  induction table as [|c table IH]; intros sum s; [exists [], s; repeat split; constructor|].
  cbn [measure_all sweep]. destruct (finishes_measure c s) as (r & s1 & Hm & Hr). rewrite !run_env_bind, Hm.
  destruct (IH (match r with Some r => note sum r | None => sum end) s1) as (rs & s2 & Hm2 & Hs2 & Hsub & Hall).
  rewrite run_env_bind, Hm2, Hs2. cbn [run_env]. destruct r as [r|]; eexists _, s2; (split; [done|]); (split; [done|]).
  - destruct (Hr r eq_refl) as (Hc & Hd). rewrite fmap_cons, Hc. split; [by constructor|by constructor].
  - split; [by constructor|done].
Qed.
End Ends.

(** Claim C32: the calibration tool ends on every driver, given a clock that
    sleeping advances and a second and a half of 50 ms polls as fuel.  The summary
    it prints before it exits with 0 counts the locked channels and reports, for
    signal strength on locked and on unlocked channels and for the
    signal-to-noise ratio, the first channel with the highest and the first with
    the lowest reading among those it measured (or the initial value, when no
    reading passes it). *)
Theorem calibration_reports {S} (h : handler S) (ns : S -> Z) (fuel : nat) (name adapter : string) (rest : list string) (s : S) :
  clocked h ns -> 1500 < 50 * Z.of_nat fuel ->
  let frontend := match rest with f :: _ => atoi f | [] => 0 end in
  exists rs sum s',
    run_env h (measure_all fuel (atoi adapter) frontend Atsc.atsc_freq_table) (h (QStdout csv_header) s).2 = Some (rs, s') /\
    run_env h (main fuel (name :: adapter :: rest)) s = Some (0, (h (QStderr (summary_text sum)) s').2) /\
    sublist (rd_channel <$> rs) (Atsc.channel <$> Atsc.atsc_freq_table) /\ reports rs sum.
Proof.
  intros Hclk Hf. cbv zeta. unfold main. rewrite run_env_bind. cbn [env run_env]. destruct (h (QStdout csv_header) s) as [u s1]. cbn [snd].
  set (f := match rest with f :: _ => atoi f | [] => 0 end).
  destruct (sweep_measures h ns Hclk fuel Hf (atoi adapter) f Atsc.atsc_freq_table nothing_yet s1) as (rs & s2 & Hm & Hs & Hsub & Hd).
  exists rs, (foldl note nothing_yet rs), s2. split; [done|]. rewrite run_env_bind, Hs, run_env_bind. cbn [env run_env].
  destruct (h (QStderr _) s2) as [[] s3]. split; [done|]. split; [done|]. by apply note_reports.
Qed.

(** A driver that locks on two channels and reads a tenth of the frequency's
    kilohertz, negated, as millidecibels on every channel from 7 up.  The state
    is the time in nanoseconds and the tuned frequency. *)
Definition aerial : handler (Z * Z) := fun q =>
  match q return Z * Z -> answer q * (Z * Z) with
  | QSleep us => fun s => (tt, (s.1 + Z.max 0 (us * 1000), s.2))
  | QNow => fun s => ({| tv_sec := s.1 / 10 ^ 9; tv_nsec := s.1 mod 10 ^ 9 |}, s)
  | QIoctl _ r => fun s =>
      match r return fd_answer r * (Z * Z) with
      | FE_SET_PROPERTY props => (true, (s.1, default 0 (snd <$> List.find (fun p => p.1 =? DTV_FREQUENCY) props)))
      | FE_READ_STATUS => (Some (if (s.2 =? 183000000) || (s.2 =? 479000000) then FE_HAS_LOCK else 0), s)
      | FE_GET_STAT _ => (if s.2 <? 177000000 then None
                          else Some {| st_len := 1; st_scale := FE_SCALE_DECIBEL; st_uvalue := 2 ^ 64 - s.2 / 10000 |}, s)
      | r => (idle_fd_answer r, s)
      end
  | q => fun s => (idle_answer q, s)
  end.

Lemma calibration_reports_witness :
  exists rs sum s', run_env aerial (main 31 ["calibrate_stats"; "0"]%string) (0, 0) = Some (0, s') /\
    rd_channel <$> List.filter rd_locked rs = [8; 15] /\ List.length (ss_of false rs) = 28%nat /\ reports rs sum.
Proof.
  assert (Hclk : clocked aerial fst).
  { split.
    - intros q [t f]. destruct q; try (simpl; lia). match goal with r : fdreq |- _ => destruct r; simpl; lia end.
    - intros us [t f]. simpl. lia.
    - intros [t f]. simpl. pose proof (Z.mod_pos_bound t (10 ^ 9)). pose proof (Z.div_mod t (10 ^ 9)). lia. }
  destruct (calibration_reports aerial fst 31 "calibrate_stats" "0" [] (0, 0) Hclk) as (rs & sum & s' & Hm & Hr & _ & Hrep); [lia|].
  assert (Hv : (fun x => (rd_channel <$> List.filter rd_locked x.1, List.length (ss_of false x.1))) <$>
    run_env aerial (measure_all 31 (atoi "0") 0 Atsc.atsc_freq_table) (aerial (QStdout csv_header) (0, 0)).2 = Some ([8; 15], 28%nat))
    by (vm_compute; reflexivity).
  rewrite Hm in Hv. cbn [fmap option_fmap option_map fst] in Hv. injection Hv as H1 H2.
  exists rs, sum. eexists. split; [exact Hr|]. split; [exact H1|]. split; [exact H2|exact Hrep].
Defined.

(** A channel that locks on a driver without decibel readings: the summary prints
    the initial values as if they were readings of a channel 0. *)
Lemma unread_extremes_printed :
  strstr (summary_text (note nothing_yet {| rd_channel := 7; rd_locked := true; rd_ss_dbm := None; rd_snr_db := None |}))
    "weakest ch0 = 1000000000.00 dBm" <> None.
Proof. vm_compute. discriminate. Qed.

(** ** Every descriptor is closed again *)

Section Specs.
Context (cfg : hdhr_config).
Local Notation wp := (wp cfg).

Lemma wp_measure fuel a f c R (Q : option reading -> toks -> Prop) : (forall r, Q r R) -> wp (measure fuel a f c) R Q.
Proof.
  intros HQ. unfold measure. cbv zeta. wp_step. apply wp_frontend_open; intros fd E; (destruct (fd <? 0) eqn:E'; zb; try lia).
  { wp_step. wp_step. apply wp_ret, HQ. }
  assert (Hc : forall K : unit -> toks -> Prop, K tt R -> wp (dvb_frontend_close fd) (R ⊎ {[+ TFd fd (DevFrontend a f) +]}) K)
    by (intros K HK; apply (wp_frontend_close cfg fd (DevFrontend a f) _ R); [by rewrite fd_toks_nonneg|done]).
  wp_step. apply wp_tune_8vsb; [wp_use|]. intros rc. destruct (negb (rc =? 0)); [wp_step; apply Hc; apply wp_ret, HQ|].
  wp_step. apply wp_wait_lock; [wp_use|done|]. intros locked. wp_step. wp_step.
  wp_step. apply wp_keep; [destruct locked.1; [apply wp_read_stats; [wp_use|done]|done]|]. intros stats.
  wp_step. apply wp_read_raw_decibel; [wp_use|]. intros ss.
  wp_step. apply wp_keep; [destruct locked.1; [apply wp_read_raw_decibel; [wp_use|done]|done]|]. intros snr.
  do 4 wp_step. wp_step. apply Hc. apply wp_ret, HQ.
Qed.

Lemma wp_calibrate fuel args R (Q : Z -> toks -> Prop) : (forall rc, Q rc R) -> wp (main fuel args) R Q.
Proof.
  intros HQ. unfold main. destruct args as [|name [|a rest]]; [wp_step; wp_step; apply wp_ret, HQ..|]. wp_step. wp_step. wp_step.
  assert (Hs : forall table s (K : summary -> toks -> Prop), (forall s, K s R) ->
    wp (sweep fuel (atoi a) (match rest with f :: _ => atoi f | [] => 0 end) table s) R K).
  { induction table as [|c table IH]; intros s K HK; [apply wp_ret, HK|]. cbn [sweep]. wp_step. apply wp_measure. intros r. by apply IH. }
  apply Hs. intros s. wp_step. wp_step. apply wp_ret, HQ.
Qed.
End Specs.
