(* ===== verification/Control.v ===== *)
(** The control protocol: src/src/control.c.

    Replies, the handlers of reads and writes of every parameter, the channel
    scan worker with its queue, the connection loop and the accepting thread, as
    programs.  The texts are in [ControlText]. *)
From stdpp Require Import gmultiset.
From S2P Require Import Prelude RecordUpd Pkt CLib FreqPlan PidFilter Psip ChannelDb Config Stats Ring Tuner Sys Life Own.
From S2P Require Import Rules Frontend Exec Stream TunerOps Scan Push ControlText.
Import Pkt.

(** ** Replies *)

(** Two string TLVs, sealed as a reply. *)
Definition reply_frame (name : string) (tag : Z) (text : string) : list Z :=
  let p := hdhr_pkt_write_tlv_str hdhr_pkt_start_frame HDHR_TAG_GETSET_NAME (str_bytes name) in
  let p := hdhr_pkt_write_tlv_str p tag (str_bytes text) in
  match hdhr_pkt_seal_frame p HDHR_TYPE_GETSET_RPY with
  | Some (len, p) => take len (buffer p)
  | None => []
  end.

Definition send_error_reply (fd : Z) (name msg : string) : prog unit :=
  env (QSend fd (reply_frame name HDHR_TAG_ERROR_MESSAGE msg)) ;; Ret tt.
Definition send_value_reply (fd : Z) (name value : string) : prog unit :=
  env (QSend fd (reply_frame name HDHR_TAG_GETSET_VALUE value)) ;; Ret tt.

Definition unknown_error : string := "ERROR: parameter is read-only or unknown".

(** ** /sys *)

Definition HDHR_EMULATOR_COPYRIGHT : string :=
  "hdhr-emu — independent, clean-room HDHomeRun-protocol-compatible " +:+
  "emulator (github.com/majortom9/hdhr-emu). Not Silicondust software; " +:+
  "not affiliated with or endorsed by SiliconDust USA Inc.".

Definition features_text : string :=
  "channelmap: us-bcast us-cable us-hrc us-irc kr-bcast kr-cable" +:+ nl +:+
  "modulation: 8vsb qam256 qam64" +:+ nl +:+
  "auto-modulation: auto auto6t auto6c qam" +:+ nl.

(** [g_8vsb_override] is read and written without a lock. *)
Definition get_8vsb_override : prog string := sect (fun _ w => Some (w_8vsb_override w, w, None)).
Definition set_8vsb_override (v : string) : prog unit := sect (fun _ w => Some (tt, w <| w_8vsb_override := v |>, None)).

(** [g_start_time]: when the control thread started. *)
Definition get_start_time : prog Z := sect (fun _ w => Some (w_start_time w, w, None)).
Definition set_start_time (now : Z) : prog unit := sect (fun _ w => Some (tt, w <| w_start_time := now |>, None)).

Definition handle_sys_get (cfg : hdhr_config) (fd : Z) (name leaf : string) : prog unit :=
  if str_eq leaf "copyright" then send_value_reply fd name HDHR_EMULATOR_COPYRIGHT
  else if str_eq leaf "model" then send_value_reply fd name (firmware_name cfg)
  else if str_eq leaf "hwmodel" then send_value_reply fd name (model cfg)
  else if str_eq leaf "8vsb_override" then v <- get_8vsb_override ;; send_value_reply fd name v
  else if str_eq leaf "debug" then
    pid <- env QPid ;;
    now <- env QTime ;;
    g_start_time <- get_start_time ;;
    send_value_reply fd name (snprintf 128 ("pid=" +:+ dec pid +:+ " uptime=" +:+ dec (now - g_start_time) +:+ "s"))
  else if str_eq leaf "version" then send_value_reply fd name (firmware_version cfg)
  else if str_eq leaf "features" then send_value_reply fd name features_text
  else send_error_reply fd name unknown_error.

(** [exit] ends the process: nothing follows it. *)
Definition handle_sys_set (cfg : hdhr_config) (fd : Z) (name leaf value : string) : prog unit :=
  if str_eq leaf "8vsb_override" then
    set_8vsb_override (snprintf 32 value) ;;
    v <- get_8vsb_override ;;
    send_value_reply fd name v
  else if str_eq leaf "restart" then
    if negb (allow_remote_restart cfg) then
      send_error_reply fd name "ERROR: remote restart disabled (see allow_remote_restart in config)"
    else send_value_reply fd name value ;; env QExit ;; Spin
  else send_error_reply fd name unknown_error.

(** ** Reading tuner parameters *)

(** The section of [handle_tuner_get]: the tuner's lock is held while the
    channel table and the stream are consulted. *)
Definition tuner_get_section (i : nat) (leaf : string) : prog (option string) :=
  sect (fun e w =>
    match w_tuners w !! i with
    | None => None
    | Some t =>
        match active_stream t with
        | None => Some ((tuner_value (e_now e) (w_db w) None t leaf).1, w, None)
        | Some s =>
            match w_streams w !! s with
            | None => None
            | Some st =>
                let '(v, st') := tuner_value (e_now e) (w_db w) (Some st) t leaf in
                Some (v, w <| w_streams ::= <[s := default st st']> |>, None)
            end
        end
    end).

Definition handle_tuner_get (fd : Z) (i : nat) (name leaf : string) : prog unit :=
  v <- tuner_get_section i leaf ;;
  match v with
  | Some v => send_value_reply fd name v
  | None => send_error_reply fd name "ERROR: parameter is write-only or unknown"
  end.

(** ** The channel scan worker *)

Definition CHANNEL_SET_WAIT_MS : Z := 2300.
Definition PENDING_WAIT_MS : Z := 6000.

Definition finalize_section (freq : Z) (locked : bool) (d generation : Z) (t : hdhr_tuner) : unit * hdhr_tuner :=
  (tt, if scan_generation t =? generation then
         t <| status := snprintf 160 ("ch=" +:+ snprintf 32 (channel_text d freq) +:+ " lock=" +:+
                          (if locked then (if is_qam d then "qam" else "8vsb") else "none")) |>
       else t).
Definition finalize_lock_result (i : nat) (freq : Z) (locked : bool) (d generation : Z) : prog unit :=
  tun i (finalize_section freq locked d generation).

(** The progress callback; its context is the window of the quality estimate. *)
Definition publish_scan_stats (i : nat) (freq : Z) (seq : dvb_legacy_seq_state) (fd : Z) : prog dvb_legacy_seq_state :=
  stats <- dvb_frontend_read_stats fd ;;
  r <- (if symbol_quality_pct stats <? 0 then
          l <- dvb_frontend_legacy_seq_pct fd seq (has_lock stats) ;;
          Ret (with_legacy stats l.1, l.2)
        else Ret (stats, seq)) ;;
  tun_set i (fun t => t <| scan_stats := r.1 |> <| scan_stats_valid := true |> <| scan_stats_freq := freq |>) ;;
  Ret r.2.

Definition attempt_section (freq : Z) (locked : bool) (generation : Z) (t : hdhr_tuner) : hdhr_tuner :=
  t <| last_attempt_freq := freq |> <| last_attempt_locked := locked |> <| last_attempt_generation := generation |>.

(** Waiting for the next request: its loop test, and what follows it in the same
    section; [timed_out] is the answer of [pthread_cond_timedwait]. *)
Inductive pending_result := PendingWait | PendingDone (next : option (Z * Z)).
Definition pending_section (timed_out : bool) (t : hdhr_tuner) : pending_result * hdhr_tuner :=
  if (pending_count t =? 0)%nat && (claim_waiters t =? 0) && negb timed_out then (PendingWait, t)
  else let '(r, t) := pending_pop t in (PendingDone r, t).

Fixpoint next_pending (fuel : nat) (i : nat) (timed_out : bool) : prog (option (Z * Z)) :=
  match fuel with
  | O => Spin
  | S fuel =>
      r <- tun i (pending_section timed_out) ;;
      match r with
      | PendingDone next => Ret next
      | PendingWait =>
          timed_out <- env (QCondWait (Pending i) (Some PENDING_WAIT_MS)) ;;
          next_pending fuel i timed_out
      end
  end.

(** One attempt: tune, publish the result, read the tables when locked. *)
Definition scan_attempt (fuel : nat) (cfg : hdhr_config) (ctx : channel_scan_ctx) (a ffd pat_fd vct_fd freq rf : Z) : prog unit :=
  let i := sc_tuner ctx in
  r <- (if 0 <=? ffd
        then dvb_scan_tune_and_lock fuel ffd freq (sc_delivery ctx) (Some (publish_scan_stats i freq)) legacy0
        else Ret (false, legacy0)) ;;
  tun_set i (attempt_section freq r.1 (sc_generation ctx)) ;;
  finalize_lock_result i freq r.1 (sc_delivery ctx) (sc_generation ctx) ;;
  when r.1 (
    seq <- publish_scan_stats i freq r.2 ffd ;;
    env (QSleep (600 * 1000)) ;;
    publish_scan_stats i freq seq ffd ;;
    when ((0 <=? pat_fd) && (0 <=? vct_fd))
      (dvb_scan_read_psip fuel a (dvb_demux cfg) pat_fd vct_fd rf freq (sc_delivery ctx) ;; Ret tt)).

Fixpoint scan_loop (fuel : nat) (cfg : hdhr_config) (ctx : channel_scan_ctx) (a ffd pat_fd vct_fd freq rf : Z) : prog unit :=
  match fuel with
  | O => Spin
  | S fuel' =>
      scan_attempt fuel cfg ctx a ffd pat_fd vct_fd freq rf ;;
      next <- next_pending fuel (sc_tuner ctx) false ;;
      match next with
      | Some (freq, rf) => scan_loop fuel' cfg ctx a ffd pat_fd vct_fd freq rf
      | None => Ret tt
      end
  end.

(** [dvb_channel_db_save] under the table's lock. *)
Definition save_channels (path : string) : prog unit :=
  sect (fun e w => Some (tt, w <| w_files := (dvb_channel_db_save (fun _ => e_open_ok e) (w_files w) (Some path) (w_db w)).2 |>, None)).

Definition channel_scan_thread_main (fuel : nat) (cfg : hdhr_config) (ctx : channel_scan_ctx) : prog unit :=
  let i := sc_tuner ctx in
  tuner_resolve_stale_held_fd i (sc_stale_held_fd ctx) ;;
  a <- tun_get i adapter ;;
  ffd <- dvb_frontend_open a (dvb_frontend cfg) ;;
  pat_fd <- (if 0 <=? ffd then mpeg_section_filter_open a (dvb_demux cfg) 0 0 2000 else Ret (-1)) ;;
  vct_fd <- (if 0 <=? ffd
             then mpeg_section_filter_open a (dvb_demux cfg) PSIP_BASE_PID (if is_qam (sc_delivery ctx) then 0xC9 else 0xC8) 2000
             else Ret (-1)) ;;
  scan_loop fuel cfg ctx a ffd pat_fd vct_fd (sc_freq ctx) (sc_rf_channel ctx) ;;
  mpeg_section_filter_close pat_fd ;;
  mpeg_section_filter_close vct_fd ;;
  save_channels (channel_cache_file cfg) ;;
  still_current <- tun_get i (fun t => scan_generation t =? sc_generation ctx) ;;
  (if still_current && (0 <=? ffd) then tuner_open_hold_from_fd i ffd
   else if 0 <=? ffd then dvb_frontend_close ffd else Ret tt) ;;
  tun_set i (fun t => t <| scan_worker_active := false |>) ;;
  tuner_release i.

(** ** Writing tuner parameters *)

(** The reset shared by "channelmap" and "channel none". *)
Definition deselect (t : hdhr_tuner) : hdhr_tuner :=
  t <| channel := snprintf 64 "none" |> <| tuned_frequency_hz := 0 |> <| vch_resolved := false |>
    <| filter_override := "" |> <| scan_generation ::= inc32 |> <| status := snprintf 160 IDLE_STATUS |>.

Definition set_channelmap (fd : Z) (i : nat) (name value : string) : prog unit :=
  match str_eq value "us-bcast", ChannelMap.channel_map_find value with
  | false, None => send_error_reply fd name "ERROR: unknown channel map"
  | _, _ =>
      udp_push_stop i ;;
      tuner_close_hold i ;;
      tun_set i (fun t => deselect (t <| channelmap := snprintf 16 value |>)) ;;
      send_value_reply fd name value
  end.

Definition set_channel_none (fd : Z) (i : nat) (name : string) : prog unit :=
  udp_push_stop i ;;
  tuner_close_hold i ;;
  tun_set i deselect ;;
  send_value_reply fd name "none".

(** [sscanf(value, "%d.%d")] of at least one number. *)
Definition scan_vchannel (value : string) : option (Z * Z) :=
  match scan_d value with
  | None => None
  | Some (ma, r) => Some (ma, match scan_lit "." r with
                              | Some r => match scan_d r with Some (mi, _) => mi | None => 0 end
                              | None => 0
                              end)
  end.

Definition set_vchannel (fd : Z) (i : nat) (name value : string) : prog unit :=
  match scan_vchannel value with
  | None => send_error_reply fd name "ERROR: invalid channel format, expected major.minor"
  | Some (ma, mi) =>
      p <- db_get (find_ptr ma mi) ;;
      match p with
      | None => send_error_reply fd name
          ("ERROR: channel not found in scanned lineup " +:+ "(has a scan completed? see startup log)")
      | Some p =>
          udp_push_stop i ;;
          tuner_bind_channel i (TableChannel p) DVB_PROGRAM_DEFAULT ;;
          tun_set i (fun t => t <| status := snprintf 160 ("ch=" +:+ channel t +:+ " lock=none") |>
                                <| filter_override := "" |>) ;;
          ch <- db_get (deref p) ;;
          tuner_open_hold i (frequency_hz ch) (delivery ch) ;;
          send_value_reply fd name (snprintf 32 (dec ma +:+ "." +:+ dec mi))
      end
  end.

(** The selection a channel request makes, whether started or queued. *)
Definition select_freq (freq d : Z) (t : hdhr_tuner) : hdhr_tuner :=
  t <| tuned_frequency_hz := freq |> <| vch_resolved := false |> <| filter_override := "" |>
    <| channel := snprintf 64 (channel_text d freq) |>.

(** A busy tuner: the request is queued behind an active worker, or refused. *)
Inductive busy_answer := Queued (generation : Z) | RefusedStreaming | RefusedScanning.
Definition enqueue_section (freq rf d : Z) (t : hdhr_tuner) : busy_answer * hdhr_tuner :=
  match active_stream t with
  | Some _ => (RefusedStreaming, t)
  | None =>
      if scan_worker_active t then
        let t := select_freq freq d (pending_push freq rf t) in
        let t := t <| status := snprintf 160 ("ch=" +:+ channel t +:+ " lock=none ss=45 snq=0 seq=0 bps=0 pps=0") |> in
        (Queued (scan_generation t), t)
      else (RefusedScanning, t)
  end.

(** A free tuner: the selection, the worker flag, a new generation. *)
Definition begin_scan_section (freq d : Z) (t : hdhr_tuner) : Z * hdhr_tuner :=
  let t := select_freq freq d t in
  let t := t <| status := snprintf 160 ("ch=" +:+ channel t +:+ " lock=none ss=45 snq=0 seq=0") |>
             <| scan_worker_active := true |> <| scan_generation ::= inc32 |> in
  (scan_generation t, t).

(** Waits until the worker reports this request, or the deadline. *)
Fixpoint wait_attempt (fuel : nat) (i : nat) (generation freq : Z) : prog unit :=
  match fuel with
  | O => Spin
  | S fuel =>
      met <- tun_get i (fun t => (last_attempt_generation t =? generation) && (last_attempt_freq t =? freq)) ;;
      if met then Ret tt
      else
        timed_out <- env (QCondWait (Result i) (Some CHANNEL_SET_WAIT_MS)) ;;
        if timed_out : bool then Ret tt else wait_attempt fuel i generation freq
  end.

(** The reply is the channel text at the time it is sent. *)
Definition reply_channel (fd : Z) (i : nat) (name : string) : prog unit :=
  c <- tun_get i channel ;; send_value_reply fd name c.

Definition start_scan (fuel : nat) (fd : Z) (i : nat) (name : string) (freq rf d stale_held_fd : Z) : prog unit :=
  generation <- tun i (begin_scan_section freq d) ;;
  ok <- spawn_detached (T_scan {| sc_tuner := i; sc_rf_channel := rf; sc_freq := freq; sc_delivery := d;
                                  sc_stale_held_fd := stale_held_fd; sc_generation := generation |}) ;;
  if ok then
    wait_attempt fuel i generation freq ;;
    reply_channel fd i name
  else
    tuner_resolve_stale_held_fd i stale_held_fd ;;
    tun_set i (fun t => t <| scan_worker_active := false |>) ;;
    tuner_release i ;;
    reply_channel fd i name.

Definition set_channel (fuel : nat) (fd : Z) (i : nat) (name value : string) : prog unit :=
  if str_eq value "none" then set_channel_none fd i name
  else
    cm <- tun_get i (fun t => snprintf 16 (channelmap t)) ;;
    let d := delivery_for_map cm in
    match parse_channel_value cm value with
    | None => send_error_reply fd name
        ("ERROR: expected " +:+ dquote +:+ "none" +:+ dquote +:+ ", " +:+ dquote +:+ "auto:<freq_hz>" +:+ dquote +:+ ", " +:+
         "or " +:+ dquote +:+ "<channelmap>:<N>" +:+ dquote)
    | Some (freq, rf) =>
        claim <- tuner_try_claim_fast i ;;
        match claim with
        | Some stale_held_fd => start_scan fuel fd i name freq rf d stale_held_fd
        | None =>
            r <- tun i (enqueue_section freq rf d) ;;
            match r with
            | Queued generation => wait_attempt fuel i generation freq ;; reply_channel fd i name
            | RefusedStreaming => send_error_reply fd name "ERROR: tuner busy (currently streaming)"
            | RefusedScanning => send_error_reply fd name "ERROR: tuner busy (scan in progress)"
            end
        end
    end.

Definition set_program (fd : Z) (i : nat) (name value : string) : prog unit :=
  tun_set i (fun t => t <| program := atoi value |> <| filter_override := "" |>) ;;
  send_value_reply fd name value.

Definition set_filter (fd : Z) (i : nat) (name value : string) : prog unit :=
  if str_eq value "none" || str_eq value "" then
    tun_set i (fun t => t <| filter_override := "" |>) ;; send_value_reply fd name "none"
  else match pid_filter_parse (Some value) with
  | None => send_error_reply fd name ("ERROR: expected " +:+ dquote +:+ "none" +:+ dquote +:+ " or " +:+ dquote +:+
                                      "0x<nnnn>[-0x<nnnn>] ..." +:+ dquote)
  | Some _ => tun_set i (fun t => t <| filter_override := snprintf 256 value |>) ;; send_value_reply fd name value
  end.

Definition set_target (fuel : nat) (fd : Z) (i : nat) (name value : string) : prog unit :=
  if str_eq value "none" then
    udp_push_stop i ;;
    tun_set i (fun t => t <| target := snprintf 64 "none" |>) ;;
    send_value_reply fd name "none"
  else match parse_udp_target value 64 with
  | None => send_error_reply fd name ("ERROR: expected " +:+ dquote +:+ "none" +:+ dquote +:+ " or " +:+ dquote +:+ "udp://ip:port" +:+ dquote)
  | Some (ip, port) =>
      rc <- udp_push_start fuel i ip port ;;
      if negb (rc =? 0) then send_error_reply fd name "ERROR: unable to start stream (no channel set?)"
      else tun_set i (fun t => t <| target := snprintf 64 value |>) ;; send_value_reply fd name value
  end.

Definition set_lockkey (fd : Z) (i : nat) (name value : string) : prog unit :=
  tun_set i (fun t => t <| lockkey := if str_eq value "none" then 0 else u32 (strtoul 0 value) |>) ;;
  send_value_reply fd name value.

Definition handle_tuner_set (fuel : nat) (fd : Z) (i : nat) (name leaf value : string) : prog unit :=
  if str_eq leaf "channelmap" then set_channelmap fd i name value
  else if str_eq leaf "vchannel" then set_vchannel fd i name value
  else if str_eq leaf "channel" then set_channel fuel fd i name value
  else if str_eq leaf "program" then set_program fd i name value
  else if str_eq leaf "filter" then set_filter fd i name value
  else if str_eq leaf "target" then set_target fuel fd i name value
  else if str_eq leaf "lockkey" then set_lockkey fd i name value
  else send_error_reply fd name unknown_error.

(** ** Requests *)

Definition help_text : string :=
  "Supported configuration options:" +:+ nl +:+
  "/sys/8vsb_override" +:+ nl +:+
  "/sys/copyright" +:+ nl +:+
  "/sys/debug" +:+ nl +:+
  "/sys/features" +:+ nl +:+
  "/sys/hwmodel" +:+ nl +:+
  "/sys/model" +:+ nl +:+
  "/sys/restart <resource>" +:+ nl +:+
  "/sys/version" +:+ nl +:+
  "/tuner<n>/channel <modulation>:<freq|ch>" +:+ nl +:+
  "/tuner<n>/channelmap <channelmap>" +:+ nl +:+
  "/tuner<n>/debug" +:+ nl +:+
  "/tuner<n>/filter " +:+ dquote +:+ "0x<nnnn>-0x<nnnn> [...]" +:+ dquote +:+ nl +:+
  "/tuner<n>/lockkey" +:+ nl +:+
  "/tuner<n>/program <program number>" +:+ nl +:+
  "/tuner<n>/status" +:+ nl +:+
  "/tuner<n>/streaminfo" +:+ nl +:+
  "/tuner<n>/target <ip>:<port>" +:+ nl +:+
  "/tuner<n>/vchannel <major.minor>" +:+ nl.

Definition dispatch_getset (fuel : nat) (cfg : hdhr_config) (fd : Z) (name : string) (value : option string) : prog unit :=
  match value, str_eq name "help" with
  | None, true => send_value_reply fd name help_text
  | _, _ =>
      match scan_lit "/sys/" name with
      | Some leaf =>
          match value with
          | Some value => handle_sys_set cfg fd name leaf value
          | None => handle_sys_get cfg fd name leaf
          end
      | None =>
          match parse_tuner_path name (tuner_count cfg) with
          | None => send_error_reply fd name "ERROR: unknown parameter"
          | Some (idx, leaf) =>
              match value with
              | Some value => handle_tuner_set fuel fd (Z.to_nat idx) name leaf value
              | None => handle_tuner_get fd (Z.to_nat idx) name leaf
              end
          end
      end
  end.

(** [read_full]: the bytes received, short at the end of the stream; None: an
    error.  Each successful read delivers a byte at least. *)
Fixpoint read_full_loop (fuel : nat) (fd : Z) (len : nat) (got : list Z) : prog (option (list Z)) :=
  if (len <=? length got)%nat then Ret (Some got)
  else match fuel with
  | O => Spin
  | S fuel =>
      r <- env (QRecv fd (Z.of_nat (len - length got))) ;;
      match r : read_result with
      | ReadError _ => Ret None
      | ReadData [] => Ret (Some got)
      | ReadData data => read_full_loop fuel fd len (got ++ take (len - length got) data)
      end
  end.
Definition read_full (fd : Z) (len : nat) : prog (option (list Z)) := read_full_loop len fd len [].

(** A frame: header, payload and checksum; None: the connection ends. *)
Definition read_frame (fd : Z) : prog (option (list Z)) :=
  header <- read_full fd 4 ;;
  match header with
  | Some header =>
      if negb (length header =? 4)%nat then Ret None
      else
        let paylen := Z.to_nat (Z.lor (Z.shiftl (byte_at header 2) 8) (byte_at header 3)) in
        if (HDHR_MAX_PACKET_SIZE <? 4 + paylen + 4)%nat then Ret None
        else
          rest <- read_full fd (paylen + 4) ;;
          match rest with
          | Some rest => if (length rest =? paylen + 4)%nat then Ret (Some (header ++ rest)) else Ret None
          | None => Ret None
          end
  | None => Ret None
  end.

(** The name and value TLVs of a request. *)
Record getset := { gs_name : option string; gs_value : option string }.
Definition getset_tlv (g : getset) (tag : Z) (v : list Z) : getset :=
  if (tag =? HDHR_TAG_GETSET_NAME) && (0 <? length v)%nat && (length v <? 128)%nat then
    {| gs_name := Some (cstr (bytes_str v)); gs_value := gs_value g |}
  else if (tag =? HDHR_TAG_GETSET_VALUE) && (length v <? 192)%nat then
    {| gs_name := gs_name g; gs_value := Some (cstr (bytes_str v)) |}
  else g.

(** What a frame asks for: end the connection, ignore it, or a request. *)
Inductive frame_action := EndConnection | IgnoreFrame | Request (name : string) (value : option string).
Definition parse_request (frame : list Z) : frame_action :=
  match hdhr_pkt_open_frame hdhr_pkt_init frame with
  | None => EndConnection
  | Some (pkt, frame_type) =>
      if negb (frame_type =? HDHR_TYPE_GETSET_REQ) then IgnoreFrame
      else match fold_tlvs getset_tlv {| gs_name := None; gs_value := None |} pkt with
           | Some ({| gs_name := Some name; gs_value := value |}, TlvEnd) => Request name value
           | _ => IgnoreFrame
           end
  end.

Fixpoint conn_loop (fuel : nat) (cfg : hdhr_config) (fd : Z) : prog unit :=
  match fuel with
  | O => Spin
  | S fuel' =>
      frame <- read_frame fd ;;
      match frame with
      | None => Ret tt
      | Some frame =>
          match parse_request frame with
          | EndConnection => Ret tt
          | IgnoreFrame => conn_loop fuel' cfg fd
          | Request name value =>
              dispatch_getset fuel cfg fd name value ;;
              conn_loop fuel' cfg fd
          end
      end
  end.

Definition conn_thread_main (fuel : nat) (cfg : hdhr_config) (fd : Z) : prog unit :=
  conn_loop fuel cfg fd ;;
  env (QCloseSock fd).

(** The accepting loop. *)
Fixpoint accept_loop (fuel : nat) (conn : Z -> thread) (fd : Z) : prog unit :=
  match fuel with
  | O => Spin
  | S fuel' =>
      cfd <- env (QAccept fd) ;;
      (if (cfd : Z) <? 0 then Ret tt
       else
         ok <- spawn_detached (conn cfd) ;;
         if ok then Ret tt else env (QCloseSock cfd)) ;;
      accept_loop fuel' conn fd
  end.

(** A TCP server: one thread for each connection to [port]. *)
Definition tcp_server (fuel : nat) (port backlog : Z) (conn : Z -> thread) : prog unit :=
  fd <- env (QSocket SOCK_STREAM) ;;
  if (fd : Z) <? 0 then Ret tt
  else
    r <- env (QBind fd port) ;;
    if (r : Z) <? 0 then env (QCloseSock fd)
    else
      r <- env (QListen fd backlog) ;;
      if (r : Z) <? 0 then env (QCloseSock fd) else accept_loop fuel conn fd.

Definition control_thread_main (fuel : nat) : prog unit :=
  now <- env QTime ;;
  set_start_time now ;;
  tcp_server fuel HDHR_CONTROL_TCP_PORT 16 T_conn.

(** ** Ownership *)

Section Specs.
Context (cfg : hdhr_config).
Local Notation wp := (wp cfg).
Local Notation ntuners := (ntuners cfg).


Lemma wp_error_reply fd name msg R (Q : unit -> toks -> Prop) : Q tt R -> wp (send_error_reply fd name msg) R Q.
Proof. intros HQ. unfold send_error_reply. wp_go. done. Qed.
Lemma wp_value_reply fd name msg R (Q : unit -> toks -> Prop) : Q tt R -> wp (send_value_reply fd name msg) R Q.
Proof. intros HQ. unfold send_value_reply. wp_go. done. Qed.

(** Sections that change only fields without resources. *)
Lemma same_res_fields w w' :
  w_fds w' = w_fds w -> w_streams w' = w_streams w -> w_db w' = w_db w -> w_tuners w' = w_tuners w -> same_res w w'.
Proof.
  intros Hf Hs Hd Ht. split; [done|]. split; [done|]. split; [by rewrite Hd|]. split; [by rewrite Ht|]. rewrite Ht. apply (same_res_refl w).
Qed.

Ltac reply_go :=
  wp_go; lazymatch goal with
  | |- Own.wp _ (send_value_reply _ _ _) _ _ => apply wp_value_reply; try done
  | |- Own.wp _ (send_error_reply _ _ _) _ _ => apply wp_error_reply; try done
  | |- _ => idtac
  end.

Lemma wp_sys_get fd name leaf R (Q : unit -> toks -> Prop) : Q tt R -> wp (handle_sys_get cfg fd name leaf) R Q.
Proof.
  intros HQ. unfold handle_sys_get, get_8vsb_override, get_start_time. reply_go;
    apply wp_sect_same; intros e w _; eexists _, w; (split; [done|]); (split; [by apply same_res_fields|by apply wp_value_reply]).
Qed.

Lemma wp_sys_set fd name leaf v R (Q : unit -> toks -> Prop) : Q tt R -> wp (handle_sys_set cfg fd name leaf v) R Q.
Proof.
  intros HQ. unfold handle_sys_set, get_8vsb_override, set_8vsb_override. reply_go.
  apply wp_sect_same. intros e w _. eexists _, _. split; [done|]. split; [by apply same_res_fields|]. wp_step.
  apply wp_sect_same. intros e' w' _. eexists _, w'. split; [done|]. split; [by apply same_res_fields|]. by apply wp_value_reply.
Qed.

(** Reading a parameter changes at most the rate window of the stream. *)
Lemma rate_same st now : same_stream_res st (dvb_stream_get_rate st now).2.
Proof. unfold dvb_stream_get_rate. cbv zeta. destruct (dle _ _); same_stream. Qed.

Lemma status_stream now st t : exists st', (status_text now (Some st) t).2 = Some st' /\ same_stream_res st st'.
Proof.
  unfold status_text. destruct (stream_stats (Some st)).
  - pose proof (rate_same st now) as H. destruct (dvb_stream_get_rate st now) as [[b p] st']. eauto.
  - exists st. split; [done|]. same_stream.
Qed.

Lemma value_stream now db st t leaf : exists st', (tuner_value now db (Some st) t leaf).2 = Some st' /\ same_stream_res st st'.
Proof.
  assert (Hst : exists st', Some st = Some st' /\ same_stream_res st st') by (exists st; split; [done|same_stream]).
  pose proof (status_stream now st t) as Hs. unfold tuner_value. destruct (status_text now (Some st) t) as [v st2].
  repeat match goal with |- context [str_eq leaf ?x] => destruct (str_eq leaf x); [first [exact Hst|exact Hs]|] end. exact Hst.
Qed.

Lemma winv_stream_same w jn R s st st' :
  Own.winv cfg w jn R -> w_streams w !! s = Some st -> same_stream_res st st' ->
  Own.winv cfg (w <| w_streams ::= <[s := st']> |>) jn R.
Proof.
  intros Hw Hs (E1 & E2 & E3 & E4 & E5 & E6 & E7 & E8 & E9 & _).
  replace R with (R ⊎ ∅) in * by multiset_solver. eapply winv_stream; try done.
  unfold stream_res, stream_join_toks, stream_fd_toks, stream_phase, stream_frontend, stream_demux, stream_dvr.
  by rewrite E1, E2, E3, E4, E5, E6, E7, E8, E9.
Qed.

Lemma wp_tuner_get fd i name leaf R (Q : unit -> toks -> Prop) :
  (i < ntuners)%nat -> Q tt R -> wp (handle_tuner_get fd i name leaf) R Q.
Proof.
  intros Hi HQ. unfold handle_tuner_get. wp_step. unfold tuner_get_section. intros e w jn F Hw Hj.
  destruct (winv_lookup cfg _ _ _ i Hw Hi) as (t & Ht & Hok). rewrite Ht.
  assert (Hfin : forall v : option string, wp match v with
     | Some v => send_value_reply fd name v | None => send_error_reply fd name "ERROR: parameter is write-only or unknown" end R Q).
  { intros [v|]; [by apply wp_value_reply|by apply wp_error_reply]. }
  destruct (active_stream t) as [s|] eqn:Ea.
  - destruct (winv_facts cfg w jn R F Hw) as (_ & _ & Hst & _). destruct (Hst i t s Ht Ea) as [st Hs]. rewrite Hs.
    destruct (value_stream (e_now e) (w_db w) st t leaf) as (st' & Hv & Hsame).
    destruct (tuner_value (e_now e) (w_db w) (Some st) t leaf) as [v o]. simpl in Hv. subst o. simpl default.
    exists R, ∅. split; [done|]. simpl join_table. split.
    { replace (R ⊎ ∅ ⊎ F) with (R ⊎ F) by multiset_solver. by eapply winv_stream_same. }
    split; [|apply Hfin]. apply guarantee_stream.
    { left. rewrite Hs. simpl. unfold stream_phase. by destruct Hsame as (_ & _ & _ & _ & _ & -> & -> & _). }
    intros st0 Hs0. assert (st0 = st) as -> by congruence. apply Hsame.
  - exists R, ∅. split; [done|]. split; [|split; [apply guarantee_refl|apply Hfin]]. simpl join_table.
    by replace (R ⊎ ∅ ⊎ F) with (R ⊎ F) by multiset_solver.
Qed.

(** *** The scan worker *)

Lemma wp_publish i freq seq fd R (Q : dvb_legacy_seq_state -> toks -> Prop) :
  (i < ntuners)%nat -> may_use R fd -> (forall l, Q l R) -> wp (publish_scan_stats i freq seq fd) R Q.
Proof.
  intros Hi Hu HQ. unfold publish_scan_stats. wp_step. apply wp_read_stats; [done|]. intros st. wp_step. apply wp_keep.
  - wp_step; [|done]. wp_step. apply wp_legacy_seq_pct; [done|]. intros r. done.
  - intros r. wp_step. apply wp_tun_set; [done|neutral_set|]. apply wp_ret, HQ.
Qed.

Lemma wp_scan_attempt fuel ctx a ffd pfd vfd freq rf R (Q : unit -> toks -> Prop) :
  (sc_tuner ctx < ntuners)%nat -> (0 <= ffd -> may_use R ffd) -> (0 <= pfd -> may_use R pfd) -> (0 <= vfd -> may_use R vfd) ->
  Q tt R -> wp (scan_attempt fuel cfg ctx a ffd pfd vfd freq rf) R Q.
Proof.
  intros Hi Hf Hp Hv HQ. unfold scan_attempt. wp_step.
  assert (Hrest : forall r : bool * dvb_legacy_seq_state, (r.1 = true -> 0 <= ffd) ->
    wp (tun_set (sc_tuner ctx) (attempt_section freq r.1 (sc_generation ctx)) ;;
        finalize_lock_result (sc_tuner ctx) freq r.1 (sc_delivery ctx) (sc_generation ctx) ;;
        when r.1 (seq <- publish_scan_stats (sc_tuner ctx) freq r.2 ffd ;;
                  env (QSleep (600 * 1000)) ;;
                  publish_scan_stats (sc_tuner ctx) freq seq ffd ;;
                  when ((0 <=? pfd) && (0 <=? vfd))
                    (dvb_scan_read_psip fuel a (dvb_demux cfg) pfd vfd rf freq (sc_delivery ctx) ;; Ret tt))) R Q).
  { intros r Hr. wp_step. apply wp_tun_set; [done|neutral_set|]. wp_step.
    apply wp_tuner_neutral; [done|]. intros e t _. unfold finalize_section.
    assert (Hw : wp (when r.1 (seq <- publish_scan_stats (sc_tuner ctx) freq r.2 ffd ;; env (QSleep (600 * 1000)) ;;
                  publish_scan_stats (sc_tuner ctx) freq seq ffd ;;
                  when ((0 <=? pfd) && (0 <=? vfd))
                    (dvb_scan_read_psip fuel a (dvb_demux cfg) pfd vfd rf freq (sc_delivery ctx) ;; Ret tt))) R Q).
    { wp_step; [|done]. specialize (Hf (Hr ltac:(done))). wp_step. apply wp_publish; [done..|]. intros l. wp_step. wp_step. wp_step.
      apply wp_publish; [done..|]. intros l'. wp_step; [|done]. zb. wp_step. apply wp_read_psip; [by apply Hp|by apply Hv|].
      intros n. by apply wp_ret. }
    destruct (_ =? _); neutral; exact Hw. }
  destruct (0 <=? ffd) eqn:E; [|apply wp_ret, Hrest; done]. zb.
  apply wp_tune_and_lock; [by apply Hf| |].
  - intros l. apply wp_publish; [done|by apply Hf|done].
  - intros r. by apply Hrest.
Qed.

Lemma wp_next_pending fuel i b R (Q : option (Z * Z) -> toks -> Prop) :
  (i < ntuners)%nat -> (forall o, Q o R) -> wp (next_pending fuel i b) R Q.
Proof.
  intros Hi HQ. revert b. induction fuel as [|fuel IH]; intros b; [done|]. cbn [next_pending]. wp_step.
  apply wp_tuner_neutral; [done|]. intros e t _. unfold pending_section. destruct (_ && _ && _).
  - neutral. cbn [fst]. cbv beta iota. wp_step. wp_step. apply IH.
  - pose proof (pending_pop_ok t) as Hp. unfold pending_pop in *. destruct (0 <? pending_count t)%nat; cbn [fst snd].
    + split; [|by apply wp_ret]. unfold same_tuner_res. repeat apply conj; [reflexivity..|]. intros Ht. by eapply Hp.
    + neutral. by apply wp_ret.
Qed.

Lemma wp_scan_loop fuel ctx a ffd pfd vfd freq rf R (Q : unit -> toks -> Prop) :
  (sc_tuner ctx < ntuners)%nat -> (0 <= ffd -> may_use R ffd) -> (0 <= pfd -> may_use R pfd) -> (0 <= vfd -> may_use R vfd) ->
  Q tt R -> wp (scan_loop fuel cfg ctx a ffd pfd vfd freq rf) R Q.
Proof.
  intros Hi Hf Hp Hv HQ. revert freq rf. induction fuel as [|fuel IH]; intros freq rf; [done|]. cbn [scan_loop]. wp_step.
  apply wp_scan_attempt; [done..|]. wp_step. apply wp_next_pending; [done|]. intros [[f r]|]; [apply IH|by apply wp_ret].
Qed.

Lemma may_use_slot R fd d R' : R' = R ⊎ fd_toks fd d -> 0 <= fd -> may_use R' fd.
Proof. intros -> H. rewrite fd_toks_nonneg by done. apply may_use_last. Qed.

Lemma wp_open_slot (b : bool) a d pid table t R (Q : Z -> toks -> Prop) :
  (forall fd, Q fd (R ⊎ fd_toks fd (DevDemux a d))) ->
  wp (if b then mpeg_section_filter_open a d pid table t else Ret (-1)) R Q.
Proof.
  intros HQ. destruct b.
  - apply wp_filter_open; intros fd H; specialize (HQ fd).
    + by rewrite fd_toks_skip in HQ by (by apply Z.leb_gt).
    + by rewrite fd_toks_nonneg in HQ.
  - apply wp_ret. specialize (HQ (-1)). by rewrite fd_toks_skip in HQ.
Qed.

(** The worker from its open frontend on. *)
Lemma wp_scan_session fuel ctx ffd R (Q : unit -> toks -> Prop) :
  let i := sc_tuner ctx in let a := nth i (dvb_adapter cfg) 0 in
  (i < ntuners)%nat -> Q tt R ->
  wp (pat_fd <- (if 0 <=? ffd then mpeg_section_filter_open a (dvb_demux cfg) 0 0 2000 else Ret (-1)) ;;
      vct_fd <- (if 0 <=? ffd
             then mpeg_section_filter_open a (dvb_demux cfg) PSIP_BASE_PID (if is_qam (sc_delivery ctx) then 0xC9 else 0xC8) 2000
             else Ret (-1)) ;;
      scan_loop fuel cfg ctx a ffd pat_fd vct_fd (sc_freq ctx) (sc_rf_channel ctx) ;;
      mpeg_section_filter_close pat_fd ;;
      mpeg_section_filter_close vct_fd ;;
      save_channels (channel_cache_file cfg) ;;
      still_current <- tun_get i (fun t => scan_generation t =? sc_generation ctx) ;;
      (if still_current && (0 <=? ffd) then tuner_open_hold_from_fd i ffd
       else if 0 <=? ffd then dvb_frontend_close ffd else Ret tt) ;;
      tun_set i (fun t => t <| scan_worker_active := false |>) ;;
      tuner_release i) (R ⊎ {[+ TClaim i None +]} ⊎ fd_toks ffd (tdev cfg i)) Q.
Proof.
  cbv zeta. set (i := sc_tuner ctx). set (a := nth i (dvb_adapter cfg) 0). intros Hi HQ. set (R1 := R ⊎ {[+ TClaim i None +]}).
  assert (Hfin : wp (tun_set i (fun t => t <| scan_worker_active := false |>) ;; tuner_release i) R1 Q).
  { wp_step. apply wp_tun_set; [done|neutral_set|]. by apply wp_tuner_release. }
  wp_step. apply wp_open_slot. intros pfd. wp_step. apply wp_open_slot. intros vfd. wp_step. set (D := DevDemux a (dvb_demux cfg)).
  apply wp_scan_loop; [done|intros H; apply (may_use_slot (R1 ⊎ fd_toks pfd D ⊎ fd_toks vfd D) ffd (tdev cfg i)); [multiset_solver|done]
    |intros H; apply (may_use_slot (R1 ⊎ fd_toks ffd (tdev cfg i) ⊎ fd_toks vfd D) pfd D); [multiset_solver|done]
    |intros H; apply (may_use_slot (R1 ⊎ fd_toks ffd (tdev cfg i) ⊎ fd_toks pfd D) vfd D); [multiset_solver|done]|].
  wp_step. replace (R1 ⊎ fd_toks ffd (tdev cfg i) ⊎ fd_toks pfd D ⊎ fd_toks vfd D)
    with (R1 ⊎ fd_toks ffd (tdev cfg i) ⊎ fd_toks vfd D ⊎ fd_toks pfd D) by multiset_solver.
  apply wp_filter_close. wp_step. apply wp_filter_close. wp_step. unfold save_channels. apply wp_sect_same.
  intros e w _. eexists _, _. split; [done|]. split; [by apply same_res_fields|]. wp_step. apply wp_tun_get; [done|]. intros t' _.
  wp_step. destruct (0 <=? ffd) eqn:E.
  - zb. destruct (scan_generation t' =? sc_generation ctx); cbn [andb]; [by apply wp_tuner_open_hold_from_fd|by apply wp_close_dev].
  - rewrite andb_false_r. rewrite fd_toks_skip by done. by apply wp_ret.
Qed.

Lemma wp_channel_scan_thread fuel ctx r R (Q : unit -> toks -> Prop) :
  (sc_tuner ctx < ntuners)%nat -> Q tt R ->
  wp (channel_scan_thread_main fuel cfg ctx)
    (R ⊎ ({[+ TClaim (sc_tuner ctx) None +]} ⊎
          hold_toks (sc_tuner ctx) (tdev cfg (sc_tuner ctx)) r (sc_stale_held_fd ctx))) Q.
Proof.
  intros Hi HQ. unfold channel_scan_thread_main. cbv zeta.
  rewrite (assoc_L (⊎)). set (R1 := R ⊎ {[+ TClaim (sc_tuner ctx) None +]}). wp_step.
  match goal with |- Own.wp _ _ _ (fun _ R' => Own.wp _ ?body R' Q) =>
    assert (Hbody : wp body R1 Q) end.
  2:{ apply wp_resolve_stale; [done|exact Hbody]. }
  wp_step. apply wp_tun_get; [done|]. intros t (Hok & _). destruct Hok as (_ & Ha & _). rewrite Ha.
  wp_step. apply wp_frontend_open; intros ffd H; pose proof (wp_scan_session fuel ctx ffd R Q Hi HQ) as Hrest; cbv zeta in Hrest.
  - rewrite fd_toks_skip in Hrest by by apply Z.leb_gt. exact Hrest.
  - rewrite fd_toks_nonneg in Hrest by done. exact Hrest.
Qed.

(** *** Writing parameters *)

Lemma wp_set_channelmap fd i name v R (Q : unit -> toks -> Prop) :
  (i < ntuners)%nat -> Q tt R -> wp (set_channelmap fd i name v) R Q.
Proof.
  intros Hi HQ. unfold set_channelmap.
  assert (Hw : wp (udp_push_stop i ;; tuner_close_hold i ;;
    tun_set i (fun t => deselect (t <| channelmap := snprintf 16 v |>)) ;; send_value_reply fd name v) R Q).
  { wp_step. apply wp_udp_push_stop; [done|]. wp_step. apply wp_tuner_close_hold; [done|]. wp_step.
    apply wp_tun_set; [done|neutral_set|]. by apply wp_value_reply. }
  destruct (str_eq v "us-bcast"); [exact Hw|]. destruct (ChannelMap.channel_map_find v); [exact Hw|by apply wp_error_reply].
Qed.

Lemma wp_set_channel_none fd i name R (Q : unit -> toks -> Prop) :
  (i < ntuners)%nat -> Q tt R -> wp (set_channel_none fd i name) R Q.
Proof.
  intros Hi HQ. unfold set_channel_none. wp_step. apply wp_udp_push_stop; [done|]. wp_step.
  apply wp_tuner_close_hold; [done|]. wp_step. apply wp_tun_set; [done|neutral_set|]. by apply wp_value_reply.
Qed.

Lemma wp_set_vchannel fd i name v R (Q : unit -> toks -> Prop) :
  (i < ntuners)%nat -> Q tt R -> wp (set_vchannel fd i name v) R Q.
Proof.
  intros Hi HQ. unfold set_vchannel. destruct (scan_vchannel v) as [[ma mi]|]; [|by apply wp_error_reply].
  wp_step. apply wp_db_get. intros db _. destruct (find_ptr ma mi db) as [p|]; [|by apply wp_error_reply].
  wp_step. apply wp_udp_push_stop; [done|]. wp_step. apply wp_tuner_bind_channel; [done|]. wp_step.
  apply wp_tun_set; [done|neutral_set|]. wp_step. apply wp_db_get. intros db' _. wp_step. apply wp_tuner_open_hold; [done|]. by apply wp_value_reply.
Qed.

Lemma wp_wait_attempt fuel i g freq R (Q : unit -> toks -> Prop) :
  (i < ntuners)%nat -> Q tt R -> wp (wait_attempt fuel i g freq) R Q.
Proof.
  intros Hi HQ. induction fuel as [|fuel IH]; [done|]. cbn [wait_attempt]. wp_step. apply wp_tun_get; [done|].
  intros t _. wp_step; [done|]. wp_step. wp_step. destruct a; [done|exact IH].
Qed.

Lemma wp_reply_channel fd i name R (Q : unit -> toks -> Prop) :
  (i < ntuners)%nat -> Q tt R -> wp (reply_channel fd i name) R Q.
Proof. intros Hi HQ. unfold reply_channel. wp_step. apply wp_tun_get; [done|]. intros t _. by apply wp_value_reply. Qed.

(** A request that starts a scan hands its claim to the worker. *)
Lemma wp_start_scan fuel fd i name freq rf d stale r R (Q : unit -> toks -> Prop) :
  (i < ntuners)%nat -> Q tt R ->
  wp (start_scan fuel fd i name freq rf d stale) (R ⊎ {[+ TClaim i None +]} ⊎ hold_toks i (tdev cfg i) r stale) Q.
Proof.
  intros Hi HQ. unfold start_scan. wp_step. apply wp_tuner_neutral; [done|]. intros e t _. unfold begin_scan_section. cbv zeta.
  neutral. cbn [fst]. wp_step.
  apply (wp_spawn_detached cfg _ ({[+ TClaim i None +]} ⊎ hold_toks i (tdev cfg i) r stale) _ R);
    [done|done|by exists r|multiset_solver| |].
  - wp_step. apply wp_wait_attempt; [done|]. by apply wp_reply_channel.
  - wp_step. assert (Hfin : wp (tun_set i (fun t => t <| scan_worker_active := false |>) ;; tuner_release i ;; reply_channel fd i name)
      (R ⊎ {[+ TClaim i None +]}) Q).
    { wp_step. apply wp_tun_set; [done|neutral_set|]. wp_step. apply wp_tuner_release; [done|]. by apply wp_reply_channel. }
    by apply wp_resolve_stale.
Qed.

Lemma enqueue_same freq rf d t : same_tuner_res t (enqueue_section freq rf d t).2.
Proof.
  unfold enqueue_section. destruct (active_stream t); [unfold same_tuner_res; auto 12|].
  destruct (scan_worker_active t); [|unfold same_tuner_res; auto 12]. cbv zeta. cbn [snd].
  pose proof (pending_push_ok freq rf t) as Hp. unfold pending_push in *. cbv zeta in *.
  destruct (_ <=? _)%nat; unfold same_tuner_res; repeat apply conj; first [reflexivity|exact Hp].
Qed.

Lemma wp_set_channel fuel fd i name v R (Q : unit -> toks -> Prop) :
  (i < ntuners)%nat -> Q tt R -> wp (set_channel fuel fd i name v) R Q.
Proof.
  intros Hi HQ. unfold set_channel. destruct (str_eq v "none"); [by apply wp_set_channel_none|].
  wp_step. apply wp_tun_get; [done|]. intros t _. cbv zeta.
  destruct (parse_channel_value _ v) as [[freq rf]|]; [|by apply wp_error_reply].
  wp_step. apply wp_claim_fast; [done| |intros stale r; by apply wp_start_scan].
  wp_step. apply wp_tuner_neutral; [done|]. intros e t' _. split; [apply enqueue_same|].
  destruct (enqueue_section _ _ _ t').1; [|(by apply wp_error_reply)..].
  wp_step. apply wp_wait_attempt; [done|]. by apply wp_reply_channel.
Qed.

Lemma wp_set_filter fd i name v R (Q : unit -> toks -> Prop) :
  (i < ntuners)%nat -> Q tt R -> wp (set_filter fd i name v) R Q.
Proof.
  intros Hi HQ. unfold set_filter. destruct (_ || _).
  - wp_step. apply wp_tun_set; [done|neutral_set|]. by apply wp_value_reply.
  - destruct (pid_filter_parse _); [|by apply wp_error_reply]. wp_step. apply wp_tun_set; [done|neutral_set|]. by apply wp_value_reply.
Qed.

Lemma wp_set_target fuel fd i name v R (Q : unit -> toks -> Prop) :
  (i < ntuners)%nat -> Q tt R -> wp (set_target fuel fd i name v) R Q.
Proof.
  intros Hi HQ. unfold set_target. destruct (str_eq v "none").
  - wp_step. apply wp_udp_push_stop; [done|]. wp_step. apply wp_tun_set; [done|neutral_set|]. by apply wp_value_reply.
  - destruct (parse_udp_target v 64) as [[ip port]|]; [|by apply wp_error_reply]. wp_step. apply wp_udp_push_start; [done|].
    intros rc. destruct (negb _); [by apply wp_error_reply|]. wp_step. apply wp_tun_set; [done|neutral_set|]. by apply wp_value_reply.
Qed.

Lemma wp_tuner_set fuel fd i name leaf v R (Q : unit -> toks -> Prop) :
  (i < ntuners)%nat -> Q tt R -> wp (handle_tuner_set fuel fd i name leaf v) R Q.
Proof.
  intros Hi HQ. unfold handle_tuner_set.
  destruct (str_eq leaf "channelmap"); [by apply wp_set_channelmap|].
  destruct (str_eq leaf "vchannel"); [by apply wp_set_vchannel|].
  destruct (str_eq leaf "channel"); [by apply wp_set_channel|].
  destruct (str_eq leaf "program").
  { unfold set_program. wp_step. apply wp_tun_set; [done|neutral_set|]. by apply wp_value_reply. }
  destruct (str_eq leaf "filter"); [by apply wp_set_filter|].
  destruct (str_eq leaf "target"); [by apply wp_set_target|].
  destruct (str_eq leaf "lockkey"); [|by apply wp_error_reply].
  unfold set_lockkey. wp_step. apply wp_tun_set; [done|neutral_set|]. by apply wp_value_reply.
Qed.

(** *** Requests and connections *)

Lemma wp_dispatch_getset fuel fd name v R (Q : unit -> toks -> Prop) :
  Q tt R -> wp (dispatch_getset fuel cfg fd name v) R Q.
Proof.
  intros HQ. unfold dispatch_getset.
  assert (Hw : wp (match scan_lit "/sys/" name with
      | Some leaf => match v with Some value => handle_sys_set cfg fd name leaf value | None => handle_sys_get cfg fd name leaf end
      | None => match parse_tuner_path name (Config.tuner_count cfg) with
                | None => send_error_reply fd name "ERROR: unknown parameter"
                | Some (idx, leaf) =>
                    match v with
                    | Some value => handle_tuner_set fuel fd (Z.to_nat idx) name leaf value
                    | None => handle_tuner_get fd (Z.to_nat idx) name leaf
                    end
                end
      end) R Q).
  { destruct (scan_lit "/sys/" name) as [leaf|].
    - destruct v; [by apply wp_sys_set|by apply wp_sys_get].
    - destruct (parse_tuner_path name _) as [[idx leaf]|] eqn:E; [|by apply wp_error_reply].
      apply parse_tuner_path_bound in E. assert (Z.to_nat idx < ntuners)%nat by (unfold Own.ntuners; lia).
      destruct v; [by apply wp_tuner_set|by apply wp_tuner_get]. }
  destruct v as [v|]; [exact Hw|]. destruct (str_eq name "help"); [by apply wp_value_reply|exact Hw].
Qed.

Lemma wp_read_full fd len R (Q : option (list Z) -> toks -> Prop) : (forall r, Q r R) -> wp (read_full fd len) R Q.
Proof.
  intros HQ. unfold read_full. generalize (@nil Z) as got. generalize len at 1 as fuel. intros fuel.
  induction fuel as [|fuel IH]; intros got; cbn [read_full_loop]; (destruct (_ <=? _)%nat; [apply wp_ret, HQ|]); [done|].
  wp_step. wp_step. destruct a as [e|[|b data]]; [(apply wp_ret, HQ)..|apply IH].
Qed.

Lemma wp_read_frame fd R (Q : option (list Z) -> toks -> Prop) : (forall r, Q r R) -> wp (read_frame fd) R Q.
Proof.
  intros HQ. unfold read_frame. wp_step. apply wp_read_full. intros [header|]; [|apply wp_ret, HQ].
  destruct (negb _); [apply wp_ret, HQ|]. cbv zeta. destruct (_ <? _)%nat; [apply wp_ret, HQ|].
  wp_step. apply wp_read_full. intros [rest|]; [|apply wp_ret, HQ]. destruct (_ =? _)%nat; apply wp_ret, HQ.
Qed.

Lemma wp_conn_thread_main fuel fd R (Q : unit -> toks -> Prop) : Q tt R -> wp (conn_thread_main fuel cfg fd) R Q.
Proof.
  intros HQ. unfold conn_thread_main. wp_step. apply wp_keep; [|intros []; by apply wp_close_sock].
  assert (Hl : forall n, wp (conn_loop n cfg fd) R (fun _ R' => R' = R)); [|apply Hl].
  induction n as [|n IH]; [done|]. cbn [conn_loop]. wp_step. apply wp_read_frame. intros [frame|]; [|done].
  destruct (parse_request frame) as [| |name v]; [done|exact IH|]. wp_step. by apply wp_dispatch_getset.
Qed.

(** A server of connections that need nothing. *)
Lemma wp_tcp_server fuel port backlog (conn : Z -> thread) R (Q : unit -> toks -> Prop) :
  (forall s, thread_pre cfg (conn s) /\ thread_post (conn s) ∅ = ∅ /\ thread_res cfg (conn s) ∅) ->
  Q tt R -> wp (tcp_server fuel port backlog conn) R Q.
Proof.
  intros Hconn HQ. assert (Hl : forall fd, wp (accept_loop fuel conn fd) R Q).
  { intros fd. induction fuel as [|fuel IH]; [done|]. cbn [accept_loop]. wp_step. wp_step. wp_step.
    destruct (_ <? 0); [by apply wp_ret|]. wp_step. destruct (Hconn a) as (Hp & Ho & Hr).
    apply (wp_spawn_detached cfg _ ∅ _ R); [done..|multiset_solver|by apply wp_ret|by apply wp_close_sock]. }
  unfold tcp_server. wp_step. wp_step. wp_step; [by apply wp_ret|]. wp_step. wp_step. wp_step; [by apply wp_close_sock|].
  wp_step. wp_step. wp_step; [by apply wp_close_sock|]. apply Hl.
Qed.

Lemma wp_control_thread_main fuel R (Q : unit -> toks -> Prop) : Q tt R -> wp (control_thread_main fuel) R Q.
Proof.
  intros HQ. unfold control_thread_main. wp_step. wp_step. wp_step. apply wp_sect_same. intros e w _.
  eexists _, _. split; [done|]. split; [by apply same_res_fields|]. by apply wp_tcp_server.
Qed.
End Specs.
