(* ===== verification/ControlSets.v ===== *)
(** What setting and reading a parameter does: the handlers of src/src/control.c
    undisturbed.

    [accepted] lists the settings that are answered at once, with the answer and
    what a read then gives; [rejected] those that are refused, with the message.
    The theorems: an accepted setting is read back and touches no other tuner; a
    rejected one changes nothing. *)
From S2P Require Import Prelude RecordUpd Pkt CLib FreqPlan PidFilter ChannelDb Config Stats Ring Tuner Sys Own Frontend Exec Stream.
From S2P Require Import TunerOps Push ControlText Control.
Import Pkt.

(** A connection that records what is sent; everything else is arbitrary. *)
Record records (h : handler (list Z)) : Prop := {
  rec_send : forall fd data s, (h (QSend fd data) s).2 = s ++ data;
  rec_close : forall fd s, (h (QClose fd) s).2 = s;
  rec_sleep : forall us s, (h (QSleep us) s).2 = s
}.

(** [w'] is [w] with tuner [i] replaced by [t'], as far as the handlers look. *)
Record tuner_only (i : nat) (w w' : world) (t' : hdhr_tuner) : Prop := {
  to_tuners : w_tuners w' = <[i := t']> (w_tuners w);
  to_db : w_db w' = w_db w;
  to_streams : w_streams w' = w_streams w
}.

Lemma tuner_only_trans i w w1 w2 t1 t2 : tuner_only i w w1 t1 -> tuner_only i w1 w2 t2 -> tuner_only i w w2 t2.
Proof. intros [H1 H2 H3] [H4 H5 H6]. split; [|congruence|congruence]. by rewrite H4, H1, list_insert_insert_eq. Qed.

Lemma tuner_only_refl i w t : w_tuners w !! i = Some t -> tuner_only i w w t.
Proof. intros H. split; [|done|done]. by rewrite list_insert_id. Qed.

Lemma tuner_only_lookup i w w' t t' : w_tuners w !! i = Some t -> tuner_only i w w' t' -> w_tuners w' !! i = Some t'.
Proof. intros H [H1 _ _]. rewrite H1. apply list_lookup_insert_eq. by eapply lookup_lt_Some. Qed.

Lemma tuner_only_other i j w w' t' : tuner_only i w w' t' -> j <> i -> w_tuners w' !! j = w_tuners w !! j.
Proof. intros [H1 _ _] Hj. rewrite H1. by apply list_lookup_insert_ne. Qed.

Section Runs.
Context (h : handler (list Z)) (se : list Z -> sect_env) (i : nat).

Lemma run_tun_only {X} (f : hdhr_tuner -> X * hdhr_tuner) w log t : w_tuners w !! i = Some t ->
  exists w', run h se (tun i f) w log = Some ((f t).1, w', log) /\ tuner_only i w w' (f t).2.
Proof. intros H. eexists. split; [exact (run_tuner_sect h se i (fun _ => f) w log t H)|]. by split. Qed.

Lemma run_set_only f w log t : w_tuners w !! i = Some t ->
  exists w', run h se (tun_set i f) w log = Some (tt, w', log) /\ tuner_only i w w' (f t).
Proof. apply (run_tun_only (fun t => (tt, f t))). Qed.

Lemma run_value_reply fd name v w log : records h ->
  run h se (send_value_reply fd name v) w log = Some (tt, w, log ++ reply_frame name HDHR_TAG_GETSET_VALUE v).
Proof.
  intros Hh. unfold send_value_reply. rewrite run_bind, run_env_op. pose proof (rec_send h Hh fd (reply_frame name HDHR_TAG_GETSET_VALUE v) log) as H.
  destruct (h _ log) as [n s]. cbn [snd] in H. by subst s.
Qed.

Lemma run_error_reply fd name v w log : records h ->
  run h se (send_error_reply fd name v) w log = Some (tt, w, log ++ reply_frame name HDHR_TAG_ERROR_MESSAGE v).
Proof.
  intros Hh. unfold send_error_reply. rewrite run_bind, run_env_op. pose proof (rec_send h Hh fd (reply_frame name HDHR_TAG_ERROR_MESSAGE v) log) as H.
  destruct (h _ log) as [n s]. cbn [snd] in H. by subst s.
Qed.

Lemma run_wait_over n w log t : records h -> w_tuners w !! i = Some t -> run h se (wait_push_over n i) w log = Some (tt, w, log).
Proof.
  intros Hh Ht. induction n as [|n IH]; [done|]. cbn [wait_push_over]. rewrite run_bind, (run_tun_get _ _ _ _ _ _ t) by done.
  destruct (udp_push_active t); [|done]. rewrite run_bind, run_env_op. pose proof (rec_sleep h Hh 5000 log) as H.
  destruct (h (QSleep 5000) log) as [[] s]. cbn [snd] in H. subst s. exact IH.
Qed.

Lemma run_push_stop w log t : records h -> w_tuners w !! i = Some t ->
  exists w', run h se (udp_push_stop i) w log = Some (tt, w', log) /\ tuner_only i w w' (push_stop_section t).2.
Proof.
  intros Hh Ht. unfold udp_push_stop. destruct (run_tun_only push_stop_section w log t Ht) as (w' & Hr & Ho).
  exists w'. split; [|exact Ho]. rewrite run_bind, Hr, run_when. destruct (push_stop_section t).1; [|done].
  by apply (run_wait_over _ _ _ (push_stop_section t).2); [|eapply tuner_only_lookup].
Qed.

Lemma run_close_hold w log t : records h -> w_tuners w !! i = Some t ->
  exists w' t', run h se (tuner_close_hold i) w log = Some (tt, w', log) /\ tuner_only i w w' t' /\ active_stream t' = active_stream t.
Proof.
  intros Hh Ht. unfold tuner_close_hold. destruct (run_tun_only close_hold_section w log t Ht) as (w1 & Hr & Ho). rewrite run_bind, Hr.
  cbn [fst snd close_hold_section] in *. pose proof (tuner_only_lookup _ _ _ _ _ Ht Ho) as Ht1. destruct (held_fd t <? 0) eqn:E.
  { exists w1, (t <| held_fd := -1 |>). done. }
  rewrite run_bind. unfold stop_held_stats_thread.
  destruct (run_tun_only stop_stats_section w1 log _ Ht1) as (w2 & Hr2 & Ho2). rewrite run_bind, Hr2.
  pose proof (tuner_only_lookup _ _ _ _ _ Ht1 Ho2) as Ht2. cbn [fst snd stop_stats_section] in *.
  assert (Hclose : forall w' log, exists w'', run h se (dvb_frontend_close (held_fd t)) w' log = Some (tt, w'', log) /\
    w_tuners w'' = w_tuners w' /\ w_db w'' = w_db w' /\ w_streams w'' = w_streams w').
  { intros w' l. unfold dvb_frontend_close. apply Z.ltb_ge in E. rewrite (proj2 (Z.leb_le _ _)) by done.
    exists (env_world (QClose (held_fd t)) tt w'). split; [|repeat split; reflexivity]. unfold env. cbn [run]. pose proof (rec_close h Hh (held_fd t) l) as H.
    destruct (h (QClose (held_fd t)) l) as [[] s]. cbn [snd] in H. subst s. reflexivity. }
  destruct (held_stats_thread_started _); cbn [negb].
  - destruct (run_tun_only (fun t => (held_stats_thread t, t)) w2 log _ Ht2) as (w2' & Hr' & Ho'). rewrite run_bind.
    unfold tun_get. rewrite Hr'. pose proof (tuner_only_lookup _ _ _ _ _ Ht2 Ho') as Ht2'. cbn [fst snd] in Hr', Ho', Ht2'.
    rewrite run_bind. change (run h se (join_thread _) w2' log) with (Some (tt, w2', log)).
    destruct (run_tun_only stats_joined_section w2' log _ Ht2') as (w3 & Hr3 & Ho3). rewrite Hr3.
    destruct (Hclose w3 log) as (w4 & Hc & H1 & H2 & H3). exists w4. eexists. split; [exact Hc|]. split.
    + eapply tuner_only_trans; [exact Ho|]. eapply tuner_only_trans; [exact Ho2|]. eapply tuner_only_trans; [exact Ho'|]. destruct Ho3 as [A B C]. split; [rewrite H1; exact A|congruence|congruence].
    + reflexivity.
  - destruct (Hclose w2 log) as (w4 & Hc & H1 & H2 & H3). exists w4. eexists. split; [exact Hc|]. split.
    + eapply tuner_only_trans; [exact Ho|]. destruct Ho2 as [A B C]. split; [rewrite H1; exact A|congruence|congruence].
    + reflexivity.
Qed.
End Runs.

(** ** Settings *)

Definition valid_map (value : string) : bool :=
  str_eq value "us-bcast" || match ChannelMap.channel_map_find value with Some _ => true | None => false end.

(** The settings answered at once: the answer, and what a read then gives. *)
Definition accepted (db : channel_db) (t : hdhr_tuner) (leaf value : string) : option (string * string) :=
  if str_eq leaf "channelmap" then if valid_map value then Some (value, value) else None
  else if str_eq leaf "channel" then if str_eq value "none" then Some ("none", "none")%string else None
  else if str_eq leaf "program" then Some (value, dec (atoi value))
  else if str_eq leaf "filter" then
    if str_eq value "none" || str_eq value "" then Some ("none"%string, compute_auto_filter db t 512)
    else match pid_filter_parse (Some value) with Some _ => Some (value, value) | None => None end
  else if str_eq leaf "target" then if str_eq value "none" then Some ("none", "none")%string else None
  else if str_eq leaf "lockkey" then
    let key := if str_eq value "none" then 0 else u32 (strtoul 0 value) in
    Some (value, if key =? 0 then "none"%string else "0x" +:+ hex_pad true 8 key)
  else None.

(** The settings refused, with the message. *)
Definition rejected (db : channel_db) (map leaf value : string) : option string :=
  if str_eq leaf "channelmap" then if valid_map value then None else Some "ERROR: unknown channel map"%string
  else if str_eq leaf "vchannel" then
    match scan_vchannel value with
    | None => Some "ERROR: invalid channel format, expected major.minor"%string
    | Some (ma, mi) => match find_channel db ma mi with
                       | None => Some ("ERROR: channel not found in scanned lineup (has a scan completed? see startup log)")%string
                       | Some _ => None
                       end
    end
  else if str_eq leaf "channel" then
    if str_eq value "none" then None
    else match parse_channel_value (snprintf 16 map) value with
         | None => Some ("ERROR: expected " +:+ dquote +:+ "none" +:+ dquote +:+ ", " +:+ dquote +:+ "auto:<freq_hz>" +:+ dquote +:+
             ", or " +:+ dquote +:+ "<channelmap>:<N>" +:+ dquote)
         | Some _ => None
         end
  else if str_eq leaf "program" then None
  else if str_eq leaf "filter" then
    if str_eq value "none" || str_eq value "" then None
    else match pid_filter_parse (Some value) with
         | None => Some ("ERROR: expected " +:+ dquote +:+ "none" +:+ dquote +:+ " or " +:+ dquote +:+ "0x<nnnn>[-0x<nnnn>] ..." +:+ dquote)
         | Some _ => None
         end
  else if str_eq leaf "target" then
    if str_eq value "none" then None
    else match parse_udp_target value 64 with
         | None => Some ("ERROR: expected " +:+ dquote +:+ "none" +:+ dquote +:+ " or " +:+ dquote +:+ "udp://ip:port" +:+ dquote)
         | Some _ => None
         end
  else if str_eq leaf "lockkey" then None
  else Some unknown_error.

Section Sets.
Context (h : handler (list Z)) (se : list Z -> sect_env) (fuel : nat) (fd : Z) (i : nat) (name : string).

(** Claim C31: a refused setting changes nothing: the handler sends the error of
    the parameter and leaves the tuner, the table and the streams as they were. *)
Theorem rejected_set_changes_nothing (w : world) (log : list Z) (t : hdhr_tuner) (leaf value msg : string) :
  records h -> w_tuners w !! i = Some t -> rejected (w_db w) (channelmap t) leaf value = Some msg ->
  run h se (handle_tuner_set fuel fd i name leaf value) w log =
    Some (tt, w, log ++ reply_frame name HDHR_TAG_ERROR_MESSAGE msg).
Proof.
  intros Hh Ht Hr. unfold rejected in Hr. unfold handle_tuner_set.
  destruct (str_eq leaf "channelmap").
  { unfold set_channelmap, valid_map in *. destruct (str_eq value "us-bcast"); [done|].
    destruct (ChannelMap.channel_map_find value); [done|]. cbn [orb] in Hr. injection Hr as <-. by apply run_error_reply. }
  destruct (str_eq leaf "vchannel").
  { unfold set_vchannel. destruct (scan_vchannel value) as [[ma mi]|]; [|injection Hr as <-; by apply run_error_reply].
    rewrite run_bind. unfold db_get. rewrite run_db_sect. cbn [fst snd]. replace (w <| w_db := w_db w |>) with w by (by destruct w).
    destruct (find_channel (w_db w) ma mi) eqn:E; [done|]. apply find_ptr_none in E. rewrite E. injection Hr as <-. by apply run_error_reply. }
  destruct (str_eq leaf "channel").
  { unfold set_channel. destruct (str_eq value "none"); [done|]. rewrite run_bind, (run_tun_get _ _ _ _ _ _ t) by done. cbv zeta.
    destruct (parse_channel_value _ value); [done|]. injection Hr as <-. by apply run_error_reply. }
  destruct (str_eq leaf "program"); [done|].
  destruct (str_eq leaf "filter").
  { unfold set_filter. destruct (_ || _); [done|]. destruct (pid_filter_parse (Some value)); [done|]. injection Hr as <-. by apply run_error_reply. }
  destruct (str_eq leaf "target").
  { unfold set_target. destruct (str_eq value "none"); [done|]. destruct (parse_udp_target value 64) as [[ip port]|]; [done|].
    injection Hr as <-. by apply run_error_reply. }
  destruct (str_eq leaf "lockkey"); [done|]. injection Hr as <-. by apply run_error_reply.
Qed.

(** *** Reading back *)

Lemma map_name_short v : valid_map v = true -> (String.length v < 16)%nat.
Proof.
  unfold valid_map, str_eq. intros H. apply orb_true_iff in H as [H|H]; [apply bool_decide_eq_true in H as ->; simpl; lia|].
  destruct (ChannelMap.channel_map_find v) as [m|] eqn:E; [|done]. apply find_in_table in E as [Hm Hn]. apply bool_decide_eq_true in Hn as <-.
  assert (Hall : forallb (fun m => (String.length (ChannelMap.name m) <? 16)%nat) ChannelMap.maps = true) by reflexivity.
  rewrite forallb_forall in Hall. by apply Nat.ltb_lt, Hall.
Qed.

(** A read of a leaf other than the status leaves the stream as it is. *)
Lemma run_get_other w log t leaf v : records h -> w_tuners w !! i = Some t ->
  (forall s, active_stream t = Some s -> is_Some (w_streams w !! s)) ->
  (forall now st, tuner_value now (w_db w) st t leaf = (Some v, st)) ->
  run h se (handle_tuner_get fd i name leaf) w log = Some (tt, w, log ++ reply_frame name HDHR_TAG_GETSET_VALUE v).
Proof.
  intros Hh Ht Hst Hv. unfold handle_tuner_get. rewrite run_bind. unfold tuner_get_section, sect. cbn [run]. rewrite Ht.
  destruct (active_stream t) as [s|].
  - destruct (Hst s eq_refl) as [st Hs]. rewrite Hs, Hv. cbn [default].
    replace (w <| w_streams ::= <[s := st]> |>) with w; [by apply run_value_reply|]. destruct w. cbv [upd]. cbn in *. by rewrite insert_id.
  - rewrite Hv. cbn [fst]. by apply run_value_reply.
Qed.

(** What the two halves of the theorem share. *)
Lemma set_then_get (p : prog unit) w w' t t' log log' leaf readback : records h ->
  w_tuners w !! i = Some t -> (forall s, active_stream t = Some s -> is_Some (w_streams w !! s)) ->
  tuner_only i w w' t' -> active_stream t' = active_stream t ->
  run h se p w log = Some (tt, w', log') ->
  (forall now st, tuner_value now (w_db w) st t' leaf = (Some readback, st)) ->
  exists w', run h se p w log = Some (tt, w', log') /\
    (forall l, run h se (handle_tuner_get fd i name leaf) w' l = Some (tt, w', l ++ reply_frame name HDHR_TAG_GETSET_VALUE readback)) /\
    (forall j, j <> i -> w_tuners w' !! j = w_tuners w !! j) /\ w_db w' = w_db w /\ w_streams w' = w_streams w.
Proof.
  intros Hh Ht Hst Ho Ha Hr Hv. exists w'. split; [exact Hr|]. split; [|split; [|by destruct Ho]].
  - intros l. apply (run_get_other w' l t'); [done|by eapply tuner_only_lookup| |].
    + rewrite Ha. destruct Ho as [_ _ ->]. exact Hst.
    + destruct Ho as [_ -> _]. exact Hv.
  - intros j. by eapply tuner_only_other.
Qed.

(** Stopping the push and closing the hold, then one section: the sets that
    give the tuner up. *)
Lemma run_give_up (f : hdhr_tuner -> hdhr_tuner) reply w t log : records h -> w_tuners w !! i = Some t ->
  exists w' t0, run h se (udp_push_stop i ;; tuner_close_hold i ;; tun_set i f ;; send_value_reply fd name reply) w log =
      Some (tt, w', log ++ reply_frame name HDHR_TAG_GETSET_VALUE reply) /\
    tuner_only i w w' (f t0) /\ active_stream t0 = active_stream t.
Proof.
  intros Hh Ht. destruct (run_push_stop h se i w log t Hh Ht) as (w1 & Hr1 & Ho1).
  pose proof (tuner_only_lookup _ _ _ _ _ Ht Ho1) as Ht1.
  destruct (run_close_hold h se i w1 log _ Hh Ht1) as (w2 & t2 & Hr2 & Ho2 & Ha2). pose proof (tuner_only_lookup _ _ _ _ _ Ht1 Ho2) as Ht2.
  destruct (run_set_only h se i f w2 log t2 Ht2) as (w3 & Hr3 & Ho3). exists w3, t2. split; [|split].
  - by rewrite run_bind, Hr1, run_bind, Hr2, run_bind, Hr3, run_value_reply.
  - eapply tuner_only_trans; [exact Ho1|]. eapply tuner_only_trans; [exact Ho2|exact Ho3].
  - rewrite Ha2. unfold push_stop_section. cbn [snd]. by destruct (udp_push_active t).
Qed.

Lemma run_simple_set (f : hdhr_tuner -> hdhr_tuner) reply w t log : records h -> w_tuners w !! i = Some t ->
  exists w', run h se (tun_set i f ;; send_value_reply fd name reply) w log =
      Some (tt, w', log ++ reply_frame name HDHR_TAG_GETSET_VALUE reply) /\ tuner_only i w w' (f t).
Proof.
  intros Hh Ht. destruct (run_set_only h se i f w log t Ht) as (w1 & Hr1 & Ho1). exists w1. split; [|exact Ho1].
  by rewrite run_bind, Hr1, run_value_reply.
Qed.

(** The filter: removed, or stored as it was given. *)
Lemma set_filter_reads_back w log t value reply readback : records h -> w_tuners w !! i = Some t ->
  (forall s, active_stream t = Some s -> is_Some (w_streams w !! s)) -> (String.length value < 192)%nat ->
  (if str_eq value "none" || str_eq value "" then Some ("none"%string, compute_auto_filter (w_db w) t 512)
   else match pid_filter_parse (Some value) with Some _ => Some (value, value) | None => None end) = Some (reply, readback) ->
  exists w', run h se (set_filter fd i name value) w log =
      Some (tt, w', log ++ reply_frame name HDHR_TAG_GETSET_VALUE reply) /\
    (forall l, run h se (handle_tuner_get fd i name "filter") w' l = Some (tt, w', l ++ reply_frame name HDHR_TAG_GETSET_VALUE readback)) /\
    (forall j, j <> i -> w_tuners w' !! j = w_tuners w !! j) /\ w_db w' = w_db w /\ w_streams w' = w_streams w.
Proof.
  intros Hh Ht Hst Hl Ha. unfold set_filter. destruct (str_eq value "none" || str_eq value "") eqn:E.
  - injection Ha as <- <-. destruct (run_simple_set (fun t => t <| filter_override := "" |>) "none" w t log Hh Ht) as (w' & Hr & Ho).
    exact (set_then_get _ w w' t _ _ _ "filter" _ Hh Ht Hst Ho eq_refl Hr (fun _ _ => eq_refl)).
  - destruct (pid_filter_parse (Some value)) eqn:Ep; [|done]. injection Ha as <- <-.
    destruct (run_simple_set (fun t => t <| filter_override := snprintf 256 value |>) value w t log Hh Ht) as (w' & Hr & Ho).
    apply (set_then_get _ w w' t _ _ _ "filter" _ Hh Ht Hst Ho eq_refl Hr).
    intros now st. transitivity (Some (match snprintf 256 value with EmptyString => compute_auto_filter (w_db w)
      (t <| filter_override := snprintf 256 value |>) 512 | f => f end), st); [reflexivity|].
    rewrite (snprintf_fits 256 value) by lia. by destruct value.
Qed.

(** Claim C30: an accepted setting is answered and then read back.  Whatever the
    tuner does and whatever the environment answers, the setting touches no
    other tuner, not the channel table and no stream, and a read gives the value
    set: the channel map, "none" for a deselected channel or target, the number
    of the program, the filter or the one computed when none is set, the lock key. *)
Theorem accepted_set_reads_back (w : world) (log : list Z) (t : hdhr_tuner) (leaf value reply readback : string) :
  records h -> w_tuners w !! i = Some t -> (forall s, active_stream t = Some s -> is_Some (w_streams w !! s)) ->
  (String.length value < 192)%nat -> accepted (w_db w) t leaf value = Some (reply, readback) ->
  exists w', run h se (handle_tuner_set fuel fd i name leaf value) w log =
      Some (tt, w', log ++ reply_frame name HDHR_TAG_GETSET_VALUE reply) /\
    (forall l, run h se (handle_tuner_get fd i name leaf) w' l = Some (tt, w', l ++ reply_frame name HDHR_TAG_GETSET_VALUE readback)) /\
    (forall j, j <> i -> w_tuners w' !! j = w_tuners w !! j) /\ w_db w' = w_db w /\ w_streams w' = w_streams w.
Proof.
  intros Hh Ht Hst Hl Ha. unfold accepted, str_eq in Ha.
  destruct (bool_decide_reflect (leaf = "channelmap"%string)) as [->|N1].
  { destruct (valid_map value) eqn:Hv; [|done]. injection Ha as <- <-. pose proof (map_name_short value Hv) as Hs.
    destruct (run_give_up (fun t => deselect (t <| channelmap := snprintf 16 value |>)) value w t log Hh Ht) as (w' & t0 & Hr & Ho & Ha).
    apply (set_then_get _ w w' t _ log _ _ _ Hh Ht Hst Ho Ha).
    - unfold handle_tuner_set. cbn [str_eq]. unfold set_channelmap. unfold valid_map in Hv.
      destruct (str_eq value "us-bcast"), (ChannelMap.channel_map_find value); first [exact Hr|done].
    - intros now st. transitivity (Some (snprintf 16 value), st); [reflexivity|]. by rewrite (snprintf_fits 16 value Hs). }
  destruct (bool_decide_reflect (leaf = "channel"%string)) as [->|N2].
  { destruct (bool_decide_reflect (value = "none"%string)) as [->|]; [|done]. injection Ha as <- <-.
    destruct (run_give_up deselect "none" w t log Hh Ht) as (w' & t0 & Hr & Ho & Ha).
    exact (set_then_get _ w w' t _ log _ "channel" _ Hh Ht Hst Ho Ha Hr (fun _ _ => eq_refl)). }
  destruct (bool_decide_reflect (leaf = "program"%string)) as [->|N3].
  { injection Ha as <- <-.
    destruct (run_simple_set (fun t => t <| program := atoi value |> <| filter_override := "" |>) value w t log Hh Ht) as (w' & Hr & Ho).
    exact (set_then_get _ w w' t _ log _ "program" _ Hh Ht Hst Ho eq_refl Hr (fun _ _ => eq_refl)). }
  destruct (bool_decide_reflect (leaf = "filter"%string)) as [->|N4].
  { change (handle_tuner_set fuel fd i name "filter" value) with (set_filter fd i name value). by apply (set_filter_reads_back w log t). }
  destruct (bool_decide_reflect (leaf = "target"%string)) as [->|N5].
  { destruct (bool_decide_reflect (value = "none"%string)) as [->|]; [|done]. injection Ha as <- <-.
    destruct (run_push_stop h se i w log t Hh Ht) as (w1 & Hr1 & Ho1). pose proof (tuner_only_lookup _ _ _ _ _ Ht Ho1) as Ht1.
    destruct (run_simple_set (fun t => t <| target := snprintf 64 "none" |>) "none" w1 _ log Hh Ht1) as (w2 & Hr2 & Ho2).
    apply (set_then_get _ w w2 t _ log (log ++ reply_frame name HDHR_TAG_GETSET_VALUE "none") "target" _ Hh Ht Hst (tuner_only_trans _ _ _ _ _ _ Ho1 Ho2)).
    - unfold push_stop_section. cbn [snd]. by destruct (udp_push_active t).
    - change (handle_tuner_set fuel fd i name "target" "none") with (udp_push_stop i ;;
        tun_set i (fun t => t <| target := snprintf 64 "none" |>) ;; send_value_reply fd name "none"). by rewrite run_bind, Hr1.
    - reflexivity. }
  destruct (bool_decide_reflect (leaf = "lockkey"%string)) as [->|N6]; [|done].
  injection Ha as <- <-.
  destruct (run_simple_set (fun t => t <| lockkey := if str_eq value "none" then 0 else u32 (strtoul 0 value) |>) value w t log Hh Ht) as (w' & Hr & Ho).
  exact (set_then_get _ w w' t _ log _ "lockkey" _ Hh Ht Hst Ho eq_refl Hr (fun _ _ => eq_refl)).
Qed.
End Sets.

(** *** Witnesses *)

Definition quiet : handler (list Z) := fun q =>
  match q return list Z -> answer q * list Z with
  | QSend _ data => fun s => (Z.of_nat (length data), s ++ data)
  | q => fun s => (idle_answer q, s)
  end.
Definition one_tuner : world :=
  {| w_tuners := tuner_pool_init 1 (config_defaults 1); w_db := []; w_streams := ∅; w_fds := ∅; w_8vsb_override := "none"; w_files := ∅; w_start_time := 0 |}.

Lemma quiet_records : records quiet.
Proof. by split. Qed.

Lemma accepted_set_reads_back_witness : exists w',
  run quiet (fun _ => calm time0) (handle_tuner_set 1 5 0 "/tuner0/channelmap" "channelmap" "us-cable") one_tuner [] =
    Some (tt, w', reply_frame "/tuner0/channelmap" HDHR_TAG_GETSET_VALUE "us-cable") /\
  run quiet (fun _ => calm time0) (handle_tuner_get 5 0 "/tuner0/channelmap" "channelmap") w' [] =
    Some (tt, w', reply_frame "/tuner0/channelmap" HDHR_TAG_GETSET_VALUE "us-cable").
Proof.
  destruct (w_tuners one_tuner !! 0%nat) as [t|] eqn:Ht; [|discriminate Ht].
  destruct (accepted_set_reads_back quiet (fun _ => calm time0) 1 5 0 "/tuner0/channelmap" one_tuner [] t "channelmap" "us-cable" "us-cable" "us-cable")
    as (w' & H1 & H2 & _).
  - apply quiet_records.
  - exact Ht.
  - intros s Hs. vm_compute in Ht. injection Ht as <-. discriminate Hs.
  - simpl. lia.
  - reflexivity.
  - exists w'. split; [exact H1|exact (H2 [])].
Defined.

Lemma rejected_set_changes_nothing_witness :
  run quiet (fun _ => calm time0) (handle_tuner_set 1 5 0 "/tuner0/target" "target" "udp://10.0.0.2:70000") one_tuner [] =
    Some (tt, one_tuner, reply_frame "/tuner0/target" HDHR_TAG_ERROR_MESSAGE
      ("ERROR: expected " +:+ dquote +:+ "none" +:+ dquote +:+ " or " +:+ dquote +:+ "udp://ip:port" +:+ dquote)).
Proof.
  destruct (w_tuners one_tuner !! 0%nat) as [t|] eqn:Ht; [|discriminate Ht].
  apply (rejected_set_changes_nothing quiet (fun _ => calm time0) 1 5 0 "/tuner0/target" one_tuner [] t "target" "udp://10.0.0.2:70000").
  - apply quiet_records.
  - exact Ht.
  - vm_compute. reflexivity.
Defined.
