(* ===== verification/GetsetClient.v ===== *)
(** The loopback client of the control protocol: src/src/getset_client.c.

    The web pages reach the tuners through it.  The caller's buffers are given by
    their sizes; a reply or a message is the text that fits.  The server's buffers
    bound what it reads of a request ([getset_roundtrip]).  Socket options are not
    modelled. *)
From stdpp Require Import gmultiset.
From S2P Require Import Prelude RecordUpd Pkt CLib ChannelDb Config Stats Ring Tuner Sys Own Rules Frontend Exec Push.
From S2P Require Import ControlText Control.
Import Pkt.

(** The request, sealed. *)
Definition request_frame (name : string) (value : option string) : list Z :=
  let p := hdhr_pkt_write_tlv_str hdhr_pkt_start_frame HDHR_TAG_GETSET_NAME (str_bytes name) in
  let p := match value with Some v => hdhr_pkt_write_tlv_str p HDHR_TAG_GETSET_VALUE (str_bytes v) | None => p end in
  match hdhr_pkt_seal_frame p HDHR_TYPE_GETSET_REQ with
  | Some (len, p) => take len (buffer p)
  | None => []
  end.

(** The last value and the last error message of a reply. *)
Record reply_tlvs := { found_value : option (list Z); found_error : option (list Z) }.
Definition reply_tlv (r : reply_tlvs) (tag : Z) (v : list Z) : reply_tlvs :=
  if tag =? HDHR_TAG_GETSET_VALUE then {| found_value := Some v; found_error := found_error r |}
  else if tag =? HDHR_TAG_ERROR_MESSAGE then {| found_value := found_value r; found_error := Some v |}
  else r.

(** [memcpy] of at most [len - 1] bytes and a terminator. *)
Definition copy_text (len : nat) (v : list Z) : string := cstr (bytes_str (take (len - 1) v)).

(** inl: false, with what is left in the error buffer; inr: true, and the reply. *)
Definition read_reply (reply_len err_len : nat) (frame : list Z) : string + string :=
  let err (msg : string) := inl (snprintf err_len msg) in
  match hdhr_pkt_open_frame hdhr_pkt_init frame with
  | None => err "malformed reply (bad CRC)"
  | Some (pkt, frame_type) =>
      if negb (frame_type =? HDHR_TYPE_GETSET_RPY) then err "unexpected reply frame type"
      else match fold_tlvs reply_tlv {| found_value := None; found_error := None |} pkt with
           | Some (r, TlvEnd) =>
               match found_error r, found_value r with
               | Some e, _ => inl (copy_text err_len e)
               | None, Some v => inr (copy_text reply_len v)
               | None, None => err "reply had neither VALUE nor ERROR_MESSAGE"
               end
           | _ => err "malformed reply TLVs"
           end
  end.

(** [inet_pton(AF_INET, "127.0.0.1")] *)
Definition INADDR_LOOPBACK : Z := ipv4 127 0 0 1.

Definition getset_client_call (name : string) (value : option string) (reply_len err_len : nat) : prog (string + string) :=
  let err (msg : string) : string + string := inl (snprintf err_len msg) in
  fd <- env (QSocket SOCK_STREAM) ;;
  if (fd : Z) <? 0 then Ret (err "socket() failed")
  else
    r <- env (QConnect fd INADDR_LOOPBACK HDHR_CONTROL_TCP_PORT) ;;
    if (r : Z) <? 0 then env (QCloseSock fd) ;; Ret (err "connect to control port failed")
    else
    let req := request_frame name value in
    n <- env (QSend fd req) ;;
    if negb ((n : Z) =? Z.of_nat (length req)) then env (QCloseSock fd) ;; Ret (err "write to control port failed")
    else
      header <- read_full fd 4 ;;
      match header with
      | Some (([_; _; b2; b3]) as header) =>
          let paylen := Z.to_nat (Z.lor (Z.shiftl b2 8) b3) in
          if (HDHR_MAX_PACKET_SIZE <? 4 + paylen + 4)%nat then env (QCloseSock fd) ;; Ret (err "reply too large")
          else
            rest <- read_full fd (paylen + 4) ;;
            match rest with
            | Some rest =>
                if (length rest =? paylen + 4)%nat then
                  env (QCloseSock fd) ;; Ret (read_reply reply_len err_len (header ++ rest))
                else env (QCloseSock fd) ;; Ret (err "truncated reply from control port")
            | None => env (QCloseSock fd) ;; Ret (err "truncated reply from control port")
            end
      | _ => env (QCloseSock fd) ;; Ret (err "no reply from control port (timeout?)")
      end.

(** What is left in the caller's buffers fits them. *)
Definition client_fits (reply_len err_len : nat) (r : string + string) : Prop :=
  match r with inl e => (String.length e <= err_len - 1)%nat | inr v => (String.length v <= reply_len - 1)%nat end.

Lemma length_copy_text len v : (String.length (copy_text len v) <= len - 1)%nat.
Proof.
  unfold copy_text. assert (Hc : forall s, (String.length (cstr s) <= String.length s)%nat).
  { intros s. unfold cstr. induction s as [|c s IH]; [done|]. cbn [take_while]. destruct (negb _); simpl; lia. }
  etransitivity; [apply Hc|]. clear Hc. revert v. generalize (len - 1)%nat. clear len. intros n. unfold bytes_str.
  induction n as [|n IH]; intros [|b v]; cbn; [lia..|]. specialize (IH v). cbn in IH. lia.
Qed.

Lemma read_reply_fits rl el frame : client_fits rl el (read_reply rl el frame).
Proof.
  unfold read_reply. cbv zeta. destruct (hdhr_pkt_open_frame _ _) as [[pkt ty]|]; [|apply length_str_take].
  destruct (negb _); [apply length_str_take|]. destruct (fold_tlvs _ _ _) as [[r [| |]]|]; try apply length_str_take.
  destruct (found_error r); [apply length_copy_text|]. destruct (found_value r); [apply length_copy_text|apply length_str_take].
Qed.

Section Specs.
Context (cfg : hdhr_config).
Local Notation wp := (wp cfg).

Lemma wp_getset_client_call name value rl el R (Q : string + string -> toks -> Prop) :
  (forall r, client_fits rl el r -> Q r R) -> wp (getset_client_call name value rl el) R Q.
Proof.
  intros HQ. unfold getset_client_call. cbv zeta.
  assert (Hr : forall fd r, client_fits rl el r -> wp (env (QCloseSock fd) ;; Ret r) R Q).
  { intros fd r Hr. wp_step. apply wp_close_sock. by apply wp_ret, HQ. }
  assert (Hc : forall fd msg, wp (env (QCloseSock fd) ;; Ret (inl (snprintf el msg))) R Q) by (intros fd msg; apply Hr, length_str_take).
  wp_step. wp_step. destruct (a <? 0); [apply wp_ret, HQ, length_str_take|]. wp_step. wp_step. destruct (a0 <? 0); [apply Hc|].
  wp_step. wp_step. destruct (negb _); [apply Hc|].
  wp_step. apply wp_read_full. intros [h|]; [|apply Hc]. destruct h as [|b0 [|b1 [|b2 [|b3 [|b4 h]]]]]; try apply Hc.
  destruct (_ <? _)%nat; [apply Hc|]. wp_step. apply wp_read_full. intros [r|]; [|apply Hc].
  destruct (_ =? _)%nat; [apply Hr, read_reply_fits|apply Hc].
Qed.
End Specs.

(** ** Client and server agree *)

Definition no_nul (s : string) : Prop := str_forall (fun c => negb (code c =? 0)) s = true.
#[export] Instance no_nul_dec s : Decision (no_nul s).
Proof. unfold no_nul. apply _. Defined.

Lemma no_nul_cons c s : no_nul (String c s) -> code c <> 0 /\ no_nul s.
Proof. unfold no_nul. cbn [str_forall]. intros H. apply andb_true_iff in H as [H1 H2]. by apply negb_true_iff, Z.eqb_neq in H1. Qed.

Lemma str_bytes_cons c s : str_bytes (String c s) = code c :: str_bytes s.
Proof. done. Qed.

Lemma cstr_take k s : no_nul s -> cstr (bytes_str (take k (str_bytes s ++ [0]))) = str_take k s.
Proof.
  revert k. induction s as [|c s IH]; intros k Hs.
  - destruct k as [|k]; [done|]. simpl. by rewrite take_nil.
  - destruct k as [|k]; [done|]. apply no_nul_cons in Hs as [Hc Hs]. rewrite str_bytes_cons. cbn [app take str_take].
    unfold bytes_str. cbn [fmap list_fmap String.string_of_list_ascii]. rewrite chr_code. unfold cstr. cbn [take_while].
    rewrite (proj2 (negb_true_iff _)) by (by apply Z.eqb_neq). f_equal. by apply IH.
Qed.

Lemma cstr_str s : no_nul s -> cstr (bytes_str (str_bytes s ++ [0])) = s.
Proof.
  intros Hs. pose proof (cstr_take (S (String.length s)) s Hs) as H.
  rewrite take_ge in H by (rewrite length_app, length_str_bytes; simpl; lia). by rewrite H, str_take_all by lia.
Qed.

Lemma copy_text_str len s : no_nul s -> copy_text len (str_bytes s ++ [0]) = snprintf len s.
Proof. intros Hs. unfold copy_text, snprintf. by apply cstr_take. Qed.

(** One or two string TLVs, sealed, opened and folded. *)
Lemma string_tlvs {S} (body : S -> Z -> list Z -> S) (s : S) t (l : list (Z * string)) :
  is_u16 t -> Forall (fun x => is_byte x.1) l -> (Forall (fun x => (String.length x.2 <= 1000)%nat) l) -> (length l <= 2)%nat ->
  exists n p r,
    hdhr_pkt_seal_frame (fold_left (fun p x => hdhr_pkt_write_tlv_str p x.1 (str_bytes x.2)) l hdhr_pkt_start_frame) t = Some (n, p) /\
    hdhr_pkt_open_frame hdhr_pkt_init (take n (buffer p)) = Some (r, t) /\
    fold_tlvs body s r = Some (fold_left (fun s x => body s x.1 (str_bytes x.2 ++ [0])) l s, TlvEnd).
Proof.
  intros Ht Htag Hlen Hn. set (tl := (fun x : Z * string => (x.1, str_bytes x.2 ++ [0])) <$> l).
  assert (Hfl : forall A (f : A -> Z * list Z -> A) (a : A), fold_left f tl a = fold_left (fun a x => f a (x.1, str_bytes x.2 ++ [0])) l a).
  { intros A f. unfold tl. clear. induction l as [|x l IH]; intros a; [done|]. cbn [fmap list_fmap fold_left]. apply IH. }
  destruct (PktFacts.sealed_tlvs body s t tl hdhr_pkt_init) as (n & p & r & Hs & _ & Ho & Hf); [done| | |done|].
  - unfold tl. apply Forall_fmap, Forall_forall. intros x Hx. rewrite Forall_forall in Htag, Hlen.
    apply str_tlv_ok; [by apply Htag|by apply Hlen].
  - assert (length (PktFacts.tlvs_bytes tl) <= length l * 1004)%nat; [|unfold HDHR_PKT_BUFFER_SIZE; lia].
    unfold tl. clear -Hlen. induction Hlen as [|x l Hx _ IH]; [simpl; lia|].
    unfold PktFacts.tlvs_bytes in *. cbn [fmap list_fmap map concat fst snd length]. rewrite length_app.
    pose proof (length_tlv_bytes x.1 (str_bytes x.2 ++ [0])) as H. rewrite length_app, length_str_bytes in H. cbn [length] in H. lia.
  - exists n, p, r. unfold PktFacts.write_tlvs in Hs. rewrite Hfl in Hs, Hf. done.
Qed.

Lemma reply_text tag name reply rl el :
  tag = HDHR_TAG_GETSET_VALUE \/ tag = HDHR_TAG_ERROR_MESSAGE ->
  no_nul reply -> (String.length name <= 1000)%nat -> (String.length reply <= 1000)%nat ->
  read_reply rl el (reply_frame name tag reply) =
    if tag =? HDHR_TAG_GETSET_VALUE then inr (snprintf rl reply) else inl (snprintf el reply).
Proof.
  intros Htag Hr Hln Hlr.
  destruct (string_tlvs reply_tlv {| found_value := None; found_error := None |} HDHR_TYPE_GETSET_RPY
    [(HDHR_TAG_GETSET_NAME, name); (tag, reply)]) as (n & p & r & Hs & Ho & Hf).
  - done.
  - by destruct Htag as [-> | ->]; repeat constructor.
  - constructor; [exact Hln|constructor; [exact Hlr|constructor]].
  - simpl. lia.
  - cbn [fold_left fst snd] in Hs. unfold reply_frame. rewrite Hs. unfold read_reply. rewrite Ho, Hf.
    cbn [fold_left fst snd]. destruct Htag as [-> | ->]; cbn; by rewrite copy_text_str.
Qed.

(** The server takes a text that fits its buffer with the terminator. *)
Definition taken (size : nat) (s : string) : option string := if (String.length s + 1 <? size)%nat then Some s else None.

Lemma taken_if size n s : size = (n + 2)%nat -> taken size s = if (String.length s <=? n)%nat then Some s else None.
Proof.
  intros ->. unfold taken. destruct (Nat.ltb_spec (String.length s + 1) (n + 2)), (Nat.leb_spec (String.length s) n); done || lia.
Qed.

Lemma getset_tlv_name g name : no_nul name ->
  getset_tlv g HDHR_TAG_GETSET_NAME (str_bytes name ++ [0]) =
    match taken 128 name with Some n => {| gs_name := Some n; gs_value := gs_value g |} | None => g end.
Proof.
  intros Hn. unfold getset_tlv, taken. rewrite Z.eqb_refl, length_app, length_str_bytes. cbn [length].
  rewrite (proj2 (Nat.ltb_lt 0 _)) by lia. cbn [andb]. destruct (_ <? 128)%nat; [by rewrite cstr_str|done].
Qed.

Lemma getset_tlv_value g v : no_nul v ->
  getset_tlv g HDHR_TAG_GETSET_VALUE (str_bytes v ++ [0]) =
    match taken 192 v with Some v => {| gs_name := gs_name g; gs_value := Some v |} | None => g end.
Proof.
  intros Hn. unfold getset_tlv, taken. change (HDHR_TAG_GETSET_VALUE =? HDHR_TAG_GETSET_NAME) with false.
  rewrite Z.eqb_refl, length_app, length_str_bytes. cbn [andb length]. destruct (_ <? 192)%nat; [by rewrite cstr_str|done].
Qed.

(** Claim C33: what one side of the control protocol seals is what the other side
    reads, within the server's buffers.  For texts without NUL of at most 1000
    bytes: a request with a name of at most 126 bytes is read as that name and, if
    the value has at most 190 bytes, that value; a longer value is dropped, so the
    request is read as a query for the parameter it meant to set; a request with
    a longer name is ignored.  A value or error reply reaches the client's
    buffer, cut to its size. *)
Theorem getset_roundtrip (name : string) (value : option string) (reply : string) (rl el : nat) :
  no_nul name -> (String.length name <= 1000)%nat ->
  (match value with Some v => no_nul v /\ (String.length v <= 1000)%nat | None => True end) ->
  no_nul reply -> (String.length reply <= 1000)%nat ->
  parse_request (request_frame name value) =
    (if (String.length name <=? 126)%nat then
       Request name (match value with Some v => if (String.length v <=? 190)%nat then Some v else None | None => None end)
     else IgnoreFrame) /\
  read_reply rl el (reply_frame name HDHR_TAG_GETSET_VALUE reply) = inr (snprintf rl reply) /\
  read_reply rl el (reply_frame name HDHR_TAG_ERROR_MESSAGE reply) = inl (snprintf el reply).
Proof.
  intros Hn Hln Hv Hr Hlr.
  split; [|split].
  - set (l := (HDHR_TAG_GETSET_NAME, name) :: match value with Some v => [(HDHR_TAG_GETSET_VALUE, v)] | None => [] end).
    destruct (string_tlvs getset_tlv {| gs_name := None; gs_value := None |} HDHR_TYPE_GETSET_REQ l) as (n & p & r & Hs & Ho & Hf).
    + done.
    + unfold l. destruct value; repeat constructor; done.
    + unfold l. constructor; [simpl; lia|]. destruct value as [v|]; [|constructor]. constructor; [simpl; lia|constructor].
    + unfold l. destruct value; simpl; lia.
    + assert (Hreq : request_frame name value = take n (buffer p)).
      { unfold request_frame, l in *. destruct value; cbn [fold_left fst snd] in Hs; rewrite Hs; done. }
      unfold parse_request. rewrite Hreq, Ho, Hf. unfold l. cbn [fold_left fst snd].
      rewrite getset_tlv_name by done. change (HDHR_TYPE_GETSET_REQ =? HDHR_TYPE_GETSET_REQ) with true. cbn [negb].
      rewrite (taken_if 128 126 name) by done. destruct value as [v|]; cbn [fold_left fst snd]; [|by destruct (_ <=? _)%nat].
      destruct Hv as [Hv _]. rewrite getset_tlv_value, (taken_if 192 190 v) by done. by destruct (_ <=? 126)%nat, (_ <=? 190)%nat.
  - rewrite reply_text; [done|by left|done|lia|done].
  - rewrite reply_text; [done|by right|done|lia|done].
Qed.

Lemma getset_roundtrip_witness :
  parse_request (request_frame "/tuner0/channel" (Some "auto:7"%string)) = Request "/tuner0/channel" (Some "auto:7"%string) /\
  read_reply 192 128 (reply_frame "/tuner0/channel" HDHR_TAG_GETSET_VALUE "8vsb:177000000") = inr "8vsb:177000000"%string.
Proof.
  destruct (getset_roundtrip "/tuner0/channel" (Some "auto:7"%string) "8vsb:177000000" 192 128) as (H1 & H2 & _).
  - reflexivity.
  - apply Nat.leb_le. vm_compute. reflexivity.
  - split; [reflexivity|apply Nat.leb_le; vm_compute; reflexivity].
  - reflexivity.
  - simpl. lia.
  - split; [exact H1|exact H2].
Defined.

(** ** Frames from a byte stream *)

(** A connection that delivers a stream in chunks of any size, then its end. *)
Record delivers (h : handler (list Z)) (fd : Z) : Prop := {
  del_data : forall n l, 0 < n -> l <> [] ->
    exists k, (0 < k <= Z.to_nat n)%nat /\ (k <= length l)%nat /\ h (QRecv fd n) l = (ReadData (take k l), drop k l);
  del_end : forall n, h (QRecv fd n) [] = (ReadData [], [])
}.

Section Frames.
Context (h : handler (list Z)) (se : list Z -> sect_env) (fd : Z) (w : world) (Hd : delivers h fd).

Lemma run_read_full_loop len fuel got l :
  (length got <= len)%nat -> (len - length got <= fuel)%nat ->
  run h se (read_full_loop fuel fd len got) w l =
    Some (Some (got ++ take (len - length got) l), w, drop (len - length got) l).
Proof using Hd.
  revert got l. induction fuel as [|fuel IH]; intros got l Hg Hf; cbn [read_full_loop];
    (destruct (len <=? length got)%nat eqn:E; [apply Nat.leb_le in E; replace (len - length got)%nat with 0%nat by lia;
       rewrite take_0, drop_0, app_nil_r; done|apply Nat.leb_gt in E]); [lia|].
  rewrite run_bind, run_env_op. destruct (decide (l = [])) as [->|Hl].
  - rewrite (del_end _ _ Hd). cbn [env_world]. cbv iota beta. by rewrite take_nil, drop_nil, app_nil_r.
  - destruct (del_data _ _ Hd (Z.of_nat (len - length got)) l) as (k & Hk & Hkl & ->); [lia|done|].
    cbn [env_world]. cbv iota beta. rewrite Nat2Z.id in Hk.
    destruct (take k l) as [|b data] eqn:Et; [apply (f_equal length) in Et; rewrite length_take in Et; simpl in Et; lia|].
    rewrite <- Et. rewrite (take_ge (take k l)) by (rewrite length_take; lia).
    assert (Hlk : length (take k l) = k) by (rewrite length_take; lia).
    rewrite IH by (rewrite length_app, Hlk; lia). rewrite length_app, Hlk, drop_drop, <- app_assoc.
    replace (len - length got)%nat with (k + (len - (length got + k)))%nat by lia.
    by rewrite <- take_take_drop.
Qed.

Lemma run_read_full len l : run h se (read_full fd len) w l = Some (Some (take len l), w, drop len l).
Proof using Hd. unfold read_full. rewrite run_read_full_loop by (simpl; lia). simpl. by rewrite Nat.sub_0_r. Qed.

End Frames.

(** Claim C34: frames survive TCP.  However the network cuts the stream into
    chunks, the server reads exactly one frame and leaves the rest of the
    stream for the next; a stream that ends inside a frame ends the connection. *)
Theorem read_frame_reassembles (h : handler (list Z)) (se : list Z -> sect_env) (fd : Z) (w : world) (Hd : delivers h fd) (t : Z) (pl rest : list Z) :
  is_u16 t -> (4 + length pl + 4 <= HDHR_MAX_PACKET_SIZE)%nat ->
  let frame := PktFacts.frame_bytes t pl in
  run h se (read_frame fd) w (frame ++ rest) = Some (Some frame, w, rest) /\
  forall k, (k < length frame)%nat -> run h se (read_frame fd) w (take k frame) = Some (None, w, []).
Proof.
  intros Ht Hl. cbv zeta. set (frame := PktFacts.frame_bytes t pl).
  assert (Hlen : length frame = (4 + length pl + 4)%nat) by apply PktFacts.frame_bytes_length.
  assert (Hh : forall l, take 4 (frame ++ l) = [u8 (Z.shiftr t 8); u8 t; u8 (Z.shiftr (Z.of_nat (length pl)) 8); u8 (Z.of_nat (length pl))]) by done.
  assert (Hp : Z.to_nat (Z.lor (Z.shiftl (u8 (Z.shiftr (Z.of_nat (length pl)) 8)) 8) (u8 (Z.of_nat (length pl)))) = length pl).
  { rewrite PktFacts.be16_dec by apply u8_byte. rewrite PktFacts.u8_shiftr_be16; [lia|].
    unfold is_u16, HDHR_MAX_PACKET_SIZE in *. lia. }
  assert (Hf4 : take 4 frame ++ drop 4 frame = frame) by apply take_drop.
  unfold read_frame. split.
  - rewrite run_bind, (run_read_full _ _ _ _ Hd), Hh. cbv iota beta. cbn [length Nat.eqb negb].
    unfold byte_at. cbn [nth]. rewrite Hp. cbv zeta.
    rewrite (proj2 (Nat.ltb_ge _ _)) by lia. rewrite run_bind, (run_read_full _ _ _ _ Hd). cbv iota beta.
    replace (drop 4 (frame ++ rest)) with (drop 4 frame ++ rest) by done.
    assert (Hd4 : length (drop 4 frame) = (length pl + 4)%nat) by (rewrite length_drop; lia).
    rewrite <- Hd4, take_app_length, drop_app_length, Nat.eqb_refl. by rewrite <- (Hh []), app_nil_r, Hf4.
  - intros k Hk. rewrite run_bind, (run_read_full _ _ _ _ Hd). cbv iota beta.
    destruct (decide (k < 4)%nat).
    + rewrite take_ge by (rewrite length_take; lia). rewrite drop_ge by (rewrite length_take; lia).
      rewrite length_take. destruct (_ =? _)%nat eqn:E; [apply Nat.eqb_eq in E; lia|done].
    + rewrite take_take, Nat.min_l by lia. rewrite <- (app_nil_r frame), Hh. cbv iota beta. cbn [length Nat.eqb negb].
      unfold byte_at. cbn [nth]. rewrite Hp. cbv zeta.
      rewrite (proj2 (Nat.ltb_ge _ _)) by lia. rewrite run_bind, (run_read_full _ _ _ _ Hd). cbv iota beta. rewrite app_nil_r.
      assert (Hr : (length (drop 4 (take k frame)) < length pl + 4)%nat) by (rewrite length_drop, length_take; lia).
      set (r := drop 4 (take k frame)) in *. rewrite (take_ge r), (drop_ge r) by lia.
      destruct (_ =? _)%nat eqn:E; [apply Nat.eqb_eq in E; lia|done].
Qed.

(** A connection that delivers one byte at a time. *)
Definition drip : handler (list Z) := fun q =>
  match q return list Z -> answer q * list Z with
  | QRecv _ _ => fun l => (ReadData (take 1 l), drop 1 l)
  | q => fun l => (idle_answer q, l)
  end.

Lemma drip_delivers fd : delivers drip fd.
Proof.
  split; [|done]. intros n l Hn Hl. exists 1%nat. destruct l; [done|]. simpl. split; [lia|]. split; [lia|done].
Qed.

Lemma read_frame_reassembles_witness :
  run drip (fun _ => calm time0) (read_frame 5) {| w_tuners := []; w_db := []; w_streams := ∅; w_fds := ∅; w_8vsb_override := ""; w_files := ∅; w_start_time := 0 |}
    (PktFacts.sample_frame ++ [9; 9]) =
  Some (Some PktFacts.sample_frame,
    {| w_tuners := []; w_db := []; w_streams := ∅; w_fds := ∅; w_8vsb_override := ""; w_files := ∅; w_start_time := 0 |}, [9; 9]).
Proof.
  apply (read_frame_reassembles drip (fun _ => calm time0) 5 _ (drip_delivers 5) HDHR_TYPE_GETSET_REQ (PktFacts.tlvs_bytes PktFacts.sample_tlvs) [9; 9]).
  - unfold is_u16. vm_compute. split; [intros H; discriminate H|reflexivity].
  - apply Nat.leb_le. vm_compute. reflexivity.
Defined.

(** A value of 192 bytes or more is left out: the request then reads the
    parameter it meant to set. *)
Lemma long_value_reads :
  parse_request (request_frame "/tuner0/filter" (Some (bytes_str (replicate 192 48)))) = Request "/tuner0/filter" None.
Proof. vm_compute. reflexivity. Qed.
