(* ===== verification/Discovery.v ===== *)
(** Device discovery over UDP: src/src/discovery.c.

    One reply per request that names this device or a wildcard, nothing for any
    other datagram.  The address advertised is the configured one, the one of the
    route to the requester, or the loopback address.  What a request is, [for_us],
    is stated on bytes and decoded TLVs, apart from the code that decides it. *)
From stdpp Require Import gmultiset.
From S2P Require Import Prelude RecordUpd Pkt CLib ChannelDb Config Stats Ring Tuner Sys Own Rules Frontend ControlText.
Import Pkt PktFacts.

Definition be32_val (v : list Z) : Z :=
  Z.lor (Z.shiftl (byte_at v 0) 24) (Z.lor (Z.shiftl (byte_at v 1) 16) (Z.lor (Z.shiftl (byte_at v 2) 8) (byte_at v 3))).

(** What a request asks for: the device type and id. *)
Record discover_req := { req_device_type : Z; req_device_id : Z }.
Definition discover_tlv (r : discover_req) (tag : Z) (v : list Z) : discover_req :=
  if (tag =? HDHR_TAG_DEVICE_TYPE) && (length v =? 4)%nat then
    {| req_device_type := be32_val v; req_device_id := req_device_id r |}
  else if (tag =? HDHR_TAG_DEVICE_ID) && (length v =? 4)%nat then
    {| req_device_type := req_device_type r; req_device_id := be32_val v |}
  else r.

Definition discover_wanted (cfg : hdhr_config) (r : discover_req) : bool :=
  ((req_device_type r =? HDHR_DEVICE_TYPE_WILDCARD) || (req_device_type r =? HDHR_DEVICE_TYPE_TUNER)) &&
  ((req_device_id r =? HDHR_DEVICE_ID_WILDCARD) || (req_device_id r =? device_id cfg)).

(** Whether a datagram is a request to answer. *)
Definition discover_matches (cfg : hdhr_config) (data : list Z) : bool :=
  match hdhr_pkt_open_frame hdhr_pkt_init data with
  | None => false
  | Some (pkt, frame_type) =>
      if negb (frame_type =? HDHR_TYPE_DISCOVER_REQ) then false
      else match fold_tlvs discover_tlv {| req_device_type := HDHR_DEVICE_TYPE_WILDCARD; req_device_id := HDHR_DEVICE_ID_WILDCARD |} pkt with
           | Some (r, TlvEnd) => discover_wanted cfg r
           | _ => false
           end
  end.

Definition discover_reply (cfg : hdhr_config) (advertise_ip : string) : list Z :=
  let p := hdhr_pkt_write_tlv_u32 hdhr_pkt_start_frame HDHR_TAG_DEVICE_TYPE HDHR_DEVICE_TYPE_TUNER in
  let p := hdhr_pkt_write_tlv_u32 p HDHR_TAG_DEVICE_ID (device_id cfg) in
  let p := hdhr_pkt_write_tlv p HDHR_TAG_TUNER_COUNT [u8 (tuner_count cfg)] in
  let p := hdhr_pkt_write_tlv_str p HDHR_TAG_BASE_URL (str_bytes (snprintf 64 ("http://" +:+ advertise_ip +:+ ":80"))) in
  let p := hdhr_pkt_write_tlv_str p HDHR_TAG_LINEUP_URL (str_bytes (snprintf 80 ("http://" +:+ advertise_ip +:+ ":80/lineup.json"))) in
  match hdhr_pkt_seal_frame p HDHR_TYPE_DISCOVER_RPY with
  | Some (len, p) => take len (buffer p)
  | None => []
  end.

Definition open_discovery_socket : prog Z :=
  fd <- env (QSocket SOCK_DGRAM) ;;
  if (fd : Z) <? 0 then Ret (-1)
  else
    r <- env (QBind fd HDHR_DISCOVER_UDP_PORT) ;;
    if (r : Z) <? 0 then env (QCloseSock fd) ;; Ret (-1) else Ret fd.

(** The local address of the route to a peer. *)
Definition local_ip_for_peer (addr port : Z) : prog (option string) :=
  fd <- env (QSocket SOCK_DGRAM) ;;
  if (fd : Z) <? 0 then Ret None
  else
    r <- env (QConnect fd addr port) ;;
    if (r : Z) <? 0 then env (QCloseSock fd) ;; Ret None
    else
      local <- env (QSockName fd) ;;
      env (QCloseSock fd) ;;
      Ret (inet_ntop <$> (local : option Z)).

Definition handle_discover_req (fd : Z) (cfg : hdhr_config) (data : list Z) (addr port : Z) : prog unit :=
  if negb (discover_matches cfg data) then Ret tt
  else
    ip <- (if str_eq (bind_ip cfg) "0.0.0.0" then
             ip <- local_ip_for_peer addr port ;;
             Ret (match ip with Some ip => ip | None => "127.0.0.1"%string end)
           else Ret (bind_ip cfg)) ;;
    env (QReply fd (discover_reply cfg ip) addr port) ;; Ret tt.

Fixpoint discovery_loop (fuel : nat) (fd : Z) (cfg : hdhr_config) : prog unit :=
  match fuel with
  | O => Spin
  | S fuel =>
      m <- env (QRecvFrom fd (Z.of_nat HDHR_MAX_PACKET_SIZE)) ;;
      match m : option (list Z * Z * Z) with
      | None | Some ([], _, _) => Ret tt
      | Some (data, addr, port) => handle_discover_req fd cfg (take HDHR_MAX_PACKET_SIZE data) addr port
      end ;;
      discovery_loop fuel fd cfg
  end.

Definition discovery_thread_main (fuel : nat) (cfg : hdhr_config) : prog unit :=
  fd <- open_discovery_socket ;;
  if fd <? 0 then Ret tt else discovery_loop fuel fd cfg.

(** ** Ownership *)

Lemma wp_discovery_thread_main cfg fuel R (Q : unit -> toks -> Prop) : Q tt R -> wp cfg (discovery_thread_main fuel cfg) R Q.
Proof.
  intros HQ.
  assert (Hl : forall fd, wp cfg (discovery_loop fuel fd cfg) R Q).
  2:{ unfold discovery_thread_main, open_discovery_socket. wp_go; done. }
  intros fd. induction fuel as [|fuel IH]; [done|]. cbn [discovery_loop]. wp_step. wp_step. wp_step.
  destruct a as [[[[|b data] addr] port]|]; [by apply wp_ret| |by apply wp_ret].
  unfold handle_discover_req, local_ip_for_peer. wp_go; done.
Qed.

(** ** Requests and replies *)

Lemma be32_val_be32 v : is_u32 v -> be32_val (be32 v) = v.
Proof.
  intros H. unfold be32_val, be32, byte_at. cbn [nth].
  assert (Hl : forall a b c d, Z.lor a (Z.lor b (Z.lor c d)) = Z.lor d (Z.lor c (Z.lor b a))).
  { intros a b c d. apply Z.bits_inj'. intros k _. rewrite !Z.lor_spec.
    by destruct (Z.testbit a k), (Z.testbit b k), (Z.testbit c k), (Z.testbit d k). }
  rewrite Hl, le32_dec by apply u8_byte. by apply u8_shiftr_le32.
Qed.

(** The reference: the last well-formed value of a tag, or the default. *)
Definition last_u32 (tag default : Z) (tlvs : list (Z * list Z)) : Z :=
  List.last (omap (fun t => if (t.1 =? tag) && (length t.2 =? 4)%nat then Some (be32_val t.2) else None) tlvs) default.

Lemma last_u32_snoc tag d tlvs t :
  last_u32 tag d (tlvs ++ [t]) =
    if (t.1 =? tag) && (length t.2 =? 4)%nat then be32_val t.2 else last_u32 tag d tlvs.
Proof.
  unfold last_u32. rewrite omap_app. simpl. destruct (_ && _); [apply last_last|by rewrite app_nil_r].
Qed.

Lemma discover_fold tlvs :
  fold_left (fun r t => discover_tlv r t.1 t.2) tlvs
    {| req_device_type := HDHR_DEVICE_TYPE_WILDCARD; req_device_id := HDHR_DEVICE_ID_WILDCARD |} =
  {| req_device_type := last_u32 HDHR_TAG_DEVICE_TYPE HDHR_DEVICE_TYPE_WILDCARD tlvs;
     req_device_id := last_u32 HDHR_TAG_DEVICE_ID HDHR_DEVICE_ID_WILDCARD tlvs |}.
Proof.
  induction tlvs as [|[tag v] tlvs IH] using rev_ind; [done|]. rewrite fold_left_app. cbn [fold_left]. rewrite IH, !last_u32_snoc.
  unfold discover_tlv. cbn [fst snd req_device_type req_device_id].
  destruct (tag =? HDHR_TAG_DEVICE_TYPE) eqn:E; [apply Z.eqb_eq in E as ->|cbn [andb]; by destruct (_ && _)].
  cbn [andb]. change (HDHR_TAG_DEVICE_TYPE =? HDHR_TAG_DEVICE_ID) with false. cbn [andb]. by destruct (_ =? _)%nat.
Qed.

(** The reply's TLVs. *)
Definition reply_tlvs (cfg : hdhr_config) (ip : string) : list (Z * list Z) :=
  [(HDHR_TAG_DEVICE_TYPE, be32 HDHR_DEVICE_TYPE_TUNER); (HDHR_TAG_DEVICE_ID, be32 (device_id cfg));
   (HDHR_TAG_TUNER_COUNT, [u8 (tuner_count cfg)]);
   (HDHR_TAG_BASE_URL, str_bytes ("http://" +:+ ip +:+ ":80") ++ [0]);
   (HDHR_TAG_LINEUP_URL, str_bytes ("http://" +:+ ip +:+ ":80/lineup.json") ++ [0])].

Lemma be32_bytes v : bytes_ok (be32 v).
Proof. unfold be32. repeat constructor; apply u8_byte. Qed.

Lemma reply_tlvs_ok cfg ip : (String.length ip <= 15)%nat ->
  Forall (fun x => is_byte x.1 /\ bytes_ok x.2 /\ Z.of_nat (length x.2) < 2 ^ 15) (reply_tlvs cfg ip) /\
  (4 + length (tlvs_bytes (reply_tlvs cfg ip)) + 4 <= HDHR_PKT_BUFFER_SIZE)%nat.
Proof.
  intros Hip. assert (Hl1 : (String.length ("http://" +:+ ip +:+ ":80") <= 25)%nat) by (rewrite !length_app_str; simpl; lia).
  assert (Hl2 : (String.length ("http://" +:+ ip +:+ ":80/lineup.json") <= 37)%nat) by (rewrite !length_app_str; simpl; lia).
  split.
  - unfold reply_tlvs. repeat (apply Forall_cons; split); try apply Forall_nil; try exact I; cbn [fst snd].
    1,2: split; [done|split; [apply be32_bytes|done]].
    + split; [done|]. split; [|done]. repeat constructor; apply u8_byte.
    + apply str_tlv_ok; [done|lia].
    + apply str_tlv_ok; [done|lia].
  - unfold tlvs_bytes, reply_tlvs. cbn [map concat fst snd]. rewrite !length_app.
    match goal with |- (_ + (length ?a + (length ?b + (length ?c + (length ?d + (length ?e + _))))) + _ <= _)%nat =>
      assert (length a <= 7 /\ length b <= 7 /\ length c <= 4 /\ length d <= 29 /\ length e <= 41)%nat end.
    { repeat split; (etransitivity; [apply length_tlv_bytes|]); rewrite ?length_app, ?length_str_bytes; simpl in *; lia. }
    unfold HDHR_PKT_BUFFER_SIZE. simpl length at 6. lia.
Qed.

(** ** What a request is, and its answer *)

(** The datagram is a frame of the request type, its payload decodes to the end,
    and the last device type and the last id that it gives, if any, are a tuner's
    and this device's, or wildcards. *)
Definition for_us (cfg : hdhr_config) (data : list Z) : Prop :=
  exists pl tlvs, data = frame_bytes HDHR_TYPE_DISCOVER_REQ pl /\ decode_tlvs (S (length pl)) pl = (tlvs, TlvEnd) /\
    (let type := last_u32 HDHR_TAG_DEVICE_TYPE HDHR_DEVICE_TYPE_WILDCARD tlvs in
     type = HDHR_DEVICE_TYPE_WILDCARD \/ type = HDHR_DEVICE_TYPE_TUNER) /\
    (let id := last_u32 HDHR_TAG_DEVICE_ID HDHR_DEVICE_ID_WILDCARD tlvs in
     id = HDHR_DEVICE_ID_WILDCARD \/ id = device_id cfg).

Lemma discover_wanted_spec cfg r : discover_wanted cfg r = true <->
  (req_device_type r = HDHR_DEVICE_TYPE_WILDCARD \/ req_device_type r = HDHR_DEVICE_TYPE_TUNER) /\
  (req_device_id r = HDHR_DEVICE_ID_WILDCARD \/ req_device_id r = device_id cfg).
Proof. unfold discover_wanted. by rewrite andb_true_iff, !orb_true_iff, !Z.eqb_eq. Qed.

(** The code's test of a datagram decides [for_us]. *)
Lemma discover_matches_spec cfg data : bytes_ok data -> (length data <= HDHR_MAX_PACKET_SIZE)%nat ->
  discover_matches cfg data = true <-> for_us cfg data.
Proof.
  intros Hb Hn. unfold discover_matches.
  assert (Hf : forall r, readable r -> (pos r <= end_ r)%nat ->
    fold_tlvs discover_tlv {| req_device_type := HDHR_DEVICE_TYPE_WILDCARD; req_device_id := HDHR_DEVICE_ID_WILDCARD |} r =
    Some (let '(ts, e) := decode_tlvs (S (length (rest r))) (rest r) in
      ({| req_device_type := last_u32 HDHR_TAG_DEVICE_TYPE HDHR_DEVICE_TYPE_WILDCARD ts;
          req_device_id := last_u32 HDHR_TAG_DEVICE_ID HDHR_DEVICE_ID_WILDCARD ts |}, e))).
  { intros r Hr Hp. unfold fold_tlvs. rewrite read_tlvs_decode by (done || (unfold tlv_fuel; lia)). rewrite rest_length by done.
    change (S (end_ r - pos r)) with (tlv_fuel r). destruct (decode_tlvs _ _) as [ts e]. by rewrite discover_fold. }
  split.
  - destruct (hdhr_pkt_open_frame _ _) as [[r t]|] eqn:Ho; [|done].
    destruct (open_frame_payload _ _ _ _ Hb Ho) as (Hd & _ & Hr & Hp). destruct (Z.eqb_spec t HDHR_TYPE_DISCOVER_REQ) as [->|]; [|done].
    cbn [negb]. rewrite Hf by done. destruct (decode_tlvs _ _) as [ts e] eqn:He. destruct e; try done.
    intros Hw%discover_wanted_spec. exists (rest r), ts. auto.
  - intros (pl & tlvs & Hd & He & Hw). subst data.
    assert (Hpl : bytes_ok pl) by (by apply Forall_app in Hb as [[_ Hb]%(Forall_app _ [_; _; _; _]) _]).
    rewrite frame_bytes_length in Hn.
    destruct (open_frame_bytes hdhr_pkt_init HDHR_TYPE_DISCOVER_REQ pl) as (r & Ho & Hr & Hrd & Hre);
      [done..|unfold HDHR_MAX_PACKET_SIZE, HDHR_PKT_BUFFER_SIZE in *; lia|].
    rewrite Ho. change (negb _) with false. cbv iota. rewrite Hf, Hr, He by done. by apply discover_wanted_spec.
Qed.

(** The reply is the frame of its TLVs. *)
Lemma discover_reply_frame cfg ip : (String.length ip <= 15)%nat ->
  discover_reply cfg ip = frame_bytes HDHR_TYPE_DISCOVER_RPY (tlvs_bytes (reply_tlvs cfg ip)) /\
  exists r, hdhr_pkt_open_frame hdhr_pkt_init (discover_reply cfg ip) = Some (r, HDHR_TYPE_DISCOVER_RPY) /\
    fold_tlvs (fun acc tag v => acc ++ [(tag, v)]) [] r = Some (reply_tlvs cfg ip, TlvEnd).
Proof.
  intros Hip. destruct (reply_tlvs_ok cfg ip Hip) as [Hok Hn].
  destruct (sealed_tlvs (fun acc tag v => acc ++ [(tag, v)]) [] HDHR_TYPE_DISCOVER_RPY (reply_tlvs cfg ip) hdhr_pkt_init)
    as (n & p & r & Hs & Hb & Ho & Hf); [done..|].
  assert (E : discover_reply cfg ip = take n (buffer p)).
  { unfold discover_reply. rewrite !snprintf_fits by (rewrite !length_app_str; simpl; lia).
    unfold write_tlvs, reply_tlvs in Hs. cbn [fold_left fst snd] in Hs.
    unfold hdhr_pkt_write_tlv_str, hdhr_pkt_write_tlv_u32. by rewrite Hs. }
  rewrite E. split; [done|]. exists r. split; [done|]. by rewrite Hf, fold_snoc.
Qed.

(** The replies an environment has been given: socket, bytes, address and port. *)
Record logs_replies {S} (h : handler S) (replies : S -> list (Z * list Z * Z * Z)) : Prop := {
  log_reply : forall fd data addr port s, replies (h (QReply fd data addr port) s).2 = replies s ++ [(fd, data, addr, port)];
  log_other : forall q s, match q with QReply _ _ _ _ => False | _ => True end -> replies (h q s).2 = replies s
}.

(** The address of the route to a peer: what a socket connected to it is bound to. *)
Definition route {S} (h : handler S) (addr port : Z) (s : S) : option Z :=
  let '(fd, s1) := h (QSocket SOCK_DGRAM) s in
  if (fd : Z) <? 0 then None
  else
    let '(r, s2) := h (QConnect fd addr port) s1 in
    if (r : Z) <? 0 then None else (h (QSockName fd) s2).1.

(** The address a requester is told to connect to. *)
Definition advertised {S} (h : handler S) (cfg : hdhr_config) (addr port : Z) (s : S) : string :=
  if decide (bind_ip cfg = "0.0.0.0"%string) then match route h addr port s with Some a => inet_ntop a | None => "127.0.0.1" end
  else bind_ip cfg.

Section Answers.
Context {S : Type} (h : handler S) (replies : S -> list (Z * list Z * Z * Z)) (Hlog : logs_replies h replies).

Lemma run_query q s : match q with QReply _ _ _ _ => False | _ => True end ->
  exists s', h q s = ((h q s).1, s') /\ replies s' = replies s.
Proof using Hlog.
  intros Hq. exists (h q s).2. split; [by destruct (h q s)|]. by apply Hlog.
Qed.

Lemma run_route_ip addr port s :
  exists s', run_env h (local_ip_for_peer addr port) s = Some (inet_ntop <$> route h addr port s, s') /\ replies s' = replies s.
Proof using Hlog.
  unfold local_ip_for_peer, route. rewrite run_env_bind. cbn [run_env env].
  destruct (run_query (QSocket SOCK_DGRAM) s I) as (s1 & E1 & R1). rewrite E1. set (fd := (h (QSocket SOCK_DGRAM) s).1 : Z).
  change (answer (QSocket SOCK_DGRAM)) with Z in *. destruct (fd <? 0); [by exists s1|].
  rewrite run_env_bind. cbn [run_env env]. destruct (run_query (QConnect fd addr port) s1 I) as (s2 & E2 & R2). rewrite E2.
  set (r := (h (QConnect fd addr port) s1).1 : Z). destruct (r <? 0).
  - rewrite run_env_bind. cbn [run_env env]. destruct (run_query (QCloseSock fd) s2 I) as (s3 & E3 & R3). rewrite E3.
    exists s3. split; [done|congruence].
  - rewrite run_env_bind. cbn [run_env env]. destruct (run_query (QSockName fd) s2 I) as (s3 & E3 & R3). rewrite E3.
    rewrite run_env_bind. cbn [run_env env]. destruct (run_query (QCloseSock fd) s3 I) as (s4 & E4 & R4). rewrite E4.
    exists s4. split; [done|congruence].
Qed.

Lemma length_advertised cfg addr port s : (String.length (bind_ip cfg) <= 15)%nat ->
  (String.length (advertised h cfg addr port s) <= 15)%nat.
Proof using Type.
  intros H. unfold advertised. destruct (decide _); [|done]. destruct (route h addr port s); [apply length_inet_ntop|simpl; lia].
Qed.

Lemma run_answer fd cfg data addr port s : discover_matches cfg data = true ->
  exists s', run_env h (handle_discover_req fd cfg data addr port) s = Some (tt, s') /\
    replies s' = replies s ++ [(fd, discover_reply cfg (advertised h cfg addr port s), addr, port)].
Proof using Hlog.
  intros Hm. unfold handle_discover_req, advertised. rewrite Hm. cbn [negb]. rewrite run_env_bind.
  assert (Hsend : forall ip s0, replies s0 = replies s -> exists s',
    run_env h (env (QReply fd (discover_reply cfg ip) addr port) ;; Ret tt) s0 = Some (tt, s') /\
    replies s' = replies s ++ [(fd, discover_reply cfg ip, addr, port)]).
  { intros ip s0 H0. exists (h (QReply fd (discover_reply cfg ip) addr port) s0).2. rewrite (log_reply _ _ Hlog), H0. split; [|done].
    rewrite run_env_bind. cbn [run_env env]. by destruct (h _ s0). }
  unfold str_eq. destruct (decide (bind_ip cfg = "0.0.0.0"%string)) as [E|E].
  - rewrite bool_decide_true, run_env_bind by done.
    destruct (run_route_ip addr port s) as (s' & -> & Hr). cbn [run_env]. destruct (route h addr port s); by apply Hsend.
  - rewrite bool_decide_false by done. by apply Hsend.
Qed.
End Answers.

(** Claim C35: the service answers exactly the requests that are for this device.
    Whatever bytes a datagram has and whatever the sockets answer, the handler
    ends.  When the datagram is a discovery request whose last device type is a
    tuner's or the wildcard and whose last id is this device's or the wildcard, in
    any order of its TLVs and with defaults of wildcards, it sends exactly one
    reply, to the requester: the frame of the tuner type, the device id, the tuner
    count and the two URLs, at the configured address, at the address of the route
    to the requester, or at the loopback address when there is no route; it opens
    and decodes to those TLVs.  For any other datagram it sends nothing. *)
Theorem discovery_protocol {S} (h : handler S) (replies : S -> list (Z * list Z * Z * Z))
    (cfg : hdhr_config) (fd addr port : Z) (data : list Z) (s : S) :
  logs_replies h replies -> bytes_ok data -> (length data <= HDHR_MAX_PACKET_SIZE)%nat ->
  is_u32 (device_id cfg) -> (String.length (bind_ip cfg) <= 15)%nat ->
  exists s', run_env h (handle_discover_req fd cfg data addr port) s = Some (tt, s') /\
    (~ for_us cfg data /\ replies s' = replies s \/
     for_us cfg data /\
     let tlvs := reply_tlvs cfg (advertised h cfg addr port s) in
     let reply := frame_bytes HDHR_TYPE_DISCOVER_RPY (tlvs_bytes tlvs) in
     replies s' = replies s ++ [(fd, reply, addr, port)] /\ last_u32 HDHR_TAG_DEVICE_ID 0 tlvs = device_id cfg /\
     exists r, hdhr_pkt_open_frame hdhr_pkt_init reply = Some (r, HDHR_TYPE_DISCOVER_RPY) /\
       fold_tlvs (fun acc tag v => acc ++ [(tag, v)]) [] r = Some (tlvs, TlvEnd)).
Proof.
  intros Hlog Hb Hn Hid Hip. pose proof (discover_matches_spec cfg data Hb Hn) as Hm.
  destruct (discover_matches cfg data) eqn:E.
  - destruct (run_answer h replies Hlog fd cfg data addr port s E) as (s' & Hr & Hs). exists s'. split; [done|right].
    split; [by apply Hm|]. cbv zeta. destruct (discover_reply_frame cfg _ (length_advertised h cfg addr port s Hip)) as [<- Hdec].
    split; [done|]. split; [|done]. unfold last_u32. cbn. by apply be32_val_be32.
  - exists s. unfold handle_discover_req. rewrite E. split; [done|left]. split; [|done]. intros Hf%Hm. discriminate Hf.
Qed.

(** A host at 10.0.0.7 that keeps the replies. *)
Definition lan_host : handler (list (Z * list Z * Z * Z)) := fun q =>
  match q return list (Z * list Z * Z * Z) -> answer q * list (Z * list Z * Z * Z) with
  | QReply fd data addr port => fun s => (Z.of_nat (length data), s ++ [(fd, data, addr, port)])
  | QSocket _ => fun s => (9, s)
  | QConnect _ _ _ => fun s => (0, s)
  | QSockName _ => fun s => (Some (ipv4 10 0 0 7), s)
  | q => fun s => (idle_answer q, s)
  end.
Definition sample_request : list Z :=
  frame_bytes HDHR_TYPE_DISCOVER_REQ
    (tlvs_bytes [(HDHR_TAG_DEVICE_TYPE, be32 1); (HDHR_TAG_DEVICE_ID, be32 HDHR_DEVICE_ID_WILDCARD)]).

Lemma sample_request_for_us : for_us (config_defaults 1) sample_request.
Proof.
  set (l := [(HDHR_TAG_DEVICE_TYPE, be32 1); (HDHR_TAG_DEVICE_ID, be32 HDHR_DEVICE_ID_WILDCARD)]). exists (tlvs_bytes l), l.
  split; [done|]. split; [vm_compute; reflexivity|]. split; [right|left]; vm_compute; reflexivity.
Qed.

Lemma discovery_protocol_witness : exists reply,
  run_env lan_host (handle_discover_req 5 (config_defaults 1) sample_request (ipv4 10 0 0 9) 40000) [] =
    Some (tt, [(5, reply, ipv4 10 0 0 9, 40000)]) /\
  exists r, hdhr_pkt_open_frame hdhr_pkt_init reply = Some (r, HDHR_TYPE_DISCOVER_RPY) /\
    fold_tlvs (fun acc tag v => acc ++ [(tag, v)]) [] r = Some (reply_tlvs (config_defaults 1) "10.0.0.7", TlvEnd).
Proof.
  destruct (discovery_protocol lan_host (fun s => s) (config_defaults 1) 5 (ipv4 10 0 0 9) 40000 sample_request [])
    as (s' & Hr & [[Hn _]|(_ & Hs & _ & Hd)]).
  - split; [done|]. by intros [] s.
  - refine (bool_decide_unpack _ _). vm_compute. exact I.
  - apply Nat.leb_le. vm_compute. reflexivity.
  - unfold is_u32. vm_compute. split; [intros H; discriminate H|reflexivity].
  - apply Nat.leb_le. vm_compute. reflexivity.
  - destruct (Hn sample_request_for_us).
  - eexists. split; [rewrite Hr, Hs; reflexivity|exact Hd].
Defined.
