(* ===== verification/WebUi.v ===== *)
(** The web interface: src/src/web_ui.c.

    Pages and JSON built from the control protocol's answers, asked for over the
    loopback client.  A text is built with [snprintf] at an offset that counts
    what would have been written: [append] is None when the offset has left the
    buffer, where the code's size argument wraps around.  What the program does
    after that is not defined, and the model stops there ([Undefined]);
    [Own.known] and [Daemon.daemon_safe] say when it can happen.  [malloc] is taken
    to succeed. *)
From stdpp Require Import gmultiset.
From S2P Require Import Prelude RecordUpd Pkt CLib FreqPlan ChannelDb Config Stats Ring Tuner Sys Own Rules Frontend.
From S2P Require Import Exec Push ControlText Control GetsetClient.

(** ** Replies *)

Definition crlf : string := String "013" nl.

Definition header_text (status content_type : string) (content_length : Z) : string :=
  "HTTP/1.1 " +:+ status +:+ crlf +:+ "Content-Type: " +:+ content_type +:+ crlf +:+
  "Content-Length: " +:+ dec content_length +:+ crlf +:+ "Connection: close" +:+ crlf +:+ "Server: hdhr-emu" +:+ crlf +:+ crlf.

(** [write] of what [snprintf] counted: past the buffer it reads out of bounds. *)
Definition send_buffer (size : nat) (fd : Z) (text : string) : prog unit :=
  if (String.length text <? size)%nat then env (QSend fd (str_bytes text)) ;; Ret tt else fault.

Definition send_headers (fd : Z) (status content_type : string) (content_length : Z) : prog unit :=
  send_buffer 256 fd (header_text status content_type content_length).
Definition send_body (fd : Z) (status content_type : string) (body : string) : prog unit :=
  send_headers fd status content_type (Z.of_nat (String.length body)) ;;
  env (QSend fd (str_bytes body)) ;; Ret tt.
Definition send_404 (fd : Z) : prog unit := send_headers fd "404 Not Found" "text/plain" 0.

(** ** Tokens of a status text *)

(** [token_str]: None when the key is missing (the output is left alone),
    otherwise the token, which may be empty. *)
Definition is_token_end (c : ascii) : bool :=
  bool_decide (c = " "%char) || bool_decide (c = "009"%char) || bool_decide (c = "013"%char) || bool_decide (c = NL).
Definition token_str (s key : string) (outlen : nat) : option string :=
  match strstr s key with
  | None => None
  | Some p => Some (str_take (outlen - 1) (take_while (fun c => negb (is_token_end c)) (str_drop (String.length key) p)))
  end.

Definition token_int (s key : string) (fallback : Z) : Z :=
  match token_str s key 32 with
  | None | Some EmptyString => fallback
  | Some buf => atoi buf
  end.

(** ** Building JSON *)

(** The offset and the characters in the buffer. *)
Abbreviation sbuf := (nat * string)%type.

Definition append (cap : nat) (b : sbuf) (text : string) : option sbuf :=
  if (cap <? b.1)%nat then None
  else Some ((b.1 + String.length text)%nat, b.2 +:+ snprintf (cap - b.1) text).

Definition escape_char (c : ascii) : string :=
  if bool_decide (c = "034"%char) || bool_decide (c = "092"%char) then String "092" (String c "")
  else if code c <? 0x20 then String "092" ("u" +:+ hex_pad false 4 (code c))
  else String c "".

Fixpoint json_escape_append (cap : nat) (b : sbuf) (s : string) : sbuf :=
  match s with
  | EmptyString => b
  | String c s =>
      if (b.1 + 6 <? cap)%nat
      then json_escape_append cap ((b.1 + String.length (escape_char c))%nat, b.2 +:+ escape_char c) s
      else b
  end.

(** Past the buffer: the [snprintf] or the [write] that comes next is undefined.
    [objects]: what the document is made of so far. *)
Definition overrun {X} (cap : nat) (objects : list json_object) : prog X := Stop (Undefined (JsonOverrun cap objects)).
Definition or_overrun {X} (cap : nat) (objects : list json_object) (o : option X) : prog X :=
  match o with Some x => Ret x | None => overrun cap objects end.

(** [write] of the first [off] bytes. *)
Definition send_sbuf (cap : nat) (objects : list json_object) (fd : Z) (status content_type : string) (b : sbuf) : prog unit :=
  if (b.1 <=? cap)%nat then
    send_headers fd status content_type (Z.of_nat b.1) ;;
    env (QSend fd (str_bytes b.2 ++ replicate (b.1 - String.length b.2) 0)) ;; Ret tt
  else overrun cap objects.

(** [strtod] of a text without leading spaces: decimal and hexadecimal
    numbers, infinities and NaN (whose sign is not kept), correctly rounded. *)
Definition lower (c : ascii) : ascii :=
  if (65 <=? code c) && (code c <=? 90) then chr (code c + 32) else c.
Definition scaled (neg : bool) (m base e : Z) : dbl :=
  match m with
  | Z.pos m =>
      if 0 <=? e then
        match base ^ e with
        | Z.pos b => SFdiv 53 1024 (S754_finite neg (m * b) 0) (S754_finite false 1 0)
        | _ => S754_zero neg
        end
      else match base ^ (- e) with
           | Z.pos b => SFdiv 53 1024 (S754_finite neg m 0) (S754_finite false b 0)
           | _ => S754_zero neg
           end
  | _ => S754_zero neg
  end.
(** Digits with at most one point: the number without it, the digits after it,
    how many digits there are, and the rest. *)
Definition scan_mantissa (base : Z) (s : string) : Z * Z * nat * string :=
  let '(m, r) := scan_digits base 0 s in
  let n := (String.length s - String.length r)%nat in
  match r with
  | String "." r' =>
      let '(m', r'') := scan_digits base m r' in
      let k := (String.length r' - String.length r'')%nat in
      (m', Z.of_nat k, (n + k)%nat, r'')
  | _ => (m, 0, n, r)
  end.
Definition scan_exponent (letter : ascii) (s : string) : Z :=
  match s with
  | String c r =>
      if bool_decide (lower c = letter) then
        let '(neg, r) := strip_sign r in
        let '(e, _) := scan_digits 10 0 r in
        if neg then - e else e
      else 0
  | EmptyString => 0
  end.
Definition prefix_nocase (w s : string) : bool :=
  String.prefix w (String.string_of_list_ascii (lower <$> String.list_ascii_of_string s)).
Definition atof (s : string) : dbl :=
  let '(neg, s) := strip_sign (skip_while isspace s) in
  if prefix_nocase "inf" s then S754_infinity neg
  else if prefix_nocase "nan" s then S754_nan
  else
    let '(m, k, n, r) := scan_mantissa 10 s in
    match strip_0x s with
    | Some h =>
        let '(mh, kh, nh, rh) := scan_mantissa 16 h in
        if (nh =? 0)%nat then S754_zero neg else scaled neg mh 2 (scan_exponent "p" rh - 4 * kh)
    | None => if (n =? 0)%nat then S754_zero neg else scaled neg m 10 (scan_exponent "e" r - k)
    end.

(** ** Tuner objects *)

(** [strtok_r] over newlines: the non-empty lines. *)
Fixpoint lines_of (acc s : string) : list string :=
  let flush := match acc with EmptyString => [] | _ => [acc] end in
  match s with
  | EmptyString => flush
  | String c s => if bool_decide (c = NL) then flush ++ lines_of "" s else lines_of (acc +:+ String c "") s
  end.

(** [sscanf] of a line "<program>: <major>.<minor> <name>". *)
Definition scan_info_line (line : string) : option (Z * Z * Z * string) :=
  '(prog, r) ← scan_uw 10 32 line;
  r ← scan_lit ":" r;
  '(ma, r) ← scan_uw 10 32 (skip_while isspace r);
  r ← scan_lit "." r;
  '(mi, r) ← scan_uw 10 32 r;
  match take_while (fun c => negb (bool_decide (c = NL))) (skip_while isspace r) with
  | EmptyString => None
  | name => Some (prog, ma, mi, str_take 63 name)
  end.

Definition q (s : string) : string := dquote +:+ s +:+ dquote.

(** The entries of "streaminfo". *)
Fixpoint append_infos (cap : nat) (first : bool) (lines : list string) (b : sbuf) : option sbuf :=
  match lines with
  | [] => Some b
  | line :: lines =>
      match scan_info_line line with
      | None => append_infos cap first lines b
      | Some (prog, ma, mi, name) =>
          b ← append cap b ((if first then "" else ",") +:+ "{" +:+ q "program" +:+ ":" +:+ dec_u prog +:+ "," +:+ q "major" +:+ ":" +:+
                dec_u ma +:+ "," +:+ q "minor" +:+ ":" +:+ dec_u mi +:+ "," +:+ q "name" +:+ ":" +:+ dquote);
          b ← append cap (json_escape_append cap b name) (dquote +:+ "}");
          append_infos cap false lines b
      end
  end.

Definition reading (raw : option string) : string :=
  match raw with None | Some EmptyString => "null" | Some raw => fmt_fixed 1 (atof raw) end.
Definition append_raw (cap : nat) (b : sbuf) (field : string) (raw : option string) : option sbuf :=
  append cap b (q field +:+ ":" +:+ reading raw +:+ ",").

(** [append_tuner_json] once the four parameters are read. *)
Definition tuner_json (cap : nat) (b : sbuf) (idx : Z) (status vchannel streaminfo debug : string) : option sbuf :=
  let physical := default "none"%string (token_str status "ch=" 64) in
  let lock := default "none"%string (token_str status "lock=" 16) in
  b ← append cap b ("{" +:+ q "index" +:+ ":" +:+ dec idx +:+ "," +:+ q "physical_channel" +:+ ":" +:+ dquote);
  b ← append cap (json_escape_append cap b physical) (dquote +:+ "," +:+ q "vchannel" +:+ ":" +:+ dquote);
  b ← append cap (json_escape_append cap b vchannel) (dquote +:+ "," +:+ q "lock" +:+ ":" +:+ dquote);
  b ← append cap (json_escape_append cap b lock)
    (dquote +:+ "," +:+ q "signal_strength_pct" +:+ ":" +:+ dec (token_int status "ss=" 0) +:+ "," +:+ q "signal_quality_pct" +:+ ":" +:+
     dec (token_int status "snq=" 0) +:+ "," +:+ q "symbol_quality_pct" +:+ ":" +:+ dec (token_int status "seq=" 0) +:+ "," +:+ q "bps" +:+
     ":" +:+ dec (token_int status "bps=" 0) +:+ "," +:+ q "pps" +:+ ":" +:+ dec (token_int status "pps=" 0) +:+ ",");
  b ← append_raw cap b "signal_dbm" (token_str debug "ss_dbm=" 32);
  b ← append_raw cap b "snr_db" (token_str debug "snr_db=" 32);
  b ← append cap b (q "streaminfo" +:+ ":[");
  b ← append_infos cap true (lines_of "" (snprintf 512 streaminfo)) b;
  append cap b "]}".

Definition infos (streaminfo : string) : list (Z * Z * Z * string) := omap scan_info_line (lines_of "" (snprintf 512 streaminfo)).
Definition tuner_object (status vchannel streaminfo debug : string) : json_object :=
  {| jo_words := default "none"%string (token_str status "ch=" 64) :: vchannel ::
       default "none"%string (token_str status "lock=" 16) :: (infos streaminfo).*2;
     jo_readings := [reading (token_str debug "ss_dbm=" 32); reading (token_str debug "snr_db=" 32)];
     jo_entries := length (infos streaminfo) |}.

(** A read of one parameter over the control protocol. *)
Definition ask (idx : Z) (leaf : string) (fallback : string) : prog string :=
  r <- getset_client_call (snprintf 32 ("/tuner" +:+ dec idx +:+ "/" +:+ leaf)) None 512 128 ;;
  Ret (match r with inr v => v | inl _ => fallback end).

Definition no_status : string := "ch=none lock=none ss=0 snq=0 seq=0".

Definition append_tuner_json (cap : nat) (objects : list json_object) (b : sbuf) (idx : Z) : prog (sbuf * list json_object) :=
  status <- ask idx "status" no_status ;;
  vchannel <- ask idx "vchannel" "none" ;;
  streaminfo <- ask idx "streaminfo" "none" ;;
  debug <- ask idx "debug" "" ;;
  let objects := objects ++ [tuner_object status vchannel streaminfo debug] in
  b <- or_overrun cap objects (tuner_json cap b idx status vchannel streaminfo debug) ;;
  Ret (b, objects).

Definition PER_TUNER_JSON_MAX : nat := 4096.

(** The objects of tuners [i .. i + n), separated by commas. *)
Fixpoint append_tuners (cap : nat) (i : Z) (n : nat) (x : sbuf * list json_object) : prog (sbuf * list json_object) :=
  match n with
  | O => Ret x
  | S n =>
      b <- or_overrun cap x.2 (append cap x.1 (if i =? 0 then "" else ",")) ;;
      x <- append_tuner_json cap x.2 b i ;;
      append_tuners cap (i + 1) n x
  end.

Definition handle_tuners_json (cfg : hdhr_config) (fd : Z) : prog unit :=
  let cap := (4096 + Z.to_nat (tuner_count cfg) * PER_TUNER_JSON_MAX)%nat in
  b <- or_overrun cap [] (append cap (0%nat, ""%string) ("{" +:+ q "tuners" +:+ ":[")) ;;
  x <- append_tuners cap 0 (Z.to_nat (tuner_count cfg)) (b, []) ;;
  b <- or_overrun cap x.2 (append cap x.1 ("]}" +:+ nl)) ;;
  send_sbuf cap x.2 fd "200 OK" "application/json" b.

Definition stats_json (idx : Z) (status : string) : option sbuf :=
  let physical := default "none"%string (token_str status "ch=" 64) in
  let lock := default "none"%string (token_str status "lock=" 16) in
  b ← append 256 (0%nat, ""%string) ("{" +:+ q "index" +:+ ":" +:+ dec idx +:+ "," +:+ q "physical_channel" +:+ ":" +:+ dquote);
  b ← append 256 (json_escape_append 256 b physical) (dquote +:+ "," +:+ q "lock" +:+ ":" +:+ dquote);
  append 256 (json_escape_append 256 b lock)
    (dquote +:+ "," +:+ q "signal_strength_pct" +:+ ":" +:+ dec (token_int status "ss=" 0) +:+ "," +:+ q "signal_quality_pct" +:+ ":" +:+
     dec (token_int status "snq=" 0) +:+ "," +:+ q "symbol_quality_pct" +:+ ":" +:+ dec (token_int status "seq=" 0) +:+ "}" +:+ nl).

Definition words_object (words : list string) : json_object := {| jo_words := words; jo_readings := []; jo_entries := 0 |}.
Definition status_object (status : string) : json_object :=
  words_object [default "none"%string (token_str status "ch=" 64); default "none"%string (token_str status "lock=" 16)].

Definition handle_stats_json (fd idx : Z) : prog unit :=
  status <- ask idx "status" no_status ;;
  b <- or_overrun 256 [status_object status] (stats_json idx status) ;;
  send_sbuf 256 [status_object status] fd "200 OK" "application/json" b.

(** ** Selecting a channel *)

Definition extract_channel_value (body : list Z) (out_len : nat) : string :=
  let tmp := cstr (bytes_str (take 255 body)) in
  snprintf out_len (match strstr tmp "value=" with Some v => str_drop 6 v | None => tmp end).

Definition is_placeholder (status : string) : bool :=
  let has w := match strstr status w with Some _ => true | None => false end in
  has "lock=none" && has "ss=45" && has "snq=0" && has "seq=0".

(** At most three looks at the status, 300 ms apart, until it has been measured. *)
Fixpoint wait_status (attempts : nat) (idx : Z) : prog unit :=
  match attempts with
  | O => Ret tt
  | S attempts =>
      r <- getset_client_call (snprintf 32 ("/tuner" +:+ dec idx +:+ "/status")) None 512 128 ;;
      match r with
      | inr status =>
          if is_placeholder status then env (QSleep (300 * 1000)) ;; wait_status attempts idx else Ret tt
      | inl _ => Ret tt
      end
  end.

Definition error_json (err : string) : option sbuf :=
  b ← append 384 (0%nat, ""%string) ("{" +:+ q "error" +:+ ":" +:+ dquote);
  append 384 (json_escape_append 384 b err) (dquote +:+ "}" +:+ nl).

Definition handle_channel_post (fd idx : Z) (body : list Z) : prog unit :=
  let value := extract_channel_value body 256 in
  r <- getset_client_call (snprintf 32 ("/tuner" +:+ dec idx +:+ "/channel")) (Some value) 192 128 ;;
  match r with
  | inl err =>
      b <- or_overrun 384 [words_object [err]] (error_json err) ;;
      send_sbuf 384 [words_object [err]] fd "400 Bad Request" "application/json" b
  | inr _ =>
      wait_status 3 idx ;;
      x <- append_tuner_json PER_TUNER_JSON_MAX [] (0%nat, ""%string) idx ;;
      b <- or_overrun PER_TUNER_JSON_MAX x.2 (append PER_TUNER_JSON_MAX x.1 nl) ;;
      send_sbuf PER_TUNER_JSON_MAX x.2 fd "200 OK" "application/json" b
  end.

(** ** Files *)

Definition ends_with (s suffix : string) : bool :=
  (String.length suffix <=? String.length s)%nat && str_eq (str_drop (String.length s - String.length suffix) s) suffix.

Definition content_type_for (path : string) : string :=
  if ends_with path ".html" then "text/html"
  else if ends_with path ".css" then "text/css"
  else if ends_with path ".js" then "application/javascript"
  else "application/octet-stream".

(** False: there is no such file. *)
Definition serve_static_file (cfg : hdhr_config) (fd : Z) (path : string) : prog bool :=
  match strstr path ".." with
  | Some _ => send_404 fd ;; Ret true
  | None =>
      let path := if str_eq path "/" then "/index.html"%string else path in
      let full := snprintf 512 (web_root cfg +:+ path) in
      f <- env (QReadFile full) ;;
      match f : option string with
      | None => Ret false
      | Some body =>
          if (4 * 1024 * 1024 <? Z.of_nat (String.length body)) then send_404 fd ;; Ret true
          else send_body fd "200 OK" (content_type_for full) body ;; Ret true
      end
  end.

(** "/api/tuner<idx><rest>" *)
Definition api_path (path rest : string) : option Z :=
  match scan_lit "/api/tuner" path with
  | Some r => match scan_d r with
              | Some (idx, r) => if str_eq r rest then Some idx else None
              | None => None
              end
  | None => None
  end.

(** False: not a request of the web interface. *)
Definition web_ui_try_handle (cfg : hdhr_config) (fd : Z) (method path : string) (body : list Z) : prog bool :=
  let bad idx := (idx <? 0) || (tuner_count cfg <=? idx) in
  let get := str_eq method "GET" in
  if get && str_eq path "/api/tuners.json" then handle_tuners_json cfg fd ;; Ret true
  else
    match (if get then api_path path "/stats.json" else None), (if str_eq method "POST" then api_path path "/channel" else None) with
    | Some idx, _ => if bad idx then send_404 fd ;; Ret true else handle_stats_json fd idx ;; Ret true
    | None, Some idx => if bad idx then send_404 fd ;; Ret true else handle_channel_post fd idx body ;; Ret true
    | None, None =>
        if get && negb (String.prefix "/api/" path) then serve_static_file cfg fd path else Ret false
    end.

(** ** JSON strings *)

Fixpoint escape (s : string) : string :=
  match s with EmptyString => "" | String c s => escape_char c +:+ escape s end.

(** The reference: what a JSON reader makes of the inside of a string; None
    where it is not valid. *)
Fixpoint json_unescape (s : string) : option string :=
  match s with
  | EmptyString => Some ""%string
  | String c r =>
      if bool_decide (c = "034"%char) || (code c <? 0x20) then None
      else if bool_decide (c = "092"%char) then
        match r with
        | String "u" (String a (String b (String x (String y r)))) =>
            match digit_val 16 a, digit_val 16 b, digit_val 16 x, digit_val 16 y with
            | Some da, Some db, Some dx, Some dy =>
                String (chr (((da * 16 + db) * 16 + dx) * 16 + dy)) <$> json_unescape r
            | _, _, _, _ => None
            end
        | String d r => if bool_decide (d = "034"%char) || bool_decide (d = "092"%char) then String d <$> json_unescape r else None
        | EmptyString => None
        end
      else String c <$> json_unescape r
  end.

Lemma unescape_char c r : json_unescape (escape_char c +:+ r) = String c <$> json_unescape r.
Proof.
  revert c. refine (fun c => _).
  destruct c as [[] [] [] [] [] [] [] []]; reflexivity.
Qed.

Lemma unescape_escape s : json_unescape (escape s) = Some s.
Proof. induction s as [|c s IH]; [done|]. cbn [escape]. by rewrite unescape_char, IH. Qed.

Lemma escape_char_length c : (1 <= String.length (escape_char c) <= 6)%nat.
Proof. destruct c as [[] [] [] [] [] [] [] []]; vm_compute; lia. Qed.

(** Claim C38: escaping is safe and exact.  Whatever the text and the room left,
    the characters written are the escape of a prefix of the text, the whole of
    it when six bytes per character are left; they never reach the end of the
    buffer; and a JSON reader reads that prefix back. *)
Theorem json_escape_exact (cap off : nat) (out s : string) :
  exists k, let e := escape (str_take k s) in
    json_escape_append cap (off, out) s = ((off + String.length e)%nat, out +:+ e) /\
    json_unescape e = Some (str_take k s) /\
    (off < cap -> off + String.length e < cap)%nat /\
    (off + 6 * String.length s < cap -> str_take k s = s)%nat.
Proof.
  revert off out. induction s as [|c s IH]; intros off out; cbn [json_escape_append].
  { exists 0%nat. cbn. rewrite app_str_nil_r, Nat.add_0_r. auto. }
  cbn [fst snd]. destruct (off + 6 <? cap)%nat eqn:E.
  - apply Nat.ltb_lt in E. pose proof (escape_char_length c) as Hc.
    destruct (IH (off + String.length (escape_char c))%nat (out +:+ escape_char c)) as (k & He & Hu & Hb & Hf).
    exists (S k). cbn [str_take escape String.length]. cbv zeta in *.
    rewrite He, length_app_str, app_str_assoc, Nat.add_assoc. split; [done|]. split; [|split].
    + by rewrite unescape_char, Hu.
    + intros _. apply Hb. lia.
    + intros H. f_equal. apply Hf. lia.
  - apply Nat.ltb_ge in E. exists 0%nat. cbn. rewrite app_str_nil_r, Nat.add_0_r. split; [done|]. split; [done|].
    split; [done|]. intros H. lia.
Qed.

(** ** The server's status, read back *)

(** Characters of the words of a status. *)
Definition word_char (c : ascii) : bool :=
  negb (bool_decide (c = "="%char)) && negb (is_token_end c).
Definition no_eq (s : string) : Prop := str_forall (fun c => negb (bool_decide (c = "="%char))) s = true.

Lemma no_eq_cons c s : no_eq (String c s) -> c <> "="%char /\ no_eq s.
Proof. unfold no_eq. cbn [str_forall]. intros H. apply andb_true_iff in H as [H1 H2]. apply negb_true_iff, bool_decide_eq_false in H1. done. Qed.

(** A key "k=" is a prefix of "u=..." exactly when u is k. *)
Lemma prefix_key k u v : no_eq k -> no_eq u -> String.prefix (k +:+ "=") (u +:+ "=" +:+ v) = bool_decide (u = k).
Proof.
  revert u. induction k as [|c k IH]; intros u Hk Hu.
  - destruct u as [|d u]; [by destruct v|]. apply no_eq_cons in Hu as [Hd _]. rewrite (bool_decide_false (String d u = "")) by done.
    change ("" +:+ "=") with "="%string. change (String d u +:+ "=" +:+ v) with (String d (u +:+ "=" +:+ v)). cbn [String.prefix].
    destruct (Ascii.ascii_dec "=" d); [congruence|done].
  - apply no_eq_cons in Hk as [Hc Hk]. destruct u as [|d u].
    + rewrite bool_decide_false by done. change (String c k +:+ "=") with (String c (k +:+ "=")).
      change ("" +:+ "=" +:+ v) with (String "=" v). cbn [String.prefix]. destruct (Ascii.ascii_dec c "="); [congruence|done].
    + apply no_eq_cons in Hu as [Hd Hu]. change (String c k +:+ "=") with (String c (k +:+ "=")).
      change (String d u +:+ "=" +:+ v) with (String d (u +:+ "=" +:+ v)). cbn [String.prefix].
      destruct (Ascii.ascii_dec c d) as [->|Hne].
      * rewrite IH by done. apply bool_decide_ext. split; [by intros ->|by intros [= ->]].
      * rewrite bool_decide_false by congruence. done.
Qed.

Lemma no_eq_app a b : no_eq a -> no_eq b -> no_eq (a +:+ b).
Proof. unfold no_eq. intros Ha Hb. by rewrite str_forall_app, Ha, Hb. Qed.

(** The key at the end of a word is found there. *)
Lemma strstr_word k pre v : no_eq k -> no_eq pre ->
  strstr (pre +:+ k +:+ "=" +:+ v) (k +:+ "=") = Some (k +:+ "=" +:+ v).
Proof.
  intros Hk Hp. induction pre as [|c pre IH].
  - change ("" +:+ k +:+ "=" +:+ v) with (k +:+ "=" +:+ v).
    assert (Hpre : String.prefix (k +:+ "=") (k +:+ "=" +:+ v) = true) by (rewrite prefix_key; [by apply bool_decide_true|done..]).
    destruct (k +:+ "=" +:+ v) as [|d r] eqn:E; [by destruct k|]. cbn [strstr]. by rewrite Hpre.
  - change (String c pre +:+ k +:+ "=" +:+ v) with (String c (pre +:+ k +:+ "=" +:+ v)). cbn [strstr].
    change (String c (pre +:+ k +:+ "=" +:+ v)) with (String c pre +:+ k +:+ "=" +:+ v).
    rewrite <- (app_str_assoc (String c pre) k), prefix_key; [|done|by apply no_eq_app].
    rewrite bool_decide_false; [apply IH; by destruct (no_eq_cons _ _ Hp)|].
    intros He. apply (f_equal String.length) in He. rewrite length_app_str in He. simpl in He. lia.
Qed.

(** A word that does not end with the key is passed over, with its sign. *)
Lemma strstr_skip k u v : no_eq k -> no_eq u -> (forall a, u <> a +:+ k) ->
  strstr (u +:+ "=" +:+ v) (k +:+ "=") = strstr v (k +:+ "=").
Proof.
  intros Hk Hu Hn. induction u as [|c u IH].
  - change ("" +:+ "=" +:+ v) with (String "=" v). cbn [strstr].
    change (String "=" v) with ("" +:+ "=" +:+ v). rewrite prefix_key by done.
    rewrite bool_decide_false; [done|]. intros <-. by apply (Hn "").
  - change (String c u +:+ "=" +:+ v) with (String c (u +:+ "=" +:+ v)). cbn [strstr].
    change (String c (u +:+ "=" +:+ v)) with (String c u +:+ "=" +:+ v). rewrite prefix_key by done.
    rewrite bool_decide_false; [|intros He; by apply (Hn "")].
    apply IH; [by destruct (no_eq_cons _ _ Hu)|]. intros a ->. by apply (Hn (String c a)).
Qed.

Lemma take_token t rest : str_forall (fun c => negb (is_token_end c)) t = true ->
  (match rest with EmptyString => True | String c _ => is_token_end c = true end) ->
  take_while (fun c => negb (is_token_end c)) (t +:+ rest) = t.
Proof.
  intros Ht Hr. induction t as [|c t IH].
  - destruct rest as [|c rest]; [done|]. change ("" +:+ String c rest) with (String c rest). cbn [take_while]. by rewrite Hr.
  - cbn [str_forall] in Ht. apply andb_true_iff in Ht as [Hc Ht]. change (String c t +:+ rest) with (String c (t +:+ rest)).
    cbn [take_while]. rewrite Hc. f_equal. auto.
Qed.

Lemma suffix_inv x w a k : x +:+ w = a +:+ k -> (String.length k <= String.length w)%nat -> exists b, w = b +:+ k.
Proof.
  revert a. induction x as [|c x IH]; intros a He Hl; [by exists a|]. destruct a as [|d a].
  - apply (f_equal String.length) in He. change (String c x +:+ w) with (String c (x +:+ w)) in He.
    change ("" +:+ k) with k in He. cbn [String.length] in He. rewrite length_app_str in He. lia.
  - injection He as _ He. by apply (IH a).
Qed.

Lemma no_suffix_ch a k : (2 < String.length k)%nat -> "ch"%string <> a +:+ k.
Proof. intros Hk He. apply (f_equal String.length) in He. rewrite length_app_str in He. simpl in He. lia. Qed.

Ltac no_suffix :=
  let a := fresh in let H := fresh in intros a H;
  first [ (apply no_suffix_ch in H; [done|simpl; lia])
        | (apply suffix_inv in H; [destruct H as [? H]|simpl; lia]) | idtac ];
  repeat match goal with H : _ = ?b +:+ _ |- _ => is_var b; destruct b; try discriminate H; injection H as _ H end; done.

Lemma drop_app_str a b : str_drop (String.length a) (a +:+ b) = b.
Proof. induction a as [|c a IH]; [done|]. exact IH. Qed.

Lemma token_found st k t rest n :
  strstr st (k +:+ "=") = Some (k +:+ "=" +:+ t +:+ rest) -> str_forall (fun c => negb (is_token_end c)) t = true ->
  (match rest with EmptyString => True | String c _ => is_token_end c = true end) ->
  token_str st (k +:+ "=") n = Some (str_take (n - 1) t).
Proof.
  intros Hs Ht Hr. unfold token_str. rewrite Hs. do 2 f_equal.
  rewrite <- (app_str_assoc k "="), drop_app_str. by apply take_token.
Qed.

Lemma token_whole st k t rest n :
  strstr st (k +:+ "=") = Some (k +:+ "=" +:+ t +:+ rest) -> str_forall (fun c => negb (is_token_end c)) t = true ->
  (match rest with EmptyString => True | String c _ => is_token_end c = true end) -> (String.length t <= n - 1)%nat ->
  token_str st (k +:+ "=") n = Some t.
Proof. intros Hs Ht Hr Hn. by rewrite (token_found st k t rest), str_take_all. Qed.

Definition word (s : string) : Prop := str_forall word_char s = true.
Lemma word_no_eq s : word s -> no_eq s.
Proof. apply str_forall_impl. intros c H. by apply andb_true_iff in H as [H _]. Qed.
Lemma word_token s : word s -> str_forall (fun c => negb (is_token_end c)) s = true.
Proof. apply str_forall_impl. intros c H. by apply andb_true_iff in H as [_ H]. Qed.
Lemma word_dec_u n : 0 <= n -> word (dec_u n).
Proof.
  intros H. eapply str_forall_impl; [|by apply dec_u_digits]. intros c Hc.
  revert c Hc. refine (fun c => _). destruct c as [[] [] [] [] [] [] [] []]; vm_compute; done.
Qed.

(** A status cut at its equals signs. *)
Definition status_cut (ch lock : string) (a b c : Z) (tail : string) : string :=
  "ch" +:+ "=" +:+ (ch +:+ " lock") +:+ "=" +:+ (lock +:+ " ss") +:+ "=" +:+ (dec_u a +:+ " snq") +:+ "=" +:+
  (dec_u b +:+ " seq") +:+ "=" +:+ dec_u c +:+ tail.

Lemma signal_text_cut ch lock s tail :
  signal_text ch lock s +:+ tail =
    status_cut ch lock (pct0 (signal_strength_pct s)) (pct0 (snr_quality_pct s)) (pct0 (symbol_quality_pct s)) tail.
Proof.
  assert (Hd : forall p, dec (pct0 p) = dec_u (pct0 p)).
  { intros p. unfold dec, pct0. destruct (p <? 0) eqn:E; [done|]. by rewrite E. }
  unfold signal_text, status_cut. rewrite !Hd, !app_str_assoc. reflexivity.
Qed.

Lemma token_int_dec st k n rest :
  strstr st (k +:+ "=") = Some (k +:+ "=" +:+ dec_u n +:+ rest) -> 0 <= n < 2 ^ 31 ->
  (match rest with EmptyString => True | String c _ => is_token_end c = true end) ->
  token_int st (k +:+ "=") 0 = n.
Proof.
  intros Hs Hn Hr. unfold token_int. rewrite (token_found st k (dec_u n) rest 32 Hs) by (done || (apply word_token, word_dec_u; lia)).
  rewrite str_take_all; [|pose proof (length_dec_u n 10 ltac:(lia) ltac:(lia)); simpl; lia].
  destruct (dec_u_ne n) as (c & r & E). rewrite E. cbv iota. rewrite <- E. by apply atoi_dec_u.
Qed.

Lemma strstr_spaced x k v : word x -> no_eq k ->
  strstr ((x +:+ (" " +:+ k)) +:+ "=" +:+ v) (k +:+ "=") = Some (k +:+ "=" +:+ v).
Proof.
  intros Hx Hk. rewrite <- (app_str_assoc x " "), (app_str_assoc (x +:+ " ") k). apply strstr_word; [done|].
  apply no_eq_app; [by apply word_no_eq|reflexivity].
Qed.

Ltac skip_word := rewrite strstr_skip; [|reflexivity|first [assumption|reflexivity]|no_suffix].

(** Claim C39: the web page reads back the status the control protocol writes:
    for a channel and lock word without blanks or equals signs, the tokens are
    the channel, the lock and the three percentages, whatever follows them. *)
Theorem status_readback (ch lock tail : string) (s : dvb_signal_stats) :
  word ch -> word lock -> (String.length ch <= 63)%nat -> (String.length lock <= 15)%nat ->
  (match tail with EmptyString => True | String c _ => is_token_end c = true end) ->
  signal_strength_pct s < 2 ^ 31 -> snr_quality_pct s < 2 ^ 31 -> symbol_quality_pct s < 2 ^ 31 ->
  let st := signal_text ch lock s +:+ tail in
  token_str st "ch=" 64 = Some ch /\ token_str st "lock=" 16 = Some lock /\
  token_int st "ss=" 0 = pct0 (signal_strength_pct s) /\ token_int st "snq=" 0 = pct0 (snr_quality_pct s) /\
  token_int st "seq=" 0 = pct0 (symbol_quality_pct s).
Proof.
  intros Hch Hlock Hlc Hll Htail H1 H2 H3. cbv zeta. rewrite signal_text_cut.
  assert (Hp : forall p, p < 2 ^ 31 -> 0 <= pct0 p < 2 ^ 31) by (intros p; unfold pct0; destruct (p <? 0) eqn:E; zb; lia).
  specialize (Hp _ H1) as Ha. specialize (Hp _ H2) as Hb. specialize (Hp _ H3) as Hc. clear H1 H2 H3 Hp.
  set (a := pct0 _) in *. set (b := pct0 (snr_quality_pct s)) in *. set (c := pct0 (symbol_quality_pct s)) in *. clearbody a b c.
  assert (Hda : word (dec_u a)) by (apply word_dec_u; lia). assert (Hdb : word (dec_u b)) by (apply word_dec_u; lia).
  assert (Hu1 : no_eq (ch +:+ " lock")) by (apply no_eq_app; [by apply word_no_eq|reflexivity]).
  assert (Hu2 : no_eq (lock +:+ " ss")) by (apply no_eq_app; [by apply word_no_eq|reflexivity]).
  assert (Hu3 : no_eq (dec_u a +:+ " snq")) by (apply no_eq_app; [by apply word_no_eq|reflexivity]).
  split; [|split; [|split; [|split]]].
  - eapply (token_whole _ "ch" ch).
    + unfold status_cut. rewrite (app_str_assoc ch). apply (strstr_word "ch" ""); reflexivity.
    + by apply word_token.
    + reflexivity.
    + simpl. lia.
  - eapply (token_whole _ "lock" lock).
    + unfold status_cut. skip_word. rewrite (app_str_assoc lock). by apply (strstr_spaced ch "lock").
    + by apply word_token.
    + reflexivity.
    + simpl. lia.
  - apply (token_int_dec _ "ss" a (" snq" +:+ "=" +:+ (dec_u b +:+ " seq") +:+ "=" +:+ dec_u c +:+ tail)); [|done|done].
    unfold status_cut. do 2 skip_word. rewrite (app_str_assoc (dec_u a)). by apply (strstr_spaced lock "ss").
  - apply (token_int_dec _ "snq" b (" seq" +:+ "=" +:+ dec_u c +:+ tail)); [|done|done].
    unfold status_cut. do 3 skip_word. rewrite (app_str_assoc (dec_u b)). by apply (strstr_spaced (dec_u a) "snq").
  - apply (token_int_dec _ "seq" c tail); [|done|done].
    unfold status_cut. do 4 skip_word. by apply (strstr_spaced (dec_u b) "seq").
Qed.

Lemma status_readback_witness :
  let s := {| has_lock := true; signal_strength_pct := 87; snr_quality_pct := 100; symbol_quality_pct := -1;
              have_signal_dbm := false; signal_dbm := d_of_Z 0; have_snr_db := false; snr_db := d_of_Z 0 |} in
  token_int (signal_text "8vsb:573000000" "8vsb" s +:+ " bps=1 pps=2") "ss=" 0 = 87.
Proof. apply (status_readback "8vsb:573000000" "8vsb" " bps=1 pps=2"); (reflexivity || (simpl; lia)). Defined.

(** ** Files stay under the web root *)

(** What the web interface may ask: to read a file whose name is the root
    followed by a path without a parent component; to talk to its client and to
    the control port of this machine; to sleep. *)
Definition confined (cfg : hdhr_config) (x : query) : Prop :=
  match x with
  | QReadFile full => exists path, full = snprintf 512 (web_root cfg +:+ path) /\ strstr path ".." = None
  | QConnect _ addr port => addr = INADDR_LOOPBACK /\ port = Pkt.HDHR_CONTROL_TCP_PORT
  | QSocket kind => kind = SOCK_STREAM
  | QSend _ _ | QRecv _ _ | QCloseSock _ | QSleep _ => True
  | _ => False
  end.

Lemma only_read_full P fuel fd len got : (forall n, P (QRecv fd n)) -> only P (read_full_loop fuel fd len got).
Proof.
  intros HP. revert got. induction fuel as [|fuel IH]; intros got; cbn [read_full_loop]; only_go; auto.
Qed.

Lemma only_client cfg name value rl el : only (confined cfg) (getset_client_call name value rl el).
Proof. unfold getset_client_call, read_full. only_go; try exact I; try done; by apply only_read_full. Qed.

Lemma only_send cfg size fd text : only (confined cfg) (send_buffer size fd text).
Proof. unfold send_buffer, fault. only_go; exact I. Qed.

Lemma only_ask cfg idx leaf fb : only (confined cfg) (ask idx leaf fb).
Proof. unfold ask. only_go. apply only_client. Qed.

Lemma only_overrun {X} P cap objects (o : option X) : only P (or_overrun cap objects o).
Proof. by destruct o. Qed.

Lemma only_sbuf cfg cap objects fd status ct b : only (confined cfg) (send_sbuf cap objects fd status ct b).
Proof. unfold send_sbuf, send_headers, overrun. only_go; try apply only_send; exact I. Qed.

Lemma only_tuner cfg cap objects b idx : only (confined cfg) (append_tuner_json cap objects b idx).
Proof. unfold append_tuner_json. only_go; first [apply only_ask | apply only_overrun]. Qed.

Lemma only_tuners cfg cap n : forall i x, only (confined cfg) (append_tuners cap i n x).
Proof.
  induction n as [|n IH]; intros i x; [exact I|]. cbn [append_tuners]. apply only_bind; [apply only_overrun|]. intros b.
  apply only_bind; [apply only_tuner|auto].
Qed.

Lemma only_wait_status cfg n idx : only (confined cfg) (wait_status n idx).
Proof.
  induction n as [|n IH]; [exact I|]. cbn [wait_status]. apply only_bind; [apply only_client|]. intros [e|s]; [exact I|].
  destruct (is_placeholder s); [|exact I]. apply only_bind; [by apply only_env|auto].
Qed.

(** Claim C37: whatever the request, the only files the web interface opens are
    those named by the web root followed by a path in which no ".." occurs; the
    only connections it makes are to the control port of the loopback address;
    it opens no device, listens on no port and ends no process. *)
Theorem web_ui_confined (cfg : hdhr_config) (fd : Z) (method path : string) (body : list Z) :
  only (confined cfg) (web_ui_try_handle cfg fd method path body).
Proof.
  assert (H404 : only (confined cfg) (send_404 fd)) by apply only_send.
  unfold web_ui_try_handle. cbv zeta.
  destruct (_ && str_eq path "/api/tuners.json").
  { unfold handle_tuners_json. apply only_bind; [|done]. apply only_bind; [apply only_overrun|]. intros b.
    apply only_bind; [apply only_tuners|]. intros x. apply only_bind; [apply only_overrun|]. intros b'. apply only_sbuf. }
  destruct (if str_eq method "GET" then _ else None) as [idx|].
  { destruct (_ || _); (apply only_bind; [|done]); [exact H404|]. unfold handle_stats_json.
    apply only_bind; [apply only_ask|]. intros s. apply only_bind; [apply only_overrun|]. intros b. apply only_sbuf. }
  destruct (if str_eq method "POST" then _ else None) as [idx|].
  { destruct (_ || _); (apply only_bind; [|done]); [exact H404|]. unfold handle_channel_post.
    apply only_bind; [apply only_client|]. intros [e|v]; [apply only_bind; [apply only_overrun|]; intros b; apply only_sbuf|].
    apply only_bind; [apply only_wait_status|]. intros _. apply only_bind; [apply only_tuner|]. intros x.
    apply only_bind; [apply only_overrun|]. intros b. apply only_sbuf. }
  destruct (_ && _); [|exact I]. unfold serve_static_file. destruct (strstr path "..") eqn:E; [by apply only_bind|].
  cbv zeta. apply only_bind.
  - apply only_env. simpl. exists (if str_eq path "/" then "/index.html"%string else path).
    split; [done|]. by destruct (str_eq path "/").
  - intros [f|]; [|exact I]. destruct (_ <? _); [by apply only_bind|]. apply only_bind; [|done].
    unfold send_body, send_headers. apply only_bind; [apply only_send|]. intros _. apply only_bind; [by apply only_env|done].
Qed.

(** ** The statistics object *)

(** A text without characters to escape. *)
Definition plain (s : string) : Prop := escape s = s.

Lemma escape_length s : (String.length s <= String.length (escape s))%nat.
Proof.
  induction s as [|c s IH]; [done|]. cbn [escape String.length]. rewrite length_app_str.
  pose proof (escape_char_length c). lia.
Qed.

Lemma append_fits cap b t : (b.1 = String.length b.2)%nat -> (b.1 + String.length t < cap)%nat ->
  append cap b t = Some ((b.1 + String.length t)%nat, b.2 +:+ t).
Proof.
  intros Hb Ht. unfold append. rewrite (proj2 (Nat.ltb_ge _ _)) by lia. by rewrite snprintf_fits by lia.
Qed.

Lemma escape_fits cap b s : plain s -> (b.1 + String.length s + 6 <= cap)%nat ->
  json_escape_append cap b s = ((b.1 + String.length s)%nat, b.2 +:+ s).
Proof.
  unfold plain. destruct b as [off out]. revert off out. induction s as [|c s IH]; intros off out Hp Hl; cbn [json_escape_append fst snd].
  { cbn. by rewrite app_str_nil_r, Nat.add_0_r. }
  cbn [escape String.length] in Hp, Hl. cbn [fst snd] in Hl.
  assert (Hc : escape_char c = String c "").
  { apply (f_equal String.length) in Hp. rewrite length_app_str in Hp. cbn [String.length] in Hp. pose proof (escape_length s).
    assert (H1 : String.length (escape_char c) = 1%nat) by (pose proof (escape_char_length c); lia).
    revert H1. clear. destruct c as [[] [] [] [] [] [] [] []]; vm_compute; congruence. }
  rewrite Hc in *. injection Hp as Hp. rewrite (proj2 (Nat.ltb_lt _ _)) by lia. cbn [String.length].
  rewrite IH by (done || (cbn [fst snd]; lia)). cbn [fst snd]. f_equal; [cbn [String.length]; lia|by rewrite app_str_assoc].
Qed.

Lemma token_length s key n t : token_str s key n = Some t -> (String.length t <= n - 1)%nat.
Proof. unfold token_str. destruct (strstr s key); [|done]. intros [= <-]. apply length_str_take. Qed.

Lemma token_int_range s key : is_i32 (token_int s key 0).
Proof.
  unfold token_int. destruct (token_str s key 32) as [[|c t]|]; [done| |done]. unfold atoi. destruct (scan_num 10 _) as [[[? ?] ?]|]; [apply i32_range|done].
Qed.

(** The reference object. *)
Definition stats_object (idx : Z) (physical lock : string) (ss snq seq : Z) : string :=
  "{" +:+ q "index" +:+ ":" +:+ dec idx +:+ "," +:+ q "physical_channel" +:+ ":" +:+ q physical +:+ "," +:+ q "lock" +:+ ":" +:+ q lock +:+ "," +:+
  q "signal_strength_pct" +:+ ":" +:+ dec ss +:+ "," +:+ q "signal_quality_pct" +:+ ":" +:+ dec snq +:+ "," +:+
  q "symbol_quality_pct" +:+ ":" +:+ dec seq +:+ "}" +:+ nl.

Lemma add_some (n m : nat) (t u : string) : n = m -> t = u -> Some (n, t) = Some (m, u).
Proof. by intros -> ->. Qed.

Lemma stats_json_fits (idx : Z) (status : string) :
  let physical := default "none"%string (token_str status "ch=" 64) in
  let lock := default "none"%string (token_str status "lock=" 16) in
  let text := stats_object idx physical lock (token_int status "ss=" 0) (token_int status "snq=" 0) (token_int status "seq=" 0) in
  0 <= idx < 10 -> plain physical -> plain lock ->
  stats_json idx status = Some (String.length text, text) /\ (String.length text < 256)%nat.
Proof.
  cbv zeta. intros Hi Hp Hl. unfold stats_json, stats_object, q. cbv zeta.
  assert (Hlp : (String.length (default "none"%string (token_str status "ch=" 64)) <= 63)%nat).
  { destruct (token_str status "ch=" 64) as [t|] eqn:E; [apply token_length in E; simpl in *; lia|simpl; lia]. }
  assert (Hll : (String.length (default "none"%string (token_str status "lock=" 16)) <= 15)%nat).
  { destruct (token_str status "lock=" 16) as [t|] eqn:E; [apply token_length in E; simpl in *; lia|simpl; lia]. }
  set (ph := default _ (token_str status "ch=" 64)) in *. set (lk := default _ (token_str status "lock=" 16)) in *.
  pose proof (length_dec _ (token_int_range status "ss=")) as H1. pose proof (length_dec _ (token_int_range status "snq=")) as H2.
  pose proof (length_dec _ (token_int_range status "seq=")) as H3.
  assert (H0 : (String.length (dec idx) <= 1)%nat) by (unfold dec; destruct (idx <? 0) eqn:E; zb; [lia|apply length_dec_u; simpl; lia]).
  generalize dependent (dec (token_int status "ss=" 0)). generalize dependent (dec (token_int status "snq=" 0)).
  generalize dependent (dec (token_int status "seq=" 0)). generalize dependent (dec idx). clearbody ph lk.
  intros d0 H0 d3 H3 d2 H2 d1 H1.
  rewrite append_fits; [|done|rewrite !length_app_str; simpl; lia]. cbn [mbind option_bind fst snd].
  rewrite escape_fits; [|done|cbn [fst snd]; rewrite !length_app_str; simpl; lia].
  rewrite append_fits; [|cbn [fst snd]; rewrite !length_app_str; simpl; lia..]. cbn [mbind option_bind fst snd].
  rewrite escape_fits; [|done|cbn [fst snd]; rewrite !length_app_str; simpl; lia].
  rewrite append_fits; [|cbn [fst snd]; rewrite !length_app_str; simpl; lia..]. cbn [fst snd].
  split; [|rewrite !length_app_str; simpl; lia].
  apply add_some; [rewrite !length_app_str; simpl; lia|]. rewrite !app_str_assoc. reflexivity.
Qed.

(** Claim C40: the statistics object fits its 256 bytes whatever status the tuner
    reports, as long as its channel and lock words need no escaping, and it is
    then the complete object; the offset never leaves the buffer. *)
Theorem stats_json_bounds (idx : Z) (status : string) :
  let physical := default "none"%string (token_str status "ch=" 64) in
  let lock := default "none"%string (token_str status "lock=" 16) in
  let text := stats_object idx physical lock (token_int status "ss=" 0) (token_int status "snq=" 0) (token_int status "seq=" 0) in
  0 <= idx < 10 -> plain physical -> plain lock ->
  stats_json idx status = Some (String.length text, text) /\ (String.length text < 256)%nat.
Proof. exact (stats_json_fits idx status). Qed.

Lemma stats_json_bounds_witness :
  snd <$> stats_json 1 "ch=qam:573000000 lock=qam ss=80 snq=90 seq=100" =
    Some (stats_object 1 "qam:573000000" "qam" 80 90 100).
Proof.
  destruct (stats_json_bounds 1 "ch=qam:573000000 lock=qam ss=80 snq=90 seq=100") as [H _].
  - lia.
  - reflexivity.
  - reflexivity.
  - rewrite H. reflexivity.
Defined.

(** Without the hypothesis on escaping the offset does leave the buffer. *)
Example stats_json_overflow :
  stats_json 0 ("ch=" +:+ String.string_of_list_ascii (replicate 63 "001"%char) +:+ " lock=none") = None.
Proof. vm_compute. reflexivity. Qed.

(** ** What fits *)

(** A text without special characters is its own escape. *)
Lemma plain_text s : existsb json_special (String.list_ascii_of_string s) = false -> plain s.
Proof.
  unfold plain. induction s as [|c s IH]; [done|]. cbn [String.list_ascii_of_string existsb escape].
  intros [Hc Hs]%orb_false_iff. rewrite IH by done. clear IH Hs.
  assert (He : escape_char c = String c ""); [|by rewrite He].
  revert Hc. destruct c as [[] [] [] [] [] [] [] []]; vm_compute; congruence.
Qed.

(** [f] adds at most [n] characters where there is room for them and an escape. *)
Definition grows (cap n : nat) (f : sbuf -> option sbuf) : Prop :=
  forall b : sbuf, b.1 = String.length b.2 -> (b.1 + n + 6 < cap)%nat ->
    exists b' : sbuf, f b = Some b' /\ b'.1 = String.length b'.2 /\ (b'.1 <= b.1 + n)%nat.

Lemma grows_append cap n t : (String.length t <= n)%nat -> grows cap n (fun b => append cap b t).
Proof.
  intros Ht b Hb Hr. rewrite append_fits by lia. eexists. split; [done|]. cbn [fst snd]. rewrite length_app_str. lia.
Qed.

Lemma grows_field cap n s t : plain s -> (String.length s + String.length t <= n)%nat ->
  grows cap n (fun b => append cap (json_escape_append cap b s) t).
Proof.
  intros Hs Ht b Hb Hr. rewrite escape_fits, append_fits; [|cbn [fst snd]; rewrite ?length_app_str; lia..|done|lia].
  eexists. split; [done|]. cbn [fst snd]. rewrite !length_app_str. lia.
Qed.

Lemma grows_bind cap n m k f g : grows cap n f -> grows cap m g -> (n + m <= k)%nat -> grows cap k (fun b => f b ≫= g).
Proof.
  intros Hf Hg Hk b Hb Hr. destruct (Hf b Hb ltac:(lia)) as (b1 & E1 & H1 & H2).
  destruct (Hg b1 H1 ltac:(lia)) as (b2 & E2 & H3 & H4). exists b2. rewrite E1. simpl. split; [done|]. split; [done|lia].
Qed.

Lemma grows_ret cap : grows cap 0 Some.
Proof. intros b Hb Hr. exists b. split; [done|]. split; [done|lia]. Qed.

(** A line gives numbers of 32 bits and a name of at most 63 characters. *)
Lemma info_line_length line x : scan_info_line line = Some x ->
  (String.length (dec_u x.1.1.1) <= 10)%nat /\ (String.length (dec_u x.1.1.2) <= 10)%nat /\
  (String.length (dec_u x.1.2) <= 10)%nat /\ (String.length x.2 <= 63)%nat.
Proof.
  assert (Hd : forall s n r, scan_uw 10 32 s = Some (n, r) -> (String.length (dec_u n) <= 10)%nat).
  { intros s n r. unfold scan_uw. destruct (scan_num 10 s) as [[[neg v] r']|]; [|done]. intros [= <- _].
    pose proof (Z.mod_pos_bound (ulong_of neg v) (2 ^ 32) eq_refl). apply length_dec_u; [lia|]. change (Z.of_nat 10) with 10. lia. }
  unfold scan_info_line. destruct (scan_uw 10 32 line) as [[prog r0]|] eqn:E0; [|done]. cbn [mbind option_bind].
  destruct (scan_lit ":" r0) as [r1|]; [|done]. cbn [mbind option_bind].
  destruct (scan_uw 10 32 (skip_while isspace r1)) as [[ma r2]|] eqn:E1; [|done]. cbn [mbind option_bind].
  destruct (scan_lit "." r2) as [r3|]; [|done]. cbn [mbind option_bind].
  destruct (scan_uw 10 32 r3) as [[mi r4]|] eqn:E2; [|done]. cbn [mbind option_bind].
  destruct (take_while _ _) as [|c name]; [done|]. pose proof (length_str_take 63 (String c name)) as H63.
  generalize dependent (str_take 63 (String c name)). intros nm H63 [= <-]. cbn [fst snd].
  split; [by eapply Hd|]. split; [by eapply Hd|]. split; [by eapply Hd|]. exact H63.
Qed.

Lemma grows_infos cap lines first : Forall (fun x => plain x.2) (omap scan_info_line lines) ->
  grows cap (134 * length (omap scan_info_line lines)) (append_infos cap first lines).
Proof.
  revert first. induction lines as [|line lines IH]; intros first Hp.
  { exact (grows_ret cap). }
  cbn [append_infos omap list_omap] in *. pose proof (info_line_length line) as Hl.
  destruct (scan_info_line line) as [[[[prog ma] mi] name]|]; [|by apply IH].
  apply Forall_cons in Hp as [Hn Hp]. destruct (Hl _ eq_refl) as (H1 & H2 & H3 & H4). cbn [fst snd] in *. clear Hl.
  eapply (grows_bind cap 69).
  - apply grows_append. unfold q. rewrite !length_app_str. destruct first; simpl; lia.
  - eapply (grows_bind cap 65); [apply grows_field; [exact Hn|simpl; lia]|by apply IH|reflexivity].
  - cbn [length]. lia.
Qed.

Lemma grows_raw cap n field raw : (String.length field + String.length (reading raw) + 4 <= n)%nat ->
  grows cap n (fun b => append_raw cap b field raw).
Proof. intros H. apply grows_append. unfold q. rewrite !length_app_str. simpl. lia. Qed.

(** An object that is not outsized needs at most 3620 characters. *)
Lemma grows_tuner cap idx status vchannel streaminfo debug :
  0 <= idx < 10 -> (String.length vchannel <= 511)%nat -> outsized (tuner_object status vchannel streaminfo debug) = false ->
  grows cap 3620 (fun b => tuner_json cap b idx status vchannel streaminfo debug).
Proof.
  intros Hi Hv Ho. unfold outsized, tuner_object in Ho. cbn [jo_words jo_readings jo_entries existsb] in Ho.
  apply orb_false_iff in Ho as [[Hw Hr]%orb_false_iff He]. apply Nat.ltb_ge in He.
  apply orb_false_iff in Hw as [Hp%plain_text [Hvp%plain_text [Hlp%plain_text Hn]%orb_false_iff]%orb_false_iff].
  apply orb_false_iff in Hr as [H1%Nat.ltb_ge [H2%Nat.ltb_ge _]%orb_false_iff].
  assert (Hnames : Forall (fun x => plain x.2) (infos streaminfo)).
  { apply Forall_forall. intros x Hx. apply plain_text. apply not_true_iff_false. intros Ht.
    apply not_true_iff_false in Hn. apply Hn, existsb_exists. exists x.2. split; [|done].
    by apply list_elem_of_In, list_elem_of_fmap_2. }
  assert (Hlp' : (String.length (default "none"%string (token_str status "ch=" 64)) <= 63)%nat).
  { destruct (token_str status "ch=" 64) as [t|] eqn:E; [apply token_length in E; simpl in *; lia|simpl; lia]. }
  assert (Hll : (String.length (default "none"%string (token_str status "lock=" 16)) <= 15)%nat).
  { destruct (token_str status "lock=" 16) as [t|] eqn:E; [apply token_length in E; simpl in *; lia|simpl; lia]. }
  assert (H0 : (String.length (dec idx) <= 1)%nat) by (unfold dec; destruct (idx <? 0) eqn:E; zb; [lia|apply length_dec_u; simpl; lia]).
  assert (Hd : forall k, (String.length (dec (token_int status k 0)) <= 11)%nat) by (intros k; apply length_dec, token_int_range).
  unfold tuner_json. cbv zeta. unfold infos in *. unfold q.
  eapply (grows_bind cap 40 3580); [apply grows_append; rewrite !length_app_str; simpl; lia| |lia].
  eapply (grows_bind cap 80 3500); [apply grows_field; [done|rewrite !length_app_str; simpl; lia]| |lia].
  eapply (grows_bind cap 530 2970); [apply grows_field; [done|rewrite !length_app_str; simpl; lia]| |lia].
  eapply (grows_bind cap 160 2810).
  { apply grows_field; [done|]. pose proof (Hd "ss="). pose proof (Hd "snq="). pose proof (Hd "seq="). pose proof (Hd "bps="). pose proof (Hd "pps=").
    rewrite !length_app_str. simpl. lia. }
  2:{ lia. }
  eapply (grows_bind cap 54 2756); [apply grows_raw; simpl; lia| |lia].
  eapply (grows_bind cap 50 2706); [apply grows_raw; simpl; lia| |lia].
  eapply (grows_bind cap 16 2690); [apply grows_append; rewrite !length_app_str; simpl; lia| |lia].
  eapply (grows_bind cap (134 * length (omap scan_info_line (lines_of "" (snprintf 512 streaminfo)))) 2);
    [by apply grows_infos|by apply grows_append|lia].
Qed.

(** Unless something is outsized, at most [n] characters are in the buffer. *)
Definition room (n : nat) (b : sbuf) (objects : list json_object) : Prop :=
  existsb outsized objects = false -> b.1 = String.length b.2 /\ (b.1 <= n)%nat.

Lemma outsized_snoc objects o : existsb outsized (objects ++ [o]) = false -> existsb outsized objects = false /\ outsized o = false.
Proof. rewrite existsb_app. intros [H1 H2]%orb_false_iff. cbn in H2. by rewrite orb_false_r in H2. Qed.

(** ** Ownership and bounds *)

Lemma header_fits status ct n :
  (String.length status <= 40)%nat -> (String.length ct <= 40)%nat -> 0 <= n < 10 ^ 20 ->
  (String.length (header_text status ct n) < 256)%nat.
Proof.
  intros Hs Hc Hn. unfold header_text, dec. rewrite (proj2 (Z.ltb_ge _ _)) by lia.
  pose proof (length_dec_u n 20 ltac:(lia) ltac:(lia)) as Hd. rewrite !length_app_str. simpl. lia.
Qed.

Section Specs.
Context (cfg : hdhr_config) (Hcount : tuner_count cfg <= 8).
Local Notation wp := (wp cfg).

Lemma wp_send_headers fd status ct n R (Q : unit -> toks -> Prop) :
  (String.length status <= 40)%nat -> (String.length ct <= 40)%nat -> 0 <= n < 10 ^ 20 -> Q tt R ->
  wp (send_headers fd status ct n) R Q.
Proof.
  intros Hs Hc Hn HQ. unfold send_headers, send_buffer. rewrite (proj2 (Nat.ltb_lt _ _)) by by apply header_fits.
  wp_step. wp_step. done.
Qed.

Lemma wp_send_404 fd R (Q : unit -> toks -> Prop) : Q tt R -> wp (send_404 fd) R Q.
Proof. intros HQ. apply wp_send_headers; simpl; [lia..|done]. Qed.

(** The four buffers. *)
Definition json_buffer (cap : nat) : Prop := cap ∈ [256; 384; 4096; 4096 + Z.to_nat (tuner_count cfg) * 4096]%nat.

(** Where the buffer overruns, something is outsized. *)
Lemma wp_overrun {X} cap objects R (Q : X -> toks -> Prop) :
  json_buffer cap -> (existsb outsized objects = false -> False) -> wp (overrun cap objects) R Q.
Proof. intros Hc Ho. split; [done|]. by apply not_false_is_true. Qed.

Lemma wp_grow cap n m objects f b R (Q : sbuf -> toks -> Prop) :
  json_buffer cap -> room n b objects -> (existsb outsized objects = false -> grows cap m f) -> (n + m + 6 < cap)%nat ->
  (forall b', room (n + m) b' objects -> Q b' R) -> wp (or_overrun cap objects (f b)) R Q.
Proof.
  intros Hc Hr Hg Hn HQ. destruct (f b) as [b'|] eqn:E.
  - apply wp_ret, HQ. intros Ho. destruct (Hr Ho) as [H1 H2]. destruct (Hg Ho b H1) as (b1 & E1 & H3 & H4); [lia|].
    assert (b1 = b') as -> by congruence. split; [done|lia].
  - apply wp_overrun; [done|]. intros Ho. destruct (Hr Ho) as [H1 H2]. destruct (Hg Ho b H1) as (b1 & E1 & _); [lia|]. congruence.
Qed.

Lemma wp_send_sbuf cap n objects fd status ct b R (Q : unit -> toks -> Prop) :
  json_buffer cap -> Z.of_nat cap <= 40000 -> (String.length status <= 40)%nat -> (String.length ct <= 40)%nat ->
  room n b objects -> (n <= cap)%nat -> Q tt R ->
  wp (send_sbuf cap objects fd status ct b) R Q.
Proof.
  intros Hj Hcap Hs Hc Hr Hn HQ. unfold send_sbuf. destruct (_ <=? _)%nat eqn:E.
  - apply Nat.leb_le in E. wp_step. apply wp_send_headers; [done..|lia|]. wp_step. wp_step. done.
  - apply Nat.leb_gt in E. apply wp_overrun; [done|]. intros Ho. destruct (Hr Ho) as [_ H]. lia.
Qed.

Lemma wp_ask idx leaf fb R (Q : string -> toks -> Prop) :
  (String.length fb <= 511)%nat -> (forall v, (String.length v <= 511)%nat -> Q v R) -> wp (ask idx leaf fb) R Q.
Proof. intros Hf HQ. unfold ask. wp_step. apply wp_getset_client_call. intros [e|v] Hr; apply wp_ret, HQ; [done|exact Hr]. Qed.

Lemma wp_append_tuner cap n objects b idx R (Q : sbuf * list json_object -> toks -> Prop) :
  json_buffer cap -> 0 <= idx < 10 -> room n b objects -> (n + 3620 + 6 < cap)%nat ->
  (forall b' objects', room (n + 3620) b' objects' -> Q (b', objects') R) -> wp (append_tuner_json cap objects b idx) R Q.
Proof.
  intros Hj Hi Hr Hn HQ. unfold append_tuner_json. wp_step. apply wp_ask; [simpl; lia|]. intros status _.
  wp_step. apply wp_ask; [simpl; lia|]. intros vch Hv. wp_step. apply wp_ask; [simpl; lia|]. intros info _.
  wp_step. apply wp_ask; [simpl; lia|]. intros debug _. cbv zeta. wp_step.
  apply (wp_grow cap n 3620 _ (fun b => tuner_json cap b idx status vch info debug)); [done| | |done|].
  - intros [Ho _]%outsized_snoc. by apply Hr.
  - intros [_ Ho]%outsized_snoc. by apply grows_tuner.
  - intros b' Hb'. by apply wp_ret, HQ.
Qed.

Lemma wp_append_tuners cap k n i x R (Q : sbuf * list json_object -> toks -> Prop) :
  json_buffer cap -> 0 <= i -> i + Z.of_nat k <= 8 -> room n x.1 x.2 -> (n + k * 3621 + 6 < cap)%nat ->
  (forall x', room (n + k * 3621) x'.1 x'.2 -> Q x' R) -> wp (append_tuners cap i k x) R Q.
Proof.
  intros Hj. revert n i x. induction k as [|k IH]; intros n i x H0 H8 Hr Hn HQ.
  { apply wp_ret, HQ. intros Ho. destruct (Hr Ho). split; [done|lia]. }
  cbn [append_tuners]. wp_step. apply (wp_grow cap n 1 _ (fun b => append cap b (if i =? 0 then "" else ","))); [done|done| |lia|].
  { intros _. apply grows_append. destruct (i =? 0); simpl; lia. }
  intros b Hb. wp_step. apply (wp_append_tuner cap (n + 1)); [done|lia|done|lia|]. intros b' objects' Hb'.
  apply (IH (n + 1 + 3620)%nat); [lia|lia|exact Hb'|lia|]. intros x' Hx'. apply HQ.
  intros Ho. destruct (Hx' Ho). split; [done|lia].
Qed.

(** An empty buffer. *)
Lemma room_start : room 0 (0%nat, ""%string) [].
Proof. intros _. split; [done|cbn; lia]. Qed.

Lemma wp_tuners_json fd R (Q : unit -> toks -> Prop) : Q tt R -> wp (handle_tuners_json cfg fd) R Q.
Proof using Hcount.
  intros HQ. unfold handle_tuners_json, PER_TUNER_JSON_MAX. cbv zeta. set (cap := (4096 + Z.to_nat (tuner_count cfg) * 4096)%nat).
  assert (Hj : json_buffer cap) by (unfold json_buffer; do 3 right; by left).
  assert (Hcap : (cap = 4096 + Z.to_nat (tuner_count cfg) * 4096)%nat) by done. clearbody cap.
  wp_step. apply (wp_grow cap 0 11 _ (fun b => append cap b ("{" +:+ q "tuners" +:+ ":["))); [done|apply room_start| |lia|].
  { intros _. apply grows_append. unfold q. rewrite !length_app_str. simpl. lia. }
  intros b Hb. wp_step. apply (wp_append_tuners cap _ 11); [done|lia|lia|exact Hb|lia|]. intros x Hx.
  wp_step. apply (wp_grow cap (11 + Z.to_nat (tuner_count cfg) * 3621) 3 _ (fun b => append cap b ("]}" +:+ nl))); [done|exact Hx| |lia|].
  { intros _. apply grows_append. simpl. lia. }
  intros b' Hb'. eapply wp_send_sbuf; [done|lia|simpl; lia..|exact Hb'|lia|done].
Qed.

Lemma wp_stats_json fd idx R (Q : unit -> toks -> Prop) : 0 <= idx < 10 -> Q tt R -> wp (handle_stats_json fd idx) R Q.
Proof.
  intros Hi HQ. unfold handle_stats_json. wp_step. apply wp_ask; [simpl; lia|]. intros st _.
  assert (Hj : json_buffer 256) by by left.
  assert (Hfit : existsb outsized [status_object st] = false -> exists text, stats_json idx st = Some (String.length text, text) /\ (String.length text < 256)%nat).
  { unfold outsized. cbn -[String.list_ascii_of_string]. intros [[[[Hp [Hl _]%orb_false_iff]%orb_false_iff _]%orb_false_iff _]%orb_false_iff _]%orb_false_iff.
    eexists. apply stats_json_fits; [done|by apply plain_text..]. }
  wp_step. destruct (stats_json idx st) as [b|] eqn:E.
  - apply wp_ret. apply (wp_send_sbuf 256 256); [done|lia|simpl; lia..| |lia|done]. intros Ho. destruct (Hfit Ho) as (text & [= ->] & Hlen).
    cbn [fst snd]. split; [done|lia].
  - apply wp_overrun; [done|]. intros Ho. by destruct (Hfit Ho) as (text & ? & _).
Qed.

Lemma wp_channel_post fd idx body R (Q : unit -> toks -> Prop) : 0 <= idx < 10 -> Q tt R -> wp (handle_channel_post fd idx body) R Q.
Proof.
  intros Hi HQ. unfold handle_channel_post. cbv zeta. wp_step. apply wp_getset_client_call. intros [err|v] Hr; cbn [client_fits] in Hr.
  - assert (Hj : json_buffer 384) by (right; by left). wp_step.
    apply (wp_grow 384 0 150 _ (fun _ => error_json err) (0%nat, ""%string)); [done| | |lia|].
    + intros _. split; [done|cbn; lia].
    + unfold outsized. cbn -[String.list_ascii_of_string]. intros [[[[Hp _]%orb_false_iff _]%orb_false_iff _]%orb_false_iff _]%orb_false_iff.
      apply plain_text in Hp. intros b Hb Hroom. unfold error_json, q.
      destruct (grows_bind 384 10 140 150 (fun b => append 384 b ("{" +:+ (dquote +:+ "error" +:+ dquote) +:+ ":" +:+ dquote))
        (fun b => append 384 (json_escape_append 384 b err) (dquote +:+ "}" +:+ nl))) with (b := (0%nat, ""%string)) as (b' & E & H1 & H2).
      * apply grows_append. rewrite !length_app_str. simpl. lia.
      * apply grows_field; [done|]. rewrite !length_app_str. simpl. lia.
      * lia.
      * done.
      * cbn [fst]. lia.
      * exists b'. split; [exact E|]. split; [done|]. cbn [fst] in H2. lia.
    + intros b Hb. eapply wp_send_sbuf; [done|lia|simpl; lia..|exact Hb|lia|done].
  - wp_step. assert (Hw : forall n, wp (wait_status n idx) R (fun _ R' => R' = R)).
    { induction n as [|n IH]; [done|]. cbn [wait_status]. wp_step. apply wp_getset_client_call. intros [e|s] _; [done|].
      destruct (is_placeholder s); [|done]. wp_step. wp_step. exact IH. }
    apply wp_keep; [apply Hw|]. intros _. unfold PER_TUNER_JSON_MAX. assert (Hj : json_buffer 4096) by (do 2 right; by left).
    wp_step. apply (wp_append_tuner 4096 0); [done|lia|apply room_start|lia|]. intros b objects Hb.
    wp_step. apply (wp_grow 4096 3620 1 _ (fun b => append 4096 b nl)); [done|exact Hb|intros _; by apply grows_append|lia|].
    intros b' Hb'. eapply wp_send_sbuf; [done|lia|simpl; lia..|exact Hb'|lia|done].
Qed.

Lemma content_type_length path : (String.length (content_type_for path) <= 40)%nat.
Proof. unfold content_type_for. repeat (destruct (ends_with _ _); [simpl; lia|]). simpl. lia. Qed.

Lemma wp_static_file fd path R (Q : bool -> toks -> Prop) : (forall b, Q b R) -> wp (serve_static_file cfg fd path) R Q.
Proof.
  intros HQ. unfold serve_static_file. destruct (strstr path ".."); [wp_step; apply wp_send_404; apply wp_ret, HQ|].
  cbv zeta. wp_step. wp_step. destruct a as [body|]; [|apply wp_ret, HQ].
  destruct (_ <? _) eqn:E; [wp_step; apply wp_send_404; apply wp_ret, HQ|]. zb.
  wp_step. unfold send_body. wp_step. apply wp_send_headers; [simpl; lia|apply content_type_length|lia|].
  wp_step. wp_step. wp_step. apply wp_ret, HQ.
Qed.

Lemma wp_web_ui fd method path body R (Q : bool -> toks -> Prop) :
  (forall b, Q b R) -> wp (web_ui_try_handle cfg fd method path body) R Q.
Proof using Hcount.
  intros HQ. unfold web_ui_try_handle. cbv zeta.
  destruct (str_eq method "GET" && str_eq path "/api/tuners.json"); [wp_step; apply wp_tuners_json; apply wp_ret, HQ|].
  destruct (if str_eq method "GET" then _ else None) as [idx|].
  { destruct (_ || _) eqn:E; wp_step; [apply wp_send_404|apply wp_stats_json; [zb; lia|]]; apply wp_ret, HQ. }
  destruct (if str_eq method "POST" then _ else None) as [idx|].
  { destruct (_ || _) eqn:E; wp_step; [apply wp_send_404|apply wp_channel_post; [zb; lia|]]; apply wp_ret, HQ. }
  destruct (_ && _); [by apply wp_static_file|apply wp_ret, HQ].
Qed.
End Specs.

(** A request target need not start with a slash: the file then is a sibling of
    the web root. *)
Lemma static_sibling cfg fd : web_root cfg = "/srv/web"%string ->
  exists k, web_ui_try_handle cfg fd "GET" "-private/key" [] = Do (Env (QReadFile "/srv/web-private/key")) k.
Proof.
  intros H. unfold web_ui_try_handle, serve_static_file. cbn -[snprintf]. rewrite H.
  eexists. reflexivity.
Qed.
