(* ===== verification/Http.v ===== *)
(** The HTTP server: src/src/http_server.c.

    Reading a request, the device and lineup documents, the streaming of a
    channel from claiming a tuner to releasing it, connections and accepting.
    A channel is a pointer into the table ([ChannelDb.chan_ptr]).  A [write] longer
    than the buffer it reads is a fault.  [malloc] is taken to succeed; socket
    options are not modelled. *)
From stdpp Require Import gmultiset.
From Stdlib Require Import Sorted.
From S2P Require Import Prelude RecordUpd Pkt CLib FreqPlan PidFilter ChannelDb Config Stats Ring Tuner Sys Life Own Rules.
From S2P Require Import Frontend Exec Stream TunerOps Push ControlText Control GetsetClient WebUi.

(** ** Replies *)

Definition stream_header : string :=
  "HTTP/1.1 200 OK" +:+ crlf +:+ "Content-Type: video/mpeg" +:+ crlf +:+ "Connection: close" +:+ crlf +:+ "Server: hdhr-emu" +:+ crlf +:+ crlf.

Definition m3u_header (filename : string) (len : Z) : string :=
  "HTTP/1.1 200 OK" +:+ crlf +:+ "Content-Type: audio/x-mpegurl" +:+ crlf +:+
  "Content-Disposition: attachment; filename=" +:+ q filename +:+ crlf +:+
  "Content-Length: " +:+ dec len +:+ crlf +:+ "Connection: close" +:+ crlf +:+ "Server: hdhr-emu" +:+ crlf +:+ crlf.

(** Without a length when it is negative. *)
Definition reply_header (status content_type : string) (content_length : Z) : string :=
  if 0 <=? content_length then header_text status content_type content_length
  else "HTTP/1.1 " +:+ status +:+ crlf +:+ "Content-Type: " +:+ content_type +:+ crlf +:+
       "Connection: close" +:+ crlf +:+ "Server: hdhr-emu" +:+ crlf +:+ crlf.
Definition send_headers (fd : Z) (status content_type : string) (content_length : Z) : prog unit :=
  send_buffer 256 fd (reply_header status content_type content_length).
Definition send_404 (fd : Z) : prog unit := send_headers fd "404 Not Found" "text/plain" 0.

Definition send_json (fd : Z) (json : string) : prog unit :=
  send_headers fd "200 OK" "application/json" (Z.of_nat (String.length json)) ;;
  env (QSend fd (str_bytes json)) ;; Ret tt.
Definition send_503 (fd : Z) (msg : string) : prog unit :=
  send_headers fd "503 Service Unavailable" "text/plain" (Z.of_nat (String.length msg)) ;;
  env (QSend fd (str_bytes msg)) ;; Ret tt.

(** [getsockname]; "0.0.0.0" when the local address is unknown. *)
Definition local_ip (fd : Z) : prog string :=
  local <- env (QSockName fd) ;; Ret (match local : option Z with Some a => inet_ntop a | None => "0.0.0.0"%string end).

(** ** Documents *)

Definition json_field (name value : string) : string := "  " +:+ q name +:+ ": " +:+ value.

Definition discover_json (cfg : hdhr_config) (ip : string) : string :=
  "{" +:+ nl +:+
  json_field "FriendlyName" (q (friendly_name cfg)) +:+ "," +:+ nl +:+
  json_field "ModelNumber" (q (model cfg)) +:+ "," +:+ nl +:+
  json_field "FirmwareName" (q (firmware_name cfg)) +:+ "," +:+ nl +:+
  json_field "FirmwareVersion" (q (firmware_version cfg)) +:+ "," +:+ nl +:+
  json_field "DeviceID" (q (hex_pad true 8 (device_id cfg))) +:+ "," +:+ nl +:+
  json_field "DeviceAuth" (q "") +:+ "," +:+ nl +:+
  json_field "BaseURL" (q ("http://" +:+ ip +:+ ":80")) +:+ "," +:+ nl +:+
  json_field "LineupURL" (q ("http://" +:+ ip +:+ ":80/lineup.json")) +:+ "," +:+ nl +:+
  json_field "TunerCount" (dec (tuner_count cfg)) +:+ nl +:+ "}" +:+ nl.

Definition handle_discover_json (cfg : hdhr_config) (fd : Z) : prog unit :=
  ip <- local_ip fd ;; send_json fd (snprintf 768 (discover_json cfg ip)).

Definition lineup_status_json : string :=
  "{" +:+ nl +:+ json_field "ScanInProgress" "0" +:+ "," +:+ nl +:+ json_field "ScanPossible" "1" +:+ "," +:+ nl +:+
  json_field "Source" (q "Antenna") +:+ "," +:+ nl +:+ json_field "SourceList" ("[" +:+ q "Antenna" +:+ "]") +:+ nl +:+ "}" +:+ nl.

(** The two numbers are C ints. *)
Definition dotted (ma mi : Z) : string := dec (i32 ma) +:+ "." +:+ dec (i32 mi).
Definition auto_url (ip : string) (ma mi : Z) : string := "http://" +:+ ip +:+ ":80/auto/v" +:+ dotted ma mi.

Definition handle_m3u (fd major minor : Z) : prog unit :=
  p <- db_get (find_ptr major minor) ;;
  ip <- local_ip fd ;;
  ch <- db_get (fun db => option_map (fun p => deref p db) p) ;;
  let body := "#EXTM3U" +:+ nl +:+ "#EXTINF:-1," +:+ dotted major minor +:+ " " +:+
    (match ch with Some ch => short_name ch | None => "Unknown"%string end) +:+ nl +:+ auto_url ip major minor +:+ nl in
  send_buffer 256 fd (m3u_header (dotted major minor +:+ ".m3u") (Z.of_nat (String.length body))) ;;
  send_buffer 512 fd body.

(** A growing buffer: its capacity and contents; each entry first doubles it
    when less than 512 bytes are left. *)
Fixpoint append_entries (cap : nat) (b : sbuf) (entries : list string) : option (nat * sbuf) :=
  match entries with
  | [] => Some (cap, b)
  | e :: entries =>
      let cap := if (b.1 <=? cap)%nat && (cap - b.1 <? 512)%nat then (cap * 2)%nat else cap in
      match append cap b e with Some b => append_entries cap b entries | None => None end
  end.

Definition unquote (s : string) : string :=
  String.string_of_list_ascii ((fun c => if bool_decide (c = "034"%char) then "'"%char else c) <$> String.list_ascii_of_string s).

Definition m3u_entry (ip : string) (ch : dvb_channel) : string :=
  "#EXTINF:-1 tvg-chno=" +:+ q (dotted (major ch) (minor ch)) +:+ " tvg-name=" +:+ q (unquote (snprintf 16 (short_name ch))) +:+ "," +:+
  dotted (major ch) (minor ch) +:+ " " +:+ short_name ch +:+ nl +:+ auto_url ip (major ch) (minor ch) +:+ nl.

Definition lineup_m3u (ip : string) (chs : list dvb_channel) : option (nat * sbuf) :=
  b ← append (Z.to_nat 16384) (0%nat, ""%string) ("#EXTM3U" +:+ nl);
  append_entries (Z.to_nat 16384) b (m3u_entry ip <$> chs).

Definition handle_lineup_m3u (fd : Z) : prog unit :=
  ip <- local_ip fd ;;
  chs <- db_get (fun db => dvb_channels_sorted db DVB_CHANNEL_MAX) ;;
  match lineup_m3u ip chs with
  | Some (cap, b) =>
      send_buffer 256 fd (m3u_header "lineup.m3u" (Z.of_nat b.1)) ;;
      if (b.1 =? String.length b.2)%nat then env (QSend fd (str_bytes b.2)) ;; Ret tt else fault
  | None => fault
  end.

Definition json_entry (ip : string) (last : bool) (ch : dvb_channel) : string :=
  "  {" +:+ q "GuideNumber" +:+ ": " +:+ q (dotted (major ch) (minor ch)) +:+ ", " +:+ q "GuideName" +:+ ": " +:+ q (short_name ch) +:+ ", " +:+
  q "URL" +:+ ": " +:+ q (auto_url ip (major ch) (minor ch)) +:+ "}" +:+ (if last then "" else ",") +:+ nl.
Fixpoint json_entries (ip : string) (chs : list dvb_channel) : list string :=
  match chs with
  | [] => []
  | ch :: chs => json_entry ip (match chs with [] => true | _ => false end) ch :: json_entries ip chs
  end.

Definition lineup_json (ip : string) (chs : list dvb_channel) : option sbuf :=
  b ← append (Z.to_nat 65536) (0%nat, ""%string) ("[" +:+ nl);
  '(cap, b) ← append_entries (Z.to_nat 65536) b (json_entries ip chs);
  let cap := if (b.1 <=? cap)%nat && (cap - b.1 <? 8)%nat then (cap + 8)%nat else cap in
  append cap b ("]" +:+ nl).

Definition handle_lineup_json (fd : Z) : prog unit :=
  ip <- local_ip fd ;;
  chs <- db_get (fun db => dvb_channels_sorted db DVB_CHANNEL_MAX) ;;
  match lineup_json ip chs with
  | Some b => send_json fd b.2
  | None => fault
  end.

(** ** Streaming a channel *)

(** Undoing the binding, when the tuner still is on this channel. *)
Definition unbind (ch : dvb_channel) (t : hdhr_tuner) : hdhr_tuner :=
  if vch_resolved t && (vch_major t =? major ch) && (vch_minor t =? minor ch) && (tuned_frequency_hz t =? frequency_hz ch)
  then t <| Tuner.channel := snprintf 64 "none" |> <| tuned_frequency_hz := 0 |> <| vch_resolved := false |>
         <| program := DVB_PROGRAM_DEFAULT |> <| filter_override := "" |>
         <| status := snprintf 160 "ch=none lock=none ss=0 snq=0 seq=0 bps=0 pps=0" |>
  else t.
Definition release_http_pull (i : nat) (p : chan_ptr) : prog unit :=
  tun_db i (fun db => unbind (deref p db)) ;;
  tuner_release_park i.

Definition AUTO_AFFINITY_WAIT_MS : Z := 3000.

(** The tuner this client already streams from, within the wait. *)
Fixpoint claim_for_peer (fuel : nat) (ts : list nat) (peer_addr : Z) (p : chan_ptr) : prog (option (nat * Z)) :=
  match ts with
  | [] => Ret None
  | i :: ts =>
      mine <- tun_get i (fun t => busy t && (http_peer_addr t =? peer_addr)) ;;
      if negb mine then claim_for_peer fuel ts peer_addr p
      else
        ch <- db_get (deref p) ;;
        r <- tuner_try_claim_wait fuel i AUTO_AFFINITY_WAIT_MS (frequency_hz ch) (delivery ch) true ;;
        Ret (match r with Some reused => Some (i, reused) | None => None end)
  end.

(** The claim of a stream: the requested tuner, or the client's own, or a free one. *)
Definition claim_for_stream (fuel : nat) (count : Z) (requested : option nat) (peer_addr : Z) (p : chan_ptr) :
    prog (option (nat * Z)) :=
  match requested with
  | Some i =>
      ch <- db_get (deref p) ;;
      r <- tuner_try_claim i (frequency_hz ch) (delivery ch) true ;;
      Ret (match r with Some reused => Some (i, reused) | None => None end)
  | None =>
      own <- (if peer_addr =? 0 then Ret None else claim_for_peer fuel (seq 0 (Z.to_nat count)) peer_addr p) ;;
      match own with
      | Some r => Ret (Some r)
      | None =>
          ch <- db_get (deref p) ;;
          tuner_pool_claim_free (Z.to_nat count) (frequency_hz ch) (delivery ch) true
      end
  end.

(** [write] until all is sent; false: the connection is gone. *)
Fixpoint send_all (fuel : nat) (fd : Z) (data : list Z) : prog bool :=
  match data with
  | [] => Ret true
  | _ =>
      match fuel with
      | O => Spin
      | S fuel =>
          w <- env (QSend fd data) ;;
          if (w : Z) <=? 0 then Ret false else send_all fuel fd (drop (Z.to_nat w) data)
      end
  end.

Definition PULL_BUFFER : Z := 188 * 64.
Fixpoint pull_loop (fuel : nat) (s : nat) (fd : Z) : prog unit :=
  match fuel with
  | O => Spin
  | S fuel' =>
      data <- dvb_stream_read fuel s PULL_BUFFER ;;
      match data with
      | [] => Ret tt
      | _ => ok <- send_all (length data) fd data ;; if ok : bool then pull_loop fuel' s fd else Ret tt
      end
  end.

(** The stream, once tuner [i] is claimed with a descriptor to reuse. *)
Definition pull_claimed (fuel : nat) (cfg : hdhr_config) (fd : Z) (i : nat) (reused_fd peer_addr : Z) (p : chan_ptr) : prog unit :=
  tun_set i (fun t => t <| http_peer_addr := peer_addr |>) ;;
  a <- tun_get i adapter ;;
  ds <- dvb_stream_open fuel a (dvb_frontend cfg) (dvb_demux cfg) (TableChannel p) DVB_PROGRAM_DEFAULT None reused_fd ;;
  match ds with
  | None => send_headers fd "502 Bad Gateway" "text/plain" 0 ;; tuner_release i
  | Some s =>
      tuner_bind_channel i (TableChannel p) DVB_PROGRAM_DEFAULT ;;
      tuner_set_stream i (Some s) ;;
      n <- env (QSend fd (str_bytes stream_header)) ;;
      when (0 <=? (n : Z)) (pull_loop fuel s fd) ;;
      release_http_pull i p
  end.

Definition stream_channel_to_client (fuel : nat) (cfg : hdhr_config) (fd : Z) (requested : option nat) (major minor : Z) : prog unit :=
  p <- db_get (find_ptr major minor) ;;
  match p with
  | None => send_404 fd
  | Some p =>
      peer_addr <- env (QPeerAddr fd) ;;
      claim <- claim_for_stream fuel (tuner_count cfg) requested peer_addr p ;;
      match claim with
      | None => send_503 fd ((match requested with Some _ => "tuner busy" | None => "all tuners busy" end) +:+ nl)
      | Some (i, reused_fd) => pull_claimed fuel cfg fd i reused_fd peer_addr p
      end
  end.

(** ** Requests *)

Definition REQ_SIZE : nat := Z.to_nat 8192.

(** Reads until the end of the headers, the end of the stream or a full buffer:
    the bytes and where the blank line is.  None: nothing was sent. *)
Fixpoint read_request (fuel : nat) (fd : Z) (req : list Z) : prog (option (list Z * option nat)) :=
  if (REQ_SIZE - 1 <=? length req)%nat then Ret (Some (req, None))
  else match fuel with
  | O => Spin
  | S fuel =>
      r <- env (QRecv fd (Z.of_nat (REQ_SIZE - 1 - length req))) ;;
      match r : read_result with
      | ReadError _ | ReadData [] => Ret (match req with [] => None | _ => Some (req, None) end)
      | ReadData data =>
          let req := req ++ take (REQ_SIZE - 1 - length req) data in
          let text := cstr (bytes_str req) in
          match strstr text (crlf +:+ crlf) with
          | Some r => Ret (Some (req, Some (String.length text - String.length r)%nat))
          | None => read_request fuel fd req
          end
      end
  end.

(** [sscanf]'s %<n>s *)
Definition scan_word (n : nat) (s : string) : option (string * string) :=
  let r := skip_while isspace s in
  match str_take n (take_while (fun c => negb (isspace c)) r) with
  | EmptyString => None
  | w => Some (w, str_drop (String.length w) r)
  end.

Definition atol (s : string) : Z := match scan_num 10 s with Some (neg, v, _) => long_of neg v | None => 0 end.

Fixpoint read_body (fuel : nat) (fd : Z) (len : nat) (body : list Z) : prog (list Z) :=
  if (len <=? length body)%nat then Ret body
  else match fuel with
  | O => Spin
  | S fuel =>
      r <- env (QRecv fd (Z.of_nat (len - length body))) ;;
      match r : read_result with
      | ReadError _ | ReadData [] => Ret body
      | ReadData data => read_body fuel fd len (body ++ take (len - length body) data)
      end
  end.

(** The body of a POST, of at most [body_cap] bytes. *)
Definition handle_post_body (fd : Z) (req : list Z) (hdr_end body_cap : nat) : prog (list Z) :=
  let body := take body_cap (drop (hdr_end + 4) req) in
  let content_length := match strstr (cstr (bytes_str req)) "Content-Length:" with
                        | Some r => atol (str_drop 15 r)
                        | None => Z.of_nat (length body)
                        end in
  let content_length := Z.min (Z.max content_length 0) (Z.of_nat body_cap) in
  read_body body_cap fd (Z.to_nat content_length) body.

(** [sscanf(s, "%d.%d")] into two zeros. *)
Definition scan_dotted (s : string) : Z * Z :=
  match scan_d s with
  | None => (0, 0)
  | Some (ma, r) => (ma, match scan_lit "." r with
                         | Some r => match scan_d r with Some (mi, _) => mi | None => 0 end
                         | None => 0
                         end)
  end.

(** "/tuner<idx>/v<major>.<minor>" *)
Definition tuner_path (path : string) : option (Z * Z * Z) :=
  r ← scan_lit "/tuner" path;
  '(idx, r) ← scan_d r;
  r ← scan_lit "/v" r;
  '(ma, r) ← scan_d r;
  r ← scan_lit "." r;
  '(mi, _) ← scan_d r;
  Some (idx, ma, mi).

Definition http_get (fuel : nat) (cfg : hdhr_config) (fd : Z) (method path : string) : prog unit :=
  if str_eq path "/discover.json" then handle_discover_json cfg fd
  else if str_eq path "/lineup_status.json" then send_json fd lineup_status_json
  else if str_eq path "/lineup.json" then handle_lineup_json fd
  else if str_eq path "/lineup.m3u" then handle_lineup_m3u fd
  else match scan_lit "/auto/v" path with
  | Some r =>
      let '(ma, mi) := scan_dotted r in
      if ends_with path ".m3u" then handle_m3u fd ma mi
      else stream_channel_to_client fuel cfg fd None ma mi
  | None =>
      match tuner_path path with
      | Some (idx, ma, mi) =>
          if (idx <? 0) || (tuner_count cfg <=? idx) then send_404 fd
          else stream_channel_to_client fuel cfg fd (Some (Z.to_nat idx)) ma mi
      | None =>
          handled <- web_ui_try_handle cfg fd method path [] ;;
          if handled : bool then Ret tt else send_404 fd
      end
  end.

Definition handle_request (fuel : nat) (cfg : hdhr_config) (fd : Z) : prog unit :=
  r <- read_request REQ_SIZE fd [] ;;
  match r with
  | None => Ret tt
  | Some (_, None) => send_headers fd "431 Request Header Fields Too Large" "text/plain" 0
  | Some (req, Some hdr_end) =>
      match scan_word 7 (cstr (bytes_str req)) with
      | None => Ret tt
      | Some (method, r) =>
          match scan_word 511 r with
          | None => Ret tt
          | Some (path, _) =>
              let path := match strchr "?" path with Some (path, _) => path | None => path end in
              if str_eq method "POST" then
                body <- handle_post_body fd req hdr_end 512 ;;
                handled <- web_ui_try_handle cfg fd method path body ;;
                if handled : bool then Ret tt else send_headers fd "405 Method Not Allowed" "text/plain" 0
              else if negb (str_eq method "GET") then send_headers fd "405 Method Not Allowed" "text/plain" 0
              else http_get fuel cfg fd method path
          end
      end
  end.

Definition http_conn_main (fuel : nat) (cfg : hdhr_config) (fd : Z) : prog unit :=
  handle_request fuel cfg fd ;;
  env (QCloseSock fd).

Definition HTTP_PORT : Z := 80.
Definition http_thread_main (fuel : nat) : prog unit := tcp_server fuel HTTP_PORT 32 T_http_conn.

(** ** The lineups fit *)

Lemma dotted_length ma mi : (String.length (dotted ma mi) <= 23)%nat.
Proof.
  unfold dotted. rewrite !length_app_str. pose proof (length_dec (i32 ma) (i32_range ma)). pose proof (length_dec (i32 mi) (i32_range mi)).
  simpl. lia.
Qed.

Lemma unquote_length s : String.length (unquote s) = String.length s.
Proof.
  unfold unquote. induction s as [|c s IH]; [done|]. cbn [String.list_ascii_of_string fmap list_fmap String.string_of_list_ascii String.length].
  by rewrite IH.
Qed.

Lemma auto_url_length ip ma mi : (String.length ip <= 15)%nat -> (String.length (auto_url ip ma mi) <= 56)%nat.
Proof.
  intros Hip. unfold auto_url. rewrite !length_app_str. pose proof (dotted_length ma mi). generalize dependent (dotted ma mi). intros. simpl. lia.
Qed.

Lemma m3u_entry_length ip ch : (String.length ip <= 15)%nat -> name_fits ch -> (String.length (m3u_entry ip ch) < 512)%nat.
Proof.
  intros Hip Hn. unfold m3u_entry, q. rewrite !length_app_str, unquote_length.
  pose proof (dotted_length (major ch) (minor ch)). pose proof (auto_url_length ip (major ch) (minor ch) Hip).
  pose proof (length_snprintf 16 (short_name ch) ltac:(lia)) as H16. generalize dependent (snprintf 16 (short_name ch)).
  unfold name_fits in Hn. generalize dependent (dotted (major ch) (minor ch)). generalize dependent (auto_url ip (major ch) (minor ch)).
  generalize dependent (short_name ch). intros. simpl. lia.
Qed.

Lemma json_entry_length ip l ch : (String.length ip <= 15)%nat -> name_fits ch -> (String.length (json_entry ip l ch) < 512)%nat.
Proof.
  intros Hip Hn. unfold json_entry, q. rewrite !length_app_str.
  pose proof (dotted_length (major ch) (minor ch)). pose proof (auto_url_length ip (major ch) (minor ch) Hip).
  unfold name_fits in Hn. generalize dependent (dotted (major ch) (minor ch)). generalize dependent (auto_url ip (major ch) (minor ch)).
  generalize dependent (short_name ch). intros. destruct l; simpl; lia.
Qed.

Definition concat_str (l : list string) : string := foldr String.append "" l.

Lemma concat_length (l : list string) : Forall (fun e => (String.length e < 512)%nat) l -> (String.length (concat_str l) <= 512 * length l)%nat.
Proof. induction 1 as [|e l He _ IH]; [done|]. cbn [concat_str foldr length]. rewrite length_app_str. fold (concat_str l). lia. Qed.

(** Entries shorter than the growth step are never cut. *)
Lemma append_entries_fit cap b entries :
  (512 <= cap)%nat -> (b.1 = String.length b.2)%nat -> (b.1 < cap)%nat -> Forall (fun e => (String.length e < 512)%nat) entries ->
  exists cap', append_entries cap b entries = Some (cap', ((b.1 + String.length (concat_str entries))%nat, b.2 +:+ concat_str entries)) /\
    (b.1 + String.length (concat_str entries) < cap')%nat.
Proof.
  intros Hcap Hb Hlt He. revert cap b Hcap Hb Hlt. induction He as [|e l Hl _ IH]; intros cap [off out] Hcap Hb Hlt;
    cbn [append_entries fst snd concat_str foldr] in *.
  { exists cap. rewrite app_str_nil_r. cbn [String.length]. rewrite Nat.add_0_r. done. }
  rewrite (proj2 (Nat.leb_le _ _)) by lia. cbn [andb].
  set (cap' := if (cap - off <? 512)%nat then (cap * 2)%nat else cap).
  assert (Hc : (off + 512 <= cap')%nat) by (unfold cap'; destruct (cap - off <? 512)%nat eqn:E; [apply Nat.ltb_lt in E|apply Nat.ltb_ge in E]; lia).
  rewrite append_fits by (cbn [fst snd]; lia). cbn [fst snd].
  destruct (IH cap' ((off + String.length e)%nat, out +:+ e)) as (c2 & H1 & H2); cbn [fst snd] in *; [lia|rewrite length_app_str; lia|lia|].
  exists c2. fold (concat_str l) in *. rewrite H1, length_app_str, app_str_assoc, Nat.add_assoc. done.
Qed.

Lemma lineup_m3u_fits ip chs : (String.length ip <= 15)%nat -> Forall name_fits chs ->
  let text := "#EXTM3U" +:+ nl +:+ concat_str (m3u_entry ip <$> chs) in
  exists cap, lineup_m3u ip chs = Some (cap, (String.length text, text)).
Proof.
  intros Hip Hn. cbv zeta. unfold lineup_m3u. rewrite append_fits; [|done|simpl; lia]. cbn [mbind option_bind fst snd].
  destruct (append_entries_fit (Z.to_nat 16384) (String.length ("#EXTM3U" +:+ nl), "#EXTM3U" +:+ nl) (m3u_entry ip <$> chs))
    as (cap & H & _); [lia|done|simpl; lia| |].
  - apply Forall_fmap. eapply Forall_impl; [exact Hn|]. intros ch. by apply m3u_entry_length.
  - exists cap. etransitivity; [exact H|]. cbn [fst snd]. by rewrite <- length_app_str, app_str_assoc.
Qed.

Lemma json_entries_short ip chs : (String.length ip <= 15)%nat -> Forall name_fits chs ->
  Forall (fun e => (String.length e < 512)%nat) (json_entries ip chs).
Proof. intros Hip. induction 1 as [|ch chs Hc _ IH]; [constructor|]. cbn [json_entries]. constructor; [by apply json_entry_length|done]. Qed.

Lemma lineup_json_fits ip chs : (String.length ip <= 15)%nat -> Forall name_fits chs ->
  let text := "[" +:+ nl +:+ concat_str (json_entries ip chs) +:+ "]" +:+ nl in
  lineup_json ip chs = Some (String.length text, text).
Proof.
  intros Hip Hn. cbv zeta. unfold lineup_json. rewrite append_fits; [|done|simpl; lia]. cbn [mbind option_bind fst snd].
  destruct (append_entries_fit (Z.to_nat 65536) (String.length ("[" +:+ nl), "[" +:+ nl) (json_entries ip chs))
    as (cap & H & Hlt); [lia|done|simpl; lia|by apply json_entries_short|].
  change (0 + String.length ("[" +:+ nl))%nat with (String.length ("[" +:+ nl)). change ("" +:+ "[" +:+ nl) with ("[" +:+ nl).
  rewrite H. cbn [mbind option_bind fst snd] in *. set (body := concat_str (json_entries ip chs)) in *.
  rewrite (proj2 (Nat.leb_le _ _)) by lia. cbn [andb].
  assert (Hc : (String.length ("[" +:+ nl) + String.length body + 2 < (if (cap - (String.length ("[" +:+ nl) + String.length body) <? 8)%nat then cap + 8 else cap))%nat).
  { destruct (_ <? 8)%nat eqn:E; [lia|apply Nat.ltb_ge in E; lia]. }
  rewrite append_fits; cbn [fst snd]; [|by rewrite length_app_str|simpl (String.length ("]" +:+ nl)); lia].
  apply add_some; [rewrite !length_app_str; simpl; lia|]. rewrite !app_str_assoc. reflexivity.
Qed.

(** ** Ownership and bounds *)

Lemma m3u_header_fits f n : (String.length f <= 30)%nat -> 0 <= n < 10 ^ 20 -> (String.length (m3u_header f n) < 256)%nat.
Proof.
  intros Hf Hn. unfold m3u_header, q, dec. rewrite (proj2 (Z.ltb_ge _ _)) by lia.
  pose proof (length_dec_u n 20 ltac:(lia) ltac:(lia)) as Hd. generalize dependent (dec_u n). intros d Hd.
  rewrite !length_app_str. simpl. lia.
Qed.

Lemma Forall_qsort {A} (P : A -> Prop) cmp l : Forall P l -> Forall P (qsort cmp l).
Proof.
  assert (Hi : forall x l, P x -> Forall P l -> Forall P (sort_insert cmp x l)).
  { intros x. induction 2 as [|y l' Hy Hl IH]; cbn [sort_insert]; [by repeat constructor|].
    destruct (cmp x y <=? 0); repeat constructor; auto. }
  unfold qsort. induction 1; simpl; auto.
Qed.

Lemma length_qsort {A} cmp (l : list A) : length (qsort cmp l) = length l.
Proof.
  assert (Hi : forall x l, length (sort_insert cmp x l) = S (length l)).
  { intros x. induction l0 as [|y l' IH]; cbn [sort_insert]; [done|]. destruct (cmp x y <=? 0); simpl; congruence. }
  unfold qsort. induction l as [|x l IH]; [done|]. simpl. by rewrite Hi, IH.
Qed.

Lemma sorted_fits db : table_ok db ->
  Forall name_fits (dvb_channels_sorted db DVB_CHANNEL_MAX) /\ (length (dvb_channels_sorted db DVB_CHANNEL_MAX) <= 256)%nat.
Proof.
  intros [[_ Hl] Hn]. unfold dvb_channels_sorted. split; [by apply Forall_qsort, Forall_take|].
  rewrite length_qsort, length_take. unfold DVB_CHANNEL_MAX in *. lia.
Qed.

Lemma deref_fits p db : name_fits (cp_seen p) -> table_ok db -> name_fits (deref p db).
Proof.
  intros Hp [_ Hn]. unfold deref. destruct (db !! cp_slot p) as [ch|] eqn:E; [|done]. by apply (proj1 (Forall_lookup _ _) Hn (cp_slot p)).
Qed.

Lemma find_ptr_fits ma mi db p : table_ok db -> find_ptr ma mi db = Some p -> name_fits (cp_seen p).
Proof.
  intros [_ Hn] H. unfold find_ptr, slot_ptr in H. destruct (dvb_find_channel db ma mi) as [i|]; [|done]. cbn [mbind option_bind] in H.
  destruct (db !! i) as [ch|] eqn:E; [|done]. injection H as <-. by apply (proj1 (Forall_lookup _ _) Hn i).
Qed.

Section Specs.
Context (cfg : hdhr_config).
Local Notation wp := (wp cfg).
Local Notation ntuners := (ntuners cfg).

Lemma wp_local_ip fd R (Q : string -> toks -> Prop) :
  (forall ip, (String.length ip <= 15)%nat -> Q ip R) -> wp (local_ip fd) R Q.
Proof.
  intros HQ. unfold local_ip. wp_step. wp_step. apply wp_ret, HQ. destruct a as [addr|]; [apply length_inet_ntop|simpl; lia].
Qed.

Lemma wp_http_headers fd status ct n R (Q : unit -> toks -> Prop) :
  (String.length status <= 40)%nat -> (String.length ct <= 40)%nat -> 0 <= n < 10 ^ 20 -> Q tt R ->
  wp (send_headers fd status ct n) R Q.
Proof.
  intros Hs Hc Hn HQ. unfold send_headers, reply_header. rewrite (proj2 (Z.leb_le _ _)) by lia.
  by apply (WebUi.wp_send_headers cfg fd status ct n).
Qed.
Lemma wp_http_404 fd R (Q : unit -> toks -> Prop) : Q tt R -> wp (send_404 fd) R Q.
Proof. intros HQ. apply wp_http_headers; simpl; [lia..|done]. Qed.

Lemma wp_send_json fd json R (Q : unit -> toks -> Prop) :
  Z.of_nat (String.length json) < 10 ^ 20 -> Q tt R -> wp (send_json fd json) R Q.
Proof.
  intros Hl HQ. unfold send_json. wp_step. apply wp_http_headers; [simpl; lia..|lia|]. wp_step. wp_step. done.
Qed.

Lemma wp_send_503 fd msg R (Q : unit -> toks -> Prop) :
  (String.length msg <= 100)%nat -> Q tt R -> wp (send_503 fd msg) R Q.
Proof.
  intros Hl HQ. unfold send_503. wp_step. apply wp_http_headers; [simpl; lia..|lia|]. wp_step. wp_step. done.
Qed.

Lemma wp_send_buffer size fd text R (Q : unit -> toks -> Prop) :
  (String.length text < size)%nat -> Q tt R -> wp (send_buffer size fd text) R Q.
Proof. intros Hl HQ. unfold send_buffer. rewrite (proj2 (Nat.ltb_lt _ _)) by done. wp_step. wp_step. done. Qed.

Lemma wp_m3u fd ma mi R (Q : unit -> toks -> Prop) : Q tt R -> wp (handle_m3u fd ma mi) R Q.
Proof.
  intros HQ. unfold handle_m3u. wp_step. apply wp_db_get. intros db Hdb. wp_step. apply wp_local_ip. intros ip Hip.
  wp_step. apply wp_db_get. intros db' Hdb'. cbv zeta. set (ch := option_map (fun p => deref p db') _).
  assert (Hnm : (String.length (match ch with Some ch => short_name ch | None => "Unknown"%string end) <= 15)%nat).
  { unfold ch. destruct (find_ptr ma mi db) as [p|] eqn:E; cbn [option_map]; [|simpl; lia].
    exact (deref_fits p db' (find_ptr_fits _ _ _ _ Hdb E) Hdb'). }
  generalize dependent (match ch with Some ch => short_name ch | None => "Unknown"%string end). clear ch. intros nm Hnm.
  pose proof (dotted_length ma mi) as Hd. pose proof (auto_url_length ip ma mi Hip) as Hu.
  generalize dependent (auto_url ip ma mi). generalize dependent (dotted ma mi). intros d Hd u Hu.
  assert (Hl : (String.length ("#EXTM3U" +:+ nl +:+ "#EXTINF:-1," +:+ d +:+ " " +:+ nm +:+ nl +:+ u +:+ nl) < 512)%nat)
    by (rewrite !length_app_str; simpl; lia).
  wp_step. apply wp_send_buffer; [apply m3u_header_fits; [rewrite length_app_str; simpl; lia|lia]|]. by apply wp_send_buffer.
Qed.

Lemma wp_lineup_m3u fd R (Q : unit -> toks -> Prop) : Q tt R -> wp (handle_lineup_m3u fd) R Q.
Proof.
  intros HQ. unfold handle_lineup_m3u. wp_step. apply wp_local_ip. intros ip Hip. wp_step. apply wp_db_get. intros db Hdb.
  destruct (sorted_fits db Hdb) as [Hf Hl]. set (chs := dvb_channels_sorted db DVB_CHANNEL_MAX) in *. clearbody chs.
  destruct (lineup_m3u_fits ip chs Hip Hf) as [cap ->]. cbn [fst snd].
  assert (He : Forall (fun e => (String.length e < 512)%nat) (m3u_entry ip <$> chs)).
  { apply Forall_fmap. eapply Forall_impl; [exact Hf|]. intros ch. by apply m3u_entry_length. }
  apply concat_length in He. rewrite length_fmap in He.
  wp_step. apply wp_send_buffer.
  - apply m3u_header_fits; [simpl; lia|]. rewrite !length_app_str. simpl. lia.
  - rewrite Nat.eqb_refl. wp_step. wp_step. done.
Qed.

Lemma wp_lineup_json fd R (Q : unit -> toks -> Prop) : Q tt R -> wp (handle_lineup_json fd) R Q.
Proof.
  intros HQ. unfold handle_lineup_json. wp_step. apply wp_local_ip. intros ip Hip. wp_step. apply wp_db_get. intros db Hdb.
  destruct (sorted_fits db Hdb) as [Hf Hl]. set (chs := dvb_channels_sorted db DVB_CHANNEL_MAX) in *. clearbody chs.
  rewrite (lineup_json_fits ip chs Hip Hf). cbn [snd].
  pose proof (concat_length _ (json_entries_short ip chs Hip Hf)) as He.
  assert (Hj : length (json_entries ip chs) = length chs) by (clear; induction chs; simpl; congruence). rewrite Hj in He.
  apply wp_send_json; [|done]. rewrite !length_app_str. simpl. lia.
Qed.

(** *** Streaming *)

Lemma unbind_same ch t : same_tuner_res t (unbind ch t).
Proof.
  unfold unbind. destruct (_ && _); neutral_set.
Qed.

Lemma wp_release_pull i o p R (Q : unit -> toks -> Prop) :
  (i < ntuners)%nat -> Q tt R -> wp (release_http_pull i p) (R ⊎ {[+ TClaim i o +]}) Q.
Proof.
  intros Hi HQ. unfold release_http_pull. wp_step. apply wp_tun_db; [done|intros; apply unbind_same|].
  by apply wp_tuner_release_park.
Qed.

Lemma wp_send_all fuel fd data R (Q : bool -> toks -> Prop) : (forall b, Q b R) -> wp (send_all fuel fd data) R Q.
Proof.
  intros HQ. revert data. induction fuel as [|fuel IH]; intros data; destruct data as [|b data]; cbn [send_all]; try apply wp_ret, HQ; [done|].
  wp_step. wp_step. destruct (_ <=? 0); [apply wp_ret, HQ|apply IH].
Qed.

Lemma wp_pull_loop fuel s fd R (Q : unit -> toks -> Prop) : stream_live R s -> Q tt R -> wp (pull_loop fuel s fd) R Q.
Proof.
  intros Hl HQ. induction fuel as [|fuel IH]; [done|]. cbn [pull_loop]. wp_step. apply wp_dvb_stream_read; [done|].
  intros data. destruct data as [|b data]; [by apply wp_ret|]. wp_step. apply wp_send_all. intros [|]; [exact IH|by apply wp_ret].
Qed.

Lemma wp_pull_claimed fuel fd i reused peer p R (Q : unit -> toks -> Prop) :
  (i < ntuners)%nat -> Q tt R ->
  wp (pull_claimed fuel cfg fd i reused peer p) (R ⊎ {[+ TClaim i None +]} ⊎ fd_toks reused (tdev cfg i)) Q.
Proof.
  intros Hi HQ. unfold pull_claimed. wp_step. apply wp_tun_set; [done| |].
  { neutral_set. }
  wp_step. apply wp_tun_get; [done|]. intros t (Hok & _). destruct Hok as (_ & Ha & _). rewrite Ha.
  wp_step. apply wp_dvb_stream_open.
  - wp_step. apply wp_http_headers; [simpl; lia..|]. by apply wp_tuner_release.
  - intros s. wp_step. apply wp_tuner_bind_channel; [done|]. wp_step.
    change ({[+ TStr s Open _ +]}) with (opt_str (Some s) (tdev cfg i)). apply wp_tuner_set_stream; [done|]. wp_step. wp_step.
    wp_step. apply wp_when; intros _; [|by apply wp_release_pull].
    apply wp_pull_loop; [|by apply wp_release_pull]. right; right; right. exists i. multiset_solver.
Qed.

Lemma wp_claim_peer fuel ts peer p R (Q : option (nat * Z) -> toks -> Prop) :
  Forall (fun i => (i < ntuners)%nat) ts -> Q None R ->
  (forall j reused, (j < ntuners)%nat -> Q (Some (j, reused)) (R ⊎ {[+ TClaim j None +]} ⊎ fd_toks reused (tdev cfg j))) ->
  wp (claim_for_peer fuel ts peer p) R Q.
Proof.
  intros Hts Hn Hs. induction Hts as [|i ts Hi _ IH]; [by apply wp_ret|]. cbn [claim_for_peer]. wp_step.
  apply wp_tun_get; [done|]. intros t _. destruct (negb _); [exact IH|]. wp_step. apply wp_db_get. intros db _. wp_step.
  apply wp_tuner_try_claim_wait; [done|by apply wp_ret|]. intros reused _. apply wp_ret. by apply Hs.
Qed.

Lemma wp_claim_stream fuel requested peer p R (Q : option (nat * Z) -> toks -> Prop) :
  (match requested with Some i => (i < ntuners)%nat | None => True end) -> Q None R ->
  (forall j reused, (j < ntuners)%nat -> Q (Some (j, reused)) (R ⊎ {[+ TClaim j None +]} ⊎ fd_toks reused (tdev cfg j))) ->
  wp (claim_for_stream fuel (tuner_count cfg) requested peer p) R Q.
Proof.
  intros Hreq Hn Hs. unfold claim_for_stream. destruct requested as [i|].
  - wp_step. apply wp_db_get. intros db _. wp_step. apply wp_tuner_try_claim; [done|by apply wp_ret|].
    intros reused _. apply wp_ret. by apply Hs.
  - assert (Hpool : wp (ch <- db_get (deref p) ;; tuner_pool_claim_free (Z.to_nat (tuner_count cfg)) (frequency_hz ch) (delivery ch) true) R Q).
    { wp_step. apply wp_db_get. intros db _. apply wp_pool_claim_from; [unfold Own.ntuners; lia|done|]. intros j reused Hj _. by apply Hs. }
    wp_step. destruct (peer =? 0); [apply wp_ret, Hpool|]. apply wp_claim_peer.
    + apply Forall_forall. intros i Hi. apply elem_of_seq in Hi. unfold Own.ntuners. lia.
    + exact Hpool.
    + intros j reused Hj. apply wp_ret. by apply Hs.
Qed.

Lemma wp_stream_channel fuel fd requested ma mi R (Q : unit -> toks -> Prop) :
  (match requested with Some i => (i < ntuners)%nat | None => True end) -> Q tt R ->
  wp (stream_channel_to_client fuel cfg fd requested ma mi) R Q.
Proof.
  intros Hreq HQ. unfold stream_channel_to_client. wp_step. apply wp_db_get. intros db _.
  destruct (find_ptr ma mi db) as [p|]; [|by apply wp_http_404]. wp_step. wp_step. wp_step.
  apply wp_claim_stream; [done| |].
  - apply wp_send_503; [destruct requested; simpl; lia|done].
  - intros j reused Hj. by apply wp_pull_claimed.
Qed.

(** *** Requests *)

Lemma wp_read_request fuel fd req R (Q : option (list Z * option nat) -> toks -> Prop) :
  (forall r, Q r R) -> wp (read_request fuel fd req) R Q.
Proof.
  intros HQ. revert req. induction fuel as [|fuel IH]; intros req; cbn [read_request]; (destruct (_ <=? _)%nat; [apply wp_ret, HQ|]); [done|].
  wp_step. wp_step. destruct a as [e|[|b data]]; [(apply wp_ret, HQ)..|]. cbv zeta. destruct (strstr _ _); [apply wp_ret, HQ|apply IH].
Qed.

Lemma wp_post_body fd req he cap R (Q : list Z -> toks -> Prop) : (forall b, Q b R) -> wp (handle_post_body fd req he cap) R Q.
Proof.
  intros HQ. unfold handle_post_body. cbv zeta.
  assert (Hl : forall fuel len body, wp (read_body fuel fd len body) R Q).
  { induction fuel as [|fuel IH]; intros len body; cbn [read_body]; (destruct (_ <=? _)%nat; [apply wp_ret, HQ|]); [done|].
    wp_step. wp_step. destruct a as [e|[|b data]]; [(apply wp_ret, HQ)..|apply IH]. }
  apply Hl.
Qed.

Lemma wp_http_get fuel fd method path R (Q : unit -> toks -> Prop) : tuner_count cfg <= 8 -> Q tt R -> wp (http_get fuel cfg fd method path) R Q.
Proof.
  intros Hcount HQ. unfold http_get.
  destruct (str_eq path "/discover.json").
  { unfold handle_discover_json. wp_step. apply wp_local_ip. intros ip _. apply wp_send_json; [|done].
    pose proof (length_snprintf 768 (discover_json cfg ip)). lia. }
  destruct (str_eq path "/lineup_status.json"); [by apply wp_send_json|].
  destruct (str_eq path "/lineup.json"); [by apply wp_lineup_json|].
  destruct (str_eq path "/lineup.m3u"); [by apply wp_lineup_m3u|].
  destruct (scan_lit "/auto/v" path) as [r|].
  { destruct (scan_dotted r) as [ma mi]. destruct (ends_with path ".m3u"); [by apply wp_m3u|by apply wp_stream_channel]. }
  destruct (tuner_path path) as [[[idx ma] mi]|].
  - destruct ((idx <? 0) || _) eqn:E; [by apply wp_http_404|]. zb. apply wp_stream_channel; [unfold Own.ntuners; lia|done].
  - wp_step. apply wp_web_ui; [done|]. intros [|]; [by apply wp_ret|by apply wp_http_404].
Qed.

Lemma wp_http_conn_main fuel fd R (Q : unit -> toks -> Prop) : tuner_count cfg <= 8 -> Q tt R -> wp (http_conn_main fuel cfg fd) R Q.
Proof.
  intros Hcount HQ. unfold http_conn_main. wp_step. apply wp_keep; [|intros []; by apply wp_close_sock].
  unfold handle_request. wp_step. apply wp_read_request. intros [[req [he|]]|]; [|apply wp_http_headers; [simpl; lia..|done]|done].
  destruct (scan_word 7 _) as [[method r]|]; [|done]. destruct (scan_word 511 r) as [[path r']|]; [|done]. cbv zeta.
  generalize (match strchr "?" path with Some (path, _) => path | None => path end). intros path'.
  assert (H405 : wp (send_headers fd "405 Method Not Allowed" "text/plain" 0) R (fun _ R' => R' = R))
    by (apply wp_http_headers; [simpl; lia..|done]).
  destruct (str_eq method "POST").
  { wp_step. apply wp_post_body. intros body. wp_step. apply wp_web_ui; [done|]. intros [|]; [done|exact H405]. }
  destruct (negb _); [exact H405|by apply wp_http_get].
Qed.

Lemma wp_http_thread_main fuel R (Q : unit -> toks -> Prop) : Q tt R -> wp (http_thread_main fuel) R Q.
Proof. intros HQ. by apply wp_tcp_server. Qed.
End Specs.

(** ** What the lineups say *)

(** A client at a server address: it records what is sent to it. *)
Definition client (addr : Z) : handler (list Z) := fun q =>
  match q return list Z -> answer q * list Z with
  | QSockName _ => fun s => (Some addr, s)
  | QSend _ data => fun s => (Z.of_nat (length data), s ++ data)
  | q => fun s => (idle_answer q, s)
  end.

Section Lineup.
Context (addr : Z) (se : list Z -> sect_env) (fd : Z) (w : world).

Lemma run_local_ip sent : run (client addr) se (local_ip fd) w sent = Some (inet_ntop addr, w, sent).
Proof. unfold local_ip. run_step. run_step. reflexivity. Qed.

Lemma run_sorted sent : run (client addr) se (db_get (fun db => dvb_channels_sorted db DVB_CHANNEL_MAX)) w sent =
  Some (dvb_channels_sorted (w_db w) DVB_CHANNEL_MAX, w, sent).
Proof. run_step. cbn [fst snd]. by destruct w. Qed.

Lemma run_send_buffer size text sent : (String.length text < size)%nat ->
  run (client addr) se (send_buffer size fd text) w sent = Some (tt, w, sent ++ str_bytes text).
Proof. intros Hl. unfold send_buffer. rewrite (proj2 (Nat.ltb_lt _ _)) by done. run_step. run_step. done. Qed.

Lemma run_send_rest text sent :
  run (client addr) se (env (QSend fd text) ;; Ret tt) w sent = Some (tt, w, sent ++ text).
Proof. run_step. run_step. done. Qed.

Lemma str_bytes_app a b : str_bytes (a +:+ b) = str_bytes a ++ str_bytes b.
Proof. unfold str_bytes. induction a as [|c a IH]; simpl; [done|]. f_equal. exact IH. Qed.
End Lineup.

(** The documents without any buffer. *)
Definition lineup_json_text (ip : string) (chs : list dvb_channel) : string :=
  "[" +:+ nl +:+ concat_str (json_entries ip chs) +:+ "]" +:+ nl.
Definition lineup_m3u_text (ip : string) (chs : list dvb_channel) : string :=
  "#EXTM3U" +:+ nl +:+ concat_str (m3u_entry ip <$> chs).

Lemma lineup_lengths ip db : (String.length ip <= 15)%nat -> table_ok db ->
  let chs := dvb_channels_sorted db DVB_CHANNEL_MAX in
  Z.of_nat (String.length (lineup_json_text ip chs)) < 200000 /\ Z.of_nat (String.length (lineup_m3u_text ip chs)) < 200000.
Proof.
  intros Hip Hdb. cbv zeta. destruct (sorted_fits db Hdb) as [Hf Hl]. set (chs := dvb_channels_sorted db DVB_CHANNEL_MAX) in *.
  clearbody chs. pose proof (concat_length _ (json_entries_short ip chs Hip Hf)) as Hj.
  assert (length (json_entries ip chs) = length chs) as E by (clear; induction chs; simpl; congruence). rewrite E in Hj.
  assert (He : Forall (fun e => (String.length e < 512)%nat) (m3u_entry ip <$> chs)).
  { apply Forall_fmap. eapply Forall_impl; [exact Hf|]. intros ch. by apply m3u_entry_length. }
  apply concat_length in He. rewrite length_fmap in He.
  unfold lineup_json_text, lineup_m3u_text. split; rewrite !length_app_str; simpl; lia.
Qed.

(** Claim C36: the lineups are complete.  Whatever the channel table holds, the
    client receives /lineup.json and /lineup.m3u whole: every channel of the
    table exactly once, in ascending order of its number, no entry cut by a
    buffer, and a Content-Length that is the length of the document. *)
Theorem lineup_complete (addr : Z) (se : list Z -> sect_env) (fd : Z) (w : world) :
  table_ok (w_db w) ->
  let ip := inet_ntop addr in
  exists chs, chs ≡ₚ w_db w /\ StronglySorted number_lt chs /\
    run (client addr) se (handle_lineup_json fd) w [] =
      Some (tt, w, str_bytes (header_text "200 OK" "application/json" (Z.of_nat (String.length (lineup_json_text ip chs))) +:+
                              lineup_json_text ip chs)) /\
    run (client addr) se (handle_lineup_m3u fd) w [] =
      Some (tt, w, str_bytes (m3u_header "lineup.m3u" (Z.of_nat (String.length (lineup_m3u_text ip chs))) +:+ lineup_m3u_text ip chs)).
Proof.
  intros Hdb. cbv zeta. pose proof (length_inet_ntop addr) as Hip. set (ip := inet_ntop addr) in *.
  destruct (lineup_lengths ip (w_db w) Hip Hdb) as [Hj Hm], (sorted_fits (w_db w) Hdb) as [Hf _].
  assert (Hp : dvb_channels_sorted (w_db w) DVB_CHANNEL_MAX ≡ₚ w_db w).
  { unfold dvb_channels_sorted. rewrite qsort_perm, take_ge; [done|]. destruct Hdb as [[_ Hl] _]. lia. }
  assert (Hs : StronglySorted number_lt (dvb_channels_sorted (w_db w) DVB_CHANNEL_MAX)).
  { apply qsort_sorted. destruct Hdb as [[Hnd Hl] _]. rewrite take_ge by lia. exact Hnd. }
  exists (dvb_channels_sorted (w_db w) DVB_CHANNEL_MAX). split; [exact Hp|]. split; [exact Hs|].
  unfold handle_lineup_json, handle_lineup_m3u.
  split; (rewrite run_bind, run_local_ip; fold ip; rewrite run_bind, run_sorted); set (chs := dvb_channels_sorted _ _) in *; clearbody chs.
  - rewrite lineup_json_fits by done. fold (lineup_json_text ip chs). cbn [snd]. unfold send_json, send_headers, reply_header. rewrite (proj2 (Z.leb_le _ _)) by lia.
    rewrite run_bind, run_send_buffer by (apply header_fits; [simpl; lia|simpl; lia|lia]). by rewrite run_send_rest, str_bytes_app.
  - destruct (lineup_m3u_fits ip chs Hip Hf) as [cap ->]. fold (lineup_m3u_text ip chs). cbn [fst snd].
    rewrite run_bind, run_send_buffer by (apply m3u_header_fits; [simpl; lia|lia]).
    rewrite Nat.eqb_refl. by rewrite run_send_rest, str_bytes_app.
Qed.

Lemma lineup_complete_witness : exists chs sent,
  run (client (ipv4 10 0 0 2)) (fun _ => calm time0) (handle_lineup_json 5)
    {| w_tuners := []; w_db := [sample_channel 10 1 "B"; sample_channel 9 2 "A"]; w_streams := ∅; w_fds := ∅; w_8vsb_override := ""; w_files := ∅; w_start_time := 0 |} [] =
  Some (tt, {| w_tuners := []; w_db := [sample_channel 10 1 "B"; sample_channel 9 2 "A"]; w_streams := ∅; w_fds := ∅; w_8vsb_override := ""; w_files := ∅; w_start_time := 0 |}, sent)
  /\ chs ≡ₚ [sample_channel 10 1 "B"; sample_channel 9 2 "A"].
Proof.
  destruct (lineup_complete (ipv4 10 0 0 2) (fun _ => calm time0) 5
    {| w_tuners := []; w_db := [sample_channel 10 1 "B"; sample_channel 9 2 "A"]; w_streams := ∅; w_fds := ∅; w_8vsb_override := ""; w_files := ∅; w_start_time := 0 |})
    as (chs & Hp & _ & H & _).
  - split; [split; [apply (bool_decide_unpack _); vm_compute; exact I|vm_compute; lia]|].
    repeat constructor; vm_compute; lia.
  - exists chs. eexists. split; [exact H|exact Hp].
Defined.
