(* ===== verification/Delivery.v ===== *)
(** From the capture device to the client: the threads of a stream together.

    [Ring] is about sections in any order; this file is about the programs that
    enter them.  The capture thread, the HTTP connection that sends what it reads
    and any threads that leave the buffer alone run interleaved in every possible
    way ([Sched.schedule]).  Each plays a role: a ghost state says which bytes the
    thread has in hand, and a role says how a section or a system call may move
    bytes.  The theorems: the client gets the bytes of the device in their order,
    none lost or repeated, and a bounded number of bytes behind; what a push hands
    over is cut into datagrams of seven TS packets. *)
From S2P Require Import Prelude RecordUpd CLib ChannelDb Config Stats Ring Tuner Sys Own Rules Frontend Exec Sched Stream Push Http.

(** ** Roles *)

(** [sane]: the buffer is well formed and the stream is not being closed. *)
Definition sane (st : dvb_stream) : Prop := ring_ok RING_CAP (rng st) /\ closing st = false.

Record role (G : Type) := {
  r_sect : G -> dvb_stream -> dvb_stream -> G -> Prop;
  r_ask : G -> query -> Prop;
  r_env : forall q, G -> answer q -> G -> Prop
}.
Arguments r_sect {G} _. Arguments r_ask {G} _. Arguments r_env {G} _.

Section Plays.
Context {G : Type} (R : role G) (s : nat) (allowed : forall q, answer q -> Prop) (quiet : list hdhr_tuner -> Prop).

(** The program moves the bytes of stream [s] as its role allows, whatever the
    state it meets and the answers it gets, and ends with a good ghost state.  The
    tuners satisfy [quiet] throughout, and the program keeps it so. *)
Fixpoint plays {X} (p : prog X) (g : G) (Q : X -> G -> Prop) : Prop :=
  match p with
  | Ret x => Q x g
  | Stop _ => True
  | Do o k =>
      match o in op B return (B -> G -> Prop) -> Prop with
      | Sect f => fun rec => forall e w st, quiet (w_tuners w) -> w_streams w !! s = Some st -> sane st ->
          match f e w with
          | None => True
          | Some (x, w', sp) => sp = None /\ quiet (w_tuners w') /\ exists st' g',
              w_streams w' !! s = Some st' /\ sane st' /\ r_sect R g st st' g' /\ rec x g'
          end
      | Env q => fun rec => r_ask R g q /\ forall a, allowed q a -> exists g', r_env R q g a g' /\ rec a g'
      | Join _ => fun rec => rec tt g
      end (fun b g' => plays (k b) g' Q)
  end.

Lemma plays_mono {X} (p : prog X) g (P Q : X -> G -> Prop) : (forall x g, P x g -> Q x g) -> plays p g P -> plays p g Q.
Proof.
  intros H. revert g. induction p as [x|B o k IH|]; intros g; simpl; [apply H| |done].
  destruct o as [X' f|q|tid]; [|intros [Ha Hp]; split; [done|]|apply IH].
  - intros Hp e w st Hq Hst Hs. specialize (Hp e w st Hq Hst Hs). destruct (f e w) as [[[x w'] sp]|]; [|done].
    destruct Hp as (-> & Hq' & st' & g' & H1 & H2 & H3 & H4). split; [done|]. split; [done|]. exists st', g'. auto.
  - intros a Hok. destruct (Hp a Hok) as (g' & H1 & H2). exists g'. auto.
Qed.

Lemma plays_bind {X Y} (p : prog X) (f : X -> prog Y) g (Q : Y -> G -> Prop) :
  plays p g (fun x g' => plays (f x) g' Q) -> plays (bind p f) g Q.
Proof.
  revert g. induction p as [x|B o k IH|]; intros g; simpl; [done| |done].
  destruct o as [X' h|q|tid]; [|intros [Ha Hp]; split; [done|]|apply IH].
  - intros Hp e w st Hq Hst Hs. specialize (Hp e w st Hq Hst Hs). destruct (h e w) as [[[x w'] sp]|]; [|done].
    destruct Hp as (-> & Hq' & st' & g' & H1 & H2 & H3 & H4). split; [done|]. split; [done|]. exists st', g'. auto.
  - intros a Hok. destruct (Hp a Hok) as (g' & H1 & H2). exists g'. auto.
Qed.

Lemma plays_ret {X} (x : X) g (Q : X -> G -> Prop) : Q x g -> plays (Ret x) g Q.
Proof. done. Qed.

Lemma plays_env q g (Q : answer q -> G -> Prop) :
  r_ask R g q -> (forall a, allowed q a -> exists g', r_env R q g a g' /\ Q a g') -> plays (env q) g Q.
Proof. intros Ha H. split; [done|exact H]. Qed.

Lemma plays_stream_sect {X} (f : sect_env -> dvb_stream -> X * dvb_stream) g (Q : X -> G -> Prop) :
  (forall e st, sane st -> exists g', sane (f e st).2 /\ r_sect R g st (f e st).2 g' /\ Q (f e st).1 g') ->
  plays (stream_sect s f) g Q.
Proof.
  intros H e w st Hq Hst Hs. rewrite Hst. destruct (H e st Hs) as (g' & H1 & H2 & H3). destruct (f e st) as [x st'].
  split; [done|]. split; [done|]. exists st', g'. split; [|auto]. cbn. by rewrite lookup_insert_eq.
Qed.
End Plays.

(** ** The three roles *)

Section Roles.
Context (dvr fd : Z) (accepts lossless : Prop) (quiet : list hdhr_tuner -> Prop).

Definition READ_SIZE : nat := Z.to_nat (188 * 64).

(** What the kernel may answer: a read returns at most what was asked for, a
    write accepts at most what it was given, and something unless the client is
    gone ([accepts]: it never is); [lossless]: a datagram is always taken. *)
Definition kernel_answer (q : query) : answer q -> Prop :=
  match q with
  | QSend f data => fun a => a <= Z.of_nat (length data) /\ (accepts -> data <> [] -> f = fd -> 0 < a)
  | QSendTo f _ _ _ => fun a => lossless -> f = fd -> 0 <= a
  | QIoctl _ r => match r return fd_answer r -> Prop with
                  | FdRead n => fun a => match a with ReadData l => Z.of_nat (length l) <= n | ReadError _ => True end
                  | _ => fun _ => True
                  end
  | _ => fun _ => True
  end.

Definition is_read (q : query) : bool := match q with QIoctl f (FdRead _) => f =? dvr | _ => false end.
Definition is_send (q : query) : bool := match q with QSend f _ | QSendTo f _ _ _ => f =? fd | _ => false end.

(** The bytes a device answer brings, and those that go out: what a client
    accepts, or the whole of a datagram. *)
Definition bytes_in (q : query) : answer q -> list Z :=
  match q with
  | QIoctl f r => match r return fd_answer r -> list Z with
                  | FdRead _ => fun a => match a with ReadData l => if f =? dvr then l else [] | ReadError _ => [] end
                  | _ => fun _ => []
                  end
  | _ => fun _ => []
  end.
Definition bytes_out (q : query) : answer q -> list Z :=
  match q with
  | QSend f data => fun a => if f =? fd then take (Z.to_nat a) data else []
  | QSendTo f _ _ data => fun _ => if f =? fd then data else []
  | _ => fun _ => []
  end.

(** What the consumer may send: at least anything that does not go to [fd]. *)
Context (asks : query -> Prop) (Hasks : forall q, is_send q = false -> asks q).

(** The capture thread: the bytes read and not yet stored; None: at the end. *)
Definition capture : role (option (list Z)) := {|
  r_sect g st st' g' := exists h stored h', g = Some h /\ h = stored ++ h' /\ contents (rng st') = contents (rng st) ++ stored /\
    ((eof st' = eof st /\ g' = Some h') \/ (g' = None /\ h' = []));
  r_ask g q := is_send q = false /\ g <> None /\
    (is_read q = true -> g = Some [] /\ match q with QIoctl _ (FdRead n) => n = Z.of_nat READ_SIZE | _ => True end);
  r_env q g a g' := exists h, g = Some h /\ g' = Some (h ++ bytes_in q a)
|}.

(** The connection, or the push: the bytes taken and not yet sent, and whether it has seen
    the end of the stream with nothing left. *)
Definition connection : role (list Z * bool) := {|
  r_sect g st st' g' := closing st' = closing st /\ eof st' = eof st /\
    (exists taken, contents (rng st) = taken ++ contents (rng st') /\ g'.1 = g.1 ++ taken) /\ (length g'.1 <= READ_SIZE)%nat /\
    (g'.2 = true -> g.2 = true \/ (contents (rng st) = [] /\ eof st = true));
  r_ask g q := is_read q = false /\ asks q /\ match q with QSend f data | QSendTo f _ _ data => f = fd -> exists rest, g.1 = data ++ rest | _ => True end;
  r_env q g a g' := g.1 = bytes_out q a ++ g'.1 /\ g'.2 = g.2
|}.

(** Any other thread. *)
Definition bystander : role unit := {|
  r_sect _ st st' _ := rng st' = rng st /\ eof st' = eof st;
  r_ask _ q := is_read q = false /\ is_send q = false;
  r_env _ _ _ _ := True
|}.

(** *** The programs play them *)

Lemma READ_SIZE_pos : (0 < READ_SIZE)%nat.
Proof. unfold READ_SIZE. lia. Qed.

(** The copy of what was read. *)
Lemma reader_copy_plays st data :
  sane st -> exists rest, (reader_copy st data).2 = rest /\ sane (reader_copy st data).1 /\
    r_sect capture (Some data) st (reader_copy st data).1 (Some (default [] rest)).
Proof.
  intros [H1 H2]. destruct (reader_copy st data) as [st' rest] eqn:E.
  apply reader_copy_spec in E as (H3 & H4 & H5 & (acc & Hd & Hc) & _); [|done|done]. exists rest. split; [done|]. split; [by split|].
  exists data, acc, (default [] rest). split; [done|]. split; [done|]. split; [done|]. by left.
Qed.

Lemma reader_accept_plays st data :
  sane st -> exists rest, (reader_accept st data).2 = rest /\ sane (reader_accept st data).1 /\
    r_sect capture (Some data) st (reader_accept st data).1 (Some (default [] rest)).
Proof.
  intros [H1 H2]. unfold reader_accept. set (st2 := st <| total_bytes := _ |>).
  destruct (reader_copy_plays st2 data) as (rest & Hr & Hs & Hm); [by split|]. exists rest. auto.
Qed.

Lemma reader_store_plays fuel s (rest : option (list Z * nat)) (Q : unit -> option (list Z) -> Prop) :
  Q tt (Some []) -> plays capture s kernel_answer quiet (reader_store fuel s rest) (Some (default [] (fst <$> rest))) Q.
Proof.
  intros HQ. revert rest. induction fuel as [|fuel IH]; intros rest; destruct rest as [[data since]|]; cbn [reader_store]; try done.
  apply plays_bind, plays_env; [done|]. intros a _. exists (Some data). split; [exists data; by rewrite app_nil_r|].
  apply plays_bind, plays_stream_sect. intros e st Hs. destruct (reader_copy_plays st data Hs) as (rest & Hr & Hs' & Hm).
  exists (Some (default [] rest)). destruct (reader_copy st data) as [st' rest']. cbn [or_sleep fst snd] in *. subst rest'.
  split; [done|]. split; [done|]. pose proof (IH ((fun data => (data, not_full_wakes st')) <$> rest)) as H. by destruct rest.
Qed.

(** A section that only looks. *)
Lemma capture_looks st h : r_sect capture (Some h) st st (Some h).
Proof. exists h, [], h. split; [done|]. split; [done|]. split; [by rewrite app_nil_r|]. by left. Qed.

Lemma reader_plays fuel s (Q : unit -> option (list Z) -> Prop) :
  Q tt None -> plays capture s kernel_answer quiet (reader_thread_main fuel s dvr) (Some []) Q.
Proof.
  intros HQ. unfold reader_thread_main. apply plays_bind.
  assert (Hend : plays capture s kernel_answer quiet (stream_sect s (fun _ st => (tt, reader_finish st))) (Some []) Q).
  { apply plays_stream_sect. intros e st Hs. exists None. split; [exact Hs|]. split; [|done].
    exists [], [], []. split; [done|]. split; [done|]. split; [by rewrite app_nil_r|]. by right. }
  induction fuel as [|fuel IH]; [done|]. cbn [reader_loop]. apply plays_bind, plays_stream_sect. intros e st Hs. exists (Some []).
  split; [exact Hs|]. split; [apply capture_looks|].
  cbn [fst snd]. destruct Hs as [_ ->]. unfold ioctl. apply plays_bind, plays_env; [done|]. intros pr _. exists (Some []).
  split; [by exists []|]. destruct ((pr : Z) <=? 0); [exact IH|]. apply plays_bind, plays_env; [done|]. intros n _.
  eexists. split; [by exists []|]. destruct n as [e'|l]; [destruct ((e' =? _) || _); [exact IH|exact Hend]|].
  cbn [bytes_in app]. rewrite Z.eqb_refl. destruct l as [|b data]; [exact Hend|]. apply plays_bind, plays_stream_sect. intros e2 st2 Hs.
  destruct (reader_accept_plays st2 (b :: data) Hs) as (rest & Hr & Hs' & Hm). exists (Some (default [] rest)).
  destruct (reader_accept st2 (b :: data)) as [st' rest'].
  cbn [or_sleep fst snd] in *. subst rest'. split; [done|]. split; [exact Hm|]. apply plays_bind.
  replace (default [] rest) with (default [] (fst <$> ((fun data => (data, not_full_wakes st')) <$> rest))) by by destruct rest.
  apply reader_store_plays, IH.
Qed.

(** A section that leaves the stream alone. *)
Lemma connection_looks st hand d : (length hand <= READ_SIZE)%nat -> r_sect connection (hand, d) st st (hand, d).
Proof. split; [done|]. split; [done|]. split; [exists []; by rewrite app_nil_r|]. split; [done|by left]. Qed.

(** [dvb_stream_read] with [hand] already taken. *)
Lemma read_plays fuel s hand len (Q : list Z -> list Z * bool -> Prop) :
  0 < len -> Z.of_nat (length hand) + len <= Z.of_nat READ_SIZE -> Q [] (hand, true) ->
  (forall data, data <> [] -> Z.of_nat (length data) <= len -> Q data (hand ++ data, false)) ->
  plays connection s kernel_answer quiet (dvb_stream_read fuel s len) (hand, false) Q.
Proof using Hasks.
  intros H0 Hfit Hend Hdata. induction fuel as [|fuel IH]; [done|]. cbn [dvb_stream_read]. apply plays_bind, plays_stream_sect. intros e st Hs.
  pose proof Hs as [Hr Hc]. destruct (stream_read_section st (Z.to_nat len)) as [st' out] eqn:E.
  apply stream_read_section_spec in E as (Hr' & Hc' & He' & Ht & Hn & Hl); [|done]. cbn [fst snd].
  assert (Hs' : sane st') by (split; congruence).
  destruct out as [data|].
  - assert (Hlen : length data = Nat.min (Z.to_nat len) (length (contents (rng st)))) by (by apply Hl). cbn [default] in Ht.
    destruct data as [|b data].
    + exists (hand, true). split; [done|]. split; [|done]. assert (Hnil : contents (rng st) = []) by (apply length_zero_iff_nil; cbn [length] in Hlen; lia).
      split; [done|]. split; [done|]. split; [exists []; by rewrite app_nil_r|]. split; [cbn [fst]; lia|]. intros _. right. split; [done|].
      destruct (eof st) eqn:Ee; [done|]. by discriminate (proj2 Hn (conj Hnil (conj eq_refl Hc))).
    + exists (hand ++ b :: data, false). split; [done|]. split; [|apply Hdata; [done|lia]]. split; [done|]. split; [done|].
      split; [by exists (b :: data)|]. split; [cbn [fst]; rewrite length_app; lia|done].
  - exists (hand, false). split; [done|]. split.
    { split; [done|]. split; [done|]. split; [exists []; split; [exact Ht|by rewrite app_nil_r]|]. split; [cbn [fst]; lia|done]. }
    apply plays_bind, plays_env; [split; [done|]; split; [by apply Hasks|done]|]. intros a _. exists (hand, false). split; [done|exact IH].
Qed.

Lemma send_all_plays fuel s data (Q : bool -> list Z * bool -> Prop) :
  (forall data, asks (QSend fd data)) -> Q true ([], false) -> (forall rest, ~ accepts -> Q false (rest, false)) ->
  plays connection s kernel_answer quiet (send_all fuel fd data) (data, false) Q.
Proof.
  intros Hsend Hok Hgone. revert data. induction fuel as [|fuel IH]; intros data; destruct data as [|b data]; cbn [send_all]; try done.
  apply plays_bind, plays_env; [split; [done|]; split; [done|]; intros _; exists []; by rewrite app_nil_r|]. intros a [Hle Ha].
  exists (drop (Z.to_nat a) (b :: data), false). split.
  { cbn [r_env connection bytes_out fst snd]. rewrite Z.eqb_refl. by rewrite take_drop. }
  destruct ((a : Z) <=? 0) eqn:E; zb; [|apply IH].
  replace (Z.to_nat a) with 0%nat by lia. apply plays_ret, Hgone. intros Hacc. specialize (Ha Hacc ltac:(done) eq_refl). lia.
Qed.

Lemma pull_plays fuel s (Q : unit -> list Z * bool -> Prop) :
  (forall data, asks (QSend fd data)) -> Q tt ([], true) -> (forall rest d, ~ accepts -> Q tt (rest, d)) ->
  plays connection s kernel_answer quiet (pull_loop fuel s fd) ([], false) Q.
Proof using Hasks.
  intros Hsend Hend Hgone. induction fuel as [|fuel IH]; [done|]. cbn [pull_loop]. apply plays_bind, read_plays; [done|done|done|].
  intros data Hd _. destruct data as [|b data]; [done|]. apply plays_bind, send_all_plays; [done|exact IH|].
  intros rest Hna. by apply plays_ret, Hgone.
Qed.

(** A section on a tuner. *)
Lemma tun_get_plays {G X} (R : role G) s i (f : hdhr_tuner -> X) g (Q : X -> G -> Prop) :
  (forall st, r_sect R g st st g) -> (forall ts t, quiet ts -> ts !! i = Some t -> Q (f t) g) ->
  plays R s kernel_answer quiet (tun_get i f) g Q.
Proof.
  intros HR HQ e w st Hq Hst Hs. destruct (w_tuners w !! i) as [t|] eqn:Et; [|done]. rewrite (same_tuner_world w i t Et). split; [done|]. split; [done|].
  exists st, g. split; [exact Hst|]. split; [done|]. split; [apply HR|by eapply HQ].
Qed.

Lemma push_plays fuel i s ip port buf (Q : unit -> list Z * bool -> Prop) :
  (forall data, Z.of_nat (length data) = DATAGRAM_SIZE -> asks (QSendTo fd ip port data)) ->
  Z.of_nat (length buf) < DATAGRAM_SIZE -> (forall rest, Z.of_nat (length rest) < DATAGRAM_SIZE -> Q tt (rest, true)) ->
  (forall ts t g, quiet ts -> ts !! i = Some t -> udp_push_stop_requested t = true -> Q tt g) -> (forall g, ~ lossless -> Q tt g) ->
  plays connection s kernel_answer quiet (push_loop fuel i s fd ip port buf) (buf, false) Q.
Proof using Hasks.
  intros Hsend Hb Hend Hstop Hlost. assert (Hsz : DATAGRAM_SIZE <= Z.of_nat READ_SIZE) by done. revert buf Hb.
  induction fuel as [|fuel IH]; intros buf Hb; [done|]. cbn [push_loop]. apply plays_bind, tun_get_plays; [intros st; apply connection_looks; lia|].
  intros ts t Hq Ht. destruct (udp_push_stop_requested t) eqn:Es; [by eapply Hstop|].
  apply plays_bind, read_plays; [lia|lia|by apply Hend|]. intros data Hd Hlen. destruct data as [|b data]; [done|]. cbv zeta.
  destruct (_ =? DATAGRAM_SIZE) eqn:E; zb.
  - apply plays_bind, plays_env; [split; [done|]; split; [by apply Hsend|]; intros _; exists []; by rewrite app_nil_r|].
    intros a Ha. exists ([], false). split.
    { cbn [r_env connection bytes_out fst snd]. rewrite Z.eqb_refl. by rewrite app_nil_r. }
    destruct ((a : Z) <? 0) eqn:E2; zb; [|by apply IH]. apply Hlost. intros Hl. specialize (Ha Hl eq_refl). lia.
  - apply IH. rewrite length_app in *. lia.
Qed.

(** *** Other threads *)

Definition bystands (s : nat) {X} (p : prog X) : Prop := plays bystander s kernel_answer quiet p tt (fun _ _ => True).

Lemma bystands_bind s {X Y} (p : prog X) (f : X -> prog Y) : bystands s p -> (forall x, bystands s (f x)) -> bystands s (bind p f).
Proof. intros Hp Hf. apply plays_bind. eapply plays_mono; [|exact Hp]. intros x [] _. apply Hf. Qed.
Lemma bystands_env s q : is_read q = false -> is_send q = false -> bystands s (env q).
Proof. intros H1 H2. apply plays_env; [done|]. intros a _. by exists tt. Qed.
Lemma bystands_sect s {X} (f : sect_env -> dvb_stream -> X * dvb_stream) :
  (forall e st, rng (f e st).2 = rng st /\ eof (f e st).2 = eof st /\ closing (f e st).2 = closing st) ->
  bystands s (stream_sect s f).
Proof.
  intros H. apply plays_stream_sect. intros e st [H1 H2]. destruct (H e st) as (Hr & He & Hc). exists tt.
  split; [|done]. split; [by rewrite Hr|by rewrite Hc].
Qed.

Lemma stats_bystands fuel s ffd : bystands s (stats_thread_main fuel s ffd).
Proof.
  induction fuel as [|fuel IH]; [done|]. cbn [stats_thread_main]. apply bystands_bind.
  { unfold dvb_frontend_read_stats. do 2 (apply bystands_bind; [by apply bystands_env|]; intros ?). done. }
  intros stats. apply bystands_bind.
  { destruct (_ <? 0); [|done]. apply bystands_bind.
    - unfold legacy_reading, dvb_frontend_read_legacy_ucblocks. destruct (has_lock stats); [|done].
      apply bystands_bind; [by apply bystands_env|]. intros [ub|]; [|done]. apply bystands_bind; [by apply bystands_env|]. done.
    - intros r. apply bystands_bind; [|done]. apply bystands_sect. intros e st. unfold dvb_stream_get_legacy_seq_pct.
      by destruct (legacy_seq_step _ _ _ _). }
  intros stats'. apply bystands_bind.
  { apply bystands_sect. intros e st. unfold stats_publish. by destruct (_ || _). }
  intros [|]; [done|]. apply bystands_bind; [by apply bystands_env|]. intros _. apply bystands_bind; [by apply bystands_sect|].
  intros [|]; [done|exact IH].
Qed.

(** ** The threads together *)

Section Together.
Context {S : Type} (h : handler S) (se : S -> sect_env) (body : thread -> prog unit) (s : nat).

(** The environment keeps a log of the bytes the device yielded and of the bytes
    the client accepted, and answers as a kernel does. *)
Context (captured sent : S -> list Z).
Definition wired : Prop := forall q x, let '(a, x') := h q x in
  kernel_answer q a /\ captured x' = captured x ++ bytes_in q a /\ sent x' = sent x ++ bytes_out q a.
Context (Hwired : wired).

(** What is to stay true of the log. *)
Context (J : S -> Prop) (HJ : forall q x, asks q -> J x -> J (h q x).2).

Definition stream_in (c : Sys.config) : option dvb_stream := w_streams (c_world c) !! s.

Definition calm_at (c : Sys.config) (x : S) : Prop := quiet (w_tuners (c_world c)) /\ J x.

(** One operation of a thread that plays a role. *)
Lemma turn_plays {G} (R : role G) i c x c' x' p g Q st :
  (forall g q, r_ask R g q -> asks q) ->
  c_pool c !! i = Some p -> plays R s kernel_answer quiet p g Q -> stream_in c = Some st -> sane st -> calm_at c x ->
  turn h se body i c x = Some (c', x') ->
  exists p' g', c_pool c' = <[i:=p']> (c_pool c) /\ plays R s kernel_answer quiet p' g' Q /\ calm_at c' x' /\
    ((exists st', stream_in c' = Some st' /\ sane st' /\ r_sect R g st st' g' /\ x' = x) \/
     (exists q a, stream_in c' = Some st /\ kernel_answer q a /\ r_ask R g q /\ r_env R q g a g' /\
        captured x' = captured x ++ bytes_in q a /\ sent x' = sent x ++ bytes_out q a) \/
     (stream_in c' = Some st /\ g' = g /\ x' = x)).
Proof using Hwired HJ.
  destruct c as [w pool jn]. unfold stream_in, calm_at. cbn [c_world c_pool]. intros Hall Hi Hp Hst Hs [Hq Hx] Ht. unfold turn in Ht. rewrite Hi in Ht.
  destruct p as [y|B o k|]; [done| |done]. destruct o as [X f|q|tid]; cbn [plays] in Hp.
  - cbv zeta in Ht. set (e := {| e_now := _; e_tid := _; e_create_ok := _; e_open_ok := _ |}) in Ht. specialize (Hp e w st Hq Hst Hs).
    destruct (f e w) as [[[y w'] sp]|]; [|done]. destruct Hp as (-> & Hq' & st' & g' & H1 & H2 & H3 & H4). injection Ht as <- <-.
    exists (k y), g'. cbn [c_pool c_world]. split; [apply app_nil_r|]. split; [exact H4|]. split; [by split|]. left. by exists st'.
  - destruct Hp as [Hask Hp]. pose proof (Hwired q x) as Hw. pose proof (HJ q x (Hall _ _ Hask) Hx) as Hx1.
    destruct (h q x) as [a x1]. destruct Hw as (Hk & Hc & Hsd). cbn [snd] in Hx1.
    destruct (Hp a Hk) as (g' & Henv & Hp'). destruct (possible w q a); [|done]. injection Ht as <- <-.
    exists (k a), g'. cbn [c_pool c_world]. split; [done|]. split; [exact Hp'|].
    split; [split; [|done]; by destruct q; simpl; try destruct (_ <=? _)|]. right; left. exists q, a.
    split; [|done]. rewrite <- Hst. by destruct q; simpl; try destruct (_ <=? _).
  - destruct (pool !! tid) as [[[]| |]|]; try done. destruct (jn !! tid); [|done]. injection Ht as <- <-.
    exists (k tt), g. split; [done|]. split; [exact Hp|]. split; [by split|]. by right; right.
Qed.

(** [final]: what holds of the consumer's ghost state when it has ended. *)
Context (final : list Z * bool -> Prop).
Definition delivery_inv (c : Sys.config) (x : S) : Prop :=
  calm_at c x /\ exists st hand drained cap,
    stream_in c = Some st /\ sane st /\
    (exists p, c_pool c !! 0%nat = Some p /\ plays connection s kernel_answer quiet p (hand, drained) (fun _ => final)) /\
    (exists p, c_pool c !! 1%nat = Some p /\ plays capture s kernel_answer quiet p cap (fun _ _ => True)) /\
    (forall j p, (2 <= j)%nat -> c_pool c !! j = Some p -> bystands s p) /\
    captured x = sent x ++ hand ++ contents (rng st) ++ default [] cap /\
    (length hand <= READ_SIZE)%nat /\ (length (default [] cap) <= READ_SIZE)%nat /\
    (eof st = true -> cap = None) /\ (drained = true -> eof st = true /\ contents (rng st) = []).

Lemma bytes_in_nil q a : is_read q = false -> bytes_in q a = [].
Proof.
  destruct q as [| |f r| | | | | | | | | | | | | | | | | | | | | | | |]; try done. destruct r; try done. simpl. intros ->. by destruct a.
Qed.
Lemma bytes_out_nil q a : is_send q = false -> bytes_out q a = [].
Proof. destruct q; try done; simpl; by intros ->. Qed.
Lemma bytes_in_short g q a : r_ask capture g q -> kernel_answer q a -> (length (default [] g ++ bytes_in q a) <= Nat.max READ_SIZE (length (default [] g)))%nat.
Proof.
  intros (_ & _ & Hr) Hk. destruct (is_read q) eqn:E; [|rewrite bytes_in_nil, app_nil_r by done; lia].
  destruct (Hr eq_refl) as [-> Hn]. destruct q as [| |f r| | | | | | | | | | | | | | | | | | | | | | | |]; try done. destruct r; try done.
  subst n. destruct a as [e|l]; cbn [bytes_in kernel_answer default app length] in *; [apply Nat.le_0_l|].
  apply Nat.max_le_iff. left. change (length (if (f =? dvr)%Z then l else []) <= READ_SIZE)%nat. destruct (f =? dvr); [lia|apply Nat.le_0_l].
Qed.

Lemma connection_turn c x c' x' : delivery_inv c x -> turn h se body 0 c x = Some (c', x') -> delivery_inv c' x'.
Proof using Hwired HJ Hasks.
  intros (Hcalm & st & hand & drained & cap & Hst & Hs & (p & Hp & Hplay) & (p1 & Hp1 & Hplay1) & Hby & Hlog & Hl1 & Hl2 & He & Hd) Ht.
  destruct (turn_plays connection 0 c x c' x' p _ _ st ltac:(intros g q Hq; apply Hq) Hp Hplay Hst Hs Hcalm Ht)
    as (p' & [hand' drained'] & Hpool & Hplay' & Hcalm' & Hcase). split; [exact Hcalm'|].
  assert (H0 : c_pool c' !! 0%nat = Some p') by (rewrite Hpool; apply list_lookup_insert_eq; by eapply lookup_lt_Some).
  assert (Hj : forall j, j <> 0%nat -> c_pool c' !! j = c_pool c !! j) by (intros j Hne; rewrite Hpool; by rewrite list_lookup_insert_ne).
  destruct Hcase as [(st' & Hst' & Hs' & Hm & ->)|[(q & a & Hst' & Hk & (Hnr & _) & Henv & Hc & Hsd)|(Hst' & [= -> ->] & ->)]].
  - cbn in Hm. destruct Hm as (_ & Heof & (taken & Hct & ->) & Hlen & Hdr). exists st', (hand ++ taken), drained', cap.
    split; [done|]. split; [done|]. split; [by exists p'|]. split; [exists p1; by rewrite Hj|]. split; [intros j q0 Hge; rewrite Hj by lia; by apply Hby|].
    split; [by rewrite Hlog, Hct, <- !app_assoc|]. split; [done|]. split; [done|]. rewrite Heof. split; [done|]. intros Hd'.
    assert (Hx : eof st = true /\ contents (rng st) = []) by (destruct (Hdr Hd') as [?|[? ?]]; auto). destruct Hx as [Hx1 Hx2]. split; [done|].
    rewrite Hct in Hx2. by apply app_eq_nil in Hx2 as [_ ->].
  - cbn in Henv. destruct Henv as [-> ->]. rewrite bytes_in_nil, app_nil_r in Hc by done. exists st, hand', drained, cap.
    split; [done|]. split; [done|]. split; [by exists p'|]. split; [exists p1; by rewrite Hj|]. split; [intros j q0 Hge; rewrite Hj by lia; by apply Hby|].
    split; [by rewrite Hc, Hlog, Hsd, <- !app_assoc|]. split; [rewrite length_app in Hl1; lia|done].
  - exists st, hand, drained, cap. split; [done|]. split; [done|]. split; [by exists p'|]. split; [exists p1; by rewrite Hj|].
    split; [intros j q0 Hge; rewrite Hj by lia; by apply Hby|done].
Qed.

Lemma capture_turn c x c' x' : delivery_inv c x -> turn h se body 1 c x = Some (c', x') -> delivery_inv c' x'.
Proof using Hwired HJ Hasks.
  intros (Hcalm & st & hand & drained & cap & Hst & Hs & (p0 & Hp0 & Hplay0) & (p & Hp & Hplay) & Hby & Hlog & Hl1 & Hl2 & He & Hd) Ht.
  destruct (turn_plays capture 1 c x c' x' p _ _ st ltac:(intros g q Hq; apply Hasks, Hq) Hp Hplay Hst Hs Hcalm Ht)
    as (p' & cap' & Hpool & Hplay' & Hcalm' & Hcase). split; [exact Hcalm'|].
  assert (H1 : c_pool c' !! 1%nat = Some p') by (rewrite Hpool; apply list_lookup_insert_eq; by eapply lookup_lt_Some).
  assert (Hj : forall j, j <> 1%nat -> c_pool c' !! j = c_pool c !! j) by (intros j Hne; rewrite Hpool; by rewrite list_lookup_insert_ne).
  destruct Hcase as [(st' & Hst' & Hs' & Hm & ->)|[(q & a & Hst' & Hk & Hask & Henv & Hc & Hsd)|(Hst' & -> & ->)]].
  - cbn in Hm. destruct Hm as (l & stored & l' & -> & -> & Hct & Heof). exists st', hand, drained, cap'.
    assert (Hopen : eof st = false) by (destruct (eof st) eqn:E; [by discriminate (He eq_refl)|done]).
    assert (Hcap' : default [] cap' = l') by (by destruct Heof as [[_ ->]|[-> ->]]).
    change (default [] (Some (stored ++ l'))) with (stored ++ l') in *.
    split; [done|]. split; [done|]. split; [exists p0; by rewrite Hj|]. split; [by exists p'|]. split; [intros j q0 Hge; rewrite Hj by lia; by apply Hby|].
    split; [by rewrite Hlog, Hct, Hcap', <- !app_assoc|]. split; [done|]. split; [rewrite Hcap'; rewrite length_app in Hl2; lia|].
    split; [|intros Hdr; by rewrite (proj1 (Hd Hdr)) in Hopen]. intros Hx. destruct Heof as [[Heq _]|[-> _]]; [congruence|done].
  - pose proof (bytes_in_short _ _ _ Hask Hk) as Hlen. destruct Hask as (Hns & _ & _). cbn in Henv. destruct Henv as (l & -> & ->).
    rewrite bytes_out_nil, app_nil_r in Hsd by done. exists st, hand, drained, (Some (l ++ bytes_in q a)).
    change (default [] (Some l)) with l in *. change (default [] (Some (l ++ bytes_in q a))) with (l ++ bytes_in q a).
    split; [done|]. split; [done|]. split; [exists p0; by rewrite Hj|]. split; [by exists p'|]. split; [intros j q0 Hge; rewrite Hj by lia; by apply Hby|].
    split; [by rewrite Hc, Hlog, Hsd, <- !app_assoc|]. split; [done|]. split; [lia|]. split; [|done]. intros Hx. by discriminate (He Hx).
  - exists st, hand, drained, cap. split; [done|]. split; [done|]. split; [exists p0; by rewrite Hj|]. split; [by exists p'|].
    split; [intros j q0 Hge; rewrite Hj by lia; by apply Hby|done].
Qed.

Lemma bystander_turn i c x c' x' : (2 <= i)%nat -> delivery_inv c x -> turn h se body i c x = Some (c', x') -> delivery_inv c' x'.
Proof using Hwired HJ Hasks.
  intros Hi (Hcalm & st & hand & drained & cap & Hst & Hs & (p0 & Hp0 & Hplay0) & (p1 & Hp1 & Hplay1) & Hby & Hlog & Hl1 & Hl2 & He & Hd) Ht.
  destruct (c_pool c !! i) as [p|] eqn:Hp; [|by unfold turn in Ht; destruct c as [w0 pool0 jn0]; cbn [c_pool] in Hp; rewrite Hp in Ht].
  destruct (turn_plays bystander i c x c' x' p _ _ st ltac:(intros g q Hq; apply Hasks, Hq) Hp (Hby i p Hi Hp) Hst Hs Hcalm Ht)
    as (p' & [] & Hpool & Hplay' & Hcalm' & Hcase). split; [exact Hcalm'|].
  assert (Hii : c_pool c' !! i = Some p') by (rewrite Hpool; apply list_lookup_insert_eq; by eapply lookup_lt_Some).
  assert (Hj : forall j, j <> i -> c_pool c' !! j = c_pool c !! j) by (intros j Hne; rewrite Hpool; by rewrite list_lookup_insert_ne).
  assert (Hby' : forall j q, (2 <= j)%nat -> c_pool c' !! j = Some q -> bystands s q).
  { intros j q Hge Hq. destruct (decide (j = i)) as [->|Hne]; [rewrite Hii in Hq; by simplify_eq|]. rewrite Hj in Hq by done. by eapply Hby. }
  assert (Hlogs : exists st', stream_in c' = Some st' /\ sane st' /\ rng st' = rng st /\ eof st' = eof st /\ captured x' = captured x /\ sent x' = sent x).
  { destruct Hcase as [(st' & Hst' & Hs' & [Hr Heq] & ->)|[(q & a & Hst' & Hk & [Hnr Hns] & _ & Hc & Hsd)|(Hst' & _ & ->)]]; [by exists st'| |by exists st].
    exists st. rewrite Hc, Hsd, bytes_in_nil, bytes_out_nil, !app_nil_r by done. done. }
  destruct Hlogs as (st' & Hst' & Hs' & Hr & Heq & Hc & Hsd). exists st', hand, drained, cap. rewrite Hr, Heq, Hc, Hsd.
  split; [done|]. split; [done|]. split; [exists p0; rewrite Hj by lia; done|]. split; [exists p1; rewrite Hj by lia; done|]. done.
Qed.

Lemma turn_delivers i c x c' x' : delivery_inv c x -> turn h se body i c x = Some (c', x') -> delivery_inv c' x'.
Proof using Hwired HJ Hasks.
  destruct i as [|[|i]]; [apply connection_turn|apply capture_turn|apply bystander_turn; lia].
Qed.

Lemma schedule_delivers l c x : delivery_inv c x -> let '(c', x') := schedule h se body l c x in delivery_inv c' x'.
Proof using Hwired HJ Hasks.
  revert c x. induction l as [|[i n] l IH]; intros c x H; [done|]. cbn [schedule].
  assert (Ht : forall n c x, delivery_inv c x -> let '(c', x') := turns h se body n i c x in delivery_inv c' x').
  { clear -Hwired HJ Hasks. intros n. induction n as [|n IH]; intros c x H; [done|]. cbn [turns]. destruct (turn h se body i c x) as [[c' x']|] eqn:E; [|done].
    apply IH. by eapply turn_delivers. }
  specialize (Ht n c x H). destruct (turns h se body n i c x) as [c1 x1]. by apply IH.
Qed.
End Together.
End Roles.

(** The consumer of a stream on descriptor [fd]: an HTTP connection, or the push
    of a tuner to an address. *)
Definition consumer (push : option (nat * string * Z)) (fuel s : nat) (fd : Z) : prog unit :=
  match push with
  | None => pull_loop fuel s fd
  | Some (i, ip, port) => push_loop fuel i s fd ip port []
  end.

(** Claim C5: the client receives the broadcast.  A stream's capture thread, its
    consumer (an HTTP connection or a UDP push), and any threads that leave its
    buffer alone (its statistics thread is one), started on an empty buffer, run
    in any interleaving, on any answers a kernel may give.  At every moment the
    bytes the connection has accepted, or those handed over in datagrams, are the
    first bytes the device has yielded, none lost, repeated or out of order, and
    what is still on its way is at most the 1 MiB of the ring and two reads of 64
    packets.  Once an HTTP connection that accepts whatever it is sent has ended,
    it has received everything the device ever yielded. *)
Theorem broadcast_delivered {S} (h : handler S) (se : S -> sect_env) (body : thread -> prog unit) (captured sent : S -> list Z)
    (accepts : Prop) (push : option (nat * string * Z)) (fuel s : nat) (dvr fd : Z) (w : world) (jn : gmap nat joinable)
    (others : list (prog unit)) (st : dvb_stream) (x : S) (l : list (nat * nat)) :
  wired dvr fd accepts False h captured sent -> w_streams w !! s = Some st -> rng st = empty_ring -> closing st = false -> eof st = false ->
  captured x = sent x -> Forall (bystands dvr fd accepts False (fun _ => True) s) others ->
  let '(c, x') := schedule h se body l
    {| c_world := w; c_pool := consumer push fuel s fd :: reader_thread_main fuel s dvr :: others; c_join := jn |} x in
  (exists pending, captured x' = sent x' ++ pending /\ (length pending <= RING_CAP + 2 * READ_SIZE)%nat) /\
  (push = None -> accepts -> c_pool c !! 0%nat = Some (Ret tt) -> sent x' = captured x').
Proof.
  intros Hw Hst Hr Hc He Hx Hby. pose proof empty_ring_ok as Hok. pose proof (contents_length RING_CAP _ Hok) as Hlen.
  assert (Hnil : contents (rng st) = []) by (rewrite Hr; apply length_zero_iff_nil; exact Hlen).
  set (final := fun g : list Z * bool => push = None -> accepts -> g = ([], true)).
  set (any := fun _ : query => True). set (always := fun _ : list hdhr_tuner => True).
  assert (Hplay0 : plays (connection dvr fd any) s (kernel_answer fd accepts False) always (consumer push fuel s fd) ([], false) (fun _ => final)).
  { unfold consumer. destruct push as [[[i ip] port]|].
    - apply push_plays; try done; intros; intros Hp; discriminate Hp.
    - apply pull_plays; [done..|]. intros rest d Hna _ Hacc. by destruct Hna. }
  match goal with |- context [schedule h se body l ?c0 x] =>
    pose proof (schedule_delivers dvr fd accepts False always any (fun _ _ => I) h se body s captured sent Hw (fun _ => True) (fun _ _ _ _ => I) final l c0 x) as H end.
  destruct (schedule _ _ _ _ _ _) as [c x']. destruct H as (_ & st' & hand & drained & cap & Hst' & [Hok' _] & (p & Hp & Hplay) & _ & _ & Hlog & Hl1 & Hl2 & Heof & Hd).
  { split; [by split|]. exists st, [], false, (Some []). split; [done|]. split; [split; [by rewrite Hr|done]|]. split; [by eexists|].
    split; [eexists; split; [done|]; by apply reader_plays|].
    split; [intros j p Hj Hp; destruct j as [|[|j]]; [lia..|]; by eapply (proj1 (Forall_lookup _ _) Hby j)|].
    split; [by rewrite Hx, Hnil, app_nil_r|]. split; [simpl; lia|]. split; [simpl; lia|]. split; [congruence|done]. }
  split.
  - exists (hand ++ contents (rng st') ++ default [] cap). split; [done|]. rewrite !length_app, (contents_length RING_CAP) by done.
    destruct Hok' as (_ & _ & _ & Hf & _). lia.
  - intros Hpush Hacc Hend. rewrite Hend in Hp. injection Hp as <-. specialize (Hplay Hpush Hacc). injection Hplay as -> ->.
    destruct (Hd eq_refl) as [He' Hn']. rewrite (Heof He'), Hn' in Hlog. by rewrite app_nil_r in Hlog.
Qed.

(** *** A run: two reads of the device, taken up by the client in between *)

(** The state: what the device still has, what it yielded, what the client took. *)
Definition broadcast : handler (list (list Z) * list Z * list Z) := fun q =>
  match q return list (list Z) * list Z * list Z -> answer q * (list (list Z) * list Z * list Z) with
  | QIoctl f r => fun s =>
      match r return fd_answer r * (list (list Z) * list Z * list Z) with
      | FdPoll _ => (1, s)
      | FdRead n =>
          if negb (f =? 4) || (n <? 0) then (ReadError EAGAIN, s)
          else let data := take (Z.to_nat n) (default [] (head s.1.1)) in (ReadData data, (tail s.1.1, s.1.2 ++ data, s.2))
      | r => (idle_fd_answer r, s)
      end
  | QSend f data => fun s => if f =? 5 then (Z.of_nat (length data), (s.1.1, s.1.2, s.2 ++ data)) else (0, s)
  | QSendTo f _ _ data => fun s => (Z.of_nat (length data), if f =? 5 then (s.1.1, s.1.2, s.2 ++ data) else s)
  | q => fun s => (idle_answer q, s)
  end.

Lemma broadcast_wired : wired 4 5 True False broadcast (fun s => s.1.2) snd.
Proof.
  intros q [[dev cap] snt].
  destruct q; try (simpl; rewrite !app_nil_r; done).
  - destruct r; try (simpl; rewrite ?app_nil_r; done). cbn [broadcast]. destruct (fd =? 4) eqn:E; cbn [negb orb].
    + destruct (n <? 0) eqn:E0; [by cbn; rewrite !app_nil_r|]. zb. cbn. rewrite E, app_nil_r. split; [|done]. rewrite length_take. lia.
    + cbn. rewrite !app_nil_r. done.
  - cbn. destruct (sock =? 5) eqn:E; cbn.
    + rewrite app_nil_r, Nat2Z.id, take_ge by lia. split; [|done]. split; [lia|]. intros _ Hd _. destruct data; [done|simpl; lia].
    + rewrite !app_nil_r. split; [|done]. split; [lia|]. intros _ _ ->. done.
  - cbn. destruct (sock =? 5); cbn; by rewrite !app_nil_r.
Qed.

Definition on_air : world :=
  {| w_tuners := []; w_db := []; w_streams := {[ 0%nat := sample_stream ]}; w_fds := ∅; w_8vsb_override := ""; w_files := ∅; w_start_time := 0 |}.

(** The connection waits; the device is read; the connection takes what there is;
    the capture thread goes on to the end of the device; the connection ends. *)
Definition aired : Sys.config * (list (list Z) * list Z * list Z) :=
  schedule broadcast (fun _ => calm time0) (fun _ => Ret tt) [(0, 2); (1, 4); (0, 3); (2, 3); (1, 40); (0, 40)]%nat
    {| c_world := on_air; c_pool := [consumer None 9 0 5; reader_thread_main 9 0 4; stats_thread_main 9 0 3]; c_join := ∅ |}
    ([[10; 11; 12]; [13; 14]], [], []).

Lemma aired_ended : c_pool aired.1 !! 0%nat = Some (Ret tt) /\ aired.2.1.2 = [10; 11; 12; 13; 14].
Proof. split; vm_compute; reflexivity. Qed.

Lemma broadcast_delivered_witness : aired.2.2 = [10; 11; 12; 13; 14].
Proof.
  destruct aired_ended as [Hend Hcap].
  pose proof (broadcast_delivered broadcast (fun _ => calm time0) (fun _ => Ret tt) (fun s => s.1.2) snd True None 9 0 4 5 on_air ∅
    [stats_thread_main 9 0 3] sample_stream ([[10; 11; 12]; [13; 14]], [], []) [(0, 2); (1, 4); (0, 3); (2, 3); (1, 40); (0, 40)]%nat
    broadcast_wired eq_refl eq_refl eq_refl eq_refl eq_refl) as H.
  assert (Hby : Forall (bystands 4 5 True False (fun _ => True) 0) [stats_thread_main 9 0 3]) by (apply Forall_cons; split; [apply stats_bystands|done]).
  specialize (H Hby). fold aired in H. destruct aired as [c x']. destruct H as [_ H]. cbn [fst snd] in *. rewrite <- Hcap. by apply H.
Defined.

(** ** Datagrams *)

(** The datagram a query hands over on socket [fd], with its destination. *)
Definition datagram_out (fd : Z) (q : query) : list (string * Z * list Z) :=
  match q with QSendTo f ip port data => if f =? fd then [(ip, port, data)] else [] | _ => [] end.

(** The environment keeps a log of them. *)
Definition boxed {S} (fd : Z) (h : handler S) (datagrams : S -> list (string * Z * list Z)) : Prop :=
  forall q x, datagrams (h q x).2 = datagrams x ++ datagram_out fd q.

(** Seven TS packets for one address. *)
Definition whole (ip : string) (port : Z) (d : string * Z * list Z) : Prop :=
  d.1 = (ip, port) /\ Z.of_nat (length d.2) = DATAGRAM_SIZE.

(** What a push may send on [fd]. *)
Definition asks_whole (fd : Z) (ip : string) (port : Z) (q : query) : Prop :=
  match q with QSend f _ => f <> fd | _ => Forall (whole ip port) (datagram_out fd q) end.

Lemma asks_whole_else fd ip port q : is_send fd q = false -> asks_whole fd ip port q.
Proof. destruct q; simpl; try (intros _; by constructor); intros H; [by apply Z.eqb_neq|by rewrite H]. Qed.

(** Nobody asks the push of tuner [i] to stop. *)
Definition unstopped (i : nat) (ts : list hdhr_tuner) : Prop := forall t, ts !! i = Some t -> udp_push_stop_requested t = false.

(** The log of the datagrams accounts for the bytes sent. *)
Lemma boxed_log {S} dvr fd accepts lossless (h : handler S) captured sent datagrams ip port q x :
  wired dvr fd accepts lossless h captured sent -> boxed fd h datagrams -> asks_whole fd ip port q ->
  Forall (whole ip port) (datagrams x) /\ sent x = concat (datagrams x).*2 ->
  Forall (whole ip port) (datagrams (h q x).2) /\ sent (h q x).2 = concat (datagrams (h q x).2).*2.
Proof.
  intros Hw Hb Hq [Hf Hs]. rewrite Hb. specialize (Hw q x). destruct (h q x) as [a x']. destruct Hw as (_ & _ & Hw). cbn [snd] in *.
  rewrite Hw, fmap_app, concat_app, Hs. split.
  - apply Forall_app. split; [done|]. by destruct q; try constructor.
  - f_equal. destruct q; try done; cbn [asks_whole bytes_out datagram_out] in *.
    + by rewrite (proj2 (Z.eqb_neq _ _)).
    + destruct (_ =? _); [simpl; by rewrite app_nil_r|done].
Qed.

(** Claim C27: a push sends whole datagrams.  The capture thread, a push of the
    stream to [ip]:[port], and any threads that leave the stream's buffer alone,
    started on an empty buffer, run in any interleaving, on any answers a kernel
    may give.  At every moment every datagram handed over is addressed to
    [ip]:[port] and is exactly 1316 bytes, seven TS packets; one after the other
    they are the first bytes the device has yielded, none lost, repeated or out of
    order, and what is on its way is at most the 1 MiB of the ring and two reads.
    When the push has ended although nobody has asked it to stop (the other
    threads keep [quiet] true, and no tuner's push is asked to stop where it
    is) and no [sendto] has failed ([lossless]), less than one datagram of all the
    device ever yielded is unsent. *)
Theorem datagrams_whole {S} (h : handler S) (se : S -> sect_env) (body : thread -> prog unit)
    (captured sent : S -> list Z) (datagrams : S -> list (string * Z * list Z)) (quiet : list hdhr_tuner -> Prop)
    (lossless : Prop) (i : nat) (ip : string) (port : Z) (fuel s : nat) (dvr fd : Z) (w : world) (jn : gmap nat joinable)
    (others : list (prog unit)) (st : dvb_stream) (x : S) (l : list (nat * nat)) :
  wired dvr fd False lossless h captured sent -> boxed fd h datagrams ->
  w_streams w !! s = Some st -> rng st = empty_ring -> closing st = false -> eof st = false -> quiet (w_tuners w) ->
  captured x = [] -> sent x = [] -> datagrams x = [] -> Forall (bystands dvr fd False lossless quiet s) others ->
  let '(c, x') := schedule h se body l
    {| c_world := w; c_pool := push_loop fuel i s fd ip port [] :: reader_thread_main fuel s dvr :: others; c_join := jn |} x in
  Forall (whole ip port) (datagrams x') /\
  (exists pending, captured x' = concat (datagrams x').*2 ++ pending /\ (length pending <= RING_CAP + 2 * READ_SIZE)%nat) /\
  ((forall ts, quiet ts -> unstopped i ts) -> lossless -> c_pool c !! 0%nat = Some (Ret tt) ->
   exists rest, captured x' = concat (datagrams x').*2 ++ rest /\ Z.of_nat (length rest) < DATAGRAM_SIZE).
Proof.
  intros Hw Hbox Hst Hr Hc He Hq Hx Hx' Hd0 Hby. pose proof empty_ring_ok as Hok. pose proof (contents_length RING_CAP _ Hok) as Hlen.
  assert (Hnil : contents (rng st) = []) by (rewrite Hr; apply length_zero_iff_nil; exact Hlen).
  set (final := fun g : list Z * bool => (forall ts, quiet ts -> unstopped i ts) -> lossless -> g.2 = true /\ Z.of_nat (length g.1) < DATAGRAM_SIZE).
  set (asks := asks_whole fd ip port). pose proof (asks_whole_else fd ip port : forall q, is_send fd q = false -> asks q) as Hasks.
  assert (Hplay0 : plays (connection dvr fd asks) s (kernel_answer fd False lossless) quiet (push_loop fuel i s fd ip port []) ([], false) (fun _ => final)).
  { apply push_plays; [done| |done|by intros rest Hrest _ _| |].
    - intros data Hdata. unfold asks. simpl. rewrite Z.eqb_refl. by repeat constructor.
    - intros ts t g Hts Ht Hstop Hun. specialize (Hun ts Hts t Ht). congruence.
    - intros g Hl _ Hll. done. }
  set (J := fun y => Forall (whole ip port) (datagrams y) /\ sent y = concat (datagrams y).*2).
  match goal with |- context [schedule h se body l ?c0 x] =>
    pose proof (schedule_delivers dvr fd False lossless quiet asks Hasks h se body s captured sent Hw J
      (fun q y => boxed_log dvr fd False lossless h captured sent datagrams ip port q y Hw Hbox) final l c0 x) as H end.
  destruct (schedule _ _ _ _ _ _) as [c x']. destruct H as ([_ [Hall Hsent]] & st' & hand & drained & cap & Hst' & [Hok' _] & (p & Hp & Hplay) & _ & _ & Hlog & Hl1 & Hl2 & Heof & Hd).
  { split; [split; [done|]; unfold J; by rewrite Hx', Hd0|]. exists st, [], false, (Some []). split; [done|].
    split; [split; [by rewrite Hr|done]|]. split; [by eexists|]. split; [eexists; split; [done|]; by apply reader_plays|].
    split; [intros j p Hj Hp; destruct j as [|[|j]]; [lia..|]; by eapply (proj1 (Forall_lookup _ _) Hby j)|].
    split; [by rewrite Hx, Hx', Hnil|]. split; [simpl; lia|]. split; [simpl; lia|]. split; [congruence|done]. }
  rewrite Hsent in Hlog. split; [exact Hall|]. split.
  - exists (hand ++ contents (rng st') ++ default [] cap). split; [done|]. rewrite !length_app, (contents_length RING_CAP) by done.
    destruct Hok' as (_ & _ & _ & Hf & _). lia.
  - intros Hun Hl Hend. rewrite Hend in Hp. injection Hp as <-. destruct (Hplay Hun Hl) as [Hdr Hshort]. cbn [fst snd] in *. subst drained.
    destruct (Hd eq_refl) as [He' Hn']. rewrite (Heof He'), Hn' in Hlog. rewrite app_nil_r in Hlog. by exists hand.
Qed.

(** *** A run: 3760 bytes in two reads become two datagrams *)

Definition pushed_log : Type := list (list Z) * list Z * list (string * Z * list Z).
Definition pushing : handler pushed_log := fun q =>
  match q return pushed_log -> answer q * pushed_log with
  | QIoctl f r => fun s =>
      match r return fd_answer r * pushed_log with
      | FdPoll _ => (1, s)
      | FdRead n =>
          if negb (f =? 4) || (n <? 0) then (ReadError EAGAIN, s)
          else let data := take (Z.to_nat n) (default [] (head s.1.1)) in (ReadData data, (tail s.1.1, s.1.2 ++ data, s.2))
      | r => (idle_fd_answer r, s)
      end
  | QSendTo f ip port data => fun s => (Z.of_nat (length data), if f =? 5 then (s.1.1, s.1.2, s.2 ++ [(ip, port, data)]) else s)
  | q => fun s => (idle_answer q, s)
  end.

Lemma pushing_boxed : boxed 5 pushing snd.
Proof.
  intros q [[dev cap] log]. destruct q; try (simpl; by rewrite app_nil_r).
  - destruct r; try (simpl; by rewrite app_nil_r). cbn [pushing]. destruct (_ || _); by rewrite app_nil_r.
  - cbn. destruct (sock =? 5); [done|by rewrite app_nil_r].
Qed.

(** The bytes sent, as far as they are datagrams; [QSend] is answered with 0. *)
Lemma pushing_wired : wired 4 5 False True pushing (fun s => s.1.2) (fun s => concat s.2.*2).
Proof.
  intros q [[dev cap] log].
  destruct q; try (simpl; rewrite !app_nil_r; done).
  - destruct r; try (simpl; rewrite ?app_nil_r; done). cbn [pushing]. destruct (fd =? 4) eqn:E; cbn [negb orb].
    + destruct (n <? 0) eqn:E0; [by cbn; rewrite !app_nil_r|]. zb. cbn. rewrite E, app_nil_r. split; [|done]. rewrite length_take. lia.
    + cbn. rewrite !app_nil_r. done.
  - cbn. destruct (sock =? 5); cbn; rewrite !app_nil_r; (split; [split; [lia|done]|done]).
  - cbn. rewrite !app_nil_r. destruct (sock =? 5); cbn; rewrite ?fmap_app, ?concat_app; cbn; rewrite ?app_nil_r; (split; [lia|done]).
Qed.

Definition push_air : world := on_air <| w_tuners := [tuner_init 0 (config_defaults 0)] |>.

(** The push waits; the device is read; the push takes what there is; the capture
    thread goes on to the end of the device; the push sends the rest and ends. *)
Definition pushed : Sys.config * pushed_log :=
  schedule pushing (fun _ => calm time0) (fun _ => Ret tt) [(0, 3); (1, 4); (0, 9); (2, 3); (1, 40); (0, 40)]%nat
    {| c_world := push_air; c_pool := [push_loop 9 0 0 5 "10.0.0.9" 5004 []; reader_thread_main 9 0 4; stats_thread_main 9 0 3]; c_join := ∅ |}
    ([seqZ 0 1500; seqZ 1500 2260], [], []).

Lemma pushed_ended : c_pool pushed.1 !! 0%nat = Some (Ret tt) /\ length pushed.2.1.2 = 3760%nat /\
  (fun d => length d.2) <$> pushed.2.2 = [1316; 1316]%nat.
Proof. split; [|split]; vm_compute; reflexivity. Qed.

Lemma datagrams_whole_witness :
  length pushed.2.2 = 2%nat /\ Forall (whole "10.0.0.9" 5004) pushed.2.2 /\
  exists rest, pushed.2.1.2 = concat pushed.2.2.*2 ++ rest /\ Z.of_nat (length rest) < DATAGRAM_SIZE.
Proof.
  destruct pushed_ended as (Hend & _ & Hlens).
  pose proof (datagrams_whole pushing (fun _ => calm time0) (fun _ => Ret tt) (fun s => s.1.2) (fun s => concat s.2.*2) snd (unstopped 0) True
    0 "10.0.0.9" 5004 9 0 4 5 push_air ∅ [stats_thread_main 9 0 3] sample_stream ([seqZ 0 1500; seqZ 1500 2260], [], [])
    [(0, 3); (1, 4); (0, 9); (2, 3); (1, 40); (0, 40)]%nat
    pushing_wired pushing_boxed eq_refl eq_refl eq_refl eq_refl) as H.
  assert (Hq : unstopped 0 (w_tuners push_air)) by (intros t [= <-]; reflexivity).
  assert (Hby : Forall (bystands 4 5 False True (unstopped 0) 0) [stats_thread_main 9 0 3]) by (apply Forall_cons; split; [apply stats_bystands|done]).
  specialize (H Hq eq_refl eq_refl eq_refl Hby). fold pushed in H. destruct pushed as [c x']. destruct H as (Hall & _ & H). cbn [fst snd] in *.
  apply (f_equal length) in Hlens. rewrite length_fmap in Hlens. split; [exact Hlens|]. split; [exact Hall|].
  apply H; [intros ts Hts; exact Hts|exact I|exact Hend].
Defined.
