(* ===== verification/Daemon.v ===== *)
(** The whole daemon: src/src/main.c and the threads of every component.

    [main] is the program's main function up to the creation of the threads: the
    command line, the configuration.  [body] is what each thread runs;
    [main_thread] is the rest of the main function, which starts and joins the
    servers; [initial] is the state it has prepared.  The theorems are about every
    interleaving of every thread: no fault is reachable, the types of the shared
    state hold in every reachable state, and requests that have finished leave
    nothing behind.  [sample_state] is a state deep inside a run, computed by
    [Sched.schedule]. *)
From stdpp Require Import gmultiset.
From S2P Require Import Prelude RecordUpd Pkt CLib DeviceId FreqPlan PidFilter Psip ChannelDb Config Stats Ring Tuner Sys Life Own.
From S2P Require Import Rules Frontend Exec Sched Stream TunerOps Scan Push ControlText Control GetsetClient Discovery WebUi.
From S2P Require Import Http.

(** ** The startup scan *)

Definition SCAN_STEP_CLAIM_WAIT_MS : Z := 5000.

Definition startup_scan (fuel : nat) (cfg : hdhr_config) : prog unit :=
  claim <- tuner_try_claim_wait fuel 0 SCAN_STEP_CLAIM_WAIT_MS 0 HDHR_DELIVERY_ATSC_VSB false ;;
  match claim with
  | None => Ret tt
  | Some _ =>
      let a := nth 0 (dvb_adapter cfg) 0 in
      ffd <- dvb_frontend_open a (dvb_frontend cfg) ;;
      pat_fd <- (if 0 <=? ffd then mpeg_section_filter_open a (dvb_demux cfg) 0 0 2000 else Ret (-1)) ;;
      vct_fd <- (if 0 <=? ffd then mpeg_section_filter_open a (dvb_demux cfg) PSIP_BASE_PID 0xC8 2000 else Ret (-1)) ;;
      (if (0 <=? ffd) && (0 <=? pat_fd) && (0 <=? vct_fd)
       then scan_freqs fuel a (dvb_demux cfg) ffd pat_fd vct_fd Atsc.atsc_freq_table 0 else Ret 0) ;;
      mpeg_section_filter_close pat_fd ;;
      mpeg_section_filter_close vct_fd ;;
      (if 0 <=? ffd then dvb_frontend_close ffd else Ret tt) ;;
      tuner_release 0 ;;
      save_channels (channel_cache_file cfg)
  end.

(** ** The command line *)

(** What [main] does with its arguments: print a device id, fail, or start with a
    configuration. *)
Inductive startup := Printed (text : string) | Failed | Running (cfg : hdhr_config).

Definition DEFAULT_CONFIG : string := "/etc/hdhr-emu.conf".

(** [now] and [pid] are [time(NULL)] and [getpid()]; [args] leaves the program's
    name out. *)
Definition main (args : list string) (now pid : Z) (files : gmap string string) : startup :=
  if match args with arg :: _ => str_eq arg "--gen-device-id" || str_eq arg "-g" | [] => false end then
    let seed := Z.land (Z.lxor (u32 now) (u32 (Z.shiftl (u32 pid) 16))) 0x00FFFFFF in
    Printed ("0x" +:+ hex_pad true 8 (hdhr_device_id_generate seed) +:+ String NL "")
  else
    let '(rc, cfg) := config_load (files !! default DEFAULT_CONFIG (head args)) (config_defaults now) in
    if negb (rc =? 0) then Failed else Running cfg.

Lemma main_running_ok args now pid files cfg : main args now pid files = Running cfg -> config_ok cfg.
Proof.
  unfold main. destruct (match args with arg :: _ => _ | [] => _ end); [done|].
  pose proof (config_load_ok (files !! default DEFAULT_CONFIG (head args)) now) as H. destruct (config_load _ _) as [rc c].
  destruct H as [-> H]. cbn [negb Z.eqb]. by intros [= <-].
Qed.

(** Claim C9: whatever the arguments, the files, the clock and the process id,
    [main] never fails to load its configuration.  It either starts with a
    well-formed one (between 1 and 8 tuners, an adapter for each of the 8 slots, a
    32-bit device id and every string within its buffer), or prints a device id
    that passes the checksum and has class digit 1; a configuration file that holds
    the printed line as its device_id makes every later start use exactly that id. *)
Theorem main_starts (args : list string) (now pid : Z) (files : gmap string string) :
  match main args now pid files with
  | Running cfg => config_ok cfg
  | Failed => False
  | Printed text =>
      exists id, text = "0x" +:+ hex_pad true 8 id +:+ String NL "" /\
        hdhr_device_id_is_valid id = true /\ is_u32 id /\ nib id 28 = 1 /\
        forall path now' pid' files', str_eq path "--gen-device-id" || str_eq path "-g" = false ->
          files' !! path = Some ("device_id=" +:+ text) ->
          exists cfg, main [path] now' pid' files' = Running cfg /\ device_id cfg = id
  end.
Proof.
  destruct (main args now pid files) as [text| |cfg] eqn:E; [| |by eapply main_running_ok].
  - unfold main in E. destruct (match args with arg :: _ => _ | [] => _ end).
    2:{ destruct (config_load _ _) as [rc c]. by destruct (negb _). }
    cbv zeta in E. set (seed := Z.land _ _) in E. destruct (generate_valid seed) as (Hv & Hu & Hn).
    set (id := hdhr_device_id_generate seed) in *. clearbody id. injection E as <-. exists id. split; [reflexivity|].
    split; [done|]. split; [done|]. split; [done|]. intros path now' pid' files' Hp Hf. unfold main. rewrite Hp.
    change (default DEFAULT_CONFIG (head [path])) with path.
    change ("device_id=" +:+ "0x" +:+ hex_pad true 8 id +:+ String NL "")
      with ("device_id=0x" +:+ hex_pad true 8 id +:+ String NL "") in Hf.
    rewrite Hf, (config_load_device_id id) by exact Hu. cbn [negb Z.eqb]. eexists. split; [reflexivity|done].
  - unfold main in E. destruct (match args with arg :: _ => _ | [] => _ end); [done|].
    pose proof (config_load_ok (files !! default DEFAULT_CONFIG (head args)) now) as H. destruct (config_load _ _) as [rc c].
    by destruct H as [-> _].
Qed.

(** ** Starting *)

(** Three descriptor slots beside other tokens. *)
Lemma slots_use R a b c A B C : 0 <= a -> 0 <= b -> 0 <= c ->
  let R' := R ⊎ fd_toks a A ⊎ fd_toks b B ⊎ fd_toks c C in may_use R' a /\ may_use R' b /\ may_use R' c.
Proof.
  intros Ha Hb Hc. cbv zeta. split; [|split].
  - apply (may_use_slot (R ⊎ fd_toks b B ⊎ fd_toks c C) a A); [multiset_solver|done].
  - apply (may_use_slot (R ⊎ fd_toks a A ⊎ fd_toks c C) b B); [multiset_solver|done].
  - apply (may_use_slot (R ⊎ fd_toks a A ⊎ fd_toks b B) c C); [multiset_solver|done].
Qed.

Lemma slots_swap R a b c A B C : R ⊎ fd_toks a A ⊎ fd_toks b B ⊎ fd_toks c C = R ⊎ fd_toks a A ⊎ fd_toks c C ⊎ fd_toks b B.
Proof. multiset_solver. Qed.

Section Daemon.
Context (cfg : hdhr_config) (fuel : nat).

Definition body (th : thread) : prog unit :=
  match th with
  | T_held_stats i => held_stats_thread_main fuel i
  | T_park_expiry i generation => park_expiry_thread_main i generation
  | T_scan ctx => channel_scan_thread_main fuel cfg ctx
  | T_push ctx => push_thread_main fuel cfg ctx
  | T_reader s dvr => reader_thread_main fuel s dvr
  | T_stats s ffd => stats_thread_main fuel s ffd
  | T_conn sock => conn_thread_main fuel cfg sock
  | T_control => control_thread_main fuel
  | T_http_conn sock => http_conn_main fuel cfg sock
  | T_http => http_thread_main fuel
  | T_keepalive sock => listener_thread_main fuel (Z.to_nat (tuner_count cfg)) sock
  | T_startup_scan => startup_scan fuel cfg
  | T_discovery => discovery_thread_main fuel cfg
  end.

(** Waiting for a server; the id of a thread that could not be created is
    indeterminate in the C. *)
Definition join_server (th : option nat) : prog unit :=
  match th with Some tid => join_thread tid | None => Stop (Undefined ThreadNotCreated) end.

(** [main] after the state is prepared. *)
Definition main_thread : prog unit :=
  th_discovery <- spawn_server T_discovery ;;
  th_control <- spawn_server T_control ;;
  th_http <- spawn_server T_http ;;
  keepalive_listener_start ;;
  when (scan_on_startup cfg)
    (th_scan <- spawn_detached T_startup_scan ;; if th_scan : bool then Ret tt else Stop (Undefined ThreadNotCreated)) ;;
  join_server th_discovery ;;
  join_server th_control ;;
  join_server th_http.

Definition initial_world (files : gmap string string) : world :=
  {| w_tuners := tuner_pool_init (tuner_count cfg) cfg;
     w_db := (dvb_channel_db_load files (Some (channel_cache_file cfg)) []).2;
     w_streams := ∅; w_fds := ∅; w_8vsb_override := "none"; w_files := files; w_start_time := 0 |}.

(** The daemon with some threads of its own or of clients already started. *)
Definition start_with (files : gmap string string) (threads : list (prog unit)) : Sys.config :=
  {| c_world := initial_world files; c_pool := threads; c_join := ∅ |}.
Definition initial (files : gmap string string) : Sys.config := start_with files [main_thread].

(** ** Every thread is verified *)

Context (Hcfg : config_ok cfg).

Lemma tuner0 : (0 < ntuners cfg)%nat.
Proof using Hcfg. unfold ntuners. destruct Hcfg as (_ & H & _). lia. Qed.

Lemma wp_startup_scan R (Q : unit -> toks -> Prop) : Q tt R -> wp cfg (startup_scan fuel cfg) R Q.
Proof using Hcfg.
  intros HQ. unfold startup_scan. wp_step. apply wp_tuner_try_claim_wait; [apply tuner0|by apply wp_ret|]. intros reused Hr.
  rewrite fd_toks_neg by (by apply Hr). set (R1 := R ⊎ {[+ TClaim 0 None +]}).
  replace (R1 ⊎ ∅) with R1 by multiset_solver. cbv zeta. set (a := nth 0 (dvb_adapter cfg) 0). set (D := DevDemux a (dvb_demux cfg)).
  assert (Hend : wp cfg (tuner_release 0 ;; save_channels (channel_cache_file cfg)) R1 Q).
  { wp_step. apply wp_tuner_release; [apply tuner0|]. apply wp_sect_same. intros e w _. eexists _, _. split; [done|].
    split; [by apply same_res_fields|done]. }
  wp_step.
  assert (Hrest : forall ffd, wp cfg (
      pat_fd <- (if 0 <=? ffd then mpeg_section_filter_open a (dvb_demux cfg) 0 0 2000 else Ret (-1)) ;;
      vct_fd <- (if 0 <=? ffd then mpeg_section_filter_open a (dvb_demux cfg) PSIP_BASE_PID 0xC8 2000 else Ret (-1)) ;;
      (if (0 <=? ffd) && (0 <=? pat_fd) && (0 <=? vct_fd)
       then scan_freqs fuel a (dvb_demux cfg) ffd pat_fd vct_fd Atsc.atsc_freq_table 0 else Ret 0) ;;
      mpeg_section_filter_close pat_fd ;;
      mpeg_section_filter_close vct_fd ;;
      (if 0 <=? ffd then dvb_frontend_close ffd else Ret tt) ;;
      tuner_release 0 ;;
      save_channels (channel_cache_file cfg)) (R1 ⊎ fd_toks ffd (tdev cfg 0)) Q).
  { intros ffd. wp_step. apply wp_open_slot. intros pfd. wp_step. apply wp_open_slot. intros vfd. wp_step.
    apply wp_keep.
    - destruct (_ && _) eqn:E; [|done]. zb.
      apply wp_scan_freqs; [by apply slots_use..|done].
    - intros _. wp_step. rewrite slots_swap.
      apply wp_filter_close. wp_step. apply wp_filter_close. wp_step. destruct (0 <=? ffd) eqn:E.
      + by apply wp_close_dev.
      + rewrite fd_toks_skip by done. by apply wp_ret. }
  apply wp_frontend_open; intros ffd H; specialize (Hrest ffd).
  - rewrite fd_toks_skip in Hrest by by apply Z.leb_gt. exact Hrest.
  - rewrite fd_toks_nonneg in Hrest by done. exact Hrest.
Qed.

Lemma daemon_verified : daemon_ok cfg body.
Proof using Hcfg.
  assert (Hc : tuner_count cfg <= 8) by apply Hcfg.
  assert (He : forall X : toks, ∅ ⊎ X = X) by (intros; multiset_solver).
  intros th R Hpre Hres.
  destruct th as [i|i g|ctx|ctx|s dvr|s ffd|sock| |sock| |sock| |]; cbn [thread_pre thread_res thread_post body join_toks] in *;
    try (subst R).
  - destruct Hres as [fd ->]. apply (wp_held_stats_thread_main cfg fuel i fd); [done|multiset_solver|done].
  - by apply wp_park_expiry.
  - destruct Hres as [r ->]. rewrite <- (He (_ ⊎ _)). by apply wp_channel_scan_thread.
  - by apply wp_push_thread_main.
  - rewrite <- (He {[+ _ +]}). by apply wp_reader_thread_main.
  - rewrite <- (He {[+ _ +]}). by apply wp_stats_thread_main.
  - by apply wp_conn_thread_main.
  - by apply wp_control_thread_main.
  - by apply wp_http_conn_main.
  - by apply wp_http_thread_main.
  - by apply wp_listener_thread_main.
  - by apply wp_startup_scan.
  - by apply wp_discovery_thread_main.
Qed.

(** ** The initial state *)

Lemma claims_mult {A} (l : list A) (f : nat -> A -> toks) k :
  (forall i t, l !! i = Some t -> f i t = {[+ TClaim (k + i) None +]}) -> forall x,
  multiplicity x (msum (imap f l)) =
    match x with TClaim j None => if decide (k <= j < k + length l)%nat then 1%nat else 0%nat | _ => 0%nat end.
Proof using Type.
  revert f k. induction l as [|t l IH]; intros f k Hf x.
  - simpl. rewrite multiplicity_empty. destruct x as [|j [o|]| | | | | |]; try done. case_decide; [simpl in *; lia|done].
  - rewrite imap_cons. cbn [msum foldr]. fold (msum (imap (f ∘ S) l)). rewrite multiplicity_disj_union.
    rewrite (IH (f ∘ S) (S k)), (Hf 0%nat t), Nat.add_0_r by (done || (intros i t' H; unfold compose; rewrite (Hf (S i) t') by done; do 2 f_equal; lia)).
    rewrite multiplicity_singleton. destruct x as [|j [o|]| | | | | |]; repeat case_decide; simpl in *; simplify_eq; try done; try lia; exfalso; match goal with H : TClaim _ _ <> _ |- _ => apply H; do 2 f_equal; lia end.
Qed.

Lemma init_lookup (i : nat) t : tuner_pool_init (tuner_count cfg) cfg !! i = Some t ->
  (i < ntuners cfg)%nat /\ t = tuner_init i cfg.
Proof using Type.
  unfold tuner_pool_init, ntuners. rewrite list_lookup_fmap. destruct (seq 0 _ !! i) as [j|] eqn:E; [|done].
  apply lookup_seq in E as [-> H]. intros [= <-]. done.
Qed.

Lemma init_length : length (tuner_pool_init (tuner_count cfg) cfg) = ntuners cfg.
Proof using Type. unfold tuner_pool_init. by rewrite length_fmap, length_seq. Qed.

Lemma initial_winv files : winv cfg (initial_world files) ∅ ∅.
Proof using Type.
  split.
  - split; cbn [initial_world w_tuners w_db w_fds].
    + apply init_length.
    + intros i t H. apply init_lookup in H as [_ ->]. unfold tuner_ok. split; [done|]. split; [done|]. split; [done|].
      split; [done|apply tuner_init_pending].
    + unfold dvb_channel_db_load. destruct (channel_cache_file cfg) as [|c p]; [apply table_clear_ok|].
      destruct (files !! _) as [f|]; [apply load_loop_ok|]; apply table_clear_ok.
    + intros fd d H. by rewrite lookup_empty in H.
    + intros fd fd' a f H. by rewrite lookup_empty in H.
    + intros i t H Hs. by apply init_lookup in H as [_ ->].
    + intros i j t t' H _ Hs. by apply init_lookup in H as [_ ->].
  - intros x. rewrite multiplicity_empty. unfold world_res. cbn [initial_world w_tuners w_streams].
    assert (map_sum stream_res ∅ = ∅) as -> by (unfold map_sum; by rewrite map_to_list_empty).
    rewrite multiplicity_disj_union, multiplicity_empty, (claims_mult _ _ 0).
    + rewrite init_length. unfold kmult. destruct x as [fd d|j o|s c d|s fd|s fd|tid jt|j fd tid b|j fd]; cbn [exists_tok initial_world w_fds w_tuners w_streams];
        try (rewrite lookup_empty; done);
        destruct (tuner_pool_init (tuner_count cfg) cfg !! j) as [t|] eqn:E; try done;
        try (by apply init_lookup in E as [_ ->]).
      * apply init_lookup in E as [Hj ->]. cbn [fmap option_fmap option_map]. change (active_stream (tuner_init j cfg)) with (@None nat).
        destruct o as [o|]; [by rewrite bool_decide_false|]. rewrite bool_decide_true by done.
        case_decide; [done|lia].
      * apply lookup_ge_None in E. rewrite init_length in E. rewrite bool_decide_false by done. destruct o; [done|]. case_decide; [lia|done].
    + intros i t H. apply init_lookup in H as [_ ->]. change (tuner_res i (tuner_init i cfg)) with (∅ ⊎ ∅ ⊎ ∅ ⊎ {[+ TClaim i None +]} : toks). by rewrite !(left_id_L ∅ (⊎)).
Qed.

(** A pool of threads that start with nothing. *)
Definition plain_thread (p : prog unit) : Prop := wp cfg p ∅ (fun _ R => R = ∅).

Lemma msum_empties n : msum (replicate n ∅) = ∅.
Proof using Type. induction n as [|n IH]; [done|]. simpl. rewrite IH. multiset_solver. Qed.

Lemma start_cinv files threads : Forall plain_thread threads ->
  cinv cfg (start_with files threads) (replicate (length threads) ∅) (replicate (length threads) ∅).
Proof using Type.
  intros Hp. split; cbn [start_with c_world c_pool c_join].
  - by rewrite length_replicate.
  - by rewrite length_replicate.
  - intros j p R P H1 H2 H3. apply lookup_replicate in H2 as [-> _]. apply lookup_replicate in H3 as [-> _].
    by apply (proj1 (Forall_lookup _ _) Hp j).
  - rewrite msum_empties. apply initial_winv.
  - intros tid j H. by rewrite lookup_empty in H.
  - apply Forall_replicate, final_empty.
Qed.

(** The right to join a server that could be started. *)
Definition server_toks (th : option nat) : toks := if th is Some tid then {[+ TJoin tid JServer +]} else ∅.

Lemma wp_spawn_server th R (Q : option nat -> toks -> Prop) :
  thread_pre cfg th -> thread_res cfg th ∅ -> joins_as th JServer -> thread_post th ∅ = ∅ ->
  (forall tid, Q tid (R ⊎ server_toks tid)) -> wp cfg (spawn_server th) R Q.
Proof using Type.
  clear Hcfg. intros Hp Hr Hj Hpo HQ e w jn F Hw Hn. unfold server_toks in HQ. destruct (e_create_ok e).
  - exists (R ⊎ {[+ TJoin (e_tid e) JServer +]}), ∅. split; [done|]. split; [|split; [apply guarantee_refl|apply (HQ (Some (e_tid e)))]].
    pose proof (winv_new_join cfg _ _ _ (e_tid e) JServer Hw Hn) as Hw'. cbn [join_table].
    replace (R ⊎ {[+ TJoin (e_tid e) JServer +]} ⊎ ∅ ⊎ F) with (R ⊎ F ⊎ {[+ TJoin (e_tid e) JServer +]}) by multiset_solver.
    exact Hw'.
  - exists R, ∅. split; [done|]. replace (R ⊎ ∅ ⊎ F) with (R ⊎ F) by multiset_solver. split; [exact Hw|]. split; [apply guarantee_refl|].
    specialize (HQ None). cbv beta iota in HQ. by replace (R ⊎ ∅) with R in HQ by multiset_solver.
Qed.

Lemma wp_join_server th R (Q : unit -> toks -> Prop) : Q tt R -> wp cfg (join_server th) (R ⊎ server_toks th) Q.
Proof using Type.
  clear Hcfg. intros HQ. destruct th as [tid|]; [|done]. apply (wp_join cfg tid JServer _ R); [done|done|].
  simpl. by replace (R ⊎ ∅) with R by multiset_solver.
Qed.

Lemma main_plain : plain_thread main_thread.
Proof using Hcfg.
  unfold plain_thread, main_thread.
  wp_step. apply wp_spawn_server; [done..|]. intros t1. wp_step. apply wp_spawn_server; [done..|]. intros t2.
  wp_step. apply wp_spawn_server; [done..|]. intros t3. wp_step. apply wp_keepalive_listener_start. intros _.
  set (R := ∅ ⊎ server_toks t1 ⊎ server_toks t2 ⊎ server_toks t3).
  assert (Hjoins : wp cfg (join_server t1 ;; join_server t2 ;; join_server t3) R (fun _ R => R = ∅)).
  { replace R with (∅ ⊎ server_toks t3 ⊎ server_toks t2 ⊎ server_toks t1) by (unfold R; multiset_solver).
    wp_step. apply wp_join_server. wp_step. apply wp_join_server. by apply wp_join_server. }
  wp_step. apply wp_when; [|intros _; exact Hjoins]. intros _. wp_step.
  apply (wp_spawn_detached cfg T_startup_scan ∅ R R); [done|done|done|multiset_solver|exact Hjoins|exact I].
Qed.

Lemma main_cinv files : cinv cfg (initial files) [∅] [∅].
Proof using Hcfg. apply (start_cinv files [main_thread]). constructor; [apply main_plain|constructor]. Qed.

(** Requests a client may make: a control or an HTTP connection. *)
Definition client_thread (p : prog unit) : Prop :=
  exists sock, p = conn_thread_main fuel cfg sock \/ p = http_conn_main fuel cfg sock.

Lemma clients_plain threads : Forall client_thread threads -> Forall plain_thread threads.
Proof using Hcfg.
  intros Hc. eapply Forall_impl; [exact Hc|]. intros p [sock [-> | ->]]; unfold plain_thread.
  - by apply wp_conn_thread_main.
  - apply wp_http_conn_main; [apply Hcfg|done].
Qed.

End Daemon.

(** ** Every interleaving *)

(** Claim C1: no fault is reachable, with two exceptions.  Whatever the command
    line, the configuration and the cache file, in every state the daemon can get
    into, whatever the interleaving of its threads and whatever the devices, the
    network, the clock and the peers answer, no thread is about to touch a freed
    stream (its condition variables included), a tuner that does not exist or
    memory past a reply buffer, to use or close a device descriptor that is not
    open (the refreshers of holds included, which work on descriptors they do not
    own), or to join a thread that has been joined.  The exceptions are the states
    in which a thread has stopped at undefined behaviour, where the model of that
    thread ends and what the C does next is not covered: either [main] joins a
    server, or detaches the startup scan, whose thread could not be created, or a
    JSON document of the web interface has left its buffer of 256, 384, 4096 or
    4096 bytes per tuner and 4096 more, and then one of its objects has a text with
    a character to escape, a reading of more than 40 characters, or more than 20
    programs. *)
Theorem daemon_safe (args : list string) (now pid : Z) (files : gmap string string)
    (cfg : hdhr_config) (fuel : nat) (c : Sys.config) :
  main args now pid files = Running cfg -> reachable (body cfg fuel) (initial cfg files) c ->
  ~ faulty c /\ (forall j u, c_pool c !! j = Some (Stop (Undefined u)) -> known cfg u).
Proof.
  intros Hc%main_running_ok Hr.
  destruct (reachable_inv cfg _ _ _ _ _ (daemon_verified cfg fuel Hc) (main_cinv cfg Hc files) Hr) as (Rs & Ps & Hinv).
  split; [by eapply cinv_safe|]. intros j u. by eapply cinv_known.
Qed.

(** The invariant of the shared state that every reachable state satisfies. *)
Record shared_ok (cfg : hdhr_config) (w : world) : Prop := {
  sh_count : length (w_tuners w) = Z.to_nat (tuner_count cfg);
  sh_tuner : forall i t, w_tuners w !! i = Some t ->
    index t = Z.of_nat i /\ adapter t = nth i (dvb_adapter cfg) 0 /\ frontend t = dvb_frontend cfg /\ pending_ok t;
  sh_free : forall i t, w_tuners w !! i = Some t -> busy t = false -> active_stream t = None;
  sh_stream : forall i t s, w_tuners w !! i = Some t -> active_stream t = Some s ->
    exists st, w_streams w !! s = Some st /\ opened st = true /\ closing st = false /\ stream_frontend st = tuner_dev t;
  sh_stream_fds : forall s st, w_streams w !! s = Some st ->
    w_fds w !! frontend_fd st = Some (stream_frontend st) /\ w_fds w !! dvr_fd st = Some (stream_dvr st) /\
    (forall p, p ∈ demux_fds st -> w_fds w !! p.1 = Some (stream_demux st)) /\
    NoDup (frontend_fd st :: dvr_fd st :: (demux_fds st).*1);
  sh_one_tuner : forall i j t t' s, w_tuners w !! i = Some t -> w_tuners w !! j = Some t' ->
    active_stream t = Some s -> active_stream t' = Some s -> i = j;
  sh_held : forall i t, w_tuners w !! i = Some t -> 0 <= held_fd t -> w_fds w !! held_fd t = Some (DevFrontend (adapter t) (frontend t));
  sh_parked : forall i t, w_tuners w !! i = Some t -> 0 <= parked_fd t -> w_fds w !! parked_fd t = Some (DevFrontend (adapter t) (frontend t));
  sh_refresher : forall i t, w_tuners w !! i = Some t -> held_stats_thread_started t = true ->
    w_fds w !! held_live_fd t = Some (DevFrontend (adapter t) (frontend t)) /\ (held_fd t < 0 \/ held_fd t = held_live_fd t);
  sh_one_hold : forall i t, w_tuners w !! i = Some t -> held_fd t < 0 \/ parked_fd t < 0;
  sh_frontend : forall fd fd' a f, w_fds w !! fd = Some (DevFrontend a f) -> w_fds w !! fd' = Some (DevFrontend a f) -> fd = fd';
  sh_table : NoDup (key <$> w_db w) /\ (length (w_db w) <= DVB_CHANNEL_MAX)%nat
}.

(** Who owns what: [owned] gives each thread its tokens.  Every open descriptor,
    every claim of a tuner, every stream and every right to join a thread that
    exists is owned exactly once, by one thread or by the tuner or stream that
    holds it ([world_res]), and nothing else is; and what is left of each thread's
    program gives back all its tokens before it ends, except what joining it hands
    to the joining thread. *)
Record accounted (cfg : hdhr_config) (c : Sys.config) (owned : list toks) : Prop := {
  ac_threads : length owned = length (c_pool c);
  ac_once : forall x, (multiplicity x (msum owned) + multiplicity x (world_res (c_world c)) =
              if exists_tok (c_world c) (c_join c) x then 1 else 0)%nat;
  ac_returns : forall j p R, c_pool c !! j = Some p -> owned !! j = Some R ->
              exists P, final_toks P /\ wp cfg p R (fun _ R' => R' = P)
}.

Lemma cinv_accounted cfg c Rs Ps : cinv cfg c Rs Ps -> accounted cfg c Rs.
Proof.
  intros Hc. pose proof Hc as [Hr Hp Hwp Hinv _ Hfin]. split; [done|apply (winv_res _ _ _ _ Hinv)|].
  intros j p R Hj HR. destruct (lookup_lt_is_Some_2 Ps j) as [P HP]; [apply lookup_lt_Some in Hj; lia|].
  exists P. split; [by apply (proj1 (Forall_lookup _ _) Hfin j)|by apply (Hwp j)].
Qed.

Lemma msum_two (l : list toks) (i j : nat) x y : l !! i = Some x -> l !! j = Some y -> i <> j -> x ⊎ y ⊆ msum l.
Proof.
  intros Hi Hj Hne. pose proof (msum_insert l i x ∅ Hi) as He.
  assert (Hy : <[i := ∅]> l !! j = Some y) by by rewrite list_lookup_insert_ne.
  apply msum_in in Hy. multiset_solver.
Qed.

Lemma elem_msum (l : list toks) x : x ∈ msum l -> exists i y, l !! i = Some y /\ x ∈ y.
Proof.
  induction l as [|z l IH]; intros H; [by apply gmultiset_not_elem_of_empty in H|]. cbn [msum foldr] in H.
  apply gmultiset_elem_of_disj_union in H as [H|H]; [by exists 0%nat, z|]. destruct (IH H) as (i & y & Hi & Hy). by exists (S i), y.
Qed.

Lemma elem_fd_toks x fd d : x ∈ fd_toks fd d -> x = TFd fd d.
Proof. unfold fd_toks. destruct (0 <=? fd); intros H; [by apply gmultiset_elem_of_singleton in H|by apply gmultiset_not_elem_of_empty in H]. Qed.

Section Shared.
Context (cfg : hdhr_config).

Lemma world_tok w jn R x : winv cfg w jn R -> x ∈ world_res w -> exists_tok w jn x = true /\ multiplicity x (world_res w) = 1%nat.
Proof.
  intros Hw Hx. pose proof (winv_res _ _ _ _ Hw x) as H. apply mult_pos in Hx. unfold kmult in H.
  destruct (exists_tok w jn x); [split; [done|lia]|lia].
Qed.

Lemma tuner_tok w i t x : w_tuners w !! i = Some t -> x ∈ tuner_res i t -> x ∈ world_res w.
Proof. intros Ht Hx. pose proof (tuner_res_in w i t Ht) as Hs. by eapply gmultiset_elem_of_subseteq. Qed.

Lemma disj_NoDup (l : list tok) : (forall x, multiplicity x (list_to_set_disj l : toks) <= 1)%nat -> NoDup l.
Proof.
  induction l as [|y l IH]; intros H; [constructor|]. cbn [list_to_set_disj foldr] in H. apply NoDup_cons. split.
  - intros Hy. specialize (H y). rewrite multiplicity_disj_union, multiplicity_singleton_eq in H.
    apply (elem_of_list_to_set_disj (A := tok)), mult_pos in Hy. lia.
  - apply IH. intros x. specialize (H x). rewrite multiplicity_disj_union in H. lia.
Qed.

(** The descriptors of a stream. *)
Lemma stream_fds_ok w jn R s st : winv cfg w jn R -> w_streams w !! s = Some st ->
  w_fds w !! frontend_fd st = Some (stream_frontend st) /\ w_fds w !! dvr_fd st = Some (stream_dvr st) /\
  (forall p, p ∈ demux_fds st -> w_fds w !! p.1 = Some (stream_demux st)) /\
  NoDup (frontend_fd st :: dvr_fd st :: (demux_fds st).*1).
Proof.
  intros Hw Hs.
  set (l := (frontend_fd st, stream_frontend st) :: (dvr_fd st, stream_dvr st) :: ((fun p => (p.1, stream_demux st)) <$> demux_fds st)).
  assert (Hl : stream_fd_toks st = list_to_set_disj ((fun p => TFd p.1 p.2) <$> l)).
  { unfold stream_fd_toks, l. rewrite !fmap_cons, <- list_fmap_compose. cbn [list_to_set_disj fst snd]. rewrite (assoc_L (⊎)). done. }
  assert (Hsub : stream_fd_toks st ⊆ world_res w).
  { pose proof (map_sum_in stream_res _ _ _ Hs) as Hin. unfold world_res, stream_res in *. multiset_solver. }
  assert (Hopen : forall p, p ∈ l -> w_fds w !! p.1 = Some p.2).
  { intros p Hp. destruct (world_tok w jn R (TFd p.1 p.2) Hw) as [Hx _].
    - eapply gmultiset_elem_of_subseteq; [|exact Hsub]. rewrite Hl. apply elem_of_list_to_set_disj. by apply (list_elem_of_fmap_2 (fun p => TFd p.1 p.2)).
    - simpl in Hx. by apply bool_decide_eq_true_1 in Hx as [Hx _]. }
  split; [apply (Hopen (_, _)); by left|]. split; [apply (Hopen (_, _)); right; by left|]. split.
  { intros p Hp. apply (Hopen (p.1, stream_demux st)). do 2 right. by apply (list_elem_of_fmap_2 (fun p => (p.1, stream_demux st))). }
  assert (Hfst : frontend_fd st :: dvr_fd st :: (demux_fds st).*1 = l.*1) by (unfold l; rewrite !fmap_cons, <- list_fmap_compose; done).
  rewrite Hfst. assert (Hnd : NoDup ((fun p => TFd p.1 p.2) <$> l)).
  { apply disj_NoDup. intros x. pose proof (winv_once _ _ _ _ x Hw) as H1. specialize (Hsub x). rewrite Hl in Hsub. lia. }
  clear Hl Hfst. clearbody l. induction l as [|p l IH]; [constructor|]. apply NoDup_cons in Hnd as [Hp Hnd]. apply NoDup_cons. split.
  - intros (p' & He & Hp')%list_elem_of_fmap. apply Hp. apply list_elem_of_fmap. exists p'. split; [|done].
    pose proof (Hopen p ltac:(by left)) as H1. pose proof (Hopen p' ltac:(by right)) as H2. rewrite He in H1. congruence.
  - apply IH; [|done]. intros q Hq. apply Hopen. by right.
Qed.

Lemma winv_shared w jn R : winv cfg w jn R -> shared_ok cfg w.
Proof.
  intros Hw. pose proof (winv_ok _ _ _ _ Hw) as [Hc Ht Hdb Hf He Hl Hli].
  assert (Hstr : forall i t s, w_tuners w !! i = Some t -> active_stream t = Some s -> TStr s Open (tuner_dev t) ∈ tuner_res i t).
  { intros i t s _ Ha. unfold tuner_res. rewrite Ha. apply gmultiset_elem_of_disj_union. left.
    apply gmultiset_elem_of_disj_union. right. by apply gmultiset_elem_of_singleton. }
  assert (Hex : forall i t s, w_tuners w !! i = Some t -> active_stream t = Some s ->
    exists st, w_streams w !! s = Some st /\ stream_phase st = Open /\ stream_frontend st = tuner_dev t).
  { intros i t s Hi Ha. destruct (world_tok _ _ _ _ Hw (tuner_tok _ _ _ _ Hi (Hstr i t s Hi Ha))) as [Hx _].
    simpl in Hx. apply bool_decide_eq_true_1 in Hx. destruct (w_streams w !! s) as [st|]; [|done]. simpl in Hx. exists st. by simplify_eq. }
  assert (Hheld : forall i t, w_tuners w !! i = Some t -> 0 <= held_fd t -> held_stats_thread_started t = true ->
    held_fd t = held_live_fd t).
  { intros i t Hi H0 Es. assert (Hx : TLive i (held_fd t) (held_stats_thread t) (held_stats_stop_requested t) ∈ tuner_res i t).
    { unfold tuner_res, hold_toks, hold_of, refresher_of. rewrite Es, (proj2 (Z.leb_le _ _) H0). simpl.
      do 4 (apply gmultiset_elem_of_disj_union; left). by apply gmultiset_elem_of_singleton. }
    destruct (world_tok _ _ _ _ Hw (tuner_tok _ _ _ _ Hi Hx)) as [H _]. simpl in H. apply bool_decide_eq_true_1 in H.
    rewrite Hi in H. simpl in H. unfold refresher_of in H. rewrite Es in H. congruence. }
  split.
  - exact Hc.
  - intros i t Hi. destruct (Ht i t Hi) as (H1 & H2 & H3 & _ & H5). done.
  - intros i t Hi. apply (Ht i t Hi).
  - intros i t s Hi Ha. destruct (Hex i t s Hi Ha) as (st & Hs & Hp & Hd). exists st. split; [done|].
    unfold stream_phase in Hp. by destruct (closing st), (opened st).
  - intros s st Hs. by eapply stream_fds_ok.
  - intros i j t t' s Hi Hj Ha Ha'. destruct (decide (i = j)) as [|Hne]; [done|]. exfalso.
    destruct (Hex i t s Hi Ha) as (st & Hs & _ & Hd). destruct (Hex j t' s Hj Ha') as (st' & Hs' & _ & Hd').
    assert (st' = st) as -> by congruence. pose proof (Hstr i t s Hi Ha) as Hx. pose proof (Hstr j t' s Hj Ha') as Hx'.
    rewrite <- Hd in Hx. rewrite <- Hd' in Hx'.
    destruct (world_tok _ _ _ _ Hw (tuner_tok _ _ _ _ Hi Hx)) as [_ H1].
    assert (Htwo : tuner_res i t ⊎ tuner_res j t' ⊆ msum (imap tuner_res (w_tuners w))).
    { apply (msum_two _ i j); [by rewrite list_lookup_imap, Hi|by rewrite list_lookup_imap, Hj|done]. }
    specialize (Htwo (TStr s Open (stream_frontend st))). apply mult_pos in Hx, Hx'.
    unfold world_res in H1. rewrite !multiplicity_disj_union in *. lia.
  - intros i t Hi H0. destruct (held_stats_thread_started t) eqn:Es.
    { rewrite (Hheld i t Hi H0 Es). by apply (Hl i t). }
    assert (Hx : TFd (held_fd t) (tuner_dev t) ∈ tuner_res i t).
    { unfold tuner_res, hold_toks, hold_of, refresher_of. rewrite Es, (proj2 (Z.leb_le _ _) H0). simpl.
      do 3 (apply gmultiset_elem_of_disj_union; left). by apply gmultiset_elem_of_singleton. }
    destruct (world_tok _ _ _ _ Hw (tuner_tok _ _ _ _ Hi Hx)) as [H _]. by apply bool_decide_eq_true_1 in H as [H _].
  - intros i t Hi H0. assert (Hx : TFd (parked_fd t) (tuner_dev t) ∈ tuner_res i t).
    { unfold tuner_res. rewrite (fd_toks_nonneg (parked_fd t)) by done. do 2 (apply gmultiset_elem_of_disj_union; left).
      apply gmultiset_elem_of_disj_union; right. by apply gmultiset_elem_of_singleton. }
    destruct (world_tok _ _ _ _ Hw (tuner_tok _ _ _ _ Hi Hx)) as [H _]. by apply bool_decide_eq_true_1 in H as [H _].
  - intros i t Hi Hs. split; [by apply (Hl i t)|]. destruct (decide (held_fd t < 0)); [by left|right]. apply (Hheld i t Hi); [lia|done].
  - intros i t Hi. by eapply held_parked.
  - exact He.
  - apply Hdb.
Qed.

(** The tokens of a tuner, and those a world may keep by kind. *)
Lemma tuner_res_cases i t x : x ∈ tuner_res i t ->
  (match x with
   | TFd fd d => (held_fd t = fd \/ parked_fd t = fd) /\ d = tuner_dev t
   | TLive j fd _ _ => j = i /\ held_fd t = fd
   | TJoin _ _ => True
   | _ => False
   end) \/
  (exists s c d, x = TStr s c d /\ active_stream t = Some s) \/ (x = TClaim i (active_stream t) /\ busy t = false).
Proof.
  unfold tuner_res. rewrite !gmultiset_elem_of_disj_union. intros [[[H|H]|H]|H].
  - left. unfold hold_toks in H. destruct (0 <=? held_fd t); [|by apply gmultiset_not_elem_of_empty in H].
    destruct (hold_of t) as [[tid b]|]; [apply gmultiset_elem_of_disj_union in H as [H|H]|];
      apply gmultiset_elem_of_singleton in H as ->; auto.
  - apply elem_fd_toks in H as ->. left. auto.
  - destruct (active_stream t) as [s|]; [|by apply gmultiset_not_elem_of_empty in H]. apply gmultiset_elem_of_singleton in H as ->.
    right. left. eauto.
  - destruct (busy t); [by apply gmultiset_not_elem_of_empty in H|]. apply gmultiset_elem_of_singleton in H as ->. auto.
Qed.

Lemma stream_res_cases s st x : x ∈ stream_res s st ->
  match x with TFd _ _ | TStats _ _ | TJoin _ _ => True | _ => False end.
Proof.
  unfold stream_res. rewrite gmultiset_elem_of_disj_union. intros [H|H].
  - unfold stream_fd_toks in H. rewrite !gmultiset_elem_of_disj_union in H. destruct H as [[H|H]|H].
    + by apply gmultiset_elem_of_singleton in H as ->.
    + by apply gmultiset_elem_of_singleton in H as ->.
    + apply elem_of_list_to_set_disj, list_elem_of_fmap in H as (p & -> & _). done.
  - destruct (closing st); [by apply gmultiset_not_elem_of_empty in H|]. unfold stream_join_toks in H.
    rewrite gmultiset_elem_of_disj_union in H. destruct H as [H|H]; [by apply gmultiset_elem_of_singleton in H as ->|].
    destruct (opened st); [|by apply gmultiset_not_elem_of_empty in H].
    destruct (stats_thread_started st); by apply gmultiset_elem_of_singleton in H as ->.
Qed.

Lemma world_res_cases w x : x ∈ world_res w ->
  (exists i t, w_tuners w !! i = Some t /\ x ∈ tuner_res i t) \/ (exists s st, x ∈ stream_res s st).
Proof.
  unfold world_res. rewrite gmultiset_elem_of_disj_union. intros [H|H]; apply elem_msum in H as (i & y & Hi & Hx).
  - left. rewrite list_lookup_imap in Hi. destruct (w_tuners w !! i) as [t|] eqn:E; [|done]. injection Hi as <-. eauto.
  - right. rewrite list_lookup_fmap in Hi. destruct (map_to_list _ !! i) as [[s st]|]; [|done]. injection Hi as <-. eauto.
Qed.

Lemma claim_in_world w i o : TClaim i o ∈ world_res w -> exists t, w_tuners w !! i = Some t /\ busy t = false.
Proof.
  intros H. apply world_res_cases in H as [(j & t & Hj & H)|(s & st & H)]; [|by apply stream_res_cases in H].
  apply tuner_res_cases in H as [H|[(s & c & d & H & _)|[H Hb]]]; [done|done|]. injection H as -> _. eauto.
Qed.

Lemma str_in_world w s c d : TStr s c d ∈ world_res w -> exists i t, w_tuners w !! i = Some t /\ active_stream t = Some s.
Proof.
  intros H. apply world_res_cases in H as [(j & t & Hj & H)|(s' & st & H)]; [|by apply stream_res_cases in H].
  apply tuner_res_cases in H as [H|[(s' & c' & d' & H & Ha)|[H Hb]]]; [done| |done]. injection H as -> _ _. eauto.
Qed.

(** When only final tokens are left outside, everything has been given back. *)
Lemma winv_quiet w jn R : winv cfg w jn R -> final_toks R ->
  (forall i t, w_tuners w !! i = Some t -> busy t = false) /\ w_streams w = ∅ /\
  (forall fd d, w_fds w !! fd = Some d -> exists i t, w_tuners w !! i = Some t /\ (held_fd t = fd \/ parked_fd t = fd) /\ d = tuner_dev t).
Proof.
  intros Hw Hfin.
  assert (Hin : forall x, exists_tok w jn x = true -> match x with TReader _ _ | TStats _ _ | TRefr _ _ => False | _ => True end -> x ∈ world_res w).
  { intros x He Hx. pose proof (winv_res _ _ _ _ Hw x) as H. unfold kmult in H. rewrite He in H.
    destruct (decide (x ∈ R)) as [Hr|Hr]; [by specialize (Hfin x Hr); destruct x|].
    apply elem_of_multiplicity. apply not_elem_of_multiplicity in Hr. lia. }
  assert (Hbusy : forall i t, w_tuners w !! i = Some t -> busy t = false).
  { intros i t Hi. destruct (busy t) eqn:Hb; [|done]. exfalso.
    assert (Hx : TClaim i (active_stream t) ∈ world_res w) by (apply Hin; [simpl; rewrite Hi; by apply bool_decide_eq_true_2|done]).
    apply claim_in_world in Hx as (t' & Hi' & Hb'). congruence. }
  split; [exact Hbusy|].
  assert (Hno : forall i t, w_tuners w !! i = Some t -> active_stream t = None).
  { intros i t Hi. apply (wok_tuner _ _ (winv_ok _ _ _ _ Hw) i t Hi). by eapply Hbusy. }
  assert (Hs : w_streams w = ∅).
  { apply map_eq. intros s. rewrite lookup_empty. destruct (w_streams w !! s) as [st|] eqn:E; [|done]. exfalso.
    assert (Hx : TStr s (stream_phase st) (stream_frontend st) ∈ world_res w)
      by (apply Hin; [simpl; rewrite E; by apply bool_decide_eq_true_2|done]).
    apply str_in_world in Hx as (i & t & Hi & Ha). by rewrite (Hno i t Hi) in Ha. }
  split; [exact Hs|]. intros fd d Hd.
  destruct (decide (fd ∈ live_fds (w_tuners w))) as [Hlv|Hlv].
  { apply live_fds_elem in Hlv as (i & t & Hi & Hst & Hfd).
    assert (Hr : refresher_of t = Some (fd, held_stats_thread t, held_stats_stop_requested t)) by (unfold refresher_of; by rewrite Hst, Hfd).
    assert (Hx : TLive i fd (held_stats_thread t) (held_stats_stop_requested t) ∈ world_res w)
      by (apply Hin; [simpl; rewrite Hi; simpl; rewrite Hr; by apply bool_decide_eq_true_2|done]).
    apply world_res_cases in Hx as [(j & t' & Hj & Hx)|(s & st & Hx)]; [|by apply stream_res_cases in Hx].
    apply tuner_res_cases in Hx as [[-> Hh]|[(s & c & d' & He & _)|[He _]]]; [|done..]. assert (t' = t) as -> by congruence.
    exists j, t. split; [done|]. split; [by left|].
    pose proof (wok_live _ _ (winv_ok _ _ _ _ Hw) j t Hi Hst) as Hd'. rewrite Hfd in Hd'. congruence. }
  assert (Hx : TFd fd d ∈ world_res w) by (apply Hin; [simpl; by apply bool_decide_eq_true_2|done]).
  unfold world_res in Hx. rewrite Hs in Hx. unfold map_sum in Hx. rewrite map_to_list_empty in Hx.
  apply gmultiset_elem_of_disj_union in Hx as [Hx|Hx]; [|by apply gmultiset_not_elem_of_empty in Hx].
  apply elem_msum in Hx as (i & y & Hi & Hx). rewrite list_lookup_imap in Hi. destruct (w_tuners w !! i) as [t|] eqn:Et; [|done].
  injection Hi as <-. exists i, t. split; [done|]. apply tuner_res_cases in Hx as [[Hh Hd']|[(s & c & d' & He & _)|[He _]]]; [|done..]. done.
Qed.
End Shared.

Lemma final_msum Ps : Forall final_toks Ps -> final_toks (msum Ps).
Proof.
  intros H x Hx. apply elem_msum in Hx as (i & y & Hi & Hx). by apply (proj1 (Forall_lookup _ _) H i y Hi).
Qed.

(** A pool in which every thread has ended holds final tokens only. *)
Lemma cinv_done cfg c Rs Ps : cinv cfg c Rs Ps -> Forall (fun p => p = Ret tt) (c_pool c) -> final_toks (msum Rs).
Proof.
  intros [Hr Hp Hwp _ _ Hfin] Hd. assert (Rs = Ps) as ->; [|by apply final_msum].
  apply list_eq. intros j. destruct (c_pool c !! j) as [p|] eqn:E.
  - pose proof (lookup_lt_Some _ _ _ E) as Hl. destruct (lookup_lt_is_Some_2 Rs j) as [R HR]; [lia|].
    destruct (lookup_lt_is_Some_2 Ps j) as [P HP]; [lia|]. rewrite HR, HP. f_equal.
    specialize (Hwp j p R P E HR HP). rewrite (proj1 (Forall_lookup _ _) Hd j p E) in Hwp. exact Hwp.
  - apply lookup_ge_None in E. rewrite !lookup_ge_None_2 by lia. done.
Qed.

(** Claim C2: the types of the shared state hold in every reachable state: the
    pool keeps its tuners on their hardware, with sound request queues; a free
    tuner has no stream, a streaming one an open stream that no other tuner has;
    held and parked descriptors are open on the tuner's own frontend, never both
    at once, and the one a refresher works on stays open until it is joined; the
    descriptors of a stream are distinct and open on the nodes it was opened on; no
    frontend is open twice; and the channel table has no number twice and at most
    256 entries.  Moreover every open descriptor, every stream and every claim of a
    tuner has exactly one owner, a tuner, a stream or a thread, and each thread
    gives back what it owns before it ends. *)
Theorem daemon_invariant (args : list string) (now pid : Z) (files : gmap string string)
    (cfg : hdhr_config) (fuel : nat) (c : Sys.config) :
  main args now pid files = Running cfg -> reachable (body cfg fuel) (initial cfg files) c ->
  shared_ok cfg (c_world c) /\ exists owned, accounted cfg c owned.
Proof.
  intros Hc%main_running_ok Hr.
  destruct (reachable_inv cfg _ _ _ _ _ (daemon_verified cfg fuel Hc) (main_cinv cfg Hc files) Hr) as (Rs & Ps & Hinv).
  split; [eapply winv_shared, (ci_inv _ _ _ _ Hinv)|]. exists Rs. by eapply cinv_accounted.
Qed.

(** Claim C3: nothing leaks.  Whatever control and HTTP connections the daemon
    has served, in whatever interleaving, once every thread has ended every
    tuner is free, no stream is left, and the only device descriptors still open
    are the ones a tuner holds or has parked. *)
Theorem daemon_no_leak (args : list string) (now pid : Z) (files : gmap string string)
    (cfg : hdhr_config) (fuel : nat) (clients : list (prog unit)) (c : Sys.config) :
  main args now pid files = Running cfg -> Forall (client_thread cfg fuel) clients ->
  reachable (body cfg fuel) (start_with cfg files clients) c ->
  Forall (fun p => p = Ret tt) (c_pool c) ->
  (forall i t, w_tuners (c_world c) !! i = Some t -> busy t = false) /\ w_streams (c_world c) = ∅ /\
  (forall fd d, w_fds (c_world c) !! fd = Some d -> exists i t, w_tuners (c_world c) !! i = Some t /\
     (held_fd t = fd \/ parked_fd t = fd) /\ d = tuner_dev t).
Proof.
  intros Hc%main_running_ok Hcl Hr Hd. pose proof (clients_plain cfg fuel Hc clients Hcl) as Hp.
  destruct (reachable_inv cfg _ _ _ _ _ (daemon_verified cfg fuel Hc) (start_cinv cfg files _ Hp) Hr) as (Rs & Ps & Hinv).
  eapply winv_quiet; [apply (ci_inv _ _ _ _ Hinv)|by eapply cinv_done].
Qed.

(** *** A run *)

Definition sample_cfg : hdhr_config := (config_defaults 1) <| scan_on_startup := false |> <| channel_cache_file := "/c" |>.
Definition sample_files : gmap string string :=
  <[DEFAULT_CONFIG := "scan_on_startup = 0" +:+ String NL "channel_cache_file=/c" +:+ String NL ""]>
    (dvb_channel_db_save (fun _ => true) ∅ (Some "/c"%string) [sample_channel 7 1 "A"]).2.

(** A client that selects channel 7.1 and then none; [read_frame] asks for a
    header, then for the rest. *)
Definition chunks (frame : list Z) : list (list Z) := [take 4 frame; drop 4 frame].
Definition sample_requests : list (list Z) :=
  chunks (request_frame "/tuner0/vchannel" (Some "7.1")) ++ chunks (request_frame "/tuner0/channel" (Some "none")).

(** Devices and network that work. *)
Definition working : handler (list (list Z)) := fun q =>
  match q return list (list Z) -> answer q * list (list Z) with
  | QOpen _ => fun s => (7, s)
  | QSend _ data => fun s => (Z.of_nat (length data), s)
  | QRecv _ _ => fun s => match s with data :: s => (ReadData data, s) | [] => (ReadData [], []) end
  | q => fun s => (idle_answer q, s)
  end.

(** [main] starts the servers, the control server accepts the client, its thread
    (number 4) opens a hold; the hold's refresher (number 5) reads the statistics;
    thread 4 goes on as far as it gets alone. *)
Definition sample_state : Sys.config :=
  (schedule working (fun _ => calm time0) (body sample_cfg 9) [(0, 3); (2, 7); (4, 12); (5, 4); (4, 400)]%nat
     (initial sample_cfg sample_files) sample_requests).1.

Lemma sample_main : main [] 1 77 sample_files = Running sample_cfg.
Proof. vm_compute. reflexivity. Qed.

Lemma sample_state_reachable : reachable (body sample_cfg 9) (initial sample_cfg sample_files) sample_state.
Proof. apply schedule_reachable. apply reach_init. Qed.

(** Six threads; a hold is open and its refresher is being joined. *)
Lemma sample_state_shape :
  length (c_pool sample_state) = 6%nat /\ held_stats_thread_started <$> w_tuners (c_world sample_state) !! 0%nat = Some true.
Proof. split; vm_compute; reflexivity. Qed.

(** *** Witnesses *)

Lemma daemon_safe_witness : length (c_pool sample_state) = 6%nat /\ ~ faulty sample_state.
Proof.
  split; [apply sample_state_shape|].
  destruct (daemon_safe [] 1 77 sample_files sample_cfg 9 sample_state sample_main sample_state_reachable) as [H _]. exact H.
Defined.

Lemma daemon_invariant_witness :
  held_stats_thread_started <$> w_tuners (c_world sample_state) !! 0%nat = Some true /\ shared_ok sample_cfg (c_world sample_state).
Proof.
  split; [apply sample_state_shape|].
  destruct (daemon_invariant [] 1 77 sample_files sample_cfg 9 sample_state sample_main sample_state_reachable) as [H _]. exact H.
Defined.

(** The same client, served to the end. *)
Definition served : Sys.config :=
  (schedule working (fun _ => calm time0) (body sample_cfg 9) [(0, 12); (1, 4); (0, 400); (1, 10); (0, 400)]%nat
     (start_with sample_cfg sample_files [conn_thread_main 9 sample_cfg 5]) sample_requests).1.

Definition ended (p : prog unit) : bool := match p with Ret _ => true | _ => false end.

Lemma served_ended : forallb ended (c_pool served) = true /\ length (c_pool served) = 2%nat.
Proof. split; vm_compute; reflexivity. Qed.

Lemma all_ended (l : list (prog unit)) : forallb ended l = true -> Forall (fun p => p = Ret tt) l.
Proof.
  intros H. apply Forall_forall. intros p Hp. apply list_elem_of_In in Hp.
  pose proof (proj1 (forallb_forall _ _) H p Hp) as He. by destruct p as [[]| |].
Qed.

Lemma daemon_no_leak_witness : w_streams (c_world served) = ∅.
Proof.
  destruct (daemon_no_leak [] 1 77 sample_files sample_cfg 9 [conn_thread_main 9 sample_cfg 5] served) as (_ & H & _).
  - exact sample_main.
  - constructor; [exists 5; by left|constructor].
  - apply schedule_reachable. apply reach_init.
  - apply all_ended. apply served_ended.
  - exact H.
Defined.
