(* ===== verification/Joins.v ===== *)
(** Every join of a background thread returns.

    The daemon joins the two threads of a stream when it closes the stream and
    the statistics refresher of a hold when it takes the hold away, often while it
    serves a request.  In every reachable state, a thread that waits in such a join
    waits for a thread that has been asked to stop, that waits for no thread
    itself, that does not sleep on a condition variable without having been
    signalled, and that ends within a fixed number of its own operations.  [main]
    waits for its servers, which nobody asks to stop. *)
From stdpp Require Import gmultiset.
From S2P Require Import Prelude RecordUpd CLib ChannelDb Config Stats Ring Tuner Sys Life Own Rules Frontend Stream TunerOps.
From S2P Require Import Liveness Daemon.

(** ** Threads that wait for no thread *)

Fixpoint never_joins {X} (p : prog X) : Prop :=
  match p with
  | Do o k => match o with Join _ => False | _ => True end /\ forall b, never_joins (k b)
  | _ => True
  end.

Lemma never_joins_bind {X Y} (p : prog X) (f : X -> prog Y) :
  never_joins p -> (forall x, never_joins (f x)) -> never_joins (bind p f).
Proof.
  induction p as [x|B o k IH|]; intros Hp Hf; simpl; [apply Hf| |done].
  destruct Hp as [Ho Hk]. split; [done|]. intros b. by apply IH.
Qed.

Lemma never_joins_after {X} n (p p' : prog X) : never_joins p -> after n p p' -> never_joins p'.
Proof.
  revert p. induction n as [|n IH]; intros p Hp Ha; simpl in Ha; [by subst p'|].
  destruct p as [x|B o k|]; [done| |done]. destruct Ha as (b & _ & Ha). apply (IH (k b)); [apply Hp|done].
Qed.

Lemma never_joins_sect {X} (f : sect_env -> world -> option (X * world * option spawn)) : never_joins (sect f).
Proof. by split. Qed.
Lemma never_joins_env q : never_joins (env q).
Proof. by split. Qed.

Ltac nj :=
  repeat (cbv zeta;
    lazymatch goal with
    | |- never_joins (bind _ _) => apply never_joins_bind; [|intros ?]
    | |- never_joins (Ret _) => exact I
    | |- never_joins (Stop _) => exact I
    | |- never_joins (env _) => apply never_joins_env
    | |- never_joins (ioctl _ _) => apply never_joins_env
    | |- never_joins (stream_sect _ _) => apply never_joins_sect
    | |- never_joins (tun _ _) => apply never_joins_sect
    | |- never_joins (tun_get _ _) => apply never_joins_sect
    | |- never_joins (match ?x with _ => _ end) => destruct x
    end).

Lemma read_stats_never_joins fd : never_joins (dvb_frontend_read_stats fd).
Proof. unfold dvb_frontend_read_stats. nj. Qed.
Lemma legacy_never_joins fd lock : never_joins (legacy_reading fd lock).
Proof. unfold legacy_reading, dvb_frontend_read_legacy_ucblocks. nj. Qed.

Lemma held_never_joins fuel i : never_joins (held_stats_thread_main fuel i).
Proof.
  unfold held_stats_thread_main. nj. generalize x. clear x. intros fd. induction fuel as [|fuel IH]; [exact I|].
  cbn [held_stats_loop]. nj; first [exact IH|apply read_stats_never_joins|apply legacy_never_joins].
Qed.

Lemma stats_never_joins fuel s ffd : never_joins (stats_thread_main fuel s ffd).
Proof. induction fuel as [|fuel IH]; [exact I|]. cbn [stats_thread_main]. nj; first [exact IH|apply read_stats_never_joins|apply legacy_never_joins]. Qed.

Lemma reader_never_joins fuel s dvr : never_joins (reader_thread_main fuel s dvr).
Proof.
  assert (Hst : forall n rest, never_joins (reader_store n s rest)).
  { intros n. induction n as [|n IH]; intros [[data since]|]; try exact I. cbn [reader_store]. nj. apply IH. }
  unfold reader_thread_main. nj. induction fuel as [|fuel IH]; [exact I|]. cbn [reader_loop]. nj; first [exact IH|apply Hst].
Qed.

(** ** Sleeping on [not_full] *)

(** The stream whose condition variable [not_full] is the next operation, and how
    often it had been signalled when the thread went to sleep. *)
Definition sleeps {X} (p : prog X) : option (nat * nat) :=
  match p with Do (Env (QCondWait (NotFull s since) _)) _ => Some (s, since) | _ => None end.

(** The thread sleeps only on streams in [P], and goes to sleep as it leaves a
    section, when the stream is not closing. *)
Definition dozes (P : nat -> Prop) (w : world) (o : option (nat * nat)) : Prop :=
  forall s since, o = Some (s, since) ->
    P s /\ exists st, w_streams w !! s = Some st /\ (since <= not_full_wakes st)%nat /\
      (closing st = false \/ (since < not_full_wakes st)%nat).
Fixpoint fresh_sleeps {X} (P : nat -> Prop) (p : prog X) : Prop :=
  match p with
  | Do o k =>
      match o in op B return (B -> Prop) -> (B -> option (nat * nat)) -> Prop with
      | Sect f => fun rec next => forall e w x w' sp, f e w = Some (x, w', sp) -> dozes P w' (next x) /\ rec x
      | _ => fun rec next => forall a, next a = None /\ rec a
      end (fun b => fresh_sleeps P (k b)) (fun b => sleeps (k b))
  | _ => True
  end.

Lemma dozes_none P w : dozes P w None.
Proof. intros s since H. discriminate H. Qed.

Lemma sleeps_bind {X Y} (p : prog X) (f : X -> prog Y) : (forall x, sleeps (f x) = None) -> sleeps (bind p f) = sleeps p.
Proof. intros Hf. destruct p as [x|B o k|]; [apply Hf|done|done]. Qed.

Lemma fresh_bind {X Y} P (p : prog X) (f : X -> prog Y) :
  fresh_sleeps P p -> (forall x, sleeps (f x) = None) -> (forall x, fresh_sleeps P (f x)) -> fresh_sleeps P (bind p f).
Proof.
  intros Hp Hn Hf. induction p as [x|B o k IH|]; [apply Hf| |done]. destruct o as [X' g|q|tid]; cbn [bind fresh_sleeps] in *.
  - intros e w x w' sp H. rewrite sleeps_bind by done. destruct (Hp e w x w' sp H). auto.
  - intros a. rewrite sleeps_bind by done. destruct (Hp a). auto.
  - intros a. rewrite sleeps_bind by done. destruct (Hp a). auto.
Qed.

Lemma fresh_after {X} P n (p p' : prog X) : fresh_sleeps P p -> after n p p' -> fresh_sleeps P p'.
Proof.
  revert p. induction n as [|n IH]; intros p Hp Ha; simpl in Ha; [by subst p'|].
  destruct p as [x|B o k|]; [done| |done]. destruct Ha as (b & Hb & Ha). apply (IH (k b)); [|done].
  destruct o as [X' g|q|tid]; cbn [fresh_sleeps] in Hp; [|apply Hp..]. destruct Hb as (e & w & w' & sp & _ & H). by eapply Hp.
Qed.

Lemma fresh_sect {X} P (f : sect_env -> world -> option (X * world * option spawn)) : fresh_sleeps P (sect f).
Proof. intros e w x w' sp _. split; [apply dozes_none|exact I]. Qed.
Lemma fresh_env P q : fresh_sleeps P (env q).
Proof. by intros a. Qed.

Ltac fs :=
  repeat (cbv zeta;
    lazymatch goal with
    | |- fresh_sleeps _ (bind _ _) => apply fresh_bind; [|intros ?|intros ?]
    | |- fresh_sleeps _ (Ret _) => exact I
    | |- fresh_sleeps _ (Stop _) => exact I
    | |- fresh_sleeps _ (env _) => apply fresh_env
    | |- fresh_sleeps _ (ioctl _ _) => apply fresh_env
    | |- fresh_sleeps _ (stream_sect _ _) => apply fresh_sect
    | |- fresh_sleeps _ (tun _ _) => apply fresh_sect
    | |- fresh_sleeps _ (tun_get _ _) => apply fresh_sect
    | |- fresh_sleeps _ (match ?x with _ => _ end) => destruct x
    | |- sleeps (match ?x with _ => _ end) = None => destruct x
    | |- sleeps _ = None => reflexivity
    end).

Lemma read_stats_fresh P fd : fresh_sleeps P (dvb_frontend_read_stats fd).
Proof. unfold dvb_frontend_read_stats. fs. Qed.
Lemma legacy_fresh P fd lock : fresh_sleeps P (legacy_reading fd lock).
Proof. unfold legacy_reading, dvb_frontend_read_legacy_ucblocks. fs. Qed.

Lemma held_fresh P fuel i : fresh_sleeps P (held_stats_thread_main fuel i).
Proof.
  assert (Hn : forall fuel fd, sleeps (held_stats_loop fuel i fd) = None) by by intros [|n] fd.
  unfold held_stats_thread_main. apply fresh_bind; [apply fresh_sect|intros fd; destruct (_ <=? _); [apply Hn|done]|]. intros fd.
  destruct (_ <=? _); [|exact I]. induction fuel as [|fuel IH]; [exact I|]. cbn [held_stats_loop].
  fs; first [exact IH|apply read_stats_fresh|apply legacy_fresh|apply Hn|idtac].
  destruct (_ <? _); [|done]. unfold legacy_reading. by destruct (has_lock _).
Qed.

Lemma stats_fresh P fuel s ffd : fresh_sleeps P (stats_thread_main fuel s ffd).
Proof.
  assert (Hn : forall fuel, sleeps (stats_thread_main fuel s ffd) = None) by by intros [|n].
  induction fuel as [|fuel IH]; [exact I|]. cbn [stats_thread_main].
  fs; first [exact IH|apply read_stats_fresh|apply legacy_fresh|apply Hn|idtac].
  destruct (_ <? _); [|done]. unfold legacy_reading. by destruct (has_lock _).
Qed.

(** The capture thread goes to sleep as it leaves a copying section. *)
Lemma fresh_nap {X} s (g : dvb_stream -> dvb_stream * option (list Z)) (f : option (list Z * nat) -> prog X) :
  (forall st st' d, g st = (st', Some d) -> closing st' = false) ->
  (forall rest s' since, sleeps (f rest) = Some (s', since) -> s' = s /\ exists d, rest = Some (d, since)) ->
  (forall rest, fresh_sleeps (eq s) (f rest)) ->
  fresh_sleeps (eq s) (rest <- stream_sect s (fun _ st => or_sleep (g st)) ;; f rest).
Proof.
  intros Hg Hs Hf e w rest w' sp H. split; [|apply Hf]. intros s' since Hsl. apply Hs in Hsl as (-> & d & ->). split; [done|].
  destruct (w_streams w !! s) as [st|]; [|done]. unfold or_sleep in H. destruct (g st) as [st' o] eqn:E. injection H as Ho <- _.
  destruct o as [d'|]; [|done]. injection Ho as _ Hsince. exists st'. cbn. rewrite lookup_insert_eq. split; [done|].
  split; [lia|]. left. by eapply Hg.
Qed.

Lemma copy_open st st' d data : reader_copy st data = (st', Some d) -> closing st' = false.
Proof.
  unfold reader_copy. destruct (closing st) eqn:E; [done|]. destruct data as [|b data]; [done|].
  destruct (_ =? _)%nat; [by intros [= <- _]|]. cbv zeta. destruct (drop _ _); [done|]. by intros [= <- _].
Qed.

Lemma store_sleeps {X} fuel s rest (f : unit -> prog X) s' since : (forall x, sleeps (f x) = None) ->
  sleeps (bind (reader_store fuel s rest) f) = Some (s', since) -> s' = s /\ exists d, rest = Some (d, since).
Proof.
  intros Hf. rewrite sleeps_bind by done. destruct fuel as [|fuel]; destruct rest as [[d n]|]; try done. intros [= <- <-]. eauto.
Qed.

Lemma store_fresh fuel s rest : fresh_sleeps (eq s) (reader_store fuel s rest).
Proof.
  revert rest. induction fuel as [|fuel IH]; intros [[data since]|]; try exact I. cbn [reader_store]. intros a. split; [done|].
  apply (fresh_nap s (fun st => reader_copy st data)); [by intros st st' d; apply copy_open| |apply IH].
  intros rest s' n H. destruct fuel as [|fuel]; destruct rest as [[d m]|]; try done. injection H as <- <-. eauto.
Qed.

Lemma reader_fresh fuel s dvr : fresh_sleeps (eq s) (reader_thread_main fuel s dvr).
Proof.
  assert (Hn : forall fuel, sleeps (reader_loop fuel s dvr) = None) by by intros [|n].
  unfold reader_thread_main. apply fresh_bind; [|done|intros _; apply fresh_sect].
  induction fuel as [|fuel IH]; [exact I|]. cbn [reader_loop].
  apply fresh_bind; [apply fresh_sect|by intros []|]. intros [|]; [exact I|].
  apply fresh_bind; [apply fresh_env|intros pr; destruct (pr <=? 0); [apply Hn|done]|]. intros pr. destruct (pr <=? 0); [exact IH|].
  apply fresh_bind; [apply fresh_env|intros [e|[|b data]]; [destruct (_ || _); [apply Hn|done]|done|done]|].
  intros [e|[|b data]]; [destruct (_ || _); [exact IH|exact I]|exact I|].
  apply (fresh_nap s (fun st => reader_accept st (b :: data))).
  - intros st st' d. apply copy_open.
  - intros rest s' since. by apply store_sleeps.
  - intros rest. by apply fresh_bind; [apply store_fresh|intros _; apply Hn|].
Qed.

(** ** Where joinable threads are *)

Lemma after_snoc {X B} n (p : prog X) (o : op B) (k : B -> prog X) b :
  after n p (Do o k) -> may_answer anywhere o b -> after (S n) p (k b).
Proof.
  revert p. induction n as [|n IH]; intros p Ha Hb; simpl in Ha.
  - subst p. by exists b.
  - destruct p as [x|B' o' k'|]; [done| |done]. destruct Ha as (b' & Hb' & Ha). exists b'. split; [done|]. by apply (IH (k' b')).
Qed.

Section Joins.
Context (cfg : hdhr_config) (body : thread -> prog unit).

(** A thread that may be joined is in the pool, some operations into its start
    routine. *)
Definition joinable_at (c : Sys.config) : Prop :=
  forall tid j, c_join c !! tid = Some j ->
    exists th p n, joins_as th j /\ c_pool c !! tid = Some p /\ after n (body th) p.

(** A spawned thread is joined as what it is. *)
Lemma cinv_spawn c Rs Ps i X f (k : X -> prog unit) e x w' sp :
  cinv cfg c Rs Ps -> c_pool c !! i = Some (Do (Sect f) k) -> e_tid e = length (c_pool c) ->
  f e (c_world c) = Some (x, w', sp) -> exists R, spawn_ok cfg sp R.
Proof.
  intros Hc Hi He Hf. destruct (cinv_thread _ _ _ _ _ _ Hc Hi) as (R & P & F & HR & _ & Hwp & HF & _).
  pose proof (ci_inv _ _ _ _ Hc) as Hinv. rewrite HF in Hinv. cbn [wp op_ok] in Hwp.
  assert (Hfree : c_join c !! e_tid e = None).
  { destruct (c_join c !! e_tid e) as [jt|] eqn:E; [|done]. pose proof (cinv_join_lt _ _ _ _ _ _ Hc E). lia. }
  specialize (Hwp e _ _ _ Hinv Hfree). rewrite Hf in Hwp. destruct Hwp as (R' & Rs0 & Hs & _). by exists Rs0.
Qed.

(** One thread of the pool goes on. *)
Lemma joinable_update w w' pool jn i B (o : op B) (k : B -> prog unit) b tail :
  joinable_at {| c_world := w; c_pool := pool; c_join := jn |} ->
  pool !! i = Some (Do o k) -> may_answer anywhere o b ->
  joinable_at {| c_world := w'; c_pool := <[i := k b]> pool ++ tail; c_join := jn |}.
Proof.
  intros Hj Hi Hb tid j Ht. destruct (Hj tid j Ht) as (th & p & n & Ha & Hp & Hn). cbn [c_pool] in *.
  pose proof (lookup_lt_Some _ _ _ Hp). exists th. destruct (decide (i = tid)) as [->|Hne].
  - exists (k b), (S n). split; [done|]. split.
    + rewrite lookup_app_l by (by rewrite length_insert). by apply list_lookup_insert_eq.
    + assert (p = Do o k) as -> by congruence. by eapply after_snoc.
  - exists p, n. split; [done|]. split; [|done].
    rewrite lookup_app_l by (by rewrite length_insert). by rewrite list_lookup_insert_ne.
Qed.

Lemma joinable_step c c' Rs Ps : cinv cfg c Rs Ps -> step body c c' -> joinable_at c -> joinable_at c'.
Proof.
  intros Hc Hs Hj. destruct Hs as [w pool jn i X f k e x w' sp Hi He Hf|w pool jn i q k a w' Hi He|w pool jn i tid k Hi Ht _].
  - assert (Hb : may_answer anywhere (Sect f) x) by by exists e, w, w', sp.
    pose proof (joinable_update w w' pool jn i X (Sect f) k x (spawned body sp) Hj Hi Hb) as Hup.
    destruct sp as [[th [j'|]]|]; cbn [join_table]; [|exact Hup|exact Hup].
    destruct (cinv_spawn _ _ _ _ _ _ _ _ _ _ _ Hc Hi He Hf) as (R & _ & _ & Has & _). cbn [sp_thread] in Has.
    intros tid j Ht. cbn [c_join] in Ht. apply lookup_insert_Some in Ht as [[<- <-]|[_ Ht]]; [|by apply Hup].
    exists th, (body th), 0%nat. split; [done|]. split; [|done]. cbn [c_pool].
    rewrite lookup_app_r, length_insert, Nat.sub_diag by (by rewrite length_insert). done.
  - pose proof (joinable_update w w' pool jn i _ (Env q) k a [] Hj Hi I) as Hup. by rewrite app_nil_r in Hup.
  - intros tid' j Hd. cbn [c_join] in Hd. apply lookup_delete_Some in Hd as [_ Hd].
    pose proof (joinable_update w w pool jn i _ (Join tid) k tt [] Hj Hi I) as Hup. rewrite app_nil_r in Hup. by apply Hup.
Qed.

(** The streams a joinable thread sleeps on, and no others: the capture thread's. *)
Definition sleeps_on (j : joinable) (s : nat) : Prop := match j with JReader s' _ => s' = s | _ => False end.

Section Sleepers.
Context (Hbody : forall th j, joins_as th j -> j = JServer \/ (fresh_sleeps (sleeps_on j) (body th) /\ sleeps (body th) = None)).

(** A joinable background thread that sleeps has been signalled since, or its
    stream is not closing. *)
Definition drowsy_at (c : Sys.config) : Prop :=
  forall tid j p, c_join c !! tid = Some j -> c_pool c !! tid = Some p -> j = JServer \/ dozes (sleeps_on j) (c_world c) (sleeps p).

Lemma sleeper_alive c Rs Ps i p s since : cinv cfg c Rs Ps -> c_pool c !! i = Some p -> sleeps p = Some (s, since) ->
  is_Some (w_streams (c_world c) !! s).
Proof using Type.
  intros Hc Hi Hs. destruct (cinv_thread _ _ _ _ _ _ Hc Hi) as (R & P & F & _ & _ & Hwp & HF & _).
  pose proof (ci_inv _ _ _ _ Hc) as Hinv. rewrite HF in Hinv.
  destruct p as [x|B o k|]; [done| |done]. destruct o as [X f|q|tid]; [done| |done]. destruct q; try done. destruct c0; try done.
  injection Hs as -> ->. destruct Hwp as [Hl _]. by eapply live_stream.
Qed.

(** A thread that goes on sleeping. *)
Lemma dozes_on c c' Rs Ps i p P : cinv cfg c' Rs Ps -> guarantee (c_world c) (c_world c') -> c_pool c' !! i = Some p ->
  dozes P (c_world c) (sleeps p) -> dozes P (c_world c') (sleeps p).
Proof using Type.
  intros Hc Hg Hi Hd s since Hs. destruct (Hd s since Hs) as (HP & st & Hst & Hle & Hcl). split; [done|].
  destruct (sleeper_alive _ _ _ _ _ _ _ Hc Hi Hs) as [st' Hst']. exists st'. split; [done|].
  destruct (g_wakes _ _ Hg s st st' Hst Hst') as (H1 & _ & _ & _ & H5). split; [lia|].
  destruct (closing st') eqn:E; [right|by left]. destruct (H5 eq_refl) as [H|H]; [|lia]. destruct Hcl as [Hcl|Hcl]; [congruence|lia].
Qed.

Lemma drowsy_step c c' Rs Ps Rs' Ps' : cinv cfg c Rs Ps -> cinv cfg c' Rs' Ps' -> step body c c' -> guarantee (c_world c) (c_world c') ->
  joinable_at c -> drowsy_at c -> drowsy_at c'.
Proof using Hbody.
  intros Hc Hc' Hs Hg Hj Hd.
  (* the thread that makes the step *)
  assert (Hown : forall tid j B (o : op B) k, c_join c !! tid = Some j -> c_pool c !! tid = Some (Do o k) ->
    j = JServer \/ fresh_sleeps (sleeps_on j) (Do o k)).
  { intros tid j B o k Ht Hp. destruct (Hj tid j Ht) as (th & p & n & Has & Hp' & Hn). assert (p = Do o k) as -> by congruence.
    destruct (Hbody th j Has) as [->|[Hf _]]; [by left|right]. by eapply fresh_after. }
  destruct Hs as [w pool jn i X f k e x w' sp Hi He Hf|w pool jn i q k a w' Hi He|w pool jn i tid0 k Hi Ht0 _];
    intros tid j p Ht Hp; cbn [c_pool c_join c_world] in *.
  - destruct (decide (tid = length pool)) as [->|Hne].
    + rewrite lookup_app_r, length_insert, Nat.sub_diag in Hp by (by rewrite length_insert).
      destruct sp as [[th [j'|]]|]; [| |done]; cbn in Hp; injection Hp as <-.
      * cbn [join_table] in Ht. rewrite lookup_insert_eq in Ht. injection Ht as ->.
        destruct (cinv_spawn _ _ _ _ _ _ _ _ _ _ _ Hc Hi He Hf) as (R & _ & _ & Has & _). cbn [sp_thread] in Has.
        destruct (Hbody th j Has) as [->|[_ Hn]]; [by left|right]. rewrite Hn. apply dozes_none.
      * cbn [join_table] in Ht. destruct (Hj _ _ Ht) as (th' & p & n & _ & Hp & _). apply lookup_lt_Some in Hp. cbn in Hp. lia.
    + assert (Ht' : jn !! tid = Some j).
      { destruct sp as [[th [j'|]]|]; cbn [join_table] in Ht; [|done..]. by rewrite lookup_insert_ne in Ht by done. }
      assert (Hlt : (tid < length pool)%nat).
      { destruct (Hj _ _ Ht') as (th' & p' & n & _ & Hp' & _). by apply lookup_lt_Some in Hp'. }
      destruct (decide (tid = i)) as [->|Hni].
      * rewrite lookup_app_l, list_lookup_insert_eq in Hp by (by rewrite ?length_insert). injection Hp as <-.
        destruct (Hown i j _ _ _ Ht' Hi) as [->|Hfr]; [by left|right]. by eapply Hfr.
      * assert (Hp0 : pool !! tid = Some p) by (rewrite lookup_app_l, list_lookup_insert_ne in Hp by (by rewrite ?length_insert); done).
        destruct (Hd tid j p Ht' Hp0) as [->|Hdz]; [by left|right]. exact (dozes_on (Build_config w pool jn) _ _ _ tid p _ Hc' Hg Hp Hdz).
  - destruct (decide (tid = i)) as [->|Hni].
    + rewrite list_lookup_insert_eq in Hp by by eapply lookup_lt_Some. injection Hp as <-.
      destruct (Hown i j _ _ _ Ht Hi) as [->|Hfr]; [by left|right]. destruct (Hfr a) as [-> _]. apply dozes_none.
    + pose proof Hp as Hp0. rewrite list_lookup_insert_ne in Hp0 by done.
      destruct (Hd tid j p Ht Hp0) as [->|Hdz]; [by left|right]. exact (dozes_on (Build_config w pool jn) _ _ _ tid p _ Hc' Hg Hp Hdz).
  - apply lookup_delete_Some in Ht as [_ Ht]. destruct (decide (tid = i)) as [->|Hni].
    + rewrite list_lookup_insert_eq in Hp by by eapply lookup_lt_Some. injection Hp as <-.
      destruct (Hown i j _ _ _ Ht Hi) as [->|Hfr]; [by left|right]. destruct (Hfr tt) as [-> _]. apply dozes_none.
    + pose proof Hp as Hp0. rewrite list_lookup_insert_ne in Hp0 by done.
      destruct (Hd tid j p Ht Hp0) as [->|Hdz]; [by left|right]. exact (dozes_on (Build_config w pool jn) _ _ _ tid p _ Hc' Hg Hp Hdz).
Qed.

Lemma reachable_joinable c0 c Rs Ps :
  daemon_ok cfg body -> cinv cfg c0 Rs Ps -> c_join c0 = ∅ -> reachable body c0 c ->
  joinable_at c /\ drowsy_at c /\ exists Rs' Ps', cinv cfg c Rs' Ps'.
Proof using Hbody.
  intros Hd Hc H0 Hr. induction Hr as [|c c' _ (IHj & IHd & Rs' & Ps' & IH) Hs].
  - split; [|split; [|by exists Rs, Ps]]; [intros tid j Ht|intros tid j p Ht]; by rewrite H0, lookup_empty in Ht.
  - destruct (step_inv cfg body c c' Rs' Ps' Hd IH Hs) as (Hg & Rs2 & Ps2 & Hc'). split; [exact (joinable_step _ _ _ _ IH Hs IHj)|].
    split; [|eauto]. by eapply (drowsy_step c c').
Qed.
End Sleepers.

(** ** Who waits *)

(** The thread joined as [j] has been asked to stop; nobody asks a server. *)
Definition asked_to_stop (j : joinable) (w : world) : Prop :=
  match j with
  | JReader s _ => stream_closing s w
  | JStats s _ => stats_stopping s w
  | JHeld i _ => hold_stopping i w
  | JServer => False
  end.

Lemma closing_stream w jn R s d : winv cfg w jn R -> TStr s Closing d ∈ R -> stream_closing s w.
Proof.
  intros Hw Hin. destruct (str_info cfg w jn R s Closing d Hw Hin) as (st & Hs & Hp & _). exists st. split; [done|].
  unfold stream_phase in Hp. by destruct (closing st), (opened st).
Qed.

Lemma ready_asked w jn R tid j : winv cfg w jn R -> join_ready tid j R -> j = JServer \/ asked_to_stop j w.
Proof.
  intros Hw Hr. destruct j as [s fd|s fd|i fd|]; simpl in Hr |- *; [right..|by left].
  - destruct Hr as [d Hr]. by eapply closing_stream.
  - destruct Hr as [d Hr]. destruct (closing_stream _ _ _ _ _ Hw Hr) as (st & Hs & Hc). exists st. split; [done|].
    by rewrite Hc, orb_true_r.
  - pose proof (winv_exists _ _ _ _ _ Hw Hr) as Hx. simpl in Hx. apply bool_decide_eq_true_1 in Hx.
    destruct (w_tuners w !! i) as [t|] eqn:Et; [|done]. simpl in Hx. exists t. split; [done|].
    unfold refresher_of in Hx. destruct (held_stats_thread_started t); congruence.
Qed.

(** A thread that waits has the only right to join, and the request has been made. *)
Lemma cinv_waiter c Rs Ps i tid (k : unit -> prog unit) :
  cinv cfg c Rs Ps -> c_pool c !! i = Some (Do (Join tid) k) ->
  exists j R, c_join c !! tid = Some j /\ (j = JServer \/ asked_to_stop j (c_world c)) /\ Rs !! i = Some R /\ TJoin tid j ∈ R.
Proof.
  intros Hc Hi. destruct (cinv_thread _ _ _ _ _ _ Hc Hi) as (R & P & F & HR & _ & Hwp & HF & _).
  pose proof (ci_inv _ _ _ _ Hc) as Hinv. rewrite HF in Hinv.
  cbn [wp op_ok] in Hwp. destruct Hwp as (j & R' & -> & Hr & _). exists j, (R' ⊎ {[+ TJoin tid j +]}).
  pose proof (winv_exists _ _ _ _ (TJoin tid j) Hinv ltac:(multiset_solver)) as Hx. simpl in Hx. apply bool_decide_eq_true_1 in Hx.
  split; [done|]. split; [|split; [done|multiset_solver]].
  eapply ready_asked; [exact Hinv|]. by do 2 apply join_ready_frame.
Qed.

Lemma one_waiter c Rs Ps i i' tid (k k' : unit -> prog unit) :
  cinv cfg c Rs Ps -> c_pool c !! i = Some (Do (Join tid) k) -> c_pool c !! i' = Some (Do (Join tid) k') -> i' = i.
Proof.
  intros Hc Hi Hi'. destruct (decide (i' = i)) as [|Hne]; [done|exfalso].
  destruct (cinv_waiter _ _ _ _ _ _ Hc Hi) as (j & R & Hj & _ & HR & Hin).
  destruct (cinv_waiter _ _ _ _ _ _ Hc Hi') as (j' & R' & Hj' & _ & HR' & Hin'). assert (j' = j) as -> by congruence.
  pose proof (msum_two Rs i' i R' R HR' HR Hne) as Hs. pose proof (winv_once _ _ _ _ (TJoin tid j) (ci_inv _ _ _ _ Hc)) as H1.
  apply mult_pos in Hin, Hin'. specialize (Hs (TJoin tid j)). rewrite multiplicity_disj_union in Hs. lia.
Qed.
End Joins.

(** Every joined background thread waits for nobody and obeys a stop request. *)
Lemma background_obeys cfg fuel th j n p : joins_as th j -> after n (body cfg fuel th) p ->
  j = JServer \/ (never_joins p /\ ((n < fuel)%nat -> ends_in (asked_to_stop j) 7 p)).
Proof.
  intros Ha Hn. destruct th as [i| | | |s dvr|s ffd| | | | | | |]; simpl in Ha; try done; try (by left); right.
  - destruct Ha as [fd ->]. split; [eapply never_joins_after; [apply held_never_joins|exact Hn]|]. intros Hf.
    eapply obeys_after; [by apply (held_main_obeys fuel n i)|reflexivity|exact Hn].
  - subst j. split; [eapply never_joins_after; [apply reader_never_joins|exact Hn]|]. intros Hf. apply (ends_le _ 5); [lia|].
    eapply obeys_after; [by apply (reader_obeys fuel n s dvr)|reflexivity|exact Hn].
  - subst j. split; [eapply never_joins_after; [apply stats_never_joins|exact Hn]|]. intros Hf. apply (ends_le _ 6); [lia|].
    eapply obeys_after; [by apply (stats_obeys fuel n s ffd)|reflexivity|exact Hn].
Qed.

(** The bodies of the daemon sleep as they should. *)
Lemma body_fresh cfg fuel th j : joins_as th j ->
  j = JServer \/ (fresh_sleeps (sleeps_on j) (body cfg fuel th) /\ sleeps (body cfg fuel th) = None).
Proof.
  intros Ha. destruct th as [i| | | |s dvr|s ffd| | | | | | |]; simpl in Ha; try done; try (by left); right.
  - destruct Ha as [fd ->]. split; [apply held_fresh|done].
  - subst j. split; [apply reader_fresh|]. by destruct fuel.
  - subst j. split; [apply stats_fresh|]. by destruct fuel.
Qed.

(** A thread that sleeps on [not_full] has been signalled since. *)
Definition woken (w : world) (p : prog unit) : Prop :=
  forall s since, sleeps p = Some (s, since) -> exists st, w_streams w !! s = Some st /\ (since < not_full_wakes st)%nat.

(** Whoever closes a stream has woken its capture thread. *)
Lemma asked_woken j w p : asked_to_stop j w -> dozes (sleeps_on j) w (sleeps p) -> woken w p.
Proof.
  intros Ha Hd s since Hs. destruct (Hd s since Hs) as (Hj & st & Hst & _ & Hcl). exists st. split; [done|].
  destruct j as [s' fd| | |]; simpl in Hj; try done. subst s'. destruct Ha as (st' & Hst' & Hc). assert (st' = st) as -> by congruence.
  destruct Hcl as [Hcl|Hcl]; [congruence|done].
Qed.

(** Claim C6: joining a background thread cannot deadlock.  In every reachable
    state, a thread that waits in [pthread_join] is the only one to wait for that
    thread.  The joined thread is one of the servers (which [main] waits for and
    nobody asks to stop), or it is a stream's capture or statistics thread or a
    hold's refresher; then it has been asked to stop, it waits for no thread at any
    later point, if it sleeps on the condition variable of its stream it has been
    signalled since it went to sleep, and it ends within seven of its own
    operations, whatever the devices answer and wherever its execution is. *)
Theorem joins_return (args : list string) (now pid : Z) (files : gmap string string)
    (cfg : hdhr_config) (fuel : nat) (c : Sys.config) (waiter tid : nat) (k : unit -> prog unit) :
  main args now pid files = Running cfg -> reachable (body cfg fuel) (initial cfg files) c ->
  c_pool c !! waiter = Some (Do (Join tid) k) ->
  exists j p, c_join c !! tid = Some j /\ c_pool c !! tid = Some p /\
    (forall waiter' k', c_pool c !! waiter' = Some (Do (Join tid) k') -> waiter' = waiter) /\
    (j = JServer \/
     (asked_to_stop j (c_world c) /\ never_joins p /\ woken (c_world c) p /\
      exists th n, joins_as th j /\ after n (body cfg fuel th) p /\
        ((n < fuel)%nat -> ends_in (asked_to_stop j) 7 p))).
Proof.
  intros Hok%main_running_ok Hr Hw. pose proof (main_cinv cfg Hok files) as Hi.
  destruct (reachable_joinable cfg _ (body_fresh cfg fuel) _ _ _ _ (daemon_verified cfg fuel Hok) Hi eq_refl Hr) as (Hj & Hdz & Rs & Ps & Hc).
  destruct (cinv_waiter _ _ _ _ _ _ _ Hc Hw) as (j & R & Ht & Hask & _ & _). destruct (Hj tid j Ht) as (th & p & n & Has & Hp & Hn).
  exists j, p. split; [done|]. split; [done|]. split; [intros; by eapply one_waiter|].
  destruct Hask as [->|Hask]; [by left|]. destruct (background_obeys _ _ _ _ _ _ Has Hn) as [->|[Hnj He]]; [by left|right].
  split; [done|]. split; [done|]. split; [|by exists th, n].
  destruct (Hdz tid j p Ht Hp) as [->|Hd]; [done|]. by eapply asked_woken.
Qed.

(** ** The request of [Daemon]'s sample run waits for the refresher *)

(** The thread that thread [i] waits for. *)
Definition waits_for (c : Sys.config) (i : nat) : option nat :=
  match c_pool c !! i with Some (Do (Join tid) _) => Some tid | _ => None end.

Lemma waits_for_spec c i tid : waits_for c i = Some tid -> exists k, c_pool c !! i = Some (Do (Join tid) k).
Proof.
  unfold waits_for. destruct (c_pool c !! i) as [p|]; [|done]. destruct p as [x|B o k|]; [done| |done].
  destruct o; [done..|]. intros [= ->]. by exists k.
Qed.

Lemma sample_state_waits : waits_for sample_state 4 = Some 5%nat /\ c_join sample_state !! 5%nat = Some (JHeld 0 7).
Proof. split; vm_compute; reflexivity. Qed.

Lemma joins_return_witness :
  exists p, c_pool sample_state !! 5%nat = Some p /\ never_joins p /\ hold_stopping 0 (c_world sample_state).
Proof.
  destruct sample_state_waits as [Hw Hj]. destruct (waits_for_spec _ _ _ Hw) as [k Hk].
  destruct (joins_return [] 1 77 sample_files sample_cfg 9 sample_state 4 5 k sample_main sample_state_reachable Hk)
    as (j & p & Hj' & Hp & _ & Hr).
  rewrite Hj in Hj'. injection Hj' as <-. destruct Hr as [Hr|(Ha & Hn & _)]; [discriminate|].
  exists p. split; [exact Hp|]. split; [exact Hn|exact Ha].
Defined.
