(* ===== verification/Contract.v ===== *)
(** What the running daemon promises about its shared objects.

    Every step of every thread keeps the [guarantee] of [Life].  Hence the tuners
    follow their life cycle and the streams theirs, and a pointer into the channel
    table stays good: the code hands such pointers out of the table's lock and reads
    through them at any time later. *)
From stdpp Require Import gmultiset.
From S2P Require Import Prelude RecordUpd CLib ChannelDb Config Stats Ring Tuner Sys Life Own Rules Exec Sched Push Daemon.

Section Contract.
Context (cfg : hdhr_config) (fuel : nat) (files : gmap string string) (Hcfg : config_ok cfg).
Local Notation body := (body cfg fuel).
Local Notation initial := (initial cfg files).

Lemma reachable_cinv c : reachable body initial c -> exists Rs Ps, cinv cfg c Rs Ps.
Proof using Hcfg.
  intros Hr. by apply (reachable_inv cfg _ _ _ _ _ (daemon_verified cfg fuel Hcfg) (main_cinv cfg Hcfg files) Hr).
Qed.

Lemma step_guarantee c c' : reachable body initial c -> step body c c' -> guarantee (c_world c) (c_world c').
Proof using Hcfg.
  intros (Rs & Ps & Hc)%reachable_cinv Hs. by apply (step_inv cfg body _ _ Rs Ps (daemon_verified cfg fuel Hcfg) Hc).
Qed.

Lemma reachable_world c : reachable body initial c -> world_ok cfg (c_world c).
Proof using Hcfg. intros (Rs & Ps & Hc)%reachable_cinv. eapply winv_ok, (ci_inv _ _ _ _ Hc). Qed.

(** The fields of a tuner never contradict each other. *)
Lemma reachable_life c i t : reachable body initial c -> w_tuners (c_world c) !! i = Some t -> is_Some (life_of t).
Proof using Hcfg.
  intros Hr. revert i t. induction Hr as [|c c' Hr IH Hs]; intros i t Ht.
  - cbn in Ht. unfold tuner_pool_init in Ht. apply list_lookup_fmap_Some in Ht as (n & -> & _). by eexists.
  - assert (Hr' : reachable body initial c') by by eapply reach_step.
    pose proof (wok_count _ _ (reachable_world c Hr)). pose proof (wok_count _ _ (reachable_world c' Hr')).
    destruct (lookup_lt_is_Some_2 (w_tuners (c_world c)) i) as [t0 Ht0]; [apply lookup_lt_Some in Ht; lia|].
    destruct (IH i t0 Ht0) as [l Hl].
    destruct (g_tuner _ _ (step_guarantee c c' Hr Hs) i t0 t Ht0 Ht l Hl) as (l' & -> & _). by eexists.
Qed.

(** A streaming tuner streams from a stream that is open. *)
Lemma streaming_open c i t s : reachable body initial c -> w_tuners (c_world c) !! i = Some t ->
  active_stream t = Some s -> stream_phase <$> w_streams (c_world c) !! s = Some Open.
Proof using Hcfg.
  intros (Rs & Ps & Hc)%reachable_cinv Ht Ha. pose proof (ci_inv _ _ _ _ Hc) as Hw.
  pose proof (toks_exist cfg _ _ _ (TStr s Open (tuner_dev t)) Hw) as Hx. simpl in Hx.
  pose proof (tuner_res_in _ _ _ Ht) as Hs. unfold tuner_res in Hs. rewrite Ha in Hs.
  specialize (Hx ltac:(multiset_solver)). apply bool_decide_eq_true_1 in Hx.
  destruct (w_streams (c_world c) !! s) as [st|]; [|done]. simpl in *. congruence.
Qed.

(** The table over a longer execution. *)
Lemma table_grows_on c c' : reachable body initial c -> reachable body c c' ->
  table_grows (w_db (c_world c)) (w_db (c_world c')) /\ reachable body initial c'.
Proof using Hcfg.
  intros Hr Hr'. induction Hr' as [|c1 c2 _ [IH1 IH2] Hs]; [done|]. split; [|by eapply reach_step].
  etrans; [exact IH1|]. by apply step_guarantee.
Qed.
End Contract.

(** Claim C7: the tuners and the streams follow their life cycles.  In every
    interleaving of all threads, every tuner is in one of six states: idle; parked or
    held, with a frontend kept open; claimed, with or without a hold; or streaming
    from an open stream.  Every step of the daemon leaves it there or takes one
    transition of [life_step], so that a frontend is parked only by its claimant, no
    tuner starts to stream but from a claim, and claiming takes a kept frontend
    away.  Each stream is opened, open, closing and freed in this order. *)
Theorem life_cycles (args : list string) (now pid : Z) (files : gmap string string)
    (cfg : hdhr_config) (fuel : nat) (c c' : Sys.config) :
  main args now pid files = Running cfg -> reachable (body cfg fuel) (initial cfg files) c -> step (body cfg fuel) c c' ->
  (forall i t t', w_tuners (c_world c) !! i = Some t -> w_tuners (c_world c') !! i = Some t' ->
     exists l l', life_of t = Some l /\ life_of t' = Some l' /\ (l' = l \/ life_step l l') /\
       (forall s, l = Streaming s -> stream_phase <$> w_streams (c_world c) !! s = Some Open)) /\
  (forall s, stream_moves (stream_phase <$> w_streams (c_world c) !! s) (stream_phase <$> w_streams (c_world c') !! s)).
Proof.
  intros Hok%main_running_ok Hr Hs. pose proof (step_guarantee cfg fuel files Hok c c' Hr Hs) as [Ht Hst _ _].
  split; [|done]. intros i t t' Hi Hi'. destruct (reachable_life cfg fuel files Hok c i t Hr Hi) as [l Hl].
  destruct (Ht i t t' Hi Hi' l Hl) as (l' & Hl' & Hm). exists l, l'. split; [done|]. split; [done|]. split; [done|].
  intros s ->. apply (streaming_open cfg fuel files Hok c i t s Hr Hi). unfold life_of in Hl.
  destruct (busy t), (active_stream t), (slot (held_fd t)), (slot (parked_fd t)); congruence.
Qed.

(** Claim C8: pointers into the channel table stay good.  A pointer that a lookup of
    a channel number gave at some time, in any thread, is at every later time the
    pointer that the same lookup gives, and what it points to is a channel of that
    number: a running daemon, whatever it scans, never empties the table or moves a
    channel. *)
Theorem table_pointers_stable (args : list string) (now pid : Z) (files : gmap string string)
    (cfg : hdhr_config) (fuel : nat) (c c' : Sys.config) (ma mi : Z) (p : chan_ptr) :
  main args now pid files = Running cfg -> reachable (body cfg fuel) (initial cfg files) c ->
  reachable (body cfg fuel) c c' ->
  find_ptr ma mi (w_db (c_world c)) = Some p ->
  exists p', find_ptr ma mi (w_db (c_world c')) = Some p' /\ cp_slot p' = cp_slot p /\
    deref p (w_db (c_world c')) = cp_seen p' /\ key (cp_seen p') = (ma, mi).
Proof.
  intros Hok%main_running_ok Hr Hr' Hp. destruct (table_grows_on cfg fuel files Hok c c' Hr Hr') as [Hg Hrc].
  pose proof (wok_db _ _ (reachable_world cfg fuel files Hok c Hr)) as [Hd _].
  pose proof (wok_db _ _ (reachable_world cfg fuel files Hok c' Hrc)) as [Hd' _].
  unfold find_ptr in Hp. destruct (dvb_find_channel (w_db (c_world c)) ma mi) as [j|] eqn:Hf; [|done]. simpl in Hp.
  apply find_slot_spec in Hf as (ch & Hj & Hk); [|done]. unfold slot_ptr in Hp. rewrite Hj in Hp. injection Hp as <-.
  destruct (Hg j ch Hj) as (ch' & Hj' & Hk'). exists {| cp_slot := j; cp_seen := ch' |}.
  assert (Hf' : dvb_find_channel (w_db (c_world c')) ma mi = Some j).
  { apply find_slot_spec; [done|]. exists ch'. split; [done|congruence]. }
  unfold find_ptr, slot_ptr, deref. rewrite Hf'. cbn [mbind option_bind cp_slot cp_seen]. rewrite Hj'.
  split; [done|]. split; [done|]. split; [done|congruence].
Qed.

(** ** The sample run: the client's first request opens a hold *)

Definition before : Sys.config * list (list Z) :=
  schedule working (fun _ => calm time0) (body sample_cfg 9) [(0, 3); (2, 7); (4, 11)]%nat
    (initial sample_cfg sample_files) sample_requests.
Definition after_hold : Sys.config :=
  match turn working (fun _ => calm time0) (body sample_cfg 9) 4 before.1 before.2 with Some (c, _) => c | None => before.1 end.

Lemma can_go_on :
  match turn working (fun _ => calm time0) (body sample_cfg 9) 4 before.1 before.2 with Some _ => true | None => false end = true.
Proof. vm_compute. reflexivity. Qed.

Lemma after_hold_step : step (body sample_cfg 9) before.1 after_hold.
Proof.
  pose proof can_go_on as H. unfold after_hold. destruct (turn _ _ _ 4 _ _) as [[c s]|] eqn:E; [by eapply turn_step|discriminate].
Qed.

(** The first tuner goes from idle to held. *)
Definition first_life (c : Sys.config) : option life := w_tuners (c_world c) !! 0%nat ≫= life_of.
Lemma first_lives : first_life before.1 = Some Idle /\ first_life after_hold = Some (Held 7).
Proof. split; vm_compute; reflexivity. Qed.

Lemma before_reachable : reachable (body sample_cfg 9) (initial sample_cfg sample_files) before.1.
Proof. apply schedule_reachable. apply reach_init. Qed.

Lemma life_cycles_witness :
  exists l l', first_life before.1 = Some l /\ first_life after_hold = Some l' /\ l <> l' /\ life_step l l'.
Proof.
  generalize first_lives before_reachable after_hold_step. generalize before.1 after_hold. intros c c' [H1 H2] Hr Hs.
  unfold first_life in *. destruct (w_tuners (c_world c) !! 0%nat) as [t|] eqn:E1; [|discriminate].
  destruct (w_tuners (c_world c') !! 0%nat) as [t'|] eqn:E2; [|discriminate]. simpl in *.
  destruct (life_cycles [] 1 77 sample_files sample_cfg 9 c c' sample_main Hr Hs) as [H _].
  destruct (H 0%nat t t' E1 E2) as (l & l' & Hl & Hl' & Hm & _). exists l, l'. split; [exact Hl|]. split; [exact Hl'|].
  assert (l <> l') by congruence. split; [done|]. destruct Hm as [Hm|Hm]; [congruence|exact Hm].
Defined.

Lemma table_pointers_stable_witness :
  exists p', find_ptr 7 1 (w_db (c_world sample_state)) = Some p' /\ key (cp_seen p') = (7, 1).
Proof.
  assert (Hp : exists p, find_ptr 7 1 (w_db (initial_world sample_cfg sample_files)) = Some p)
    by (eexists; vm_compute; reflexivity).
  destruct Hp as [p Hp].
  destruct (table_pointers_stable [] 1 77 sample_files sample_cfg 9 (initial sample_cfg sample_files) sample_state 7 1 p
    sample_main (reach_init _ _) sample_state_reachable Hp) as (p' & Hf & _ & _ & Hk).
  exists p'. split; [exact Hf|exact Hk].
Defined.
